(* ===== verification/_CoqProject ===== *)
-Q . S2P
Prelude.v
StateErr.v
GoStrings.v
Regex.v
TaskId.v
Netip.v
IpClass.v
SandboxModel.v
SandboxPolicy.v
Roster.v
Backend.v
Microvm.v
Ceiling.v
SandboxService.v
SandboxSteps.v
SandboxSafety.v
SandboxToy.v
SandboxResults.v
SandboxLapses.v
Allowlist.v
Egress.v
EgressRunner.v
Capability.v
Ledger.v
LandWire.v
Sha256.v
ModelCommit.v
Attest.v
LandVerify.v
DiskTree.v
SyncPlan.v
WorktreeSync.v
SyncResults.v
Projection.v
GitTree.v
TreeDiff.v
GitToy.v
Deliverable.v
CommitStore.v
CommitToy.v
Squash.v
SquashToy.v
Apply.v
Rollback.v
Recovery.v
Merge.v
MergeToy.v
RollbackToy.v
LandChain.v
LandPipeline.v
LandSafety.v
LandResults.v
