(* ===== verification/Prelude.v ===== *)
(** * mgit: a verification development

    mgit keeps the work of coding agents: small commits on task branches in a git
    store of its own, an append-only ledger of which commit belongs to which task,
    and sandboxes (microVMs) in which agents run and from which their commits are
    landed on the host. This development models the Go code that decides what may
    be recorded, published, merged, undone, launched and reached, and proves what
    it promises. File names without a root below are under [src/internal].

    ** The parts and how they meet

    A sandbox is registered for a task and booted by the sandbox service
    ([service/sandbox*.go]) through the backend interface ([model.SandboxManager]),
    whose implementations here are the microVM manager and the resource ceiling
    around it. Its host-side controls are opened with it: the egress runner decides
    every flow and name the guest asks for, and the capability service turns a
    denial into an audited grant. Files of the host's worktree are delivered into
    the guest by the synchronizer. A guest's commits come back as a stream of git
    objects: the decoder bounds it, the land verification binds each commit to its
    bytes and its tree, the chain orders them, and the pipeline imports, records
    them in the ledger as undelivered, publishes the tip into the host's worktree
    and, when that reads back, records the delivery. From then on they are content:
    the version control verbs (commit, squash, merge, rollback, cherry-pick) read
    the ledger's content and write the git store, each moving a branch by
    compare-and-set and the worktree through the same disk operations.

    ** Files

    Shared: [Prelude] (errors as values, tactics, lists, machine integers, maps
    ranged over in any order), [StateErr] (the state and error monad the verbs are
    written in, its frame and run rules), [GoStrings], [Regex], [Sha256], [Netip]
    (the parts of Go's library the source leans on).

    - [TaskId]: [model/taskid.go]. The grammar of ids and their tree.
    - [SandboxModel], [SandboxPolicy]: the records of [model/sandbox*.go],
      [egress.go], [guest_identity.go] and their [Validate] methods.
    - [Roster]: the table of registrations ([store/index/sandboxes.go]).
    - [Backend]: the class [SandboxManager] and the laws [ManagerLaws] the service
      is proved against; [Microvm] ([sandboxd/backend/microvm/manager.go]) and
      [Ceiling] ([sandboxd/ceiling.go]) are its instances.
    - [SandboxService], [SandboxSteps], [SandboxSafety], [SandboxToy],
      [SandboxResults], [SandboxLapses]: the service. [Service] is the Go struct
      with its registrations behind addresses; each stretch of code between two
      acquisitions of the lock is one function, and [SandboxSteps.Step] interleaves
      them. [SandboxSafety] has the invariant, [SandboxResults] what a life comes
      to, [SandboxLapses] the ways a failed teardown goes wrong.
    - [IpClass], [Allowlist], [Egress], [EgressRunner]: [sandboxd/egress]. Name and
      address decisions, the resolver with its pins and limits, the authorizers,
      the runner and live policy changes; [op] is the alphabet of one engine.
    - [Capability]: [service/capability.go] against the class [EgressGranter].
    - [Ledger]: [store/index/task_commits.go] and [content_admission.go] over the
      tables; [abs] maps them to the abstract ledger they implement.
    - [LandWire], [ModelCommit], [Attest], [LandVerify], [LandChain],
      [LandPipeline], [LandSafety], [LandResults]: [landwire], [sandboxd/land],
      [sandboxd/attest], [service/land_*.go] and their wiring. [World] is what the
      host keeps, [Env] what a land meets.
    - [DiskTree]: a disk with directories, files and links, and the system calls
      on it; [SyncPlan], [WorktreeSync], [SyncResults]: [sandboxd/worktreesync];
      [Projection]: [store/git/merge_delivered.go] and the worktree functions
      below it.
    - [GitTree]: [store/git/plumbing.go], writing trees and commits, against the
      class [GitWriter]; [TreeDiff]: [store/git/diff.go] against the class
      [TreeDiffer]; [GitToy]: an instance of both with its laws proved.
    - [CommitStore]: status, staging, commit and checkout ([store/git/commit.go],
      [staging*.go], [worktree*.go], [generated_block.go]). [VcState] is the objects
      with the references, disk and staging set of [Projection.Repo].
    - [Squash]: [store/git/squash.go], [service/squash.go], [service/tasktag.go].
    - [Deliverable], [Merge]: [service/deliverable_history.go],
      [store/git/merge.go], [service/merge.go].
    - [Apply], [Rollback], [Recovery]: [store/git/commit_from_diffs.go], [apply_fs.go],
      [apply_journal.go], [service/rollback.go], [cherrypick.go],
      [apply_recovery.go].
    - [CommitToy], [SquashToy], [MergeToy], [RollbackToy]: the theorems of these at
      concrete repositories.

    ** What the theorems show

    Landing: a land is all-or-nothing and the ledger gains only verified rows
    ([landOnce_atomic], [landOnce_records]); what it reports as landed is on disk
    and is content ([land_delivers]); decoder and writer round trip and the bounds
    are exact ([WriteFrames_DecodeObjects], [DecodeObjects_exact]); the claimed
    diffs are the diffs ([VerifyTreeBinding_patch]); derivation implies
    verification; the chain is the chain in any map order. The ledger refines an
    abstract ledger with monotone statuses ([ledger_refines]).

    Publishing and synchronizing: host work is never overwritten where no path lies
    below a link of the new tree ([projection_keeps_host_work]; without that,
    [projection_follows_link]), the read-back accepts exactly what was published, a
    synchronization is the three-way merge, but for the paths the guest deleted
    ([Compute_three_way], [Sync_delivers]), and settles where names are UTF-8
    ([sync_settles]).

    Version control: what is written reads back ([write_read_tree]); [commit -a]
    records the working tree where every path is plain ([commit_all_records]); a
    commit moves its branch by compare-and-set ([CreateCommit_cas]); a squash is the
    task's net change ([SquashTask_delivers], [squash_again]); a merge is guarded
    and is the three-way merge, in which contents conflict and modes do not
    ([Merge_guarded], [merge_three_way]); the walk that guards it is exact and ends
    ([requireDeliverableHistory_exact]); a rollback restores what was before the
    task, or refuses where others left other contents ([rollback_restores]).
    An application that would have succeeded, on paths apart from each other and
    spelt in UTF-8, is completed or left alone at the next open wherever it is
    interrupted ([recovery_completes]).

    Sandboxes: nothing runs unaccounted for ([no_orphans]), every boot settles, a
    new daemon recovers what the old one had, the trail accounts for every sandbox
    but those whose registration could write neither row nor end ([trail_accounts]),
    the ceiling holds under concurrency. Egress: a flow is allowed exactly when
    policy, grant or pin permits it, pins come from listed names.

    Where the code does not do what it means to, the theorem says what it does
    ([merge_clash], [link_swap_commits_outside], [squash_merge_drops],
    [dir_to_file_stuck], [squash_clash], [projection_follows_link],
    [multi_commit_land_refused], [sync_escapes] and the theorems of
    [SandboxLapses] among them).

    ** Bounds and fuel

    Integers that can wrap are wrapped at 64 bits ([wrap64]); reservations and
    sizes are compared as the code compares them. [decode_loop] takes as fuel the
    objects the ceilings allow and one more; [follow] one step per commit of the
    chain; [writeNestedTree] one level more than the deepest path; [tag_loop] the
    length of the message, which every turn shortens; [history_walk] one turn per
    recorded parent and one for the tip; [TrimSpace] the length of the string.
    Running out is an error value of its own, and the theorems show it is never
    returned. A Go map range is a function argument ([MapIter]) that lists the map
    in any order, and the theorems hold for all of them.

    ** What is a parameter, and its laws

    go-git: the object hash, the commit decoder and the tree walk ([GoGit]), the
    encoders ([GitWriter]), the tree difference ([TreeDiffer]), ancestry and merge
    bases ([History]). Their laws are that the store is content addressed and
    distinct objects have distinct hashes (an idealization of SHA-1), that what was
    encoded decodes, that a well-named tree walks back to its entries, and that a
    difference lists exactly the paths that differ; [GitToy] proves that they can
    hold. Ed25519 has one law, that a signature verifies under its key; nothing is
    assumed about forging. The hypervisor, the guest's answers, DNS answers, clocks,
    the ignore rules, the staged candidate of a synchronization and the faults of
    the host's disk are arguments. What other processes do to the references
    between a read and the compare-and-set is the function [ve_others].

    ** Granularity

    Errors are values of a type per component; their prose is not kept. A
    transaction of the index is one step that fails or commits. Writing an object,
    setting a reference outside a compare-and-set, and writing the staging file or
    the journal are taken to succeed; the objects a failed tree write leaves behind
    are not tracked. Commits are looked up by full hash. HEAD is attached to the
    branch of the checkout. A new sandbox's id is one the trail does not have, and
    the hypervisor halts what a boot tells it to halt. The disk has directories,
    regular files with one executable bit, and links; permissions other than that
    bit are not modelled.

    ** Not modelled

    The command line, the daemon's sockets, accept loop and routing, and the agent
    inside a guest: parsing, goroutines and system calls around operations modelled
    here. Hypervisor backends, image pulling and caching, staging and export of
    file trees, port publishing and the agent socket: code whose substance is calls
    to the operating system or to other programs. SQL connection handling and the
    tables of branches and worktrees. Linked worktrees, restore, bundles, the
    resync with the user's git, garbage collection, patches and their headers. MCP
    and HTTP adapters, the doctor, scaffolding and documentation. *)

From Stdlib Require Import ZArith Lia Ascii String.
From stdpp Require Export base tactics option list sorting gmap strings.

#[global] Set Default Goal Selector "!".

(** ** Go's error returns

    A Go function returning [(T, error)] is modelled by [res E T]: the value,
    or the error it returned instead. The sentinel a caller can match with
    [errors.Is], and the branch that produced it, are the constructors of the
    error type [E] of each component; the prose of the message is not kept. *)
Inductive res (E A : Type) : Type :=
  | Ok (a : A)
  | Err (e : E).
Arguments Ok {E A} a.
Arguments Err {E A} e.

#[export] Instance res_ret E : MRet (res E) := fun A a => Ok a.
#[export] Instance res_bind E : MBind (res E) := fun A B f m =>
  match m with Ok a => f a | Err e => Err e end.
#[export] Instance res_fmap E : FMap (res E) := fun A B f m =>
  match m with Ok a => Ok (f a) | Err e => Err e end.

#[export] Instance res_eq_dec E A `{EqDecision E, EqDecision A} : EqDecision (res E A).
Proof. solve_decision. Defined.

(** [err_if b e] is the guard [if b { return e }]. *)
Definition err_if {E} (b : bool) (e : E) : res E unit := if b then Err e else Ok tt.

Definition is_ok {E A} (m : res E A) : bool := match m with Ok _ => true | Err _ => false end.

(** [res_map_err] rewraps an error, as [fmt.Errorf("...: %w", err)] does. *)
Definition res_map_err {E F A} (f : E -> F) (m : res E A) : res F A :=
  match m with Ok a => Ok a | Err e => Err (f e) end.

Definition res_of_option {E A} (e : E) (o : option A) : res E A :=
  match o with Some a => Ok a | None => Err e end.

Section ResLemmas.
Context {E : Type}.

Lemma bind_Ok {A B} (m : res E A) (f : A -> res E B) b :
  m ≫= f = Ok b <-> exists a, m = Ok a /\ f a = Ok b.
Proof. destruct m; cbn; naive_solver. Qed.

Lemma bind_Err {A B} (m : res E A) (f : A -> res E B) e :
  m ≫= f = Err e <-> m = Err e \/ exists a, m = Ok a /\ f a = Err e.
Proof. destruct m; cbn; naive_solver. Qed.

(** A guard or a check before the rest of a function. *)
Lemma seq_Ok {B} (m : res E unit) (k : res E B) b :
  (m ≫= fun _ => k) = Ok b <-> m = Ok tt /\ k = Ok b.
Proof. destruct m as [[]|]; cbn; naive_solver. Qed.

Lemma err_if_Ok (b : bool) (e : E) u : err_if b e = Ok u <-> b = false.
Proof. destruct b, u; cbn; naive_solver. Qed.

Lemma err_if_Err (b : bool) (e e' : E) : err_if b e = Err e' <-> b = true /\ e = e'.
Proof. destruct b; cbn; naive_solver. Qed.

Lemma res_map_err_Ok {F A} (f : E -> F) (m : res E A) a :
  res_map_err f m = Ok a <-> m = Ok a.
Proof. destruct m; cbn; naive_solver. Qed.

Lemma res_of_option_Ok {A} (e : E) (o : option A) a :
  res_of_option e o = Ok a <-> o = Some a.
Proof. destruct o; cbn; naive_solver. Qed.

Lemma is_ok_true {A} (m : res E A) : is_ok m = true <-> exists a, m = Ok a.
Proof. destruct m; cbn; naive_solver. Qed.
End ResLemmas.

(** [mapM_res f l] runs [f] over a slice, returning the first error. *)
Fixpoint mapM_res {E A B} (f : A -> res E B) (l : list A) : res E (list B) :=
  match l with
  | [] => Ok []
  | a :: l => b ← f a; bs ← mapM_res f l; Ok (b :: bs)
  end.

(** [forM_ f l] is a [for _, a := range l { if err := f(a); err != nil { return err } }]. *)
Fixpoint forM_ {E A} (f : A -> res E unit) (l : list A) : res E unit :=
  match l with
  | [] => Ok tt
  | a :: l => _ ← f a; forM_ f l
  end.

Lemma forM_Ok {E A} (f : A -> res E unit) (l : list A) u :
  forM_ f l = Ok u <-> Forall (fun a => f a = Ok tt) l.
Proof.
  destruct u. induction l as [|a l IH]; cbn; [naive_solver|].
  rewrite bind_Ok, Forall_cons, <- IH. split.
  - intros ([] & ? & ?); eauto.
  - intros [? ?]; eauto.
Qed.

Lemma mapM_res_Ok {E A B} (f : A -> res E B) (l : list A) bs :
  mapM_res f l = Ok bs <-> Forall2 (fun a b => f a = Ok b) l bs.
Proof.
  revert bs. induction l as [|a l IH]; intros bs; cbn.
  - split; [intros [= <-]; constructor | inversion 1; done].
  - rewrite bind_Ok. setoid_rewrite bind_Ok. setoid_rewrite IH. split.
    + intros (b & ? & bs' & ? & [= <-]). by constructor.
    + inversion 1; subst; eauto 10.
Qed.

(** ** The development's tactics and hints *)

Create HintDb mgit discriminated.
#[export] Hint Resolve Forall_nil_2 Forall_cons_2 : mgit.

(** [inv_res] turns every hypothesis saying that a chain of binds returned
    [Ok] into the facts about its steps. *)
Ltac inv_res :=
  repeat match goal with
  | H : (_ ≫= _) = Ok _ |- _ =>
      apply bind_Ok in H; let a := fresh "r" in let H1 := fresh "Hr" in
      destruct H as (a & H1 & H)
  | H : err_if _ _ = Ok _ |- _ => apply err_if_Ok in H
  | H : res_map_err _ _ = Ok _ |- _ => apply res_map_err_Ok in H
  | H : res_of_option _ _ = Ok _ |- _ => apply res_of_option_Ok in H
  | H : Ok _ = Ok _ |- _ => injection H as H
  | H : Err _ = Ok _ |- _ => discriminate H
  | H : Ok _ = Err _ |- _ => discriminate H
  | u : unit |- _ => destruct u
  end; subst.

(** [split_ifs] case-splits the next [if]/[match] of a hypothesis or the goal. *)
Ltac split_match_in H :=
  match type of H with
  | context [match ?x with _ => _ end] => let E := fresh "E" in destruct x eqn:E
  end.
Ltac split_goal :=
  match goal with
  | |- context [match ?x with _ => _ end] => let E := fresh "E" in destruct x eqn:E
  end.

(** Boolean conditions as propositions. *)
Ltac bool_to_prop :=
  repeat match goal with
  | H : context [bool_decide _ = true] |- _ => rewrite bool_decide_eq_true in H
  | H : context [bool_decide _ = false] |- _ => rewrite bool_decide_eq_false in H
  | H : _ && _ = true |- _ => apply andb_true_iff in H; destruct H
  | H : _ || _ = false |- _ => apply orb_false_iff in H; destruct H
  | H : _ || _ = true |- _ => apply orb_true_iff in H
  | H : _ && _ = false |- _ => apply andb_false_iff in H
  | H : negb _ = true |- _ => apply negb_true_iff in H
  | H : negb _ = false |- _ => apply negb_false_iff in H
  | H : (_ <? _)%Z = true |- _ => apply Z.ltb_lt in H
  | H : (_ <? _)%Z = false |- _ => apply Z.ltb_ge in H
  | H : (_ <=? _)%Z = true |- _ => apply Z.leb_le in H
  | H : (_ <=? _)%Z = false |- _ => apply Z.leb_gt in H
  | H : (_ =? _)%Z = true |- _ => apply Z.eqb_eq in H
  | H : (_ =? _)%Z = false |- _ => apply Z.eqb_neq in H
  | H : (_ =? _)%nat = true |- _ => apply Nat.eqb_eq in H
  | H : (_ =? _)%nat = false |- _ => apply Nat.eqb_neq in H
  | H : (_ <? _)%nat = true |- _ => apply Nat.ltb_lt in H
  | H : (_ <? _)%nat = false |- _ => apply Nat.ltb_ge in H
  | H : (_ <=? _)%nat = true |- _ => apply Nat.leb_le in H
  | H : (_ <=? _)%nat = false |- _ => apply Nat.leb_gt in H
  end.

(** ** Machine integers and time

    Go's [int] and [int64] are 64-bit two's complement: [wrap64] is the value
    an addition or multiplication stores. *)
Definition wrap64 (z : Z) : Z := (z + 2^63) mod 2^64 - 2^63.

Lemma wrap64_small z : (-(2^63) <= z < 2^63)%Z -> wrap64 z = z.
Proof. intros H. unfold wrap64. rewrite Z.mod_small; lia. Qed.

Lemma wrap64_range z : (-(2^63) <= wrap64 z < 2^63)%Z.
Proof. unfold wrap64. pose proof (Z.mod_pos_bound (z + 2^63) (2^64)). lia. Qed.

Lemma wrap64_add_l a b : wrap64 (wrap64 a + b) = wrap64 (a + b).
Proof.
  unfold wrap64. f_equal.
  replace ((a + 2^63) mod 2^64 - 2^63 + b + 2^63)%Z with ((a + 2^63) mod 2^64 + b)%Z by lia.
  rewrite Z.add_mod_idemp_l by lia. f_equal. lia.
Qed.

(** A [time.Time] is the nanoseconds since the zero [Time] (January 1, year 1,
    00:00:00 UTC), so [IsZero] is a comparison with 0. *)
Abbreviation time := Z (only parsing).
(** [t.Sub(u)] saturates at the ends of the 64-bit duration range. *)
Definition time_sub (t u : time) : Z := Z.max (-(2^63)) (Z.min (2^63 - 1) (t - u)).
Definition second_ns : Z := 1000000000.
Definition minute_ns : Z := 60 * second_ns.
Definition hour_ns : Z := 60 * minute_ns.

(** ** Step relations *)
Section Star.
Context {A : Type} (R : A -> A -> Prop).

Inductive star : A -> A -> Prop :=
  | star_refl a : star a a
  | star_step a b c : R a b -> star b c -> star a c.

(** An invariant of the steps holds in every reachable state. *)
Lemma star_inv (P : A -> Prop) :
  (forall a b, P a -> R a b -> P b) -> forall a b, star a b -> P a -> P b.
Proof. intros Hstep a b Hs. induction Hs; eauto. Qed.

Lemma star_trans a b c : star a b -> star b c -> star a c.
Proof. induction 1; eauto using star. Qed.
End Star.

(** ** Lists *)
Lemma Forall_existsb_false {A} (f : A -> bool) l :
  existsb f l = false <-> Forall (fun a => f a = false) l.
Proof.
  induction l as [|a l IH]; cbn; [naive_solver|].
  rewrite orb_false_iff, Forall_cons, IH. done.
Qed.

Lemma existsb_true_elem {A} (f : A -> bool) l :
  existsb f l = true <-> exists a, a ∈ l /\ f a = true.
Proof.
  rewrite existsb_exists. split; intros (a & Ha & Hf); exists a; split; try done;
    by apply list_elem_of_In.
Qed.

(** ** Map ranges *)

(** The order one [range] over a map visits it in: Go leaves it open, so
    every function that ranges takes it as an argument. (As a function of the
    map it may order the two maps of one diff independently.) *)
Record MapIter (A : Type) := mkIter {
  iter :> gmap string A -> list (string * A);
  iter_perm : forall m, iter m ≡ₚ map_to_list m }.
Arguments iter {A}.
Arguments iter_perm {A}.
Definition key_order {A} : MapIter A := mkIter A map_to_list (fun m => Permutation_refl _).
Definition reverse_order {A} : MapIter A :=
  mkIter A (fun m => rev (map_to_list m)) (fun m => symmetry (Permutation_rev _)).

Lemma elem_of_iter {A} (i : MapIter A) m k x : (k, x) ∈ i m <-> m !! k = Some x.
Proof. rewrite iter_perm. apply elem_of_map_to_list. Qed.
Lemma iter_NoDup {A} (i : MapIter A) m : NoDup (i m).*1.
Proof. rewrite iter_perm. apply NoDup_fst_map_to_list. Qed.

(** A range whose body updates a second map at the key it visits: what it leaves
    there does not depend on the order. *)
Lemma iter_fold_lookup {A B} (i : MapIter A) (h : option B -> string * A -> option B)
    (g : gmap string B -> string * A -> gmap string B) (M : gmap string A) acc p :
  (forall m x, g m x !! x.1 = h (m !! x.1) x) -> (forall m x q, q <> x.1 -> g m x !! q = m !! q) ->
  fold_left g (i M) acc !! p = match M !! p with Some a => h (acc !! p) (p, a) | None => acc !! p end.
Proof.
  intros Hh Hg. assert (forall l acc, p ∉ l.*1 -> fold_left g l acc !! p = acc !! p) as Hout.
  { induction l as [|x l IH]; intros m Hp; [done|]. apply not_elem_of_cons in Hp as [Hx Hp].
    cbn [fold_left]. by rewrite IH, Hg. }
  pose proof (iter_NoDup i M) as Hnd. destruct (M !! p) as [a|] eqn:Hp.
  - apply (elem_of_iter i), list_elem_of_split in Hp as (l1 & l2 & Hl). rewrite Hl in *.
    rewrite fmap_app, NoDup_app in Hnd. destruct Hnd as (_ & H1 & Hnd). cbn in Hnd, H1. apply NoDup_cons in Hnd as [H2 _].
    rewrite fold_left_app. cbn [fold_left]. rewrite (Hout l2) by done. rewrite (Hh _ (p, a)).
    rewrite (Hout l1) by (intros Hin; apply (H1 p Hin); by left). done.
  - apply Hout. intros ([k a] & -> & Hin)%list_elem_of_fmap. apply elem_of_iter in Hin. cbn in Hp. congruence.
Qed.

(** [sort.Strings], or [sort.Slice] on a string key. *)
Section SortBy.
Context {A : Type} (key : A -> string).
Definition by_key (x y : A) : Prop := String.le (key x) (key y).
#[export] Instance by_key_dec : RelDecision by_key.
Proof. intros x y. unfold by_key. apply _. Defined.
Definition sort_by (l : list A) : list A := merge_sort by_key l.

Lemma sort_by_perm l : sort_by l ≡ₚ l.
Proof. apply merge_sort_Permutation. Qed.
Lemma elem_of_sort_by x l : x ∈ sort_by l <-> x ∈ l.
Proof. by rewrite sort_by_perm. Qed.
Lemma sort_by_sorted l : StronglySorted by_key (sort_by l).
Proof.
  apply Sorted_StronglySorted.
  - intros a b c. unfold by_key. apply transitivity.
  - apply Sorted_merge_sort. intros a b. unfold by_key. apply (total String.le).
Qed.
(** The result depends on what is in the list, not on the order it was
    collected in. *)
Lemma sort_by_order l l' : l ≡ₚ l' -> NoDup (key <$> l) -> sort_by l = sort_by l'.
Proof.
  intros Hp Hnd. apply (StronglySorted_unique_strong by_key); [|apply sort_by_sorted..|by rewrite !sort_by_perm].
  intros x y. rewrite !elem_of_sort_by, <- Hp. intros Hx Hy Hxy Hyx.
  assert (key x = key y) as Hk by (by apply (anti_symm String.le)).
  apply list_elem_of_lookup in Hx as [i Hi], Hy as [j Hj].
  assert (i = j) as ->; [|congruence].
  eapply (NoDup_lookup (key <$> l)); [done|rewrite list_lookup_fmap, Hi; reflexivity|].
  by rewrite list_lookup_fmap, Hj, Hk.
Qed.
End SortBy.
