(* ===== verification/StateErr.v ===== *)
(** * State and errors

    The monad of the components that thread a shared state through fallible
    calls: a Go method that mutates its receiver and returns [(T, error)] is a
    computation [ST W E T], which leaves the state as the method left it whether
    or not it failed. [run_M] takes a run of a chain of calls apart; [keeps]
    carries a relation between the states before and after through it. *)

From Stdlib Require Import ZArith Lia.
From S2P Require Import Prelude.

Definition ST (W E A : Type) : Type := W -> res E A * W.
#[export] Instance ST_ret W E : MRet (ST W E) := fun A a w => (Ok a, w).
#[export] Instance ST_bind W E : MBind (ST W E) := fun A B f m w =>
  match m w with (Ok a, w) => f a w | (Err e, w) => (Err e, w) end.

Section Operations.
Context {W E : Type}.
Definition lift {A} (r : res E A) : ST W E A := fun w => (r, w).
Definition fail {A} (e : E) : ST W E A := lift (Err e).
Definition get {A} (f : W -> A) : ST W E A := fun w => (Ok (f w), w).
Definition modify (f : W -> W) : ST W E unit := fun w => (Ok tt, f w).
(** [defer]: [d] runs after [m] whatever [m] returned. *)
Definition with_defer {A} (m : ST W E A) (d : W -> W) : ST W E A := fun w =>
  let '(r, w) := m w in (r, d w).
(** [d] runs after [m] failed. *)
Definition on_error {A} (m : ST W E A) (d : W -> W) : ST W E A := fun w =>
  match m w with (Ok a, w) => (Ok a, w) | (Err e, w) => (Err e, d w) end.
(** The outcome of [m] as a value, for a caller that goes on after an error. *)
Definition outcome {A} (m : ST W E A) : ST W E (res E A) := fun w =>
  let '(r, w) := m w in (Ok r, w).
Fixpoint mapM_M {A B} (f : A -> ST W E B) (l : list A) : ST W E (list B) :=
  match l with [] => mret [] | a :: l => b ← f a; bs ← mapM_M f l; mret (b :: bs) end.

(** ** Running *)
Lemma M_bind_Ok {A B} (m : ST W E A) (f : A -> ST W E B) w b w' :
  (m ≫= f) w = (Ok b, w') <-> exists a w1, m w = (Ok a, w1) /\ f a w1 = (Ok b, w').
Proof.
  unfold mbind, ST_bind. destruct (m w) as [[a|e] w1]; [naive_solver|]. naive_solver.
Qed.
Lemma M_bind_Err {A B} (m : ST W E A) (f : A -> ST W E B) w e w' :
  (m ≫= f) w = (Err e, w') <->
  m w = (Err e, w') \/ exists a w1, m w = (Ok a, w1) /\ f a w1 = (Err e, w').
Proof. unfold mbind, ST_bind. destruct (m w) as [[a|e'] w1]; naive_solver. Qed.

Lemma M_bind_run {A B} (m : ST W E A) (f : A -> ST W E B) w r w' :
  (m ≫= f) w = (r, w') ->
  (exists a w1, m w = (Ok a, w1) /\ f a w1 = (r, w')) \/
  (exists e, m w = (Err e, w') /\ r = Err e).
Proof. unfold mbind, ST_bind. destruct (m w) as [[a|e] w1]; [eauto|]. intros [= <- <-]. eauto. Qed.

Lemma lift_eq {A} (r : res E A) (w : W) r' w' : lift r w = (r', w') <-> r = r' /\ w = w'.
Proof. unfold lift. naive_solver. Qed.
Lemma mret_eq {A} (a : A) (w : W) r w' : mret (M:=ST W E) a w = (r, w') <-> Ok a = r /\ w = w'.
Proof. unfold mret, ST_ret. naive_solver. Qed.
Lemma get_eq {A} (f : W -> A) w r w' : get f w = (r, w') <-> Ok (f w) = r /\ w = w'.
Proof. unfold get. naive_solver. Qed.
Lemma modify_eq f (w : W) r w' : modify f w = (r, w') <-> Ok tt = r /\ f w = w'.
Proof. unfold modify. naive_solver. Qed.
Lemma outcome_eq {A} (m : ST W E A) w r w' : outcome m w = (r, w') <->
  exists r', m w = (r', w') /\ r = Ok r'.
Proof. unfold outcome. destruct (m w). naive_solver. Qed.

(** A call that cannot fail, before the rest of a function. *)
Lemma outcome_bind {A B} (m : ST W E A) (f : res E A -> ST W E B) w r w' :
  (outcome m ≫= f) w = (r, w') -> exists r1 w1, m w = (r1, w1) /\ f r1 w1 = (r, w').
Proof. unfold mbind, ST_bind, outcome. destruct (m w) as [r1 w1]. eauto. Qed.
Lemma modify_bind {B} g (f : unit -> ST W E B) w r w' :
  (modify g ≫= f) w = (r, w') -> f tt (g w) = (r, w').
Proof. done. Qed.
Lemma lift_bind {A B} (m : res E A) (f : A -> ST W E B) w r w' :
  (lift m ≫= f) w = (r, w') ->
  (exists a, m = Ok a /\ f a w = (r, w')) \/ (exists e, m = Err e /\ r = Err e /\ w' = w).
Proof. unfold mbind, ST_bind, lift. destruct m; [eauto|]. intros [= <- <-]. eauto. Qed.

Lemma with_defer_run {A} (m : ST W E A) d w r w' : with_defer m d w = (r, w') ->
  exists w1, m w = (r, w1) /\ w' = d w1.
Proof. unfold with_defer. destruct (m w) as [r1 w1]. intros [= <- <-]. by exists w1. Qed.
Lemma on_error_run {A} (m : ST W E A) d w r w' : on_error m d w = (r, w') ->
  (exists a, r = Ok a /\ m w = (Ok a, w')) \/
  (exists e w1, r = Err e /\ m w = (Err e, w1) /\ w' = d w1).
Proof.
  unfold on_error. destruct (m w) as [[a|e] w1]; intros [= <- <-]; [left|right]; eauto 10.
Qed.

(** A computation all of whose runs are related by [R], errors included. *)
Definition keeps {A} (R : W -> W -> Prop) (m : ST W E A) : Prop := forall w, R w (m w).2.
Lemma keeps_run {A} R (m : ST W E A) w r w' : keeps R m -> m w = (r, w') -> R w w'.
Proof. intros Hm Hr. specialize (Hm w). by rewrite Hr in Hm. Qed.
End Operations.

(** [run_M] takes a run of a chain of binds apart, one step at a time. *)
Ltac run_M :=
  repeat match goal with
  | H : (_ ≫= _) _ = (Ok _, _) |- _ =>
      apply M_bind_Ok in H; let a := fresh "a" in let w := fresh "w" in let H1 := fresh "Hr" in
      destruct H as (a & w & H1 & H)
  | H : lift _ _ = (_, _) |- _ => apply lift_eq in H as [H ?]
  | H : mret _ _ = (_, _) |- _ => apply mret_eq in H as [H ?]
  | H : get _ _ = (_, _) |- _ => apply get_eq in H as [H ?]
  | H : modify _ _ = (_, _) |- _ => apply modify_eq in H as [H ?]
  | H : fail _ _ = (_, _) |- _ => apply lift_eq in H as [H ?]
  | H : Ok _ = Ok _ |- _ => injection H as H
  | H : Err _ = Err _ |- _ => injection H as H
  | H : Ok _ = Err _ |- _ => discriminate H
  | H : Err _ = Ok _ |- _ => discriminate H
  | u : unit |- _ => destruct u
  end; subst.

Section Keeps.
Context {W E : Type} (R : W -> W -> Prop) `{!PreOrder R}.

Lemma keeps_bind {A B} (m : ST W E A) (f : A -> ST W E B) :
  keeps R m -> (forall a, keeps R (f a)) -> keeps R (m ≫= f).
Proof.
  intros Hm Hf w. specialize (Hm w). unfold mbind, ST_bind. destruct (m w) as [[a|e] w1]; [|done].
  etransitivity; [exact Hm|apply Hf].
Qed.
Lemma keeps_lift {A} (r : res E A) : keeps R (lift r).
Proof. intros w. cbn. reflexivity. Qed.
Lemma keeps_mret {A} (a : A) : keeps R (mret (M := ST W E) a).
Proof. intros w. cbn. reflexivity. Qed.
Lemma keeps_get {A} (f : W -> A) : keeps R (get (E := E) f).
Proof. intros w. cbn. reflexivity. Qed.
Lemma keeps_fail {A} (e : E) : keeps R (@fail W E A e).
Proof. intros w. cbn. reflexivity. Qed.
Lemma keeps_modify f : (forall w, R w (f w)) -> keeps R (modify (E := E) f).
Proof. intros Hf w. apply Hf. Qed.
Lemma keeps_mapM {A B} (f : A -> ST W E B) l : (forall a, keeps R (f a)) -> keeps R (mapM_M f l).
Proof.
  intros Hf. induction l as [|a l IH]; [apply keeps_mret|]. cbn.
  apply keeps_bind; [done|]. intros b. apply keeps_bind; [done|]. intros bs. apply keeps_mret.
Qed.
Lemma keeps_defer {A} (m : ST W E A) d : keeps R m -> (forall w, R w (d w)) -> keeps R (with_defer m d).
Proof.
  intros Hm Hd w. specialize (Hm w). unfold with_defer. destruct (m w) as [r w1]. cbn in *.
  etransitivity; [exact Hm|apply Hd].
Qed.
Lemma keeps_on_error {A} (m : ST W E A) d : keeps R m -> (forall w, R w (d w)) -> keeps R (on_error m d).
Proof.
  intros Hm Hd w. specialize (Hm w). unfold on_error. destruct (m w) as [[a|e] w1]; cbn in *; [done|].
  etransitivity; [exact Hm|apply Hd].
Qed.
Lemma keeps_outcome {A} (m : ST W E A) : keeps R m -> keeps R (outcome m).
Proof. intros Hm w. specialize (Hm w). unfold outcome. by destruct (m w). Qed.
End Keeps.

(** [keep] applies the rules above down to the primitive steps. *)
Ltac keep :=
  repeat first
    [ apply keeps_bind; [apply _| |] | apply keeps_lift; apply _ | apply keeps_mret; apply _
    | apply keeps_get; apply _ | apply keeps_fail; apply _ | apply keeps_mapM; [apply _|]
    | apply keeps_defer; [apply _| |] | apply keeps_on_error; [apply _| |]
    | apply keeps_outcome
    | match goal with |- keeps _ (modify _) => apply keeps_modify end
    | match goal with |- forall _ : _ * _, _ => intros [? ?] end
    | match goal with |- forall _, _ => intros ? end
    | match goal with |- keeps _ (match ?x with _ => _ end) => destruct x end ].
