(* ===== verification/GoStrings.v ===== *)
(** * Go strings

    The functions of Go's [strings], [strconv] and [path] packages the code
    uses, over byte strings ([string] is Stdlib's list of 8-bit characters),
    with the lemmas the components share: splitting and joining are inverse,
    printing a number and reading it back gives the number, and
    [path.Clean] fixes exactly the canonical paths. *)

From Stdlib Require Import ZArith Lia Ascii String.
From stdpp Require Import base list strings pretty numbers.
From S2P Require Import Prelude.

Local Open Scope string_scope.
Local Open Scope list_scope.

Abbreviation byte_of c := (N_of_ascii c).

Definition ch (c : string) : ascii := match c with String a _ => a | "" => "000"%char end.

Definition slash : ascii := "/"%char.
Definition dot : ascii := "."%char.
Definition colon : ascii := ":"%char.

(** [between lo hi c] is [lo <= c && c <= hi] on bytes. *)
Definition between (lo hi c : ascii) : bool :=
  (byte_of lo <=? byte_of c)%N && (byte_of c <=? byte_of hi)%N.
Definition is_digit : ascii -> bool := between "0" "9".
Definition is_lower : ascii -> bool := between "a" "z".
Definition is_upper : ascii -> bool := between "A" "Z".

(** [strings.ContainsRune(s, c)] for an ASCII rune [c]. *)
Fixpoint contains (c : ascii) (s : string) : bool :=
  match s with
  | "" => false
  | String a s => if Ascii.eqb a c then true else contains c s
  end.

(** [strings.Cut(s, sep)] for a one-byte separator: the text before the first
    separator, the text after it, and whether it was found. *)
Fixpoint cut (c : ascii) (s : string) : string * string * bool :=
  match s with
  | "" => ("", "", false)
  | String a s =>
      if Ascii.eqb a c then ("", s, true)
      else let '(b, r, f) := cut c s in (String a b, r, f)
  end.

(** [strings.Split(s, sep)] for a one-byte separator: always at least one piece. *)
Fixpoint split (c : ascii) (s : string) : list string :=
  match s with
  | "" => [""]
  | String a s =>
      if Ascii.eqb a c then "" :: split c s
      else match split c s with
           | [] => [String a ""]
           | p :: ps => String a p :: ps
           end
  end.

(** [strings.Join(ps, sep)]. *)
Fixpoint join (c : ascii) (ps : list string) : string :=
  match ps with
  | [] => ""
  | [p] => p
  | p :: ps => p +:+ String c (join c ps)
  end.

(** [strings.LastIndex(s, sep)] for a one-byte separator, as the text before
    and after the last separator. *)
Fixpoint cut_last (c : ascii) (s : string) : option (string * string) :=
  match s with
  | "" => None
  | String a s =>
      match cut_last c s with
      | Some (b, r) => Some (String a b, r)
      | None => if Ascii.eqb a c then Some ("", s) else None
      end
  end.

(** [strings.Count(s, sep)] for a one-byte separator. *)
Fixpoint count (c : ascii) (s : string) : nat :=
  match s with
  | "" => 0
  | String a s => (if Ascii.eqb a c then 1 else 0) + count c s
  end.

Definition has_prefix (p s : string) : bool := String.prefix p s.

Lemma has_prefix_app p s : has_prefix p s = true -> exists r, s = p +:+ r.
Proof.
  unfold has_prefix. revert s. induction p as [|a p IH]; intros s; [by exists s|].
  destruct s as [|b s]; cbn; [done|]. destruct (ascii_dec a b) as [->|]; [|done].
  intros [r ->]%IH. by exists r.
Qed.
Lemma has_prefix_self p r : has_prefix p (p +:+ r) = true.
Proof.
  unfold has_prefix. induction p as [|a p IH]; [by destruct r|].
  change (String.prefix (String a p) (String a (p +:+ r)) = true). cbn. by destruct (ascii_dec a a).
Qed.

(** [strings.CutPrefix(s, p)]. *)
Fixpoint cut_prefix (p s : string) : option string :=
  match p, s with
  | "", _ => Some s
  | String a p, String b s => if Ascii.eqb a b then cut_prefix p s else None
  | String _ _, "" => None
  end.

(** [strings.HasSuffix(s, p)]. *)
Definition has_suffix (p s : string) : bool :=
  (String.length p <=? String.length s)%nat
  && String.eqb (String.substring (String.length s - String.length p) (String.length p) s) p.

(** [strings.TrimSuffix(s, c)] for a one-byte suffix. *)
Fixpoint trim_suffix1 (c : ascii) (s : string) : string :=
  match s with
  | "" => ""
  | String a "" => if Ascii.eqb a c then "" else s
  | String a s => String a (trim_suffix1 c s)
  end.

(** [strings.ToLower(s)]. ASCII letters are lowered; of the other code points
    only U+0130 and U+212A have an ASCII lower-case form ("i" and "k"), and
    both are mapped here. The remaining non-ASCII letters are left as they
    are: lowered or not they stay non-ASCII, and no compiled rule holds a
    non-ASCII byte for them to be compared with. *)
Fixpoint to_lower (s : string) : string :=
  match s with
  | String "196" (String "176" s) => String "i" (to_lower s)
  | String "226" (String "132" (String "170" s)) => String "k" (to_lower s)
  | String a s =>
      String (if is_upper a then ascii_of_N (byte_of a + 32) else a) (to_lower s)
  | "" => ""
  end.

(** ** Numbers *)

(** [strconv.Itoa] and the [%d] verb. *)
Definition itoa (z : Z) : string := pretty z.

Fixpoint digits_value (acc : Z) (s : string) : option Z :=
  match s with
  | "" => Some acc
  | String a s =>
      if is_digit a then digits_value (acc * 10 + (Z.of_N (byte_of a) - 48)) s else None
  end.

(** [strconv.Atoi(s)]: an optional sign, then decimal digits, in the range of
    a 64-bit [int]. *)
Definition atoi (s : string) : option Z :=
  let '(neg, d) :=
    match s with
    | String a r =>
        if Ascii.eqb a "-" then (true, r) else if Ascii.eqb a "+" then (false, r) else (false, s)
    | "" => (false, s)
    end in
  match d with
  | "" => None
  | _ =>
      v ← digits_value 0 d;
      let v := if neg : bool then (- v)%Z else v in
      if ((-(2^63) <=? v) && (v <? 2^63))%Z then Some v else None
  end.

(** [strconv.ParseUint(s, 10, 16)]. *)
Definition parse_uint16 (s : string) : option Z :=
  match s with
  | "" => None
  | _ => v ← digits_value 0 s; if (v <? 2^16)%Z then Some v else None
  end.

(** ** Paths *)

Definition is_abs (p : string) : bool := has_prefix "/" p.

(** One component of [path.Clean]: [acc] holds the components kept so far,
    last first. *)
Definition clean_step (rooted : bool) (acc : list string) (c : string) : list string :=
  if bool_decide (c = "" \/ c = ".") then acc
  else if bool_decide (c = "..") then
    match acc with
    | a :: r => if bool_decide (a = "..") then c :: acc else r
    | [] => if rooted then [] else [c]
    end
  else c :: acc.

(** [path.Clean(p)]; on Unix [filepath.Clean] is the same function. *)
Definition clean (p : string) : string :=
  let rooted := is_abs p in
  let out := join slash (rev (fold_left (clean_step rooted) (split slash p) [])) in
  if rooted then String slash out
  else if bool_decide (out = "") then "." else out.

(** ** Splitting and joining *)

Lemma split_cons c s : exists p ps, split c s = p :: ps.
Proof.
  destruct s as [|a s]; cbn; [eauto|].
  destruct (Ascii.eqb a c); [eauto|]. destruct (split c s); eauto.
Qed.

Lemma split_not_nil c s : split c s <> [].
Proof. destruct (split_cons c s) as (p & ps & ->). done. Qed.

Lemma join_split c s : join c (split c s) = s.
Proof.
  induction s as [|a s IH]; cbn; [done|].
  destruct (split_cons c s) as (p & ps & Hs). rewrite Hs in *.
  destruct (Ascii.eqb_spec a c) as [->|].
  - cbn in *. by rewrite IH.
  - destruct ps as [|q ps]; cbn in *; by rewrite <- IH.
Qed.

Lemma app_cons a s t : String a s +:+ t = String a (s +:+ t).
Proof. done. Qed.

Lemma app_nil s : "" +:+ s = s.
Proof. done. Qed.

Lemma sapp_nil_r (s : string) : s +:+ "" = s.
Proof. induction s as [|a s IH]; [done|]. by rewrite app_cons, IH. Qed.

Lemma sapp_assoc (s1 s2 s3 : string) : (s1 +:+ s2) +:+ s3 = s1 +:+ (s2 +:+ s3).
Proof. induction s1 as [|a s1 IH]; [done|]. by rewrite !app_cons, IH. Qed.

Lemma contains_app c s t : contains c (s +:+ t) = contains c s || contains c t.
Proof.
  induction s as [|a s IH]; [done|]. rewrite app_cons. cbn. rewrite IH.
  by destruct (Ascii.eqb a c).
Qed.

Lemma count_app c s t : count c (s +:+ t) = (count c s + count c t)%nat.
Proof.
  induction s as [|a s IH]; [done|]. rewrite app_cons. cbn [count]. rewrite IH. lia.
Qed.

Lemma count_0 c s : count c s = 0%nat <-> contains c s = false.
Proof. induction s as [|a s IH]; cbn; [done|]. destruct (Ascii.eqb a c); [done|exact IH]. Qed.

Lemma split_no_sep c s : contains c s = false -> split c s = [s].
Proof.
  induction s as [|a s IH]; cbn; [done|].
  destruct (Ascii.eqb a c); [done|]. intros H. by rewrite IH.
Qed.

Lemma split_app c p s :
  contains c p = false -> split c (p +:+ String c s) = p :: split c s.
Proof.
  induction p as [|a p IH].
  - intros _. rewrite app_nil. cbn. by rewrite Ascii.eqb_refl.
  - rewrite app_cons. cbn. destruct (Ascii.eqb a c) eqn:E; [done|]. intros H. by rewrite IH.
Qed.

Lemma split_join c ps :
  ps <> [] -> Forall (fun p => contains c p = false) ps -> split c (join c ps) = ps.
Proof.
  intros Hne HF. induction HF as [|p ps Hp HF IH]; [done|].
  destruct ps as [|q ps]; [by apply split_no_sep|].
  change (join c (p :: q :: ps)) with (p +:+ String c (join c (q :: ps))).
  rewrite split_app by done. by rewrite IH.
Qed.

Lemma split_pieces_no_sep c s : Forall (fun p => contains c p = false) (split c s).
Proof.
  induction s as [|a s IH]; cbn; [by repeat constructor|].
  destruct (Ascii.eqb a c) eqn:E; [by constructor|].
  destruct (split c s) as [|p ps]; [constructor; [cbn; by rewrite E|constructor]|].
  inversion IH; subst. constructor; [cbn; by rewrite E|done].
Qed.

Lemma contains_join_false c d ps :
  c <> d -> contains c (join d ps) = existsb (contains c) ps.
Proof.
  intros Hcd. induction ps as [|p ps IH]; [done|].
  destruct ps as [|q ps]; [cbn; by rewrite orb_false_r|].
  change (join d (p :: q :: ps)) with (p +:+ String d (join d (q :: ps))).
  rewrite contains_app. cbn [contains]. destruct (Ascii.eqb_spec d c); [congruence|].
  by rewrite IH.
Qed.

Lemma cut_found c s b r : cut c s = (b, r, true) -> s = b +:+ String c r /\ contains c b = false.
Proof.
  revert b r. induction s as [|a s IH]; cbn; [done|]. intros b r.
  destruct (Ascii.eqb_spec a c) as [->|Hac]; [by intros [= <- <-]|].
  destruct (cut c s) as [[b' r'] f]. intros [= <- <- ->].
  destruct (IH b' r' eq_refl) as [-> Hb]. split; [done|]. cbn.
  by destruct (Ascii.eqb_spec a c).
Qed.

Lemma cut_app c b r : contains c b = false -> cut c (b +:+ String c r) = (b, r, true).
Proof.
  induction b as [|a b IH].
  - intros _. rewrite app_nil. cbn. by rewrite Ascii.eqb_refl.
  - rewrite app_cons. cbn. destruct (Ascii.eqb a c); [done|]. intros H. by rewrite IH.
Qed.

Lemma cut_not_found c s : contains c s = false -> cut c s = (s, "", false).
Proof.
  induction s as [|a s IH]; cbn; [done|].
  destruct (Ascii.eqb a c); [done|]. intros H. by rewrite IH.
Qed.

Lemma cut_last_none c s : contains c s = false -> cut_last c s = None.
Proof.
  induction s as [|a s IH]; cbn; [done|].
  destruct (Ascii.eqb a c); [done|]. intros H. by rewrite IH.
Qed.

Lemma cut_last_app c b r : contains c r = false -> cut_last c (b +:+ String c r) = Some (b, r).
Proof.
  intros Hr. induction b as [|a b IH].
  - rewrite app_nil. cbn. by rewrite cut_last_none, Ascii.eqb_refl.
  - rewrite app_cons. cbn. by rewrite IH.
Qed.

(** ** Numbers *)

Lemma digit_value (x : N) :
  (x < 10)%N -> is_digit (pretty_N_char x) = true /\ byte_of (pretty_N_char x) = (x + 48)%N.
Proof.
  intros H. cut (forallb (fun x => is_digit (pretty_N_char x)
    && (byte_of (pretty_N_char x) =? x + 48)%N) (map N.of_nat (seq 0 10)) = true).
  - rewrite forallb_forall. intros Hf. specialize (Hf x).
    rewrite andb_true_iff, N.eqb_eq in Hf. apply Hf, in_map_iff.
    exists (N.to_nat x). rewrite in_seq. lia.
  - by vm_compute.
Qed.

Lemma digits_value_go (x : N) s : digits_value 0 (pretty_N_go x s) = digits_value (Z.of_N x) s.
Proof.
  revert s. induction (N.lt_wf_0 x) as [x _ IH]. intros s.
  destruct (decide (x = 0%N)) as [->|Hx]; [done|].
  rewrite pretty_N_go_step by lia. rewrite IH by (apply N.div_lt; lia).
  cbn [digits_value]. destruct (digit_value (x mod 10)) as [-> ->].
  { apply N.mod_lt. lia. }
  f_equal. rewrite N2Z.inj_add, N2Z.inj_mod, N2Z.inj_div.
  pose proof (Z.div_mod (Z.of_N x) 10). lia.
Qed.

Lemma itoa_pos p : itoa (Zpos p) = pretty_N_go (Npos p) "".
Proof. done. Qed.

Lemma digits_value_itoa z : (0 <= z)%Z -> digits_value 0 (itoa z) = Some z.
Proof.
  intros Hz. destruct z as [|p|p]; [done| |lia].
  by rewrite itoa_pos, digits_value_go.
Qed.

Lemma pretty_N_go_head x s : (0 < x)%N ->
  exists a r, pretty_N_go x s = String a r /\ is_digit a = true.
Proof.
  revert s. induction (N.lt_wf_0 x) as [x _ IH]. intros s Hx.
  rewrite pretty_N_go_step by lia.
  destruct (decide (x / 10 = 0)%N) as [->|Hd].
  - eexists _, _. split; [done|]. apply digit_value, N.mod_lt. lia.
  - apply IH; [apply N.div_lt; lia|by apply N.neq_0_lt_0].
Qed.

Lemma itoa_head z : (0 <= z)%Z -> exists a r, itoa z = String a r /\ is_digit a = true.
Proof.
  intros Hz. destruct z as [|p|p]; [by eexists _, _| |lia].
  rewrite itoa_pos. by apply pretty_N_go_head.
Qed.

Lemma atoi_itoa z : (0 <= z < 2^63)%Z -> atoi (itoa z) = Some z.
Proof.
  intros Hz. pose proof (digits_value_itoa z ltac:(lia)) as Hv.
  destruct (itoa_head z) as (a & r & Hs & Ha); [lia|]. rewrite Hs in *. unfold atoi.
  destruct (Ascii.eqb_spec a "-") as [->|]; [discriminate Ha|].
  destruct (Ascii.eqb_spec a "+") as [->|]; [discriminate Ha|]. rewrite Hv.
  cbn -[Z.pow]. rewrite (proj2 (Z.leb_le _ _)), (proj2 (Z.ltb_lt _ _)) by lia. done.
Qed.

Lemma parse_uint16_itoa z : (0 <= z < 2^16)%Z -> parse_uint16 (itoa z) = Some z.
Proof.
  intros Hz. unfold parse_uint16. destruct (itoa_head z) as (a & r & Hs & Ha); [lia|].
  rewrite Hs, <- Hs, digits_value_itoa by lia.
  cbn -[Z.pow]. rewrite (proj2 (Z.ltb_lt _ _)) by lia. done.
Qed.

Fixpoint all_chars (f : ascii -> bool) (s : string) : bool :=
  match s with "" => true | String a s => f a && all_chars f s end.

Lemma digits_value_all acc s v : digits_value acc s = Some v -> all_chars is_digit s = true.
Proof.
  revert acc. induction s as [|a s IH]; cbn; [done|]. intros acc.
  destruct (is_digit a); [|done]. apply IH.
Qed.

Lemma contains_all_chars f c s : all_chars f s = true -> f c = false -> contains c s = false.
Proof.
  induction s as [|a s IH]; cbn; [done|]. rewrite andb_true_iff. intros [Ha Hs] Hc.
  destruct (Ascii.eqb_spec a c) as [->|]; [congruence|]. by apply IH.
Qed.

Lemma itoa_no_sep c z : (0 <= z)%Z -> is_digit c = false -> contains c (itoa z) = false.
Proof.
  intros Hz Hc. eapply contains_all_chars; [|done].
  by eapply digits_value_all, digits_value_itoa.
Qed.

Lemma length_sapp s t : String.length (s +:+ t) = (String.length s + String.length t)%nat.
Proof. induction s as [|a s IH]; [done|]. rewrite app_cons. cbn. by rewrite IH. Qed.

Lemma app_string_inv_r (a b t : string) : a +:+ t = b +:+ t -> a = b.
Proof.
  intros H. pose proof (f_equal String.length H) as Hl.
  rewrite !length_sapp in Hl. revert b H Hl.
  induction a as [|x a IH]; intros [|y b] H Hl; cbn in Hl; try lia; [done|].
  rewrite !app_cons in H. injection H as -> H. f_equal. apply IH; [done|lia].
Qed.

(** ** [path.Clean] *)

(** A canonical component: one a walk of a tree can name. *)
Definition plain_comp (c : string) : bool :=
  negb (bool_decide (c = "")) && negb (bool_decide (c = ".")) && negb (bool_decide (c = "..")).

(** The components [path.Clean] keeps: never empty and never ".". *)
Definition kept (c : string) : Prop := c <> "" /\ c <> ".".

Lemma plain_comp_true c : plain_comp c = true <-> c <> "" /\ c <> "." /\ c <> "..".
Proof.
  unfold plain_comp. rewrite !andb_true_iff, !negb_true_iff, !bool_decide_eq_false. tauto.
Qed.

Lemma clean_step_kept rooted acc c :
  Forall kept acc -> Forall kept (clean_step rooted acc c).
Proof.
  intros HF. unfold clean_step. case_bool_decide as Hc; [done|].
  case_bool_decide as Hd.
  - destruct acc as [|a r]; [destruct rooted|case_bool_decide];
      repeat first [constructor | done | by inversion HF | apply Forall_cons; split];
      subst; done.
  - constructor; [unfold kept; tauto|done].
Qed.

Lemma clean_fold_kept rooted cs acc :
  Forall kept acc -> Forall kept (fold_left (clean_step rooted) cs acc).
Proof.
  revert acc. induction cs as [|c cs IH]; cbn; [done|]. intros acc H.
  by apply IH, clean_step_kept.
Qed.

Lemma clean_fold_no_sep rooted cs acc :
  Forall (fun p => contains slash p = false) cs ->
  Forall (fun p => contains slash p = false) acc ->
  Forall (fun p => contains slash p = false) (fold_left (clean_step rooted) cs acc).
Proof.
  revert acc. induction cs as [|c cs IH]; cbn; [done|]. intros acc Hcs Hacc.
  apply Forall_cons in Hcs as [Hc Hcs]. apply IH; [done|]. unfold clean_step.
  case_bool_decide; [done|]. case_bool_decide; [|by constructor].
  destruct acc as [|a r]; [destruct rooted; by repeat constructor|].
  case_bool_decide; [by constructor|by inversion Hacc].
Qed.

Lemma clean_fold_plain rooted cs acc :
  Forall (fun c => plain_comp c = true) cs ->
  fold_left (clean_step rooted) cs acc = rev cs ++ acc.
Proof.
  revert acc. induction cs as [|c cs IH]; cbn; [done|]. intros acc HF.
  apply Forall_cons in HF as [Hc HF]. apply plain_comp_true in Hc as (? & ? & ?).
  rewrite IH by done. unfold clean_step.
  rewrite bool_decide_eq_false_2 by tauto. rewrite bool_decide_eq_false_2 by done.
  by rewrite <- app_assoc.
Qed.

Lemma clean_plain p :
  is_abs p = false -> Forall (fun c => plain_comp c = true) (split slash p) -> clean p = p.
Proof.
  intros Ha HF. unfold clean. rewrite Ha, clean_fold_plain by done.
  rewrite app_nil_r, rev_involutive, join_split. case_bool_decide as Hp; [|done].
  subst p. cbn in HF. apply Forall_cons in HF as [HF _]. by vm_compute in HF.
Qed.

(** A relative path [path.Clean] leaves alone is "." or has only kept components. *)
Lemma clean_fixed_comps p :
  is_abs p = false -> clean p = p -> p <> "." -> Forall kept (split slash p).
Proof.
  intros Ha Hp Hdot. unfold clean in Hp. rewrite Ha in Hp.
  set (acc := fold_left (clean_step false) (split slash p) []) in *.
  assert (Forall kept acc) as Hk by (apply clean_fold_kept; constructor).
  assert (Forall (fun p => contains slash p = false) acc) as Hs.
  { apply clean_fold_no_sep; [apply split_pieces_no_sep|constructor]. }
  case_bool_decide as Hout; [congruence|]. rewrite <- Hp.
  rewrite split_join.
  - by apply List.Forall_rev.
  - intros Hr. rewrite Hr in Hout. done.
  - by apply List.Forall_rev.
Qed.

Example clean_ex1 : clean "a/b/../c//./d/" = "a/c/d". Proof. vm_compute. reflexivity. Qed.
Example clean_ex2 : clean "../../x" = "../../x". Proof. vm_compute. reflexivity. Qed.
Example clean_ex3 : clean "/../x/" = "/x". Proof. vm_compute. reflexivity. Qed.
Example clean_ex4 : clean "a/.." = ".". Proof. vm_compute. reflexivity. Qed.
Example lower_ex : to_lower "ReGistry.NPMJS.org" = "registry.npmjs.org".
Proof. vm_compute. reflexivity. Qed.
Example cut_last_ex : cut_last colon "a:b:c" = Some ("a:b", "c"). Proof. reflexivity. Qed.
