(* ===== verification/Regex.v ===== *)
(** * Regular expressions

    Go's [regexp] literals, written as terms of [re] and run by derivatives:
    [re_match r s] is [MatchString] of an anchored pattern [^...$] whose
    classes are ASCII. A string with a byte no class holds never matches, so
    matching bytes and matching Go's runes agree on these patterns.
    [re_match_spec] relates the matcher to the language of the pattern. *)

From Stdlib Require Import ZArith Lia Ascii String.
From stdpp Require Import base list strings.
From S2P Require Import Prelude GoStrings.

Local Open Scope list_scope.

Inductive re : Type :=
  | REmpty
  | REps
  | RCls (f : ascii -> bool)
  | RCat (r1 r2 : re)
  | RAlt (r1 r2 : re)
  | RStar (r : re).

Definition rchar (c : ascii) : re := RCls (Ascii.eqb c).
(** [r+], [r?], [r{n}] and [r{0,n}]. *)
Definition rplus (r : re) : re := RCat r (RStar r).
Definition ropt (r : re) : re := RAlt REps r.
Fixpoint rexact (n : nat) (r : re) : re :=
  match n with O => REps | S n => RCat r (rexact n r) end.
Fixpoint rupto (n : nat) (r : re) : re :=
  match n with O => REps | S n => RAlt REps (RCat r (rupto n r)) end.
Fixpoint rlit (s : string) : re :=
  match s with "" => REps | String a s => RCat (rchar a) (rlit s) end.

(** The language of a pattern. *)
Inductive in_re : re -> string -> Prop :=
  | in_eps : in_re REps ""
  | in_cls f a : f a = true -> in_re (RCls f) (String a "")
  | in_cat r1 r2 s1 s2 : in_re r1 s1 -> in_re r2 s2 -> in_re (RCat r1 r2) (s1 +:+ s2)
  | in_alt_l r1 r2 s : in_re r1 s -> in_re (RAlt r1 r2) s
  | in_alt_r r1 r2 s : in_re r2 s -> in_re (RAlt r1 r2) s
  | in_star_nil r : in_re (RStar r) ""
  | in_star_cons r a s1 s2 :
      in_re r (String a s1) -> in_re (RStar r) s2 -> in_re (RStar r) (String a s1 +:+ s2).

(** ** The matcher *)

Fixpoint nullable (r : re) : bool :=
  match r with
  | REmpty | RCls _ => false
  | REps | RStar _ => true
  | RCat r1 r2 => nullable r1 && nullable r2
  | RAlt r1 r2 => nullable r1 || nullable r2
  end.

Definition mk_cat (r1 r2 : re) : re :=
  match r1, r2 with
  | REmpty, _ | _, REmpty => REmpty
  | REps, r => r
  | _, _ => RCat r1 r2
  end.

Definition mk_alt (r1 r2 : re) : re :=
  match r1, r2 with
  | REmpty, r => r
  | r, REmpty => r
  | _, _ => RAlt r1 r2
  end.

Fixpoint deriv (a : ascii) (r : re) : re :=
  match r with
  | REmpty | REps => REmpty
  | RCls f => if f a then REps else REmpty
  | RCat r1 r2 =>
      if nullable r1 then mk_alt (mk_cat (deriv a r1) r2) (deriv a r2)
      else mk_cat (deriv a r1) r2
  | RAlt r1 r2 => mk_alt (deriv a r1) (deriv a r2)
  | RStar r => mk_cat (deriv a r) (RStar r)
  end.

Fixpoint re_match (r : re) (s : string) : bool :=
  match s with
  | "" => nullable r
  | String a s => re_match (deriv a r) s
  end.

(** ** Correctness *)

Lemma app_empty_inv (s1 s2 : string) : s1 +:+ s2 = "" -> s1 = "" /\ s2 = "".
Proof. destruct s1; [done|]. rewrite app_cons. done. Qed.

Lemma in_REmpty s : ~ in_re REmpty s.
Proof. inversion 1. Qed.

Lemma in_REps s : in_re REps s <-> s = "".
Proof. split; [by inversion 1|intros ->; constructor]. Qed.

Lemma in_RCat r1 r2 s :
  in_re (RCat r1 r2) s <-> exists s1 s2, s = s1 +:+ s2 /\ in_re r1 s1 /\ in_re r2 s2.
Proof.
  split; [inversion 1; subst; eauto|]. intros (s1 & s2 & -> & ? & ?). by constructor.
Qed.

Lemma in_RAlt r1 r2 s : in_re (RAlt r1 r2) s <-> in_re r1 s \/ in_re r2 s.
Proof.
  split; [inversion 1; subst; eauto|]. intros [?|?]; [by apply in_alt_l|by apply in_alt_r].
Qed.

Lemma in_RCat_empty_l r s : ~ in_re (RCat REmpty r) s.
Proof. rewrite in_RCat. intros (? & ? & _ & H & _). by apply in_REmpty in H. Qed.

Lemma in_RCat_empty_r r s : ~ in_re (RCat r REmpty) s.
Proof. rewrite in_RCat. intros (? & ? & _ & _ & H). by apply in_REmpty in H. Qed.

Lemma in_RCat_eps_l r s : in_re (RCat REps r) s <-> in_re r s.
Proof.
  rewrite in_RCat. split.
  - intros (? & ? & -> & ->%in_REps & ?). by rewrite app_nil.
  - intros ?. exists "", s. split; [done|]. split; [constructor|done].
Qed.

Lemma mk_cat_spec r1 r2 s : in_re (mk_cat r1 r2) s <-> in_re (RCat r1 r2) s.
Proof.
  pose proof (in_REmpty s). pose proof (in_RCat_empty_l r2 s).
  pose proof (in_RCat_empty_r r1 s). pose proof (in_RCat_eps_l r2 s).
  destruct r1; try (cbn; tauto); destruct r2; cbn; tauto.
Qed.

Lemma mk_alt_spec r1 r2 s : in_re (mk_alt r1 r2) s <-> in_re r1 s \/ in_re r2 s.
Proof.
  pose proof (in_REmpty s). destruct r1; destruct r2; cbn; rewrite ?in_RAlt; tauto.
Qed.

Lemma nullable_spec r : nullable r = true <-> in_re r "".
Proof.
  induction r as [| | |r1 IH1 r2 IH2|r1 IH1 r2 IH2|r IH]; cbn.
  - split; [done|inversion 1].
  - split; [constructor|done].
  - split; [done|inversion 1].
  - rewrite andb_true_iff, IH1, IH2, in_RCat. split.
    + intros [? ?]. by exists "", "".
    + intros (s1 & s2 & Hs & ? & ?). symmetry in Hs. by apply app_empty_inv in Hs as [-> ->].
  - by rewrite orb_true_iff, IH1, IH2, in_RAlt.
  - split; [constructor|done].
Qed.

Lemma star_cons_inv r a s :
  in_re (RStar r) (String a s) <->
  exists s1 s2, s = s1 +:+ s2 /\ in_re r (String a s1) /\ in_re (RStar r) s2.
Proof.
  split.
  - inversion 1 as [| | | | | |r' b s1 s2 H1 H2]; subst. by exists s1, s2.
  - intros (s1 & s2 & -> & H1 & H2). rewrite <- app_cons. by constructor.
Qed.

Lemma deriv_spec a r s : in_re (deriv a r) s <-> in_re r (String a s).
Proof.
  revert s. induction r as [| |f|r1 IH1 r2 IH2|r1 IH1 r2 IH2|r IH]; intros s; cbn [deriv].
  - split; inversion 1.
  - split; inversion 1.
  - destruct (f a) eqn:E.
    + rewrite in_REps. split; [intros ->; by constructor|by inversion 1].
    + split; [inversion 1|inversion 1; congruence].
  - assert (in_re (RCat r1 r2) (String a s) <->
      in_re (RCat (deriv a r1) r2) s \/ (nullable r1 = true /\ in_re (deriv a r2) s)) as ->.
    { rewrite !in_RCat, nullable_spec, IH2. split.
      - intros ([|b s1] & s2 & Hs & H1 & H2).
        + rewrite app_nil in Hs. subst s2. by right.
        + rewrite app_cons in Hs. simplify_eq. left. exists s1, s2. by rewrite IH1.
      - intros [(s1 & s2 & -> & H1%IH1 & H2)|[H1 H2]].
        + by exists (String a s1), s2.
        + by exists "", (String a s). }
    destruct (nullable r1); rewrite ?mk_alt_spec, mk_cat_spec; intuition discriminate.
  - by rewrite mk_alt_spec, IH1, IH2, in_RAlt.
  - rewrite mk_cat_spec, in_RCat, star_cons_inv. by setoid_rewrite IH.
Qed.

(** The matcher decides the language of the pattern. *)
Lemma re_match_spec r s : re_match r s = true <-> in_re r s.
Proof.
  revert r. induction s as [|a s IH]; intros r; cbn.
  - apply nullable_spec.
  - by rewrite IH, deriv_spec.
Qed.

(** ** What a match says about the string *)

Definition all_ascii : list ascii := map ascii_of_nat (seq 0 256).
#[global] Arguments all_ascii : simpl never.

Lemma all_ascii_elem a : a ∈ all_ascii.
Proof.
  apply list_elem_of_In, in_map_iff. exists (nat_of_ascii a).
  rewrite ascii_nat_embedding, in_seq. pose proof (nat_ascii_bounded a).
  split; [done|lia].
Qed.

(** [re_over f r]: every class of [r] is within [f]. *)
Fixpoint re_over (f : ascii -> bool) (r : re) : bool :=
  match r with
  | REmpty | REps => true
  | RCls g => forallb (fun a => implb (g a) (f a)) all_ascii
  | RCat r1 r2 | RAlt r1 r2 => re_over f r1 && re_over f r2
  | RStar r => re_over f r
  end.

Lemma all_chars_app f s t : all_chars f (s +:+ t) = all_chars f s && all_chars f t.
Proof.
  induction s as [|a s IH]; [done|]. rewrite app_cons. cbn. by rewrite IH, andb_assoc.
Qed.

Lemma in_re_over f r s : re_over f r = true -> in_re r s -> all_chars f s = true.
Proof.
  intros Hr Hs. induction Hs as [|g a Ha| | | | |]; cbn [re_over all_chars] in *; bool_to_prop; try done.
  - rewrite andb_true_r. rewrite forallb_forall in Hr.
    specialize (Hr a (proj1 (list_elem_of_In _ _) (all_ascii_elem a))).
    destruct (g a); [done|congruence].
  - rewrite all_chars_app, andb_true_iff. auto.
  - auto.
  - auto.
  - change (String a s1 +:+ s2) with (String a (s1 +:+ s2)). cbn.
    specialize (IHHs1 Hr). cbn in IHHs1. apply andb_true_iff in IHHs1 as [-> H1].
    rewrite all_chars_app, H1. cbn. auto.
Qed.

Lemma re_match_chars f r s : re_over f r = true -> re_match r s = true -> all_chars f s = true.
Proof. intros Hr Hs. eapply in_re_over; [done|]. by apply re_match_spec. Qed.

(** A pattern none of whose classes holds [c] matches no string with a [c]. *)
Lemma re_match_no_char c r s :
  re_over (fun a => negb (Ascii.eqb a c)) r = true -> re_match r s = true ->
  contains c s = false.
Proof.
  intros Hr Hs. eapply contains_all_chars; [by eapply re_match_chars|].
  cbn. by rewrite Ascii.eqb_refl.
Qed.

(** The character classes the patterns share. *)
Definition cls_hex : ascii -> bool := fun a => between "a" "f" a || is_digit a.
Definition cls_lower_num : ascii -> bool := fun a => is_lower a || is_digit a.
Definition cls_alnum : ascii -> bool := fun a => is_upper a || is_lower a || is_digit a.
Definition cls_word : ascii -> bool := fun a => cls_alnum a || Ascii.eqb a "_".
