(* ===== verification/TaskId.v ===== *)
(** * Task identifiers (src/internal/model/taskid.go)

    [ParseTaskID] and the operations on a parsed id. An id becomes a branch
    name ([task/<id>]), a commit tag and a database key, so the theorems say
    what the grammar guarantees: parsing and printing are inverse, the parent
    of an id is an id one level up, and an id is a valid component of a git
    reference name unless it ends in [.lock]. *)

From Stdlib Require Import ZArith Lia Ascii String.
From stdpp Require Import base list strings.
From S2P Require Import Prelude GoStrings Regex.

Local Open Scope string_scope.
Local Open Scope list_scope.

(** The errors of package [model]: the sentinel of a malformed id, and a
    [*ValidationError] with the field it names. *)
Inductive model_err : Type :=
  | ErrInvalidTaskID
  | ValidationError (field : string).

#[export] Instance model_err_eq_dec : EqDecision model_err.
Proof. solve_decision. Defined.

Record TaskID := mkTaskID { prefix_ : string; parts : string }.

#[export] Instance TaskID_eq_dec : EqDecision TaskID.
Proof. solve_decision. Defined.

Definition is_sep : ascii -> bool := fun a => Ascii.eqb a "." || Ascii.eqb a "-".

Definition segments_re : re := RStar (RCat (RCls is_sep) (rplus (RCls cls_word))).
Definition body_re : re := RCat (rplus (RCls cls_word)) segments_re.

(** [^([A-Za-z0-9]+)-([A-Za-z0-9_]+(?:[.-][A-Za-z0-9_]+)* )$] *)
Definition taskIDPattern : re := RCat (rplus (RCls cls_alnum)) (RCat (rchar "-") body_re).

(** The submatches: the prefix class has no '-', so the first group ends at
    the first '-'. *)
Definition ParseTaskID (s : string) : res model_err TaskID :=
  if re_match taskIDPattern s
  then let '(p, b, _) := cut "-" s in Ok (mkTaskID p b)
  else Err ErrInvalidTaskID.

Definition validateTaskIDField (id : string) : res model_err unit :=
  if String.eqb id "" then Err (ValidationError "task_id")
  else match ParseTaskID id with
       | Ok _ => Ok tt
       | Err _ => Err (ValidationError "task_id")
       end.

Definition Validate (t : TaskID) : res model_err unit :=
  err_if (String.eqb (prefix_ t) "" || String.eqb (parts t) "") ErrInvalidTaskID.

Definition String_ (t : TaskID) : string :=
  if String.eqb (prefix_ t) "" then "" else prefix_ t +:+ String "-" (parts t).

Definition Prefix (t : TaskID) : string := prefix_ t.

Definition Depth (t : TaskID) : nat :=
  if String.eqb (parts t) "" then 0 else count "." (parts t) + 1.

Definition Parent (t : TaskID) : option TaskID :=
  match cut_last "." (parts t) with
  | None => None
  | Some (b, _) => Some (mkTaskID (prefix_ t) b)
  end.

Definition IsZero (t : TaskID) : bool := String.eqb (prefix_ t) "" && String.eqb (parts t) "".

(** What git asks of one component of a reference name
    (git-check-ref-format(1)). *)
Fixpoint has_dotdot (s : string) : bool :=
  match s with
  | String a ((String b _) as r) => (Ascii.eqb a dot && Ascii.eqb b dot) || has_dotdot r
  | _ => false
  end.

Fixpoint ends_dot (s : string) : bool :=
  match s with
  | "" => false
  | String a "" => Ascii.eqb a dot
  | String _ r => ends_dot r
  end.

Definition ref_forbidden (a : ascii) : bool :=
  (byte_of a <? 33)%N || (byte_of a =? 127)%N
  || existsb (Ascii.eqb a) ["~"; "^"; ":"; "?"; "*"; "["; "\"; "/"; "@"]%char.

Definition ref_component_ok (s : string) : bool :=
  negb (String.eqb s "") && negb (Ascii.eqb (ch s) dot)
  && all_chars (fun a => negb (ref_forbidden a)) s
  && negb (has_dotdot s) && negb (ends_dot s) && negb (has_suffix ".lock" s).

Example parse_ex : ParseTaskID "MTIX-30-probe.6" = Ok (mkTaskID "MTIX" "30-probe.6").
Proof. vm_compute. reflexivity. Qed.
Example parse_ex2 : ParseTaskID "MGIT-1..2" = Err ErrInvalidTaskID.
Proof. vm_compute. reflexivity. Qed.

(** ** The grammar *)

Lemma in_rplus f w :
  in_re (rplus (RCls f)) w -> w <> "" /\ all_chars f w = true.
Proof.
  unfold rplus. rewrite in_RCat. intros (s1 & s2 & -> & H1 & H2). inversion H1; subst.
  split; [done|]. rewrite all_chars_app. cbn. rewrite H0. cbn.
  assert (re_over f (RStar (RCls f)) = true) as Ho.
  { cbn [re_over]. apply forallb_forall. intros x _. by destruct (f x). }
  by apply (in_re_over f) in H2.
Qed.

(** What a parsed id is made of. *)
Record wf (t : TaskID) : Prop := {
  wf_prefix : in_re (rplus (RCls cls_alnum)) (prefix_ t);
  wf_parts : in_re body_re (parts t)
}.

Lemma wf_prefix_no_dash p : in_re (rplus (RCls cls_alnum)) p -> p <> "" /\ contains "-" p = false.
Proof.
  intros [Hne Hall]%in_rplus. split; [done|]. by eapply contains_all_chars.
Qed.

Lemma ParseTaskID_wf s t : ParseTaskID s = Ok t <-> wf t /\ s = prefix_ t +:+ String "-" (parts t).
Proof.
  unfold ParseTaskID. destruct (re_match taskIDPattern s) eqn:E.
  - apply re_match_spec, in_RCat in E as (p & r & -> & Hp & Hr).
    apply in_RCat in Hr as (d & b & -> & Hd & Hb). inversion Hd as [|? a Ha| | | | |]; subst.
    apply Ascii.eqb_eq in Ha as <-. rewrite app_cons, app_nil.
    pose proof (wf_prefix_no_dash p Hp) as [_ Hd'].
    rewrite (cut_app "-" p b) by done. split.
    + intros [= <-]. by split; [split|].
    + intros [[Hp' Hb'] Heq]. destruct t as [p' b']. cbn in *.
      pose proof (wf_prefix_no_dash p' Hp') as [_ Hd''].
      pose proof (f_equal (cut "-") Heq) as Hc. rewrite !cut_app in Hc by done. congruence.
  - split; [done|]. intros [[Hp Hb] ->]. exfalso.
    enough (re_match taskIDPattern (prefix_ t +:+ String "-" (parts t)) = true) by congruence.
    apply re_match_spec. constructor; [done|].
    change (String "-" (parts t)) with (String "-" "" +:+ parts t).
    constructor; [by constructor|done].
Qed.

Lemma String_wf t : wf t -> String_ t = prefix_ t +:+ String "-" (parts t).
Proof.
  intros [Hp _]. unfold String_. apply wf_prefix_no_dash in Hp as [Hne _].
  by destruct (String.eqb_spec (prefix_ t) "").
Qed.

Lemma cut_last_found c s b r :
  cut_last c s = Some (b, r) -> s = b +:+ String c r /\ contains c r = false.
Proof.
  revert b r. induction s as [|a s IH]; cbn; [done|]. intros b r.
  destruct (cut_last c s) as [[b' r']|] eqn:E.
  - intros [= <- <-]. destruct (IH _ _ eq_refl) as [-> ?]. done.
  - destruct (Ascii.eqb_spec a c) as [->|]; [|done]. intros [= <- <-]. split; [done|].
    clear -E. induction s as [|x s IH]; cbn in *; [done|].
    destruct (cut_last c s) as [[]|]; [done|]. destruct (Ascii.eqb x c); [done|]. by apply IH.
Qed.

Lemma cut_last_None c s : cut_last c s = None -> contains c s = false.
Proof.
  induction s as [|x s IH]; cbn in *; [done|].
  destruct (cut_last c s) as [[]|]; [done|]. destruct (Ascii.eqb x c); [done|]. by apply IH.
Qed.

Lemma count_no c s : contains c s = false -> count c s = 0.
Proof.
  induction s as [|a s IH]; cbn; [done|]. destruct (Ascii.eqb a c); [done|]. intros H. by rewrite IH.
Qed.

Lemma word_no_dot w : all_chars cls_word w = true -> contains "." w = false.
Proof. intros H. by eapply contains_all_chars. Qed.

Lemma segment_inv a s1 :
  in_re (RCat (RCls is_sep) (rplus (RCls cls_word))) (String a s1) ->
  is_sep a = true /\ s1 <> "" /\ all_chars cls_word s1 = true.
Proof.
  rewrite in_RCat. intros (u & w & Heq & Hu & [Hw1 Hw2]%in_rplus).
  inversion Hu; subst. rewrite app_cons, app_nil in Heq. by simplify_eq.
Qed.

(** Cutting a segment list at its last '.' leaves a segment list. *)
Lemma segments_cut s b r :
  in_re segments_re s -> cut_last "." s = Some (b, r) -> in_re segments_re b.
Proof.
  unfold segments_re at 1. remember (RStar _) as R eqn:HR. intros H. revert b r.
  induction H as [| | | | | |r0 a s1 s2 H1 _ H2 IH]; simplify_eq; [done|]. intros b r Hc.
  specialize (IH eq_refl). pose proof (segment_inv _ _ H1) as (Ha & Hne & Hw).
  destruct (cut_last "." s2) as [[b' r']|] eqn:E2.
  - apply cut_last_found in E2 as E3. destruct E3 as [-> Hr].
    rewrite <- sapp_assoc in Hc. rewrite cut_last_app in Hc by done. simplify_eq.
    apply in_star_cons; [done|]. by eapply IH.
  - apply cut_last_None in E2. rewrite app_cons in Hc. cbn in Hc.
    rewrite cut_last_none in Hc by (rewrite contains_app, E2, word_no_dot; done).
    destruct (Ascii.eqb a "."); [|done]. simplify_eq. constructor.
Qed.

Lemma body_cut s b r :
  in_re body_re s -> cut_last "." s = Some (b, r) -> in_re body_re b.
Proof.
  unfold body_re. rewrite in_RCat. intros (w & g & -> & Hw & Hg) Hc.
  pose proof (in_rplus _ _ Hw) as [_ Hall]. apply word_no_dot in Hall.
  destruct (cut_last "." g) as [[b' r']|] eqn:E.
  - pose proof (segments_cut _ _ _ Hg E) as Hb. apply cut_last_found in E as [-> Hr].
    rewrite <- sapp_assoc, cut_last_app in Hc by done. simplify_eq. by constructor.
  - apply cut_last_None in E. rewrite cut_last_none in Hc; [done|]. by rewrite contains_app, Hall, E.
Qed.

Lemma in_body_ne s : in_re body_re s -> s <> "".
Proof.
  unfold body_re. rewrite in_RCat. intros (w & g & -> & [Hw _]%in_rplus & _).
  by destruct w.
Qed.

(** ** References *)

Lemma dotdot_word w s : w <> "" -> contains "." w = false -> has_dotdot (w +:+ s) = has_dotdot s.
Proof.
  intros Hne. induction w as [|a w IH]; [done|]. cbn [contains].
  destruct (Ascii.eqb_spec a "."); [done|]. intros Hw. rewrite app_cons.
  destruct w as [|b w]; [|rewrite app_cons in *; cbn in *; rewrite IH by done];
    (destruct (Ascii.eqb_spec a dot); [done|]); [|done].
  rewrite app_nil. destruct s; cbn; [done|]. by destruct (Ascii.eqb_spec a dot).
Qed.

Lemma ends_dot_word w s :
  w <> "" -> contains "." w = false -> ends_dot (w +:+ s) = ends_dot s.
Proof.
  intros Hne. induction w as [|a w IH]; [done|]. cbn [contains].
  destruct (Ascii.eqb_spec a "."); [done|]. intros Hw. rewrite app_cons.
  destruct w as [|b w]; [|rewrite app_cons in *; cbn in *; by apply IH].
  rewrite app_nil. destruct s; [|done]. cbn. by destruct (Ascii.eqb_spec a dot).
Qed.

Lemma segments_dots s : in_re segments_re s -> has_dotdot s = false /\ ends_dot s = false.
Proof.
  unfold segments_re at 1. remember (RStar _) as R eqn:HR. intros H.
  induction H as [| | | | | |r0 a s1 s2 H1 _ H2 IH]; simplify_eq; [done|].
  specialize (IH eq_refl) as [IH1 IH2]. apply segment_inv in H1 as (Ha & Hne & Hw%word_no_dot).
  rewrite app_cons. pose proof (dotdot_word s1 s2 Hne Hw) as Hd.
  pose proof (ends_dot_word s1 s2 Hne Hw) as He.
  destruct s1 as [|b s1]; [done|]. rewrite app_cons in *. cbn [has_dotdot ends_dot] in *.
  rewrite Hd, He, IH1, IH2. cbn in Hw. destruct (Ascii.eqb_spec b "."); [done|].
  unfold dot. destruct (Ascii.eqb_spec b "."); [done|]. by rewrite andb_false_r.
Qed.

Lemma all_chars_weaken (f g : ascii -> bool) s :
  (forall a, f a = true -> g a = true) -> all_chars f s = true -> all_chars g s = true.
Proof.
  intros Hfg. induction s as [|a s IH]; cbn; [done|].
  rewrite !andb_true_iff. naive_solver.
Qed.

Definition id_char (a : ascii) : bool := cls_word a || is_sep a.

Lemma id_char_ref a : id_char a = true -> negb (ref_forbidden a) = true.
Proof. by destruct a as [[] [] [] [] [] [] [] []]; vm_compute. Qed.

Lemma pattern_chars s : re_match taskIDPattern s = true -> all_chars id_char s = true.
Proof. apply re_match_chars. by vm_compute. Qed.

(** ** Properties *)

(** Parsing accepts exactly the printed form of well-formed
    ids: a parsed id prints back to the text it was read from, it passes
    [Validate], it is not the zero id, and printing then parsing gives it
    back. *)
Theorem ParseTaskID_roundtrip s t :
  ParseTaskID s = Ok t ->
  String_ t = s /\ ParseTaskID (String_ t) = Ok t /\ Validate t = Ok tt /\ IsZero t = false.
Proof.
  intros H. pose proof H as H0. apply ParseTaskID_wf in H as [Hwf ->].
  rewrite String_wf by done. split_and!; [done|done| |].
  all: destruct Hwf as [[Hp _]%wf_prefix_no_dash Hb%in_body_ne]; unfold Validate, IsZero;
    destruct (String.eqb_spec (prefix_ t) ""); [done|].
  - by destruct (String.eqb_spec (parts t) "").
  - done.
Qed.

Lemma ParseTaskID_roundtrip_witness :
  ParseTaskID "MTIX-30.6" = Ok (mkTaskID "MTIX" "30.6") /\
  String_ (mkTaskID "MTIX" "30.6") = "MTIX-30.6".
Proof.
  split; [vm_compute; reflexivity|].
  refine (proj1 (ParseTaskID_roundtrip "MTIX-30.6" _ _)). vm_compute; reflexivity.
Defined.

(** C37. The parent of a parsed id is again the parse of its printed
    form, in the same project and exactly one level up; an id without a
    parent has depth one. *)
Theorem Parent_wf s t :
  ParseTaskID s = Ok t ->
  match Parent t with
  | Some p => ParseTaskID (String_ p) = Ok p /\ prefix_ p = prefix_ t /\ Depth t = (Depth p + 1)%nat
  | None => Depth t = 1%nat
  end.
Proof.
  intros [Hwf _]%ParseTaskID_wf. pose proof (in_body_ne _ (wf_parts _ Hwf)) as Hne.
  unfold Parent. destruct (cut_last "." (parts t)) as [[b r]|] eqn:E.
  - assert (wf (mkTaskID (prefix_ t) b)) as Hp.
    { split; [apply Hwf|]. cbn. eapply body_cut; [apply Hwf|done]. }
    split_and!; [|done|].
    + rewrite String_wf by done. by apply ParseTaskID_wf.
    + unfold Depth; cbn [parts prefix_]. apply cut_last_found in E as [Hs Hr].
      pose proof (in_body_ne _ (wf_parts _ Hp)) as Hb. cbn [parts] in Hb.
      rewrite (proj2 (String.eqb_neq _ _) Hne), (proj2 (String.eqb_neq _ _) Hb).
      rewrite Hs, count_app. cbn. rewrite (count_no _ r) by done. lia.
  - unfold Depth. rewrite (proj2 (String.eqb_neq _ _) Hne). by rewrite count_no by (by apply cut_last_None).
Qed.

Lemma Parent_wf_witness :
  Parent (mkTaskID "MGIT" "11.13.5") = Some (mkTaskID "MGIT" "11.13") /\
  Depth (mkTaskID "MGIT" "11.13.5") = 3%nat.
Proof.
  split; [vm_compute; reflexivity|].
  pose proof (Parent_wf "MGIT-11.13.5" (mkTaskID "MGIT" "11.13.5") ltac:(vm_compute; reflexivity)) as H.
  destruct H as (_ & _ & H). exact H.
Defined.

(** An accepted id meets every rule git has for a component of a
    reference name except one: it may end in [.lock]. So the branch
    [task/<id>] is a valid reference exactly when the id does not. *)
Theorem ParseTaskID_ref_safe s t :
  ParseTaskID s = Ok t -> ref_component_ok (String_ t) = negb (has_suffix ".lock" s).
Proof.
  intros H. pose proof H as H0. apply ParseTaskID_wf in H as [Hwf Hs].
  rewrite String_wf, <- Hs by done. unfold ref_component_ok.
  assert (all_chars id_char s = true) as Hid.
  { apply pattern_chars. unfold ParseTaskID in H0. by destruct (re_match taskIDPattern s). }
  destruct Hwf as [Hp Hb]. apply in_rplus in Hp as [Hne Hp].
  apply in_RCat in Hb as (w & g & Hpg & [Hw1 Hw2%word_no_dot]%in_rplus & [Hg1 Hg2]%segments_dots).
  rewrite (all_chars_weaken id_char _ s id_char_ref Hid).
  assert (contains "." (prefix_ t +:+ String "-" w) = false) as Hcd.
  { rewrite contains_app. cbn. rewrite Hw2, orb_false_r. by eapply contains_all_chars. }
  assert (s = (prefix_ t +:+ String "-" w) +:+ g) as ->.
  { by rewrite Hs, Hpg, sapp_assoc, app_cons. }
  assert (prefix_ t +:+ String "-" w <> "") as Hn by (by destruct (prefix_ t)).
  rewrite dotdot_word, ends_dot_word, Hg1, Hg2 by done. cbn.
  destruct (prefix_ t +:+ String "-" w) as [|a l]; [done|]. rewrite !app_cons.
  cbn in Hcd. cbn [ch]. unfold dot. by destruct (Ascii.eqb_spec a ".").
Qed.

Lemma ParseTaskID_ref_safe_witness :
  ParseTaskID "MGIT-1.lock" = Ok (mkTaskID "MGIT" "1.lock") /\
  ref_component_ok (String_ (mkTaskID "MGIT" "1.lock")) = false.
Proof.
  split; [vm_compute; reflexivity|].
  refine (ParseTaskID_ref_safe "MGIT-1.lock" _ _). vm_compute; reflexivity.
Defined.
