(* ===== verification/Netip.v ===== *)
(** * IP addresses: Go's [net/netip]

    The addresses, prefixes and parsers of the standard library the egress
    code is written against. An [Addr] is invalid (the zero value), a 32-bit
    IPv4 address, or a 128-bit IPv6 address with an optional zone; the
    IPv4-mapped IPv6 form ([::ffff:a.b.c.d]) is an IPv6 address until
    [Unmap]. Two addresses are equal when their bits and zones are. *)

From Stdlib Require Import ZArith Lia Ascii String.
From stdpp Require Import base list strings.
From S2P Require Import Prelude GoStrings.

Local Open Scope string_scope.
Local Open Scope list_scope.
Local Open Scope Z_scope.

Inductive Addr : Type :=
  | AInvalid
  | A4 (a : Z)
  | A6 (a : Z) (zone : string).

#[export] Instance Addr_eq_dec : EqDecision Addr.
Proof. solve_decision. Defined.

#[export] Instance Addr_countable : Countable Addr.
Proof.
  refine (inj_countable'
    (fun x => match x with AInvalid => inl () | A4 a => inr (inl a) | A6 a z => inr (inr (a, z)) end)
    (fun x => match x with inl _ => AInvalid | inr (inl a) => A4 a | inr (inr (a, z)) => A6 a z end) _).
  by intros [].
Defined.

(** The bits are those of the width. *)
Definition addr_wf (ip : Addr) : Prop :=
  match ip with AInvalid => True | A4 a => 0 <= a < 2^32 | A6 a _ => 0 <= a < 2^128 end.

Definition IsValid (ip : Addr) : bool := match ip with AInvalid => false | _ => true end.
Definition Is4 (ip : Addr) : bool := match ip with A4 _ => true | _ => false end.
Definition Is6 (ip : Addr) : bool := match ip with A6 _ _ => true | _ => false end.
Definition BitLen (ip : Addr) : Z := match ip with AInvalid => 0 | A4 _ => 32 | A6 _ _ => 128 end.
Definition hasZone (ip : Addr) : bool :=
  match ip with A6 _ z => negb (String.eqb z "") | _ => false end.

(** [v4 ip i] and [v6 ip i]: byte [i]; [v6u16 ip i]: 16-bit group [i]. *)
Definition v4 (a i : Z) : Z := Z.land (Z.shiftr a (8 * (3 - i))) 255.
Definition v6 (a i : Z) : Z := Z.land (Z.shiftr a (8 * (15 - i))) 255.
Definition v6u16 (a i : Z) : Z := Z.land (Z.shiftr a (16 * (7 - i))) 65535.

Definition Is4In6 (ip : Addr) : bool :=
  match ip with A6 a _ => Z.shiftr a 32 =? 65535 | _ => false end.

(** [Unmap]: an IPv4-mapped IPv6 address becomes the IPv4 address (a zone is lost). *)
Definition Unmap (ip : Addr) : Addr :=
  match ip with
  | A6 a _ => if Is4In6 ip then A4 (Z.land a (2^32 - 1)) else ip
  | _ => ip
  end.

Definition IsLoopback (ip : Addr) : bool :=
  match Unmap ip with
  | A4 a => v4 a 0 =? 127
  | A6 a _ => a =? 1
  | AInvalid => false
  end.

Definition IsUnspecified (ip : Addr) : bool := bool_decide (ip = A4 0 \/ ip = A6 0 "").

Definition IsLinkLocalUnicast (ip : Addr) : bool :=
  match Unmap ip with
  | A4 a => (v4 a 0 =? 169) && (v4 a 1 =? 254)
  | A6 a _ => Z.land (v6u16 a 0) 65472 =? 65152
  | AInvalid => false
  end.

Definition IsLinkLocalMulticast (ip : Addr) : bool :=
  match Unmap ip with
  | A4 a => (v4 a 0 =? 224) && (v4 a 1 =? 0) && (v4 a 2 =? 0)
  | A6 a _ => Z.land (v6u16 a 0) 65295 =? 65282
  | AInvalid => false
  end.

Definition IsInterfaceLocalMulticast (ip : Addr) : bool :=
  match ip with
  | A6 a _ => negb (Is4In6 ip) && (Z.land (v6u16 a 0) 65295 =? 65281)
  | _ => false
  end.

Definition IsMulticast (ip : Addr) : bool :=
  match Unmap ip with
  | A4 a => Z.land (v4 a 0) 240 =? 224
  | A6 a _ => v6 a 0 =? 255
  | AInvalid => false
  end.

Definition IsPrivate (ip : Addr) : bool :=
  match Unmap ip with
  | A4 a => (v4 a 0 =? 10) || ((v4 a 0 =? 172) && (Z.land (v4 a 1) 240 =? 16))
            || ((v4 a 0 =? 192) && (v4 a 1 =? 168))
  | A6 a _ => Z.land (v6 a 0) 254 =? 252
  | AInvalid => false
  end.

(** ** Prefixes *)

Record Prefix := mkPrefix { paddr : Addr; pbits : Z }.

#[export] Instance Prefix_eq_dec : EqDecision Prefix.
Proof. solve_decision. Defined.

Definition without_zone (ip : Addr) : Addr := match ip with A6 a _ => A6 a "" | _ => ip end.

(** [PrefixFrom(ip, bits)] of a valid address and a length within it. *)
Definition PrefixFrom (ip : Addr) (bits : Z) : Prefix := mkPrefix (without_zone ip) bits.

(** [p.Masked()]: the host bits cleared. *)
Definition mask_addr (ip : Addr) (bits : Z) : Addr :=
  let clear n a := Z.shiftl (Z.shiftr a (n - bits)) (n - bits) in
  match ip with
  | A4 a => A4 (clear 32 a)
  | A6 a z => A6 (clear 128 a) z
  | AInvalid => AInvalid
  end.
Definition Masked (p : Prefix) : Prefix := mkPrefix (mask_addr (paddr p) (pbits p)) (pbits p).

(** [p.Contains(ip)]: false for a zoned address and across families. *)
Definition Contains (p : Prefix) (ip : Addr) : bool :=
  if hasZone ip then false
  else match paddr p, ip with
       | A4 a, A4 b => Z.shiftr (Z.lxor a b) (32 - pbits p) =? 0
       | A6 a _, A6 b _ => Z.shiftr (Z.lxor a b) (128 - pbits p) =? 0
       | _, _ => false
       end.

(** ** Parsing *)

(** [parseIPv4Fields]: four decimal octets, at most 255, no leading zero.
    [val]/[dig] are the octet being read and its digits so far, [acc] the
    octets before it, last first. *)
Fixpoint ipv4_fields (acc : list Z) (val : Z) (dig : nat) (s : string) : option (list Z) :=
  match s with
  | "" =>
      if (length acc =? 3)%nat && negb (dig =? 0)%nat then Some (rev (val :: acc)) else None
  | String c s =>
      if is_digit c then
        if (dig =? 1)%nat && (val =? 0) then None
        else let val := val * 10 + (Z.of_N (byte_of c) - 48) in
             if 255 <? val then None else ipv4_fields acc val (S dig) s
      else if Ascii.eqb c dot then
        if (dig =? 0)%nat || String.eqb s "" then None
        else if (length acc =? 3)%nat then None
        else ipv4_fields (val :: acc) 0 0 s
      else None
  end.

Definition quad (fs : list Z) : Z := fold_left (fun a f => a * 256 + f) fs 0.

Definition parse_ipv4 (s : string) : option Addr := A4 ∘ quad <$> ipv4_fields [] 0 0 s.

Definition hex_value (c : ascii) : option Z :=
  if is_digit c then Some (Z.of_N (byte_of c) - 48)
  else if between "a" "f" c then Some (Z.of_N (byte_of c) - 87)
  else if between "A" "F" c then Some (Z.of_N (byte_of c) - 55)
  else None.

(** A group of hex digits: its value, the digits read and the rest. [None] on
    a fifth digit, so the value fits 16 bits. *)
Fixpoint hex_field (acc : Z) (off : nat) (s : string) : option (Z * nat * string) :=
  match s with
  | "" => Some (acc, off, s)
  | String c r =>
      match hex_value c with
      | Some d => if (3 <? off)%nat then None else hex_field (acc * 16 + d) (S off) r
      | None => Some (acc, off, s)
      end
  end.

(** The loop of [parseIPv6], one group per turn, at most eight: [acc] is the
    groups read and [ell] how many stood before [::]. *)
Fixpoint ipv6_groups (fuel : nat) (acc : list Z) (ell : option nat) (s : string)
    : option (list Z * option nat) :=
  match fuel with
  | O => if String.eqb s "" then Some (acc, ell) else None
  | S fuel =>
      f ← hex_field 0 0 s;
      let '(v, off, rest) := f in
      if (off =? 0)%nat then None
      else match rest with
      | "" => Some (acc ++ [v], ell)
      | String c r =>
          if Ascii.eqb c dot then
            if (match ell with None => negb (length acc =? 6)%nat | _ => false end) then None
            else if (6 <? length acc)%nat then None
            else fs ← ipv4_fields [] 0 0 s;
                 let q := quad fs in Some (acc ++ [q / 65536; q mod 65536], ell)
          else if negb (Ascii.eqb c colon) then None
          else match r with
          | "" => None
          | String c2 r2 =>
              if Ascii.eqb c2 colon then
                match ell with
                | Some _ => None
                | None =>
                    if String.eqb r2 "" then Some (acc ++ [v], Some (length acc + 1)%nat)
                    else ipv6_groups fuel (acc ++ [v]) (Some (length acc + 1)%nat) r2
                end
              else ipv6_groups fuel (acc ++ [v]) ell r
          end
      end
  end.

Definition groups_value (gs : list Z) : Z := fold_left (fun a g => a * 65536 + g) gs 0.

Definition parse_ipv6 (inp : string) : option Addr :=
  let '(s, zone, found) := cut "%" inp in
  if found && String.eqb zone "" then None
  else
    let lead := has_prefix "::" s in
    let s' := if lead then String.substring 2 (String.length s - 2) s else s in
    if lead && String.eqb s' "" then Some (A6 0 zone)
    else
      r ← ipv6_groups 8 [] (if lead then Some 0%nat else None) s';
      let '(gs, ell) := r in
      let n := (8 - length gs)%nat in
      match ell with
      | None => if (n =? 0)%nat then Some (A6 (groups_value gs) zone) else None
      | Some e =>
          if (n =? 0)%nat then None
          else Some (A6 (groups_value (take e gs ++ replicate n 0 ++ drop e gs)) zone)
      end.

(** [ParseAddr]: the first of '.', ':' and '%' decides the family. *)
Fixpoint addr_kind (s : string) : option ascii :=
  match s with
  | "" => None
  | String c s =>
      if Ascii.eqb c dot || Ascii.eqb c colon || Ascii.eqb c "%" then Some c else addr_kind s
  end.

Definition ParseAddr (s : string) : option Addr :=
  match addr_kind s with
  | Some c =>
      if Ascii.eqb c dot then parse_ipv4 s
      else if Ascii.eqb c colon then parse_ipv6 s else None
  | None => None
  end.

Definition ParsePrefix (s : string) : option Prefix :=
  c ← cut_last slash s;
  let '(a, b) := c in
  ip ← ParseAddr a;
  if hasZone ip then None
  else if (1 <? String.length b)%nat && negb (between "1" "9" (ch b)) then None
  else bits ← atoi b;
       if (bits <? 0) || ((if Is6 ip then 128 else 32) <? bits) then None
       else Some (PrefixFrom ip bits).

(** [ParseAddrPort]: the last ':' splits; an IPv6 address must be bracketed
    and an IPv4 one must not. *)
Definition unbracket (ip : string) : option (string * bool) :=
  if Ascii.eqb (ch ip) "[" then
    if (String.length ip <? 2)%nat || negb (has_suffix "]" ip) then None
    else Some (String.substring 1 (String.length ip - 2) ip, true)
  else Some (ip, false).

Definition ParseAddrPort (s : string) : option (Addr * Z) :=
  c ← cut_last colon s;
  let '(ip, port) := c in
  if String.eqb ip "" || String.eqb port "" then None
  else
    u ← unbracket ip;
    let '(ip, v6) := u in
    p ← parse_uint16 port;
    a ← ParseAddr ip;
    if (v6 : bool) && Is4 a then None
    else if negb v6 && Is6 a then None
    else Some (a, p).

(** ** Printing *)

Definition string4 (a : Z) : string :=
  join dot [itoa (v4 a 0); itoa (v4 a 1); itoa (v4 a 2); itoa (v4 a 3)].

Definition hex_digit (d : Z) : ascii :=
  ascii_of_N (Z.to_N (if d <? 10 then d + 48 else d + 87)).

(** [appendHex]: a 16-bit value without leading zeroes. *)
Definition hex16 (x : Z) : string :=
  let d i := Z.land (Z.shiftr x (4 * i)) 15 in
  let ds := [d 3; d 2; d 1; d 0] in
  let fix drop0 ds := match ds with
    | [z] => [z] | z :: r => if z =? 0 then drop0 r else ds | [] => [] end in
  fold_right (fun d s => String (hex_digit d) s) "" (drop0 ds).

(** The length of the run of zero groups at the head. *)
Fixpoint zero_run (gs : list Z) : nat :=
  match gs with g :: gs => if g =? 0 then S (zero_run gs) else O | [] => O end.

(** The first longest run of at least two zero groups, as (start, length). *)
Fixpoint best_run (i : nat) (gs : list Z) (best : nat * nat) : nat * nat :=
  match gs with
  | [] => best
  | _ :: r =>
      let l := zero_run gs in
      best_run (S i) r (if (2 <=? l)%nat && (best.2 <? l)%nat then (i, l) else best)
  end.

Definition string6 (a : Z) : string :=
  let gs := map (v6u16 a) [0; 1; 2; 3; 4; 5; 6; 7] in
  let '(st, l) := best_run 0 gs (0, 0)%nat in
  if (l =? 0)%nat then join colon (map hex16 gs)
  else join colon (map hex16 (take st gs)) +:+ "::" +:+ join colon (map hex16 (drop (st + l) gs)).

Definition addr_string (ip : Addr) : string :=
  match ip with
  | AInvalid => "invalid IP"
  | A4 a => string4 a
  | A6 a z =>
      (if Is4In6 ip then "::ffff:" +:+ string4 (Z.land a (2^32 - 1)) else string6 a)
        +:+ (if String.eqb z "" then "" else String "%" z)
  end.

(** ** Examples *)
Definition ip4 (a b c d : Z) : Addr := A4 (quad [a; b; c; d]).

Example pa1 : ParseAddr "169.254.169.254" = Some (ip4 169 254 169 254).
Proof. vm_compute. reflexivity. Qed.
Example pa2 : ParseAddr "64:ff9b::" = Some (A6 (Z.shiftl 0x64 112 + Z.shiftl 0xff9b 96) "").
Proof. vm_compute. reflexivity. Qed.
Example pa3 : ParseAddr "1.2.3.04" = None. Proof. vm_compute. reflexivity. Qed.
Example pa4 : ParseAddr "::ffff:10.0.0.1%eth0" = Some (A6 (65535 * 2^32 + 10 * 2^24 + 1) "eth0").
Proof. vm_compute. reflexivity. Qed.
Example pa5 : ParseAddr "1:2:3:4:5:6:7::" = Some (A6 (groups_value [1;2;3;4;5;6;7;0]) "").
Proof. vm_compute. reflexivity. Qed.
Example pa6 : ParseAddr "1:2:3:4:5:6:7:8::" = None. Proof. vm_compute. reflexivity. Qed.
Example pa7 : ParseAddr "::1:2:3:4:5:6:7" = Some (A6 (groups_value [0;1;2;3;4;5;6;7]) "").
Proof. vm_compute. reflexivity. Qed.
Example pp1 : ParsePrefix "10.0.0.0/08" = None. Proof. vm_compute. reflexivity. Qed.
Example pp2 : Masked <$> ParsePrefix "10.1.2.3/8" = Some (mkPrefix (ip4 10 0 0 0) 8).
Proof. vm_compute. reflexivity. Qed.
Example pap1 : ParseAddrPort "[2606:4700::1]:443" = Some (A6 (groups_value [0x2606;0x4700;0;0;0;0;0;1]) "", 443).
Proof. vm_compute. reflexivity. Qed.
Example pap2 : ParseAddrPort "2606:4700::1:443" = None. Proof. vm_compute. reflexivity. Qed.
Example as1 : addr_string (A6 (groups_value [0x2606;0x4700;0;0;0;0;0;1]) "") = "2606:4700::1".
Proof. vm_compute. reflexivity. Qed.
Example as2 : addr_string (A6 0 "") = "::". Proof. vm_compute. reflexivity. Qed.
Example as3 : addr_string (A6 (groups_value [1;0;0;2;0;0;0;3]) "e") = "1:0:0:2::3%e".
Proof. vm_compute. reflexivity. Qed.

(** ** [Unmap] *)
Lemma Unmap_idem ip : Unmap (Unmap ip) = Unmap ip.
Proof. destruct ip as [| |a z]; [done..|]. cbn. by destruct (Z.shiftr a 32 =? 65535) eqn:E; cbn; rewrite ?E. Qed.

Lemma Unmap_not_4in6 ip : Is4In6 (Unmap ip) = false.
Proof. destruct ip as [| |a z]; [done..|]. unfold Unmap. by destruct (Is4In6 (A6 a z)) eqn:E. Qed.

Lemma Unmap_wf ip : addr_wf ip -> addr_wf (Unmap ip).
Proof.
  destruct ip as [| |a z]; [done..|]. unfold Unmap. destruct (Is4In6 _); [|done].
  intros _. cbn. change (2^32 - 1) with (Z.ones 32). rewrite Z.land_ones by lia.
  apply Z.mod_pos_bound. lia.
Qed.

(** ** Printing then parsing an IPv4 address *)

Lemma forallb_range (n : nat) (P : Z -> bool) x :
  forallb P (map Z.of_nat (seq 0 n)) = true -> 0 <= x < Z.of_nat n -> P x = true.
Proof.
  rewrite forallb_forall. intros H Hx. apply H, in_map_iff. exists (Z.to_nat x).
  rewrite in_seq. lia.
Qed.

(** The digits of one octet, read as [ipv4_fields] reads them. *)
Fixpoint octet_scan (val : Z) (dig : nat) (s : string) : option (Z * nat) :=
  match s with
  | "" => Some (val, dig)
  | String c s =>
      if is_digit c then
        if (dig =? 1)%nat && (val =? 0) then None
        else let val := val * 10 + (Z.of_N (byte_of c) - 48) in
             if 255 <? val then None else octet_scan val (S dig) s
      else None
  end.

Lemma ipv4_fields_scan acc val dig s t v d :
  octet_scan val dig s = Some (v, d) -> ipv4_fields acc val dig (s +:+ t) = ipv4_fields acc v d t.
Proof.
  revert val dig. induction s as [|c s IH]; intros val dig; cbn [octet_scan]; [by intros [= -> ->]|].
  rewrite app_cons. cbn [ipv4_fields]. destruct (is_digit c); [|done].
  destruct (_ && _); [done|]. destruct (255 <? _); [done|]. apply IH.
Qed.

Lemma octet_scan_itoa b : 0 <= b < 256 ->
  exists d, octet_scan 0 0 (itoa b) = Some (b, S d) /\ all_chars is_digit (itoa b) = true.
Proof.
  intros Hb. pose proof (forallb_range 256 (fun b => match octet_scan 0 0 (itoa b) with
    | Some (v, S _) => (v =? b) && all_chars is_digit (itoa b) | _ => false end) b
    ltac:(vm_compute; reflexivity) Hb) as H. cbn beta in H.
  destruct (octet_scan 0 0 (itoa b)) as [[v [|d]]|]; try done.
  apply andb_true_iff in H as [->%Z.eqb_eq ?]. eauto.
Qed.

Lemma ipv4_fields_octet acc b t :
  0 <= b < 256 -> (length acc < 3)%nat -> t <> "" ->
  ipv4_fields acc 0 0 (itoa b +:+ String dot t) = ipv4_fields (b :: acc) 0 0 t.
Proof.
  intros Hb Hl Ht. destruct (octet_scan_itoa b Hb) as (d & Hs & _).
  rewrite (ipv4_fields_scan _ _ _ _ _ _ _ Hs). cbn.
  destruct (String.eqb_spec t ""); [done|]. destruct (Nat.eqb_spec (length acc) 3); [lia|done].
Qed.

Lemma itoa_not_empty b : 0 <= b < 256 -> itoa b <> "".
Proof. intros Hb. destruct (octet_scan_itoa b Hb) as (d & Hs & _). by destruct (itoa b). Qed.

Lemma addr_kind_digits s c t :
  all_chars is_digit s = true -> (c = dot \/ c = colon) -> addr_kind (s +:+ String c t) = Some c.
Proof.
  intros Hs Hc. induction s as [|a s IH].
  - rewrite app_nil. by destruct Hc as [-> | ->].
  - cbn [all_chars] in Hs. apply andb_true_iff in Hs as [Ha Hs]. rewrite app_cons. cbn [addr_kind].
    destruct (Ascii.eqb_spec a dot) as [->|]; [done|]. destruct (Ascii.eqb_spec a colon) as [->|]; [done|].
    destruct (Ascii.eqb_spec a "%") as [->|]; [done|]. by apply IH.
Qed.

Lemma string4_octets b0 b1 b2 b3 a :
  v4 a 0 = b0 -> v4 a 1 = b1 -> v4 a 2 = b2 -> v4 a 3 = b3 ->
  string4 a = itoa b0 +:+ String dot (itoa b1 +:+ String dot (itoa b2 +:+ String dot (itoa b3))).
Proof. by intros <- <- <- <-. Qed.

Lemma octets a : 0 <= a < 2^32 -> exists b0 b1 b2 b3,
  0 <= b0 < 256 /\ 0 <= b1 < 256 /\ 0 <= b2 < 256 /\ 0 <= b3 < 256 /\ a = quad [b0; b1; b2; b3].
Proof.
  intros Ha. change (2^32) with 4294967296 in Ha.
  exists (a / 256 / 256 / 256), (a / 256 / 256 mod 256), (a / 256 mod 256), (a mod 256).
  unfold quad; cbn [fold_left].
  pose proof (Z.div_mod a 256 ltac:(lia)). pose proof (Z.mod_pos_bound a 256 ltac:(lia)).
  pose proof (Z.div_mod (a / 256) 256 ltac:(lia)).
  pose proof (Z.mod_pos_bound (a / 256) 256 ltac:(lia)).
  pose proof (Z.div_mod (a / 256 / 256) 256 ltac:(lia)).
  pose proof (Z.mod_pos_bound (a / 256 / 256) 256 ltac:(lia)). lia.
Qed.

Lemma v4_div a i : 0 <= i <= 3 -> v4 a i = (a / 2^(8 * (3 - i))) mod 256.
Proof. intros Hi. unfold v4. rewrite Z.shiftr_div_pow2 by lia. by rewrite (Z.land_ones _ 8). Qed.

Lemma div_digits q d r : 0 <= r < d -> (q * d + r) / d = q.
Proof. intros H. symmetry. by apply (Z.div_unique _ _ _ r); lia. Qed.

Lemma mod_digits q d r : 0 <= r < d -> (q * d + r) mod d = r.
Proof. intros H. symmetry. by apply (Z.mod_unique _ _ q); lia. Qed.

Lemma quad_eq b0 b1 b2 b3 : quad [b0; b1; b2; b3] = ((b0 * 256 + b1) * 256 + b2) * 256 + b3.
Proof. unfold quad. cbn [fold_left]. lia. Qed.

Lemma quad_bits b0 b1 b2 b3 :
  0 <= b0 < 256 -> 0 <= b1 < 256 -> 0 <= b2 < 256 -> 0 <= b3 < 256 ->
  let a := quad [b0; b1; b2; b3] in
  v4 a 0 = b0 /\ v4 a 1 = b1 /\ v4 a 2 = b2 /\ v4 a 3 = b3 /\
  a / 2^24 = b0 /\ a / 2^28 = b0 / 16 /\ a / 2^22 = b0 * 4 + b1 / 64 /\
  a / 2^17 = b0 * 128 + b1 / 2 /\ a / 2^8 = (b0 * 256 + b1) * 256 + b2.
Proof.
  intros H0 H1 H2 H3 a. rewrite !v4_div by lia. subst a. rewrite quad_eq.
  set (a := ((b0 * 256 + b1) * 256 + b2) * 256 + b3).
  assert (a / 2^8 = (b0 * 256 + b1) * 256 + b2) as D8 by (by apply div_digits).
  assert (a / 2^16 = b0 * 256 + b1) as D16.
  { change (2^16) with (2^8 * 2^8). rewrite <- Z.div_div by lia. rewrite D8. by apply div_digits. }
  assert (a / 2^24 = b0) as D24.
  { change (2^24) with (2^16 * 2^8). rewrite <- Z.div_div by lia. rewrite D16. by apply div_digits. }
  change (2^(8*(3-0))) with (2^24). change (2^(8*(3-1))) with (2^16).
  change (2^(8*(3-2))) with (2^8). change (2^(8*(3-3))) with 1.
  rewrite Z.div_1_r, D24, D16, D8. split_and!; try done.
  - apply Z.mod_small. lia.
  - by apply mod_digits.
  - by apply mod_digits.
  - by apply mod_digits.
  - change (2^28) with (2^24 * 2^4). rewrite <- Z.div_div by lia. by rewrite D24.
  - change (2^22) with (2^16 * 2^6). rewrite <- Z.div_div by lia. rewrite D16.
    replace (b0 * 256 + b1) with (b0 * 4 * 2^6 + b1) by lia. by rewrite Z.div_add_l by lia.
  - change (2^17) with (2^16 * 2^1). rewrite <- Z.div_div by lia. rewrite D16.
    replace (b0 * 256 + b1) with (b0 * 128 * 2^1 + b1) by lia. by rewrite Z.div_add_l by lia.
Qed.

Lemma ParseAddr_string4 a : 0 <= a < 2^32 -> ParseAddr (string4 a) = Some (A4 a).
Proof.
  intros (b0 & b1 & b2 & b3 & H0 & H1 & H2 & H3 & ->)%octets.
  destruct (quad_bits b0 b1 b2 b3 H0 H1 H2 H3) as (V0 & V1 & V2 & V3 & _).
  rewrite (string4_octets _ _ _ _ _ V0 V1 V2 V3).
  destruct (octet_scan_itoa b0 H0) as (d0 & _ & Hd0).
  unfold ParseAddr. rewrite addr_kind_digits by (done || by left).
  change (Ascii.eqb dot dot) with true. cbn iota. unfold parse_ipv4.
  pose proof (itoa_not_empty b1 H1). pose proof (itoa_not_empty b2 H2).
  pose proof (itoa_not_empty b3 H3). pose proof (octet_scan_itoa b3 H3) as (d3 & Hs3 & _).
  rewrite ipv4_fields_octet by (done || cbn; try lia; by destruct (itoa b1)).
  rewrite ipv4_fields_octet by (done || cbn; try lia; by destruct (itoa b2)).
  rewrite ipv4_fields_octet by (done || cbn; try lia; by destruct (itoa b3)).
  rewrite <- (sapp_nil_r (itoa b3)), (ipv4_fields_scan _ _ _ _ _ _ _ Hs3). done.
Qed.
