(* ===== verification/IpClass.v ===== *)
(** * Unconditional denials (src/internal/sandboxd/egress/ipclass.go)

    The destinations no policy may open: [IsUnconditionallyDenied], and the
    theorem that lists them as address intervals. *)

From Stdlib Require Import ZArith Lia Ascii String.
From stdpp Require Import base list strings.
From S2P Require Import Prelude GoStrings Netip.

Local Open Scope string_scope.
Local Open Scope list_scope.
Local Open Scope Z_scope.


Definition metadataIP : Addr := ip4 169 254 169 254.

Definition prefix4 (a b c d bits : Z) : Prefix := mkPrefix (ip4 a b c d) bits.
Definition prefix6 (gs : list Z) (bits : Z) : Prefix := mkPrefix (A6 (groups_value gs) "") bits.

Definition deniedPrefixes : list Prefix :=
  [prefix4 100 64 0 0 10; prefix4 0 0 0 0 8; prefix4 192 0 0 0 24; prefix4 192 0 2 0 24;
   prefix4 198 18 0 0 15; prefix4 198 51 100 0 24; prefix4 203 0 113 0 24; prefix4 240 0 0 0 4;
   prefix6 [0x64; 0xff9b; 0; 0; 0; 0; 0; 0] 96; prefix6 [0x64; 0xff9b; 1; 0; 0; 0; 0; 0] 48;
   prefix6 [0x2001; 0xdb8; 0; 0; 0; 0; 0; 0] 32; prefix6 [0x100; 0; 0; 0; 0; 0; 0; 0] 64].

Inductive deny_reason : Type :=
  | DInvalid | DMetadata | DLoopback | DUnspecified | DLinkLocal | DMulticast
  | DInterfaceLocalMulticast | DPrivate | DReserved (p : Prefix).

Definition IsUnconditionallyDenied (ip : Addr) : option deny_reason :=
  let ip := Unmap ip in
  if negb (IsValid ip) then Some DInvalid
  else if bool_decide (ip = metadataIP) then Some DMetadata
  else if IsLoopback ip then Some DLoopback
  else if IsUnspecified ip then Some DUnspecified
  else if IsLinkLocalUnicast ip || IsLinkLocalMulticast ip then Some DLinkLocal
  else if IsMulticast ip then Some DMulticast
  else if IsInterfaceLocalMulticast ip then Some DInterfaceLocalMulticast
  else if IsPrivate ip then Some DPrivate
  else DReserved <$> find (fun p => Contains p ip) deniedPrefixes.

(** The reason the audit trail shows. *)
Definition prefix_string (p : Prefix) : string := addr_string (paddr p) +:+ "/" +:+ itoa (pbits p).
Definition deny_reason_string (r : deny_reason) : string :=
  match r with
  | DInvalid => "invalid address"
  | DMetadata => "cloud metadata endpoint (link-local, T9)"
  | DLoopback => "loopback"
  | DUnspecified => "unspecified address"
  | DLinkLocal => "link-local"
  | DMulticast => "multicast"
  | DInterfaceLocalMulticast => "interface-local multicast"
  | DPrivate => "private (RFC1918/ULA)"
  | DReserved p => "reserved/special-use range " +:+ prefix_string p
  end.

Definition denied (ip : Addr) : bool := bool_decide (IsUnconditionallyDenied ip <> None).

Example den1 : IsUnconditionallyDenied (ip4 10 1 2 3) = Some DPrivate. Proof. reflexivity. Qed.
Example den2 : IsUnconditionallyDenied (ip4 8 8 8 8) = None. Proof. vm_compute. reflexivity. Qed.
Example den3 : option_map IsUnconditionallyDenied (ParseAddr "64:ff9b::a9fe:a9fe")
  = Some (Some (DReserved (prefix6 [0x64; 0xff9b; 0; 0; 0; 0; 0; 0] 96))).
Proof. vm_compute. reflexivity. Qed.
(** ** Denied ranges as intervals *)

Definition in_ranges (rs : list (Z * Z)) (a : Z) : bool :=
  existsb (fun r => (r.1 <=? a) && (a <=? r.2)) rs.

(** The IPv4 destinations no policy can open, first and last address. *)
Definition denied_ranges4 : list (Z * Z) :=
  [(quad [0;0;0;0], quad [0;255;255;255]);          (* this network, unspecified *)
   (quad [10;0;0;0], quad [10;255;255;255]);        (* RFC1918 *)
   (quad [100;64;0;0], quad [100;127;255;255]);     (* carrier-grade NAT *)
   (quad [127;0;0;0], quad [127;255;255;255]);      (* loopback *)
   (quad [169;254;0;0], quad [169;254;255;255]);    (* link-local, metadata *)
   (quad [172;16;0;0], quad [172;31;255;255]);      (* RFC1918 *)
   (quad [192;0;0;0], quad [192;0;0;255]);
   (quad [192;0;2;0], quad [192;0;2;255]);
   (quad [192;168;0;0], quad [192;168;255;255]);    (* RFC1918 *)
   (quad [198;18;0;0], quad [198;19;255;255]);
   (quad [198;51;100;0], quad [198;51;100;255]);
   (quad [203;0;113;0], quad [203;0;113;255]);
   (quad [224;0;0;0], quad [239;255;255;255]);      (* multicast *)
   (quad [240;0;0;0], quad [255;255;255;255])].     (* class E, broadcast *)

(** The same for IPv6 addresses that are not IPv4-mapped. *)
Definition denied_ranges6 : list (Z * Z) :=
  [(0, 0); (1, 1);                                                      (* ::, ::1 *)
   (groups_value [0x64;0xff9b;0;0;0;0;0;0], groups_value [0x64;0xff9b;0;0;0;0;0xffff;0xffff]);
   (groups_value [0x64;0xff9b;1;0;0;0;0;0],
    groups_value [0x64;0xff9b;1;0xffff;0xffff;0xffff;0xffff;0xffff]);
   (groups_value [0x100;0;0;0;0;0;0;0], groups_value [0x100;0;0;0;0xffff;0xffff;0xffff;0xffff]);
   (groups_value [0x2001;0xdb8;0;0;0;0;0;0],
    groups_value [0x2001;0xdb8;0xffff;0xffff;0xffff;0xffff;0xffff;0xffff]);
   (groups_value [0xfc00;0;0;0;0;0;0;0],
    groups_value [0xfdff;0xffff;0xffff;0xffff;0xffff;0xffff;0xffff;0xffff]);   (* unique local *)
   (groups_value [0xfe80;0;0;0;0;0;0;0],
    groups_value [0xfebf;0xffff;0xffff;0xffff;0xffff;0xffff;0xffff;0xffff]);   (* link-local *)
   (groups_value [0xff00;0;0;0;0;0;0;0], 2^128 - 1)].                          (* multicast *)

Lemma shiftr_lxor_eqb a b n : 0 <= n -> (Z.shiftr (Z.lxor a b) n =? 0) = (a / 2^n =? b / 2^n).
Proof.
  intros Hn. rewrite Z.shiftr_lxor, !Z.shiftr_div_pow2 by done.
  apply eq_true_iff_eq. rewrite !Z.eqb_eq. split; [apply Z.lxor_eq|intros ->; apply Z.lxor_nilpotent].
Qed.

Lemma land_240 x : 0 <= x < 256 -> Z.land x 240 = x / 16 * 16.
Proof.
  intros Hx. apply Z.eqb_eq. apply (forallb_range 256 (fun x => Z.land x 240 =? x / 16 * 16));
    [by vm_compute|done].
Qed.

Lemma land_254 x : 0 <= x < 256 -> Z.land x 254 = x / 2 * 2.
Proof.
  intros Hx. apply Z.eqb_eq. apply (forallb_range 256 (fun x => Z.land x 254 =? x / 2 * 2));
    [by vm_compute|done].
Qed.

Lemma v6_div a i : 0 <= i <= 15 -> v6 a i = (a / 2^(8 * (15 - i))) mod 256.
Proof. intros Hi. unfold v6. rewrite Z.shiftr_div_pow2 by lia. by rewrite (Z.land_ones _ 8). Qed.

Lemma v6u16_div a i : 0 <= i <= 7 -> v6u16 a i = (a / 2^(16 * (7 - i))) mod 65536.
Proof. intros Hi. unfold v6u16. rewrite Z.shiftr_div_pow2 by lia. by rewrite (Z.land_ones _ 16). Qed.

Lemma Contains4 a b c d n x :
  0 <= n <= 32 ->
  Contains (prefix4 a b c d n) (A4 x) = (quad [a; b; c; d] / 2^(32 - n) =? x / 2^(32 - n)).
Proof. intros Hn. unfold Contains, prefix4, ip4. cbn [hasZone paddr pbits]. by apply shiftr_lxor_eqb; lia. Qed.

Lemma Contains6 gs n x :
  0 <= n <= 128 ->
  Contains (prefix6 gs n) (A6 x "") = (groups_value gs / 2^(128 - n) =? x / 2^(128 - n)).
Proof. intros Hn. unfold Contains, prefix6. cbn [hasZone paddr pbits]. by apply shiftr_lxor_eqb; lia. Qed.

Lemma denied_Unmap ip : denied (Unmap ip) = denied ip.
Proof. unfold denied, IsUnconditionallyDenied. by rewrite Unmap_idem. Qed.

(** [denied] as one disjunction of its tests. *)
Lemma denied_tests ip :
  Unmap ip = ip ->
  denied ip = negb (IsValid ip) || bool_decide (ip = metadataIP) || IsLoopback ip
    || IsUnspecified ip || IsLinkLocalUnicast ip || IsLinkLocalMulticast ip || IsMulticast ip
    || IsInterfaceLocalMulticast ip || IsPrivate ip
    || existsb (fun p => Contains p ip) deniedPrefixes.
Proof.
  intros Hu. unfold denied, IsUnconditionallyDenied. rewrite Hu.
  assert ((find (fun p => Contains p ip) deniedPrefixes <> None) <->
    existsb (fun p => Contains p ip) deniedPrefixes = true) as Hf.
  { generalize deniedPrefixes as l. induction l as [|p l IH]; cbn; [done|].
    destruct (Contains p ip); cbn; [done|apply IH]. }
  repeat match goal with |- context [if ?b then Some _ else _] =>
    destruct b; cbn [orb]; rewrite ?orb_true_r, ?orb_true_l; [by apply bool_decide_eq_true|] end.
  destruct (existsb _ _) eqn:E.
  - apply bool_decide_eq_true. destruct (find _ _); [done|]. by destruct Hf as [_ []].
  - apply bool_decide_eq_false. destruct (find _ _); [|naive_solver]. cbn. intros _.
    by specialize (proj1 Hf ltac:(done)).
Qed.

(** A boolean equation as an equivalence of propositions. *)
Ltac to_ranges :=
  unfold in_ranges; cbn [existsb fst snd];
  apply eq_true_iff_eq;
  rewrite ?orb_true_iff, ?andb_true_iff, ?bool_decide_eq_true, ?Z.eqb_eq, ?Z.leb_le.

(** Prove a disjunction by the one disjunct that arithmetic proves. *)
Ltac one_disjunct :=
  lazymatch goal with
  | |- _ \/ _ => first [left; one_disjunct | right; one_disjunct]
  | |- _ => Z.to_euclidean_division_equations; lia
  end.

Ltac each_disjunct H :=
  lazymatch type of H with
  | _ \/ _ => destruct H as [H|H]; each_disjunct H
  | _ => first [discriminate H | one_disjunct]
  end.

Lemma denied4_ranges a : 0 <= a < 2^32 -> denied (A4 a) = in_ranges denied_ranges4 a.
Proof.
  intros (b0 & b1 & b2 & b3 & H0 & H1 & H2 & H3 & ->)%octets.
  destruct (quad_bits b0 b1 b2 b3 H0 H1 H2 H3) as (V0 & V1 & V2 & V3 & D24 & D28 & D22 & D17 & D8).
  rewrite denied_tests by done.
  unfold IsLoopback, IsLinkLocalUnicast, IsLinkLocalMulticast, IsMulticast, IsPrivate, IsUnspecified.
  cbn [Unmap IsValid negb IsInterfaceLocalMulticast]. rewrite !V0, !V1, !V2.
  rewrite !land_240 by done. unfold deniedPrefixes, denied_ranges4. cbn [existsb].
  rewrite !Contains4 by lia. cbn [Contains hasZone prefix6 paddr].
  change (32 - 10) with 22. change (32 - 8) with 24. change (32 - 24) with 8.
  change (32 - 15) with 17. change (32 - 4) with 28. rewrite D22, D24, D8, D17, D28.
  set (a := quad [b0; b1; b2; b3]).
  assert (A4 a = metadataIP <-> a = quad [169;254;169;254]) as Hm by (split; [by intros [=]|by intros ->]).
  assert (A4 a = A4 0 \/ A4 a = A6 0 "" <-> a = 0) as Hz.
  { split; [by intros [[=]|[=]]|intros ->; by left]. }
  to_ranges. rewrite Hm, Hz. clear -H0 H1 H2 H3. subst a.
  rewrite !quad_eq.
  repeat match goal with |- context [?x / 2^?n] => let v := eval vm_compute in (x / 2^n) in change (x / 2^n) with v end.
  split; intros H; each_disjunct H.
Qed.

Lemma div_interval a d k : 0 < d -> a / d = k <-> k * d <= a <= k * d + d - 1.
Proof. intros Hd. split; [intros <-|intros H]; [|symmetry; apply (Z.div_unique a d k (a - k * d))]; Z.to_euclidean_division_equations; lia. Qed.

Lemma div_eq_interval c a n : 0 <= n ->
  c / 2^n = a / 2^n <-> c / 2^n * 2^n <= a <= c / 2^n * 2^n + 2^n - 1.
Proof. intros Hn. rewrite <- div_interval by (by apply Z.pow_pos_nonneg). split; congruence. Qed.

Lemma land_65472 g : 0 <= g < 65536 -> Z.land g 65472 = g / 64 * 64.
Proof.
  intros Hg. change 65472 with (Z.ldiff (Z.ones 16) (Z.ones 6)).
  rewrite Z.ldiff_land, Z.land_assoc, <- Z.ldiff_land, Z.land_ones by lia.
  rewrite Z.mod_small by (change (2^16) with 65536; lia).
  rewrite Z.ldiff_ones_r, Z.shiftl_mul_pow2, Z.shiftr_div_pow2 by lia. done.
Qed.

Lemma land_65295 g c : 0 <= g < 65536 -> 65280 <= c < 65536 -> Z.land g 65295 = c -> g / 256 = 255.
Proof.
  intros Hg Hc H. apply (f_equal (fun x => Z.shiftr x 8)) in H.
  rewrite Z.shiftr_land in H. change (Z.shiftr 65295 8) with (Z.ones 8) in H.
  rewrite Z.land_ones, !Z.shiftr_div_pow2 in H by lia. change (2^8) with 256 in H.
  Z.to_euclidean_division_equations; lia.
Qed.

(** The tests of [IsUnconditionallyDenied] on an IPv6 address, by its first group. *)
Lemma denied6_ranges a :
  0 <= a < 2^128 -> Is4In6 (A6 a "") = false -> denied (A6 a "") = in_ranges denied_ranges6 a.
Proof.
  intros Ha Hm. assert (Unmap (A6 a "") = A6 a "") as Hu by (unfold Unmap; by rewrite Hm).
  rewrite denied_tests by done.
  unfold IsLoopback, IsLinkLocalUnicast, IsLinkLocalMulticast, IsMulticast, IsPrivate, IsUnspecified.
  rewrite Hu. cbn [IsValid negb IsInterfaceLocalMulticast]. rewrite Hm. cbn [negb andb].
  rewrite !v6u16_div, !v6_div by lia.
  change (2^(16 * (7 - 0))) with (2^112). change (2^(8 * (15 - 0))) with (2^112 * 2^8).
  rewrite <- (Z.div_div a (2^112)) by lia. set (g := a / 2^112).
  assert (0 <= g < 65536 /\ exists r, 0 <= r < 2^112 /\ a = g * 2^112 + r) as [Hg (r & Hr & Hagr)].
  { subst g. pose proof (Z.div_mod a (2^112) ltac:(lia)). pose proof (Z.mod_pos_bound a (2^112) ltac:(lia)).
    split; [|exists (a mod 2^112); lia]. split; [apply Z.div_pos; lia|]. apply Z.div_lt_upper_bound; lia. }
  clearbody g. rewrite (Z.mod_small g), (Z.mod_small (g / 2^8))
    by (try done; change (2^8) with 256; Z.to_euclidean_division_equations; lia).
  rewrite land_65472 by done.
  rewrite land_254 by (change (2^8) with 256; Z.to_euclidean_division_equations; lia).
  unfold deniedPrefixes, denied_ranges6. cbn [existsb]. rewrite !Contains6 by lia.
  cbn [Contains hasZone prefix4 ip4 paddr negb String.eqb].
  assert (A6 a "" = A4 0 \/ A6 a "" = A6 0 "" <-> a = 0) as Hz.
  { split; [by intros [[=]|[=]]|intros ->; by right]. }
  pose proof (land_65295 g 65282 Hg ltac:(lia)) as Hf1.
  pose proof (land_65295 g 65281 Hg ltac:(lia)) as Hf2. change (2^8) with 256.
  to_ranges. rewrite Hz. assert (A6 a "" = metadataIP <-> False) as -> by done.
  rewrite !div_eq_interval by lia. clear Hm Hu Hz.
  repeat match goal with |- context [?x * 2^?n] =>
    lazymatch x with _ / _ => let v := eval vm_compute in (x * 2^n) in change (x * 2^n) with v end end.
  repeat match goal with |- context [groups_value ?x] =>
    let v := eval vm_compute in (groups_value x) in change (groups_value x) with v end.
  split; intros H; each_disjunct H.
Qed.

(** For an unzoned address, the destinations that are
    refused whatever the allowlist says are exactly the invalid address and
    the listed intervals, an IPv4-mapped IPv6 address being judged as the
    IPv4 address it carries. *)
Theorem IsUnconditionallyDenied_ranges ip :
  addr_wf ip -> hasZone ip = false ->
  denied ip =
  match Unmap ip with
  | AInvalid => true
  | A4 a => in_ranges denied_ranges4 a
  | A6 a _ => in_ranges denied_ranges6 a
  end.
Proof.
  intros Hwf Hz. rewrite <- denied_Unmap. pose proof (Unmap_wf ip Hwf) as Hu.
  pose proof (Unmap_not_4in6 ip) as Hm.
  destruct (Unmap ip) as [|a|a z] eqn:E; [done|by apply denied4_ranges|].
  assert (z = "") as ->; [|by apply denied6_ranges].
  destruct ip as [|b|b w]; cbn in E; [done..|]. destruct (Z.shiftr b 32 =? 65535); [done|].
  injection E as -> ->. cbn in Hz. by destruct (String.eqb_spec z "").
Qed.

Lemma IsUnconditionallyDenied_ranges_witness :
  addr_wf (A6 (65535 * 2^32 + quad [169;254;169;254]) "") /\
  denied (A6 (65535 * 2^32 + quad [169;254;169;254]) "") = true.
Proof.
  split; [cbn; lia|].
  refine (eq_trans (IsUnconditionallyDenied_ranges _ _ _) _); [cbn; lia|reflexivity|].
  vm_compute. reflexivity.
Defined.

