(* ===== verification/SandboxModel.v ===== *)
(** * Sandbox data and validation (src/internal/model)

    The records of sandbox.go, egress.go and guest_identity.go with the
    [Validate] method of each. A [*ValidationError] keeps the field it names;
    [nestField] prefixes the parent's. The theorems say what a validated value
    is: an image reference follows the digest-pinned grammar exactly, launch
    options have distinct unprivileged host ports whatever order Go iterates
    its map in, an attestation carries no claim its signature does not cover. *)

From Stdlib Require Import ZArith Lia Ascii String.
From stdpp Require Import base list strings gmap sorting.
From S2P Require Import Prelude GoStrings Regex TaskId Netip.

Local Open Scope string_scope.
Local Open Scope list_scope.
Local Open Scope Z_scope.

Abbreviation invalid f := (Err (ValidationError f)).
Abbreviation verr := (res model_err unit).

(** [invalid_if b f] is [if b { return &ValidationError{Field: f} }]. *)
Definition invalid_if (b : bool) (f : string) : verr := err_if b (ValidationError f).

Definition one_of (vs : list string) (s : string) : bool := bool_decide (s ∈ vs).

(** ** Vocabularies *)
Definition NetworkModeNone := "none".
Definition NetworkModeAllowlist := "allowlist".
Definition NetworkModeOpen := "open".

Definition validBackends : list string := ["kvm"; "vzf"; "hyperv"; "libkrun"; "container"].
Definition validStates : list string :=
  ["created"; "running"; "suspended"; "landed"; "destroyed"; "dead"].
Definition ValidSandboxState (s : string) : bool := one_of validStates s.

(** ** Patterns *)
Definition sep_re : re := RCls (fun a => existsb (Ascii.eqb a) ["."; "_"; "-"]%char).
(** [^[a-z0-9]+(?:[._-][a-z0-9]+)* $] *)
Definition imageNameComponentRe : re :=
  RCat (rplus (RCls cls_lower_num)) (RStar (RCat sep_re (rplus (RCls cls_lower_num)))).
(** [^[0-9]+$] *)
Definition registryPortRe : re := rplus (RCls is_digit).
(** [^sha256:[a-f0-9]{64}$], [^[a-f0-9]{40}$], [^[a-f0-9]{64}$] *)
Definition sha256HexRe : re := rexact 64 (RCls cls_hex).
Definition sha1HexRe : re := rexact 40 (RCls cls_hex).
Definition sha256DigestRe : re := RCat (rlit "sha256:") sha256HexRe.
(** [^[a-z0-9*][a-z0-9.*:-]{0,252}(?:/[0-9]{1,3})?$] *)
Definition allowlistEntryRe : re :=
  RCat (RCls (fun a => cls_lower_num a || Ascii.eqb a "*"))
    (RCat (rupto 252 (RCls (fun a => cls_lower_num a || existsb (Ascii.eqb a) ["."; "*"; ":"; "-"]%char)))
       (ropt (RCat (rchar slash) (RCat (RCls is_digit) (rupto 2 (RCls is_digit)))))).

(** ** Image references *)
Definition maxImageRefLen : nat := 512.

Definition check_component (first : bool) (component : string) : verr :=
  let '(host, port, hasPort) := cut colon component in
  _ ← invalid_if (hasPort && (negb first || negb (re_match registryPortRe port))) "image_ref";
  invalid_if (negb (re_match imageNameComponentRe host)) "image_ref".

Definition ValidateImageRef (ref : string) : verr :=
  _ ← invalid_if (maxImageRefLen <? String.length ref)%nat "image_ref";
  let '(name, digest, found) := cut "@" ref in
  _ ← invalid_if (negb found || negb (re_match sha256DigestRe digest)) "image_ref";
  match split slash name with
  | [] => Ok tt
  | c :: cs => _ ← check_component true c; forM_ (check_component false) cs
  end.

(** ** Network policy *)
Definition NetworkRiskNote (mode : string) : bool := String.eqb mode NetworkModeOpen.

Record NetworkPolicy := mkNetworkPolicy { Mode : string; Allowlist_ : list string }.

Definition NetworkPolicy_Validate (p : NetworkPolicy) : verr :=
  if one_of [NetworkModeNone; NetworkModeOpen] (Mode p) then
    invalid_if (0 <? length (Allowlist_ p))%nat "allowlist"
  else if String.eqb (Mode p) NetworkModeAllowlist then
    forM_ (fun e => invalid_if (negb (re_match allowlistEntryRe e)) "allowlist") (Allowlist_ p)
  else invalid "mode".

(** ** Published ports *)
Definition minUnprivilegedPort : Z := 1024.
Record PortPublish := mkPortPublish { HostPort : Z; GuestPort : Z }.

Definition PortPublish_Validate (p : PortPublish) : verr :=
  _ ← invalid_if ((HostPort p <? minUnprivilegedPort) || (65535 <? HostPort p)) "host_port";
  invalid_if ((GuestPort p <? 1) || (65535 <? GuestPort p)) "guest_port".

(** [seen] is the set of host ports of the mappings before. *)
Fixpoint publish_loop (seen : list Z) (ports : list PortPublish) : verr :=
  match ports with
  | [] => Ok tt
  | pp :: ports =>
      _ ← PortPublish_Validate pp;
      _ ← invalid_if (bool_decide (HostPort pp ∈ seen)) "host_port";
      publish_loop (HostPort pp :: seen) ports
  end.
Definition validatePublishPorts (ports : list PortPublish) : verr := publish_loop [] ports.

Definition nestField {A} (parent : string) (r : res model_err A) : res model_err A :=
  res_map_err (fun e => match e with
    | ValidationError f => ValidationError (parent +:+ "." +:+ f)
    | e => e end) r.

(** ** Launch options *)
Record SandboxLaunchOptions := mkLaunch {
  lo_SandboxID : string; lo_TaskID : string; lo_WorktreePath : string; lo_ImageRef : string;
  lo_Network : NetworkPolicy; lo_CPUs : Z; lo_MemoryMB : Z; lo_DiskQuotaMB : Z; lo_TTL : Z;
  lo_ConfineAgent : bool; lo_PublishPorts : list PortPublish; lo_NoGuestRepo : bool
}.

Definition launch_limits (o : SandboxLaunchOptions) : list (string * Z) :=
  [("cpus", lo_CPUs o); ("memory_mb", lo_MemoryMB o);
   ("disk_quota_mb", lo_DiskQuotaMB o); ("ttl_ns", lo_TTL o)].

(** The resource check ranges over a Go map: [order] is the order this run
    visits it in. *)
Definition Launch_Validate (order : list (string * Z) -> list (string * Z))
    (o : SandboxLaunchOptions) : verr :=
  _ ← validateTaskIDField (lo_TaskID o);
  _ ← invalid_if (String.eqb (lo_WorktreePath o) "") "worktree_path";
  _ ← ValidateImageRef (lo_ImageRef o);
  _ ← nestField "network" (NetworkPolicy_Validate (lo_Network o));
  _ ← nestField "publish_ports" (validatePublishPorts (lo_PublishPorts o));
  forM_ (fun fv => invalid_if (fv.2 <? 0) fv.1) (order (launch_limits o)).

(** ** Registered sandboxes *)
Record BootFailure := mkBootFailure { bf_At : time; bf_Cause : string }.

Record SandboxInfo := mkInfo {
  si_ID : string; si_TaskID : string; si_WorktreePath : string; si_Backend : string;
  si_ImageDigest : string; si_NetworkMode : string; si_NetworkAllowlist : list string;
  si_State : string; si_MemoryMB : Z; si_CPUs : Z; si_DiskQuotaMB : Z;
  si_CreatedAt : time; si_ExpiresAt : time; si_PublishPorts : list PortPublish;
  si_LastBootFailure : option BootFailure
}.

Definition SandboxInfo_Validate (s : SandboxInfo) : verr :=
  _ ← invalid_if (String.eqb (si_ID s) "") "id";
  _ ← validateTaskIDField (si_TaskID s);
  _ ← invalid_if (String.eqb (si_WorktreePath s) "") "worktree_path";
  _ ← invalid_if (negb (one_of validBackends (si_Backend s))) "backend";
  _ ← invalid_if (negb (re_match sha256DigestRe (si_ImageDigest s))) "image_digest";
  _ ← invalid_if (negb (String.eqb (si_State s) "") && negb (ValidSandboxState (si_State s))) "state";
  _ ← nestField "publish_ports" (validatePublishPorts (si_PublishPorts s));
  nestField "network"
    (NetworkPolicy_Validate (mkNetworkPolicy (si_NetworkMode s) (si_NetworkAllowlist s))).

(** ** Guest identity (guest_identity.go) *)
Record GuestIdentity := mkIdentity { UID : Z; GID : Z; Name : string; Home : string }.

Definition RootIdentity : GuestIdentity := mkIdentity 0 0 "root" "/root".
Definition IsRoot (g : GuestIdentity) : bool := UID g =? 0.

(** [^[a-z_][a-z0-9_-]{0,31}$] *)
Definition identityNamePattern : re :=
  RCat (RCls (fun a => is_lower a || Ascii.eqb a "_"))
    (rupto 31 (RCls (fun a => cls_lower_num a || Ascii.eqb a "_" || Ascii.eqb a "-"))).

Definition hasDotDot (p : string) : bool := existsb (String.eqb "..") (split slash p).

Definition GuestIdentity_Validate (g : GuestIdentity) : verr :=
  _ ← invalid_if (UID g <? 0) "uid";
  _ ← invalid_if (GID g <? 0) "gid";
  _ ← invalid_if (negb (String.eqb (Name g) "") && negb (re_match identityNamePattern (Name g))) "name";
  if String.eqb (Home g) "" then Ok tt
  else invalid_if (negb (is_abs (Home g)) || negb (String.eqb (clean (Home g)) (Home g))
                   || hasDotDot (Home g)) "home".

Definition IdentityForProcess (uid gid : Z) : GuestIdentity :=
  if uid =? 0 then RootIdentity else mkIdentity uid gid "agent" "/home/agent".

(** ** Exec requests *)
Record ExecRequest := mkExec {
  Command : list string; Dir : string; Env : list string; Timeout_ : Z;
  RunAs : option GuestIdentity; AsRoot : bool
}.

Definition ExecRequest_Validate (r : ExecRequest) : verr :=
  _ ← invalid_if (length (Command r) =? 0)%nat "command";
  _ ← invalid_if (Timeout_ r <? 0) "timeout_ns";
  match RunAs r with
  | None => Ok tt
  | Some g =>
      _ ← nestField "run_as" (GuestIdentity_Validate g);
      invalid_if (AsRoot r && negb (IsRoot g)) "run_as"
  end.

(** ** Attestations *)
Record Attestation := mkAttestation {
  at_SandboxID : string; at_BaseDigest : string; at_PayloadVersion : Z; at_CommitHash : string;
  at_ContentHash : string; at_Alg : string; at_KeyID : string; at_HostSignature : list ascii;
  at_IssuedAt : time
}.

Record AttestationSubject := mkSubject {
  sub_SandboxID : string; sub_CommitHash : string; sub_ContentHash : string; sub_BaseDigest : string
}.

Definition AlgEd25519 := "ed25519".
Definition AttestPayloadOriginal : Z := 1.
Definition AttestPayloadWithBase : Z := 2.

Definition validatePayloadLayout (a : Attestation) : verr :=
  if (at_PayloadVersion a =? 0) || (at_PayloadVersion a =? AttestPayloadOriginal) then
    invalid_if (negb (String.eqb (at_BaseDigest a) "")) "base_digest"
  else invalid_if (negb (at_PayloadVersion a =? AttestPayloadWithBase)) "payload_version".

Definition Attestation_Validate (a : Attestation) : verr :=
  _ ← invalid_if (String.eqb (at_SandboxID a) "") "sandbox_id";
  _ ← invalid_if (negb (re_match sha1HexRe (at_CommitHash a))) "commit_hash";
  _ ← invalid_if (negb (re_match sha256HexRe (at_ContentHash a))) "content_hash";
  _ ← invalid_if (String.eqb (at_Alg a) "" || String.eqb (at_KeyID a) "") "alg";
  _ ← invalid_if (length (at_HostSignature a) =? 0)%nat "host_signature";
  _ ← validatePayloadLayout a;
  invalid_if (at_IssuedAt a =? 0) "issued_at".

(** ** Capability requests and grants *)
Definition CapabilityEgress := "egress".
Definition CapabilitySSHAgent := "ssh_agent".
Definition CapabilityOpenNetwork := "open_network".
Definition CapabilityMount := "mount".

Record CapabilityRequest := mkCapReq {
  cr_SandboxID : string; cr_TaskID : string; cr_Capability : string;
  cr_ObservedDestIP : string; cr_ObservedDestPort : Z
}.

#[export] Instance CapabilityRequest_eq_dec : EqDecision CapabilityRequest.
Proof. solve_decision. Defined.

Definition CapabilityRequest_Validate (c : CapabilityRequest) : verr :=
  _ ← invalid_if (String.eqb (cr_SandboxID c) "") "sandbox_id";
  _ ← validateTaskIDField (cr_TaskID c);
  if String.eqb (cr_Capability c) CapabilityEgress then
    _ ← invalid_if (bool_decide (ParseAddr (cr_ObservedDestIP c) = None)) "observed_dest_ip";
    invalid_if ((cr_ObservedDestPort c <? 1) || (65535 <? cr_ObservedDestPort c)) "observed_dest_port"
  else if one_of [CapabilitySSHAgent; CapabilityOpenNetwork; CapabilityMount] (cr_Capability c)
  then Ok tt
  else invalid "capability".

Record ObservedDenial := mkDenial {
  od_SandboxID : string; od_TaskID : string; od_DestIP : Addr; od_DestPort : Z; od_Rule : string
}.

Definition RequestFromObservedDenial (d : ObservedDenial) : res model_err CapabilityRequest :=
  let req := mkCapReq (od_SandboxID d) (od_TaskID d) CapabilityEgress
               (addr_string (od_DestIP d)) (od_DestPort d) in
  _ ← CapabilityRequest_Validate req; Ok req.

Definition GrantScopeSandboxLifetime := "sandbox_lifetime".

Record CapabilityGrant := mkGrant {
  cg_SandboxID : string; cg_TaskID : string; cg_Capability : string;
  cg_ObservedDestIP : string; cg_ObservedDestPort : Z; cg_Scope : string; cg_GrantedAt : time
}.

(** [fmt.Sprintf("%s:%d", ip, port)] *)
Definition dest_key (ip : string) (port : Z) : string := ip +:+ ":" +:+ itoa port.

Definition AllowlistEntry (g : CapabilityGrant) : string :=
  dest_key (cg_ObservedDestIP g) (cg_ObservedDestPort g).
Definition Grant_Key (g : CapabilityGrant) : string :=
  if String.eqb (cg_Capability g) CapabilityEgress
  then dest_key (cg_ObservedDestIP g) (cg_ObservedDestPort g) else cg_Capability g.
Definition Request_Key (c : CapabilityRequest) : string :=
  if String.eqb (cr_Capability c) CapabilityEgress
  then dest_key (cr_ObservedDestIP c) (cr_ObservedDestPort c) else cr_Capability c.

(** ** Egress records (egress.go) *)
Definition EgressAllow := "allow".
Definition EgressDeny := "deny".
Definition MaxEgressDestHostLen : nat := 255.
Definition validEgressDecisions : list string := [EgressAllow; EgressDeny].
Definition validEgressProtocols : list string := ["tcp"; "udp"; "dns"].

Record EgressRecord := mkEgressRecord {
  er_SandboxID : string; er_TaskID : string; er_Decision : string; er_Protocol : string;
  er_DestHost : string; er_DestIP : string; er_DestPort : Z; er_Rule : string
}.

(** UTF-8, and [strings.ToValidUTF8(s, "")]: the bytes outside well-formed
    encodings dropped. *)
Definition in_range (lo hi : N) (a : ascii) : bool :=
  (lo <=? byte_of a)%N && (byte_of a <=? hi)%N.
Definition cont : ascii -> bool := in_range 128 191.
Definition utf8_2 (a b : ascii) : bool := in_range 194 223 a && cont b.
Definition utf8_3 (a b c : ascii) : bool :=
  cont c && ((in_range 224 224 a && in_range 160 191 b) || (in_range 225 236 a && cont b)
             || (in_range 237 237 a && in_range 128 159 b) || (in_range 238 239 a && cont b)).
Definition utf8_4 (a b c d : ascii) : bool :=
  cont c && cont d && ((in_range 240 240 a && in_range 144 191 b) || (in_range 241 243 a && cont b)
                       || (in_range 244 244 a && in_range 128 143 b)).

(** Each byte outside a well-formed encoding replaced. *)
Fixpoint sub_invalid (rep s : string) : string :=
  match s with
  | "" => ""
  | String a r =>
      if (byte_of a <? 128)%N then String a (sub_invalid rep r)
      else match r with
      | "" => rep
      | String b r2 =>
          if utf8_2 a b then String a (String b (sub_invalid rep r2))
          else match r2 with
          | "" => rep +:+ sub_invalid rep r
          | String c r3 =>
              if utf8_3 a b c then String a (String b (String c (sub_invalid rep r3)))
              else match r3 with
              | "" => rep +:+ sub_invalid rep r
              | String d r4 =>
                  if utf8_4 a b c d then String a (String b (String c (String d (sub_invalid rep r4))))
                  else rep +:+ sub_invalid rep r
              end
          end
      end
  end.
(** U+FFFD, which JSON writes for a byte that is not UTF-8, and a string written
    as JSON and read back. *)
Definition replacement : string := String "239" (String "191" (String "189" "")).
Definition json_text (s : string) : string := sub_invalid replacement s.
Definition to_valid_utf8 (s : string) : string := sub_invalid "" s.

Definition TruncateDestHost (host : string) : string :=
  if (String.length host <=? MaxEgressDestHostLen)%nat then host
  else to_valid_utf8 (String.substring 0 MaxEgressDestHostLen host).

Definition EgressRecord_Validate (e : EgressRecord) : verr :=
  _ ← invalid_if (String.eqb (er_SandboxID e) "") "sandbox_id";
  _ ← validateTaskIDField (er_TaskID e);
  _ ← invalid_if (negb (one_of validEgressDecisions (er_Decision e))) "decision";
  _ ← invalid_if (negb (one_of validEgressProtocols (er_Protocol e))) "protocol";
  _ ← invalid_if (MaxEgressDestHostLen <? String.length (er_DestHost e))%nat "dest_host";
  _ ← invalid_if (negb (String.eqb (er_DestIP e) "")
                  && bool_decide (ParseAddr (er_DestIP e) = None)) "dest_ip";
  invalid_if ((er_DestPort e <? 0) || (65535 <? er_DestPort e)) "dest_port".

Example trunc_ex : to_valid_utf8 (String "a" (String "226" (String "130" (String "b" "")))) = "ab".
Proof. vm_compute. reflexivity. Qed.

(** ** The image-reference grammar *)

(** The reference grammar: [name(:port)?(/name)*@sha256:<64 hex>]. *)
Definition image_ref_re : re :=
  RCat (RCat imageNameComponentRe (ropt (RCat (rchar colon) registryPortRe)))
    (RCat (RStar (RCat (rchar slash) imageNameComponentRe))
       (RCat (rchar "@") sha256DigestRe)).

Lemma in_rchar c s : in_re (rchar c) s <-> s = String c "".
Proof.
  split; [|intros ->; constructor; apply Ascii.eqb_refl].
  inversion 1; subst. f_equal. symmetry. by apply Ascii.eqb_eq.
Qed.

Lemma in_rchar_cat c r s : in_re (RCat (rchar c) r) s <-> exists t, s = String c t /\ in_re r t.
Proof.
  rewrite in_RCat. setoid_rewrite in_rchar. split.
  - intros (s1 & s2 & -> & -> & ?). eauto.
  - intros (t & -> & ?). by exists (String c ""), t.
Qed.

(** [c] before each piece. *)
Definition sep_concat (c : ascii) (ps : list string) : string :=
  fold_right (fun p s => String c p +:+ s) "" ps.

Lemma join_sep_concat c p ps : join c (p :: ps) = p +:+ sep_concat c ps.
Proof.
  revert p. induction ps as [|q ps IH]; intros p; [by rewrite sapp_nil_r|].
  change (join c (p :: q :: ps)) with (p +:+ String c (join c (q :: ps))).
  by rewrite IH.
Qed.

Lemma in_star_sep c r s :
  in_re (RStar (RCat (rchar c) r)) s <-> exists ps, s = sep_concat c ps /\ Forall (in_re r) ps.
Proof.
  split.
  - remember (RStar _) as R eqn:HR. intros H.
    induction H as [| | | | | |r0 a s1 s2 H1 _ H2 IH]; simplify_eq; [by exists []|].
    specialize (IH eq_refl) as (ps & -> & HF).
    apply in_rchar_cat in H1 as (t & [= -> ->] & Ht). exists (t :: ps). by split; [|constructor].
  - intros (ps & -> & HF). induction HF as [|p ps Hp HF IH]; [constructor|].
    apply in_star_cons; [|done]. apply in_rchar_cat. eauto.
Qed.

Lemma cut_false c s b r : cut c s = (b, r, false) -> b = s /\ contains c s = false.
Proof.
  revert b r. induction s as [|a s IH]; cbn; [by intros b r [= <- <-]|]. intros b r.
  destruct (Ascii.eqb a c); [done|]. destruct (cut c s) as [[b' r'] f].
  intros [= <- <- ->]. by destruct (IH _ _ eq_refl) as [-> ?].
Qed.

Lemma component_no c s :
  re_over (fun a => negb (Ascii.eqb a c)) imageNameComponentRe = true ->
  in_re imageNameComponentRe s -> contains c s = false.
Proof. intros Ho Hs%re_match_spec. by eapply re_match_no_char. Qed.

Lemma port_no c s :
  is_digit c = false -> in_re registryPortRe s -> contains c s = false.
Proof.
  intros Hc [_ Hs]%in_rplus. by eapply contains_all_chars.
Qed.

Lemma check_component_rest c : check_component false c = Ok tt <-> in_re imageNameComponentRe c.
Proof.
  unfold check_component, invalid_if. destruct (cut colon c) as [[h p] hp] eqn:E. cbn [negb orb].
  rewrite seq_Ok, !err_if_Ok, !andb_true_r. split.
  - intros [-> Hh]. apply cut_false in E as [-> _]. apply negb_false_iff in Hh.
    by apply re_match_spec.
  - intros Hc. rewrite cut_not_found in E by (by apply component_no). simplify_eq.
    split; [done|]. by apply negb_false_iff, re_match_spec.
Qed.

Lemma check_component_first c :
  check_component true c = Ok tt <->
  in_re (RCat imageNameComponentRe (ropt (RCat (rchar colon) registryPortRe))) c.
Proof.
  unfold check_component, invalid_if. destruct (cut colon c) as [[h p] hp] eqn:E. cbn [negb orb].
  rewrite seq_Ok, !err_if_Ok, negb_false_iff, re_match_spec. split.
  - intros [Hp Hh]. destruct hp.
    + apply cut_found in E as [-> _]. cbn in Hp. apply negb_false_iff, re_match_spec in Hp.
      constructor; [done|]. apply in_alt_r, in_rchar_cat. eauto.
    + apply cut_false in E as [-> _]. rewrite <- (sapp_nil_r c). constructor; [done|].
      apply in_alt_l. constructor.
  - intros (s1 & s2 & -> & H1 & [->%in_REps|(t & -> & Ht)%in_rchar_cat]%in_RAlt)%in_RCat.
    + rewrite sapp_nil_r, cut_not_found in E by (by apply component_no). by simplify_eq.
    + rewrite cut_app in E by (by apply component_no). simplify_eq. split; [|done].
      cbn. by apply negb_false_iff, re_match_spec.
Qed.

(** A reference within the length cap is accepted exactly when it is
    in the digest-pinned grammar: the component-wise check of the code and the
    one regular expression agree. *)
Theorem ValidateImageRef_grammar (ref : string) :
  ValidateImageRef ref = Ok tt <->
  (String.length ref <= maxImageRefLen)%nat /\ in_re image_ref_re ref.
Proof.
  unfold ValidateImageRef, invalid_if. rewrite seq_Ok, err_if_Ok, Nat.ltb_ge. unfold image_ref_re. rewrite in_RCat.
  destruct (cut "@" ref) as [[name digest] found] eqn:E. split.
  - intros [Hl H]. split; [done|]. inv_res. bool_to_prop.
    destruct found; [|done]. apply cut_found in E as [-> Hn].
    pose proof (join_split slash name) as Hj.
    destruct (split slash name) as [|c cs] eqn:Es; [by apply split_not_nil in Es|].
    rewrite <- Hj. clear Hj Es. inv_res.
    exists c, (sep_concat slash cs +:+ String "@" digest). split_and!.
    + by rewrite join_sep_concat, sapp_assoc.
    + by apply check_component_first.
    + constructor.
      * apply in_star_sep. exists cs. split; [done|]. apply forM_Ok in H.
        eapply Forall_impl; [exact H|]. intros x. apply check_component_rest.
      * apply in_rchar_cat. exists digest. split; [done|]. apply re_match_spec.
        by destruct (re_match sha256DigestRe digest).
  - intros (Hl & s1 & s2 & -> & H1 & H2). split; [done|].
    apply in_RCat in H2 as (s3 & s4 & -> & (ps & -> & HF)%in_star_sep & (t & -> & Ht)%in_rchar_cat).
    rewrite <- sapp_assoc, <- join_sep_concat in E.
    assert (Hall : Forall (fun p => contains slash p = false) (s1 :: ps) /\
                   Forall (fun p => contains "@" p = false) (s1 :: ps)).
    { apply in_RCat in H1 as (u & v & -> & Hu & Hv).
      assert (forall c, re_over (fun a => negb (Ascii.eqb a c)) imageNameComponentRe = true ->
        is_digit c = false -> c <> colon -> contains c (u +:+ v) = false) as Hno.
      { intros c Hc1 Hc2 Hc3. rewrite contains_app, component_no by done. cbn.
        apply in_RAlt in Hv as [->%in_REps|(w & -> & Hw)%in_rchar_cat]; [done|].
        cbn [contains]. destruct (Ascii.eqb_spec colon c); [congruence|]. by apply port_no. }
      split; constructor; try (by apply Hno);
        (eapply Forall_impl; [exact HF|]; intros x; by apply component_no). }
    destruct Hall as [Hs Ha].
    rewrite cut_app in E.
    2:{ rewrite contains_join_false by done. by apply Forall_existsb_false. }
    simplify_eq. rewrite (proj2 (re_match_spec _ _) Ht). cbn [negb orb err_if].
    rewrite split_join by done. unfold mbind, res_bind.
    rewrite (proj2 (check_component_first s1) H1).
    apply forM_Ok. eapply Forall_impl; [exact HF|]. intros x. apply check_component_rest.
Qed.

(** ** Launch options *)

Lemma PortPublish_Validate_Ok p :
  PortPublish_Validate p = Ok tt <->
  minUnprivilegedPort <= HostPort p <= 65535 /\ 1 <= GuestPort p <= 65535.
Proof.
  unfold PortPublish_Validate, invalid_if.
  rewrite seq_Ok, !err_if_Ok, !orb_false_iff, !Z.ltb_ge. lia.
Qed.

#[local] Opaque PortPublish_Validate.

Lemma publish_loop_Ok seen ports :
  publish_loop seen ports = Ok tt <->
  Forall (fun p => PortPublish_Validate p = Ok tt) ports /\ NoDup (HostPort <$> ports) /\
  Forall (fun p => HostPort p ∉ seen) ports.
Proof.
  revert seen. induction ports as [|p ports IH]; intros seen; cbn.
  { split; [|done]. intros _. split_and!; constructor. }
  unfold invalid_if. rewrite !seq_Ok, err_if_Ok, bool_decide_eq_false, IH, !Forall_cons, NoDup_cons.
  setoid_rewrite not_elem_of_cons. rewrite Forall_and, list_elem_of_fmap, (Forall_forall (fun q => HostPort q <> _)).
  clear IH. naive_solver.
Qed.

Lemma validatePublishPorts_Ok ports :
  validatePublishPorts ports = Ok tt <->
  Forall (fun p => minUnprivilegedPort <= HostPort p <= 65535 /\ 1 <= GuestPort p <= 65535) ports /\
  NoDup (HostPort <$> ports).
Proof.
  unfold validatePublishPorts. rewrite publish_loop_Ok. setoid_rewrite PortPublish_Validate_Ok.
  split; [tauto|]. intros [? ?]. split_and!; [done..|].
  apply Forall_forall. intros p _. apply not_elem_of_nil.
Qed.

Lemma nestField_Ok {A} f (r : res model_err A) a : nestField f r = Ok a <-> r = Ok a.
Proof. apply res_map_err_Ok. Qed.

(** What a launch may ask for. *)
Record launch_valid (o : SandboxLaunchOptions) : Prop := {
  lv_task : exists t, ParseTaskID (lo_TaskID o) = Ok t;
  lv_worktree : lo_WorktreePath o <> "";
  lv_image : (String.length (lo_ImageRef o) <= maxImageRefLen)%nat /\ in_re image_ref_re (lo_ImageRef o);
  lv_network : NetworkPolicy_Validate (lo_Network o) = Ok tt;
  lv_ports : Forall (fun p => minUnprivilegedPort <= HostPort p <= 65535 /\ 1 <= GuestPort p <= 65535)
               (lo_PublishPorts o);
  lv_distinct : NoDup (HostPort <$> lo_PublishPorts o);
  lv_limits : 0 <= lo_CPUs o /\ 0 <= lo_MemoryMB o /\ 0 <= lo_DiskQuotaMB o /\ 0 <= lo_TTL o
}.

Lemma validateTaskIDField_Ok id : validateTaskIDField id = Ok tt <-> exists t, ParseTaskID id = Ok t.
Proof.
  unfold validateTaskIDField. destruct (String.eqb_spec id "") as [->|].
  - split; [done|]. intros [t Ht]. vm_compute in Ht. done.
  - destruct (ParseTaskID id); naive_solver.
Qed.

#[local] Opaque validatePublishPorts ValidateImageRef NetworkPolicy_Validate validateTaskIDField.

(** Launch options are accepted exactly when they are valid, in
    whatever order the resource map is visited. *)
Theorem Launch_Validate_spec order (o : SandboxLaunchOptions) :
  order (launch_limits o) ≡ₚ launch_limits o ->
  Launch_Validate order o = Ok tt <-> launch_valid o.
Proof.
  intros Hp. unfold Launch_Validate, invalid_if.
  rewrite !seq_Ok, !nestField_Ok, validateTaskIDField_Ok, ValidateImageRef_grammar,
    validatePublishPorts_Ok, err_if_Ok, forM_Ok, Hp, String.eqb_neq.
  setoid_rewrite err_if_Ok. setoid_rewrite Z.ltb_ge.
  unfold launch_limits. rewrite !Forall_cons. cbn [fst snd]. split.
  - intros (H1 & H2 & H3 & H4 & (H5 & H6) & H7). split; naive_solver.
  - intros [H1 H2 H3 H4 H5 H6 H7]. split_and!; first [done|tauto|constructor].
Qed.

Definition sample_launch : SandboxLaunchOptions :=
  mkLaunch "" "MGIT-1.2" "/w" ("ghcr.io:443/acme/base@sha256:" +:+
    "0123456789abcdef0123456789abcdef0123456789abcdef0123456789abcdef")
    (mkNetworkPolicy NetworkModeAllowlist ["*.golang.org:443"; "1.2.3.0/24"]) 2 0 0 0 false
    [mkPortPublish 8080 80; mkPortPublish 8081 80] false.

Lemma Launch_Validate_spec_witness :
  Launch_Validate (fun l => rev l) sample_launch = Ok tt /\ launch_valid sample_launch.
Proof.
  assert (Launch_Validate (fun l => rev l) sample_launch = Ok tt) as H by (vm_compute; reflexivity).
  split; [exact H|]. refine (proj1 (Launch_Validate_spec (fun l => rev l) sample_launch _) H).
  symmetry. apply Permutation_rev.
Defined.

(** ** Truncated host names *)

Definition valid_utf8 (s : string) : Prop := to_valid_utf8 s = s.

Lemma string_length_ind (P : string -> Prop) :
  (forall s, (forall t, (String.length t < String.length s)%nat -> P t) -> P s) -> forall s, P s.
Proof.
  intros H s. remember (String.length s) as n eqn:Hn. revert s Hn.
  induction (lt_wf n) as [n _ IH]. intros s ->. apply H. intros t Ht. by eapply IH.
Qed.

Section SubInvalid.
Context (rep : string).

Lemma utf8_1_eq a r : (byte_of a <? 128)%N = true -> sub_invalid rep (String a r) = String a (sub_invalid rep r).
Proof. intros E. cbn [sub_invalid]. by rewrite E. Qed.

Lemma utf8_2_eq a b r : (byte_of a <? 128)%N = false -> utf8_2 a b = true ->
  sub_invalid rep (String a (String b r)) = String a (String b (sub_invalid rep r)).
Proof. intros E E2. cbn [sub_invalid]. by rewrite E, E2. Qed.

Lemma utf8_3_eq a b c r : (byte_of a <? 128)%N = false -> utf8_2 a b = false -> utf8_3 a b c = true ->
  sub_invalid rep (String a (String b (String c r))) = String a (String b (String c (sub_invalid rep r))).
Proof. intros E E2 E3. cbn [sub_invalid]. by rewrite E, E2, E3. Qed.

Lemma utf8_4_eq a b c d r :
  (byte_of a <? 128)%N = false -> utf8_2 a b = false -> utf8_3 a b c = false -> utf8_4 a b c d = true ->
  sub_invalid rep (String a (String b (String c (String d r))))
  = String a (String b (String c (String d (sub_invalid rep r)))).
Proof. intros E E2 E3 E4. cbn [sub_invalid]. by rewrite E, E2, E3, E4. Qed.

(** One step of the scan: a well-formed encoding kept, or one byte replaced. *)
Lemma sub_invalid_step (P : string -> string -> Prop) s :
  P "" "" ->
  (forall a r, (byte_of a <? 128)%N = true -> P (String a r) (String a (sub_invalid rep r))) ->
  (forall a b r, (byte_of a <? 128)%N = false -> utf8_2 a b = true ->
    P (String a (String b r)) (String a (String b (sub_invalid rep r)))) ->
  (forall a b c r, (byte_of a <? 128)%N = false -> utf8_2 a b = false -> utf8_3 a b c = true ->
    P (String a (String b (String c r))) (String a (String b (String c (sub_invalid rep r))))) ->
  (forall a b c d r, (byte_of a <? 128)%N = false -> utf8_2 a b = false -> utf8_3 a b c = false ->
    utf8_4 a b c d = true ->
    P (String a (String b (String c (String d r))))
      (String a (String b (String c (String d (sub_invalid rep r)))))) ->
  (forall a r, P (String a r) (rep +:+ sub_invalid rep r)) ->
  P s (sub_invalid rep s).
Proof.
  intros H0 H1 H2 H3 H4 Hd. destruct s as [|a r]; [done|].
  destruct (byte_of a <? 128)%N eqn:Ea; [rewrite utf8_1_eq by done; by apply H1|].
  assert (sub_invalid rep (String a r) = rep +:+ sub_invalid rep r -> P (String a r) (sub_invalid rep (String a r))) as Hdrop.
  { intros ->. apply Hd. }
  destruct r as [|b r2]; [apply Hdrop; cbn; rewrite Ea; by rewrite sapp_nil_r|].
  destruct (utf8_2 a b) eqn:E2; [rewrite utf8_2_eq by done; by apply H2|].
  destruct r2 as [|c r3].
  { apply Hdrop. cbn [sub_invalid]. by rewrite Ea, E2. }
  destruct (utf8_3 a b c) eqn:E3; [rewrite utf8_3_eq by done; by apply H3|].
  destruct r3 as [|d r4].
  { apply Hdrop. cbn [sub_invalid]. by rewrite Ea, E2, E3. }
  destruct (utf8_4 a b c d) eqn:E4; [rewrite utf8_4_eq by done; by apply H4|].
  apply Hdrop. cbn [sub_invalid]. by rewrite Ea, E2, E3, E4.
Qed.

(** With a replacement that is itself well formed, the result is. *)
Lemma sub_invalid_idem s : (forall t, sub_invalid rep (rep +:+ t) = rep +:+ sub_invalid rep t) ->
  sub_invalid rep (sub_invalid rep s) = sub_invalid rep s.
Proof.
  intros Hrep. induction s as [s IH] using string_length_ind. revert IH.
  apply (sub_invalid_step (fun s t =>
    (forall u, (String.length u < String.length s)%nat ->
      sub_invalid rep (sub_invalid rep u) = sub_invalid rep u) -> sub_invalid rep t = t)).
  - done.
  - intros a r E IH. rewrite utf8_1_eq by done. f_equal. apply IH. cbn. lia.
  - intros a b r E1 E2 IH. rewrite utf8_2_eq by done. do 2 f_equal. apply IH. cbn. lia.
  - intros a b c r E1 E2 E3 IH. rewrite utf8_3_eq by done. do 3 f_equal. apply IH. cbn. lia.
  - intros a b c d r E1 E2 E3 E4 IH. rewrite utf8_4_eq by done. do 4 f_equal. apply IH. cbn. lia.
  - intros a r IH. rewrite Hrep. f_equal. apply IH. cbn. lia.
Qed.
End SubInvalid.

Lemma to_valid_utf8_length s : (String.length (to_valid_utf8 s) <= String.length s)%nat.
Proof.
  unfold to_valid_utf8. induction s as [s IH] using string_length_ind. revert IH.
  apply (sub_invalid_step "" (fun s t =>
    (forall u, (String.length u < String.length s)%nat ->
      (String.length (sub_invalid "" u) <= String.length u)%nat) ->
    (String.length t <= String.length s)%nat)); intros; cbn.
  all: repeat match goal with
    | |- (S _ <= S _)%nat => apply le_n_S
    | |- context ["" +:+ ?t] => change ("" +:+ t) with t
    | H : forall u, _ |- (String.length (sub_invalid "" ?t) <= S _)%nat => apply le_S
    | H : forall u, _ |- (String.length (sub_invalid "" ?t) <= String.length ?t)%nat => apply H; cbn; lia
    end.
  done.
Qed.

Lemma to_valid_utf8_idem s : valid_utf8 (to_valid_utf8 s).
Proof. by apply sub_invalid_idem. Qed.

Lemma substring_length n s : (String.length (String.substring 0 n s) <= n)%nat.
Proof.
  revert s. induction n as [|n IH]; intros [|a s]; cbn; try lia. specialize (IH s). lia.
Qed.

Lemma TruncateDestHost_length host : (String.length (TruncateDestHost host) <= MaxEgressDestHostLen)%nat.
Proof.
  unfold TruncateDestHost. destruct (Nat.leb_spec (String.length host) MaxEgressDestHostLen); [done|].
  etrans; [apply to_valid_utf8_length|apply substring_length].
Qed.
