(* ===== verification/SandboxPolicy.v ===== *)
(** * Host policy, lifecycle events and durable registrations

    The records of internal/model the sandbox service is built on: the host's
    sandbox policy with its per-sandbox maxima (sandbox_policy.go), the closed
    vocabulary of lifecycle events (sandbox_event.go), the durable form of a
    registration (sandbox_registration.go), the verdict on the identity an exec
    ran as (exec_identity.go) and the signature of a lost guest
    (guest_death.go). *)

From Stdlib Require Import ZArith Lia Ascii String.
From stdpp Require Import base tactics option list gmap strings.
From S2P Require Import Prelude.
From S2P Require Import GoStrings.
From S2P Require Import Regex.
From S2P Require Import TaskId.
From S2P Require Import SandboxModel.

Open Scope string_scope.
Open Scope Z_scope.

(** ** States *)
Definition StateCreated := "created".
Definition StateRunning := "running".
Definition StateSuspended := "suspended".
Definition StateLanded := "landed".
Definition StateDestroyed := "destroyed".
Definition StateDead := "dead".

(** ** Policy (sandbox_policy.go) *)
Record SandboxPolicy := mkPolicy {
  sp_RequireSandbox : bool; sp_Network : NetworkPolicy; sp_ImageLockRef : string;
  sp_SensitivePaths : list string;
  sp_CPUs : Z; sp_MemoryMB : Z; sp_DiskQuotaMB : Z; sp_TTL : Z;
  sp_MaxCPUs : Z; sp_MaxMemoryMB : Z; sp_MaxDiskQuotaMB : Z;
  sp_MaxConcurrentSandboxes : Z; sp_MaxTotalMemoryPercent : Z; sp_ConfineAgent : bool
}.

Definition DefaultSandboxPolicy : SandboxPolicy :=
  mkPolicy true (mkNetworkPolicy NetworkModeAllowlist []) ""
    [".claude/"; ".envrc"; ".git/hooks/"; ".vscode/"; ".cursor/"; "AGENTS.md"; "CLAUDE.md"]
    2 2048 4096 (4 * hour_ns) 8 16384 65536 8 50 false.

(** The strings of a dimension that only appear in messages are left out. *)
Record resourceDimension := mkDim {
  rd_field : string; rd_maxField : string; rd_requested : Z; rd_limit : Z; rd_def : Z }.

Definition dimensions (p : SandboxPolicy) (o : SandboxLaunchOptions) : list resourceDimension :=
  [mkDim "cpus" "max_cpus" (lo_CPUs o) (sp_MaxCPUs p) (sp_CPUs p);
   mkDim "memory_mb" "max_memory_mb" (lo_MemoryMB o) (sp_MaxMemoryMB p) (sp_MemoryMB p);
   mkDim "disk_quota_mb" "max_disk_quota_mb" (lo_DiskQuotaMB o) (sp_MaxDiskQuotaMB p) (sp_DiskQuotaMB p)].

(** The zero value of the launch options. *)
Definition no_options : SandboxLaunchOptions :=
  mkLaunch "" "" "" "" (mkNetworkPolicy "" []) 0 0 0 0 false [] false.

Definition validateResourceMaxima (p : SandboxPolicy) : verr :=
  forM_ (fun d =>
    _ ← invalid_if (rd_limit d <? 0) (rd_maxField d);
    invalid_if ((0 <? rd_limit d) && (rd_limit d <? rd_def d)) (rd_maxField d))
    (dimensions p no_options).

Definition policy_limits (p : SandboxPolicy) : list (string * Z) :=
  [("cpus", sp_CPUs p); ("memory_mb", sp_MemoryMB p);
   ("disk_quota_mb", sp_DiskQuotaMB p); ("ttl_ns", sp_TTL p)].

(** The resource check ranges over a Go map: [order] is the order of this run. *)
Definition Policy_Validate (order : list (string * Z) -> list (string * Z)) (p : SandboxPolicy) : verr :=
  _ ← nestField "network" (NetworkPolicy_Validate (sp_Network p));
  _ ← invalid_if (length (sp_SensitivePaths p) =? 0)%nat "sensitive_paths";
  _ ← forM_ (fun path => invalid_if (String.eqb path "") "sensitive_paths") (sp_SensitivePaths p);
  _ ← invalid_if ((sp_MaxTotalMemoryPercent p <? 0) || (100 <? sp_MaxTotalMemoryPercent p))
        "max_total_memory_percent";
  _ ← invalid_if (sp_MaxConcurrentSandboxes p <? 0) "max_concurrent_sandboxes";
  _ ← forM_ (fun fv => invalid_if (fv.2 <? 0) fv.1) (order (policy_limits p));
  validateResourceMaxima p.

(** [ErrSandboxResourceLimitExceeded], with the dimension that is over. *)
Inductive limit_err := ErrSandboxResourceLimitExceeded (field : string) (requested limit : Z).

Definition EnforceResourceLimits (p : SandboxPolicy) (o : SandboxLaunchOptions) : res limit_err unit :=
  forM_ (fun d =>
    if (rd_limit d <=? 0) || (rd_requested d <=? rd_limit d) then Ok tt
    else Err (ErrSandboxResourceLimitExceeded (rd_field d) (rd_requested d) (rd_limit d)))
    (dimensions p o).

(** [applyPolicyDefaults] of the sandbox service. *)
Definition applyPolicyDefaults (o : SandboxLaunchOptions) (p : SandboxPolicy) : SandboxLaunchOptions :=
  let or_default v d := if v =? 0 then d else v in
  mkLaunch (lo_SandboxID o) (lo_TaskID o) (lo_WorktreePath o) (lo_ImageRef o) (lo_Network o)
    (or_default (lo_CPUs o) (sp_CPUs p)) (or_default (lo_MemoryMB o) (sp_MemoryMB p))
    (or_default (lo_DiskQuotaMB o) (sp_DiskQuotaMB p)) (or_default (lo_TTL o) (sp_TTL p))
    (lo_ConfineAgent o) (lo_PublishPorts o) (lo_NoGuestRepo o).

(** ** Lifecycle events (sandbox_event.go) *)
Definition EventCreated := "created".
Definition EventSuspended := "suspended".
Definition EventResumed := "resumed".
Definition EventPolicyGranted := "policy_granted".
Definition EventPolicyChanged := "policy_changed".
Definition EventCredentialsInjected := "credentials_injected".
Definition EventArtifactExported := "artifact_exported".
Definition EventLanded := "landed".
Definition EventDestroyed := "destroyed".
Definition EventTTLExpired := "ttl_expired".
Definition EventKilled := "killed".
Definition EventGuestDied := "guest_died".
Definition EventExecPrivileged := "exec_privileged".

Definition nonStateEventTypes : list string :=
  [EventPolicyGranted; EventCredentialsInjected; EventPolicyChanged; EventArtifactExported;
   EventExecPrivileged].

Definition eventStates : list (string * string) :=
  [(EventCreated, StateCreated); (EventSuspended, StateSuspended); (EventResumed, StateRunning);
   (EventLanded, StateLanded); (EventDestroyed, StateDestroyed); (EventTTLExpired, StateDestroyed);
   (EventKilled, StateDestroyed); (EventGuestDied, StateDead)].

Definition StateForEvent (eventType : string) : option string :=
  snd <$> find (fun e => String.eqb e.1 eventType) eventStates.

Definition isValidEventType (eventType : string) : bool :=
  bool_decide (is_Some (StateForEvent eventType)) || one_of nonStateEventTypes eventType.

(** The id and the time of a record are the store's. *)
Record SandboxEvent := mkSandboxEvent {
  ev_SandboxID : string; ev_TaskID : string; ev_EventType : string; ev_Backend : string;
  ev_ImageDigest : string; ev_NetworkMode : string; ev_Detail : string }.

Definition SandboxEvent_Validate (e : SandboxEvent) : verr :=
  _ ← invalid_if (String.eqb (ev_SandboxID e) "") "sandbox_id";
  _ ← validateTaskIDField (ev_TaskID e);
  _ ← invalid_if (negb (isValidEventType (ev_EventType e))) "event_type";
  _ ← invalid_if (negb (String.eqb (ev_Backend e) "") && negb (one_of validBackends (ev_Backend e))) "backend";
  _ ← invalid_if (negb (String.eqb (ev_ImageDigest e) "")
                  && negb (re_match sha256DigestRe (ev_ImageDigest e))) "image_digest";
  if String.eqb (ev_NetworkMode e) "" then Ok tt
  else nestField "network" (NetworkPolicy_Validate (mkNetworkPolicy (ev_NetworkMode e) [])).

(** ** Durable registrations (sandbox_registration.go) *)
Record SandboxRegistration := mkRegistration {
  sr_Info : SandboxInfo; sr_ImageRef : string; sr_TTL : Z; sr_ConfineAgent : bool }.

Definition LaunchOptions (r : SandboxRegistration) : SandboxLaunchOptions :=
  let i := sr_Info r in
  mkLaunch (si_ID i) (si_TaskID i) (si_WorktreePath i) (sr_ImageRef r)
    (mkNetworkPolicy (si_NetworkMode i) (si_NetworkAllowlist i))
    (si_CPUs i) (si_MemoryMB i) (si_DiskQuotaMB i) (sr_TTL r) (sr_ConfineAgent r)
    (si_PublishPorts i) false.

Definition Registration_Validate (r : SandboxRegistration) : verr :=
  let i := sr_Info r in
  _ ← invalid_if (String.eqb (si_ID i) "") "id";
  _ ← validateTaskIDField (si_TaskID i);
  _ ← invalid_if (String.eqb (si_WorktreePath i) "") "worktree_path";
  _ ← ValidateImageRef (sr_ImageRef r);
  _ ← invalid_if (negb (String.eqb (si_Backend i) "") && negb (one_of validBackends (si_Backend i))) "backend";
  _ ← invalid_if (negb (ValidSandboxState (si_State i))) "state";
  _ ← invalid_if (sr_TTL r <? 0) "ttl_ns";
  _ ← nestField "publish_ports" (validatePublishPorts (si_PublishPorts i));
  nestField "network" (NetworkPolicy_Validate (mkNetworkPolicy (si_NetworkMode i) (si_NetworkAllowlist i))).

(** ** The identity of an exec (exec_identity.go) *)
Record ExecIdentity := mkExecIdentity {
  ei_Asked : option GuestIdentity; ei_Ran : option GuestIdentity; ei_Verified : bool }.

Definition VerdictOnExecIdentity (asked ran : option GuestIdentity) : ExecIdentity :=
  mkExecIdentity asked ran
    (match asked, ran with
     | None, _ => false
     | _, None => false
     | Some a, Some r => negb (negb (UID r =? UID a) || negb (GID r =? GID a))
     end).

(** ** A lost guest (guest_death.go) *)
Definition lostServingMarkers : list string :=
  ["EOF"; "connection reset"; "broken pipe"; "use of closed network connection"; "connection refused"].

(** [strings.Contains] *)
Fixpoint contains_str (sub s : string) : bool :=
  has_prefix sub s || match s with "" => false | String _ s => contains_str sub s end.

(** The error is the text it crossed the result frame as; [None] is nil. *)
Definition IsLostServing (err : option string) : bool :=
  match err with
  | None => false
  | Some text => existsb (fun marker => contains_str marker text) lostServingMarkers
  end.

(** ** Limits *)
Lemma limits_Ok p o :
  EnforceResourceLimits p o = Ok tt <->
  Forall (fun d => rd_limit d <= 0 \/ rd_requested d <= rd_limit d) (dimensions p o).
Proof.
  unfold EnforceResourceLimits. rewrite forM_Ok. apply Forall_iff. intros d.
  destruct (_ || _) eqn:E; bool_to_prop; naive_solver lia.
Qed.

(** A launch within the operator's maxima is still within them once the
    policy's own defaults have filled what it left open: a policy that passes its
    own check cannot make an undeclared launch illegal. *)
Theorem defaults_within_limits order p o :
  Policy_Validate order p = Ok tt -> EnforceResourceLimits p o = Ok tt ->
  EnforceResourceLimits p (applyPolicyDefaults o p) = Ok tt.
Proof.
  intros Hv He. apply limits_Ok in He. apply limits_Ok.
  unfold Policy_Validate, validateResourceMaxima, invalid_if in Hv. inv_res.
  match goal with H : forM_ _ _ = Ok _ |- _ => rename H into Hm end.
  apply forM_Ok in Hm. revert Hm He. unfold dimensions. rewrite !Forall_cons. cbn.
  setoid_rewrite seq_Ok. setoid_rewrite err_if_Ok.
  intros ([_ H1] & [_ H2] & [_ H3] & _) (E1 & E2 & E3 & _). bool_to_prop.
  split_and!; [| | |constructor];
    repeat match goal with |- context [if ?c then _ else _] => destruct c end; lia.
Qed.

(** ** Registrations *)

(** What [Register] records of the options it was given: the view it reports and
    the inputs that view does not carry. *)
Definition registered_as (info : SandboxInfo) (o : SandboxLaunchOptions) : Prop :=
  si_ID info = lo_SandboxID o /\ si_TaskID info = lo_TaskID o /\
  si_WorktreePath info = lo_WorktreePath o /\
  lo_Network o = mkNetworkPolicy (si_NetworkMode info) (si_NetworkAllowlist info) /\
  si_CPUs info = lo_CPUs o /\ si_MemoryMB info = lo_MemoryMB o /\
  si_DiskQuotaMB info = lo_DiskQuotaMB o /\ si_PublishPorts info = lo_PublishPorts o.

(** The launch options come back from the durable row, [NoGuestRepo] apart. *)
Lemma LaunchOptions_back info o : registered_as info o ->
  LaunchOptions (mkRegistration info (lo_ImageRef o) (lo_TTL o) (lo_ConfineAgent o)) =
  mkLaunch (lo_SandboxID o) (lo_TaskID o) (lo_WorktreePath o) (lo_ImageRef o) (lo_Network o)
    (lo_CPUs o) (lo_MemoryMB o) (lo_DiskQuotaMB o) (lo_TTL o) (lo_ConfineAgent o)
    (lo_PublishPorts o) false.
Proof.
  intros (H1 & H2 & H3 & Hn & H4 & H5 & H6 & H7). unfold LaunchOptions. cbn.
  by rewrite Hn, H1, H2, H3, H4, H5, H6, H7.
Qed.

(** ** Verdicts *)
Lemma verdict_verified asked ran :
  ei_Verified (VerdictOnExecIdentity asked ran) = true <->
  exists a r, asked = Some a /\ ran = Some r /\ UID r = UID a /\ GID r = GID a.
Proof.
  unfold VerdictOnExecIdentity. cbn. destruct asked as [a|], ran as [r|]; try naive_solver.
  rewrite negb_true_iff, orb_false_iff, !negb_false_iff, !Z.eqb_eq. naive_solver.
Qed.

(** ** Witnesses *)
Example default_policy_valid : Policy_Validate (fun l => l) DefaultSandboxPolicy = Ok tt.
Proof. reflexivity. Qed.

Lemma defaults_within_limits_witness :
  EnforceResourceLimits DefaultSandboxPolicy sample_launch = Ok tt /\
  EnforceResourceLimits DefaultSandboxPolicy
    (applyPolicyDefaults sample_launch DefaultSandboxPolicy) = Ok tt.
Proof.
  assert (EnforceResourceLimits DefaultSandboxPolicy sample_launch = Ok tt) as H by reflexivity.
  split; [exact H|].
  exact (defaults_within_limits (fun l => l) DefaultSandboxPolicy sample_launch
           default_policy_valid H).
Defined.
