(* ===== verification/Roster.v ===== *)
(** * The durable registry of sandboxes

    internal/store/index/sandboxes.go over the [sandboxes] table of schema.go:
    one row per live sandbox, its id the primary key, its task and its worktree
    each unique. A column that holds a list holds its JSON; encoding/json gives
    back the list it was given, so the row keeps the list. A time column holds
    RFC 3339 text, whose resolution is one second. *)

From Stdlib Require Import ZArith Lia Ascii String.
From stdpp Require Import base tactics option list sorting gmap strings.
From S2P Require Import Prelude.
From S2P Require Import GoStrings.
From S2P Require Import TaskId.
From S2P Require Import SandboxModel.
From S2P Require Import SandboxPolicy.

Open Scope string_scope.
Open Scope Z_scope.

Inductive roster_err :=
  | ENilRegistration
  | EInvalidRegistration (e : model_err)
  | EUniqueTask
  | EUniqueWorktree
  | EUnknownState (state : string)
  | ENoRow (sandboxID : string).

(** ** Columns *)
Definition formatRegistryTime (t : time) : option Z := if t =? 0 then None else Some (t / second_ns).
Definition parseRegistryTime (c : option Z) : time :=
  match c with None => 0 | Some s => s * second_ns end.

Record SandboxRow := mkRow {
  row_SandboxID : string; row_TaskID : string; row_WorktreePath : string; row_ImageRef : string;
  row_ImageDigest : string; row_Backend : string; row_NetworkMode : string;
  row_NetworkAllowlist : list string; row_PublishPorts : list PortPublish;
  row_CPUs : Z; row_MemoryMB : Z; row_DiskQuotaMB : Z; row_TTL : Z; row_ConfineAgent : bool;
  row_State : string; row_CreatedAt : option Z; row_ExpiresAt : option Z; row_UpdatedAt : option Z }.

(** The table, by its primary key. *)
Abbreviation Roster := (gmap string SandboxRow).

(** The values [UpsertSandbox] binds. *)
Definition row_of (now : time) (r : SandboxRegistration) : SandboxRow :=
  let i := sr_Info r in
  mkRow (si_ID i) (si_TaskID i) (si_WorktreePath i) (sr_ImageRef r) (si_ImageDigest i) (si_Backend i)
    (si_NetworkMode i) (si_NetworkAllowlist i) (si_PublishPorts i) (si_CPUs i) (si_MemoryMB i)
    (si_DiskQuotaMB i) (sr_TTL r) (sr_ConfineAgent r) (si_State i)
    (formatRegistryTime (si_CreatedAt i)) (formatRegistryTime (si_ExpiresAt i)) (formatRegistryTime now).

(** [scanSandboxRow]; a row this package wrote always decodes. *)
Definition scanSandboxRow (w : SandboxRow) : SandboxRegistration :=
  mkRegistration
    (mkInfo (row_SandboxID w) (row_TaskID w) (row_WorktreePath w) (row_Backend w) (row_ImageDigest w)
       (row_NetworkMode w) (row_NetworkAllowlist w) (row_State w) (row_MemoryMB w) (row_CPUs w)
       (row_DiskQuotaMB w) (parseRegistryTime (row_CreatedAt w)) (parseRegistryTime (row_ExpiresAt w))
       (row_PublishPorts w) None)
    (row_ImageRef w) (row_TTL w) (row_ConfineAgent w).

(** ** Statements *)

(** A row other than [id]'s that holds the unique column [f] at [v]. *)
Definition held_by_other (f : SandboxRow -> string) (v id : string) (T : Roster) : bool :=
  existsb (fun kw => negb (String.eqb kw.1 id) && String.eqb (f kw.2) v) (map_to_list T).

(** The update of an existing row leaves its [created_at] as it was. *)
Definition upserted (old : option SandboxRow) (w : SandboxRow) : SandboxRow :=
  mkRow (row_SandboxID w) (row_TaskID w) (row_WorktreePath w) (row_ImageRef w) (row_ImageDigest w)
    (row_Backend w) (row_NetworkMode w) (row_NetworkAllowlist w) (row_PublishPorts w)
    (row_CPUs w) (row_MemoryMB w) (row_DiskQuotaMB w) (row_TTL w) (row_ConfineAgent w) (row_State w)
    (match old with Some o => row_CreatedAt o | None => row_CreatedAt w end)
    (row_ExpiresAt w) (row_UpdatedAt w).

Definition UpsertSandbox (now : time) (reg : option SandboxRegistration) (T : Roster)
    : res roster_err Roster :=
  match reg with
  | None => Err ENilRegistration
  | Some reg =>
    _ ← res_map_err EInvalidRegistration (Registration_Validate reg);
    let w := row_of now reg in
    let id := row_SandboxID w in
    _ ← err_if (held_by_other row_TaskID (row_TaskID w) id T) EUniqueTask;
    _ ← err_if (held_by_other row_WorktreePath (row_WorktreePath w) id T) EUniqueWorktree;
    Ok (<[id := upserted (T !! id) w]> T)
  end.

Definition set_row_state (state : string) (now : time) (w : SandboxRow) : SandboxRow :=
  mkRow (row_SandboxID w) (row_TaskID w) (row_WorktreePath w) (row_ImageRef w) (row_ImageDigest w)
    (row_Backend w) (row_NetworkMode w) (row_NetworkAllowlist w) (row_PublishPorts w) (row_CPUs w)
    (row_MemoryMB w) (row_DiskQuotaMB w) (row_TTL w) (row_ConfineAgent w) state (row_CreatedAt w)
    (row_ExpiresAt w) (formatRegistryTime now).

Definition SetSandboxState (now : time) (sandboxID state : string) (T : Roster)
    : res roster_err Roster :=
  _ ← err_if (negb (ValidSandboxState state)) (EUnknownState state);
  match T !! sandboxID with
  | Some w => Ok (<[sandboxID := set_row_state state now w]> T)
  | None => Err (ENoRow sandboxID)
  end.

Definition DeleteSandbox (sandboxID : string) (T : Roster) : res roster_err Roster :=
  match T !! sandboxID with
  | Some _ => Ok (delete sandboxID T)
  | None => Err (ENoRow sandboxID)
  end.

Definition by_task (a b : SandboxRow) : Prop := String.le (row_TaskID a) (row_TaskID b).
#[export] Instance by_task_dec : RelDecision by_task.
Proof. intros a b. unfold by_task. apply _. Defined.

Definition ListSandboxes (T : Roster) : list SandboxRegistration :=
  map scanSandboxRow (merge_sort by_task (snd <$> map_to_list T)).

(** ** The table's constraints *)
Record roster_wf (T : Roster) : Prop := {
  rw_key : forall id w, T !! id = Some w -> row_SandboxID w = id;
  rw_task : forall id id' w w', T !! id = Some w -> T !! id' = Some w' ->
    row_TaskID w = row_TaskID w' -> id = id';
  rw_worktree : forall id id' w w', T !! id = Some w -> T !! id' = Some w' ->
    row_WorktreePath w = row_WorktreePath w' -> id = id' }.

Lemma held_by_other_false f v id T : held_by_other f v id T = false <->
  forall id' w, T !! id' = Some w -> f w = v -> id' = id.
Proof.
  unfold held_by_other. rewrite Forall_existsb_false, Forall_forall. split.
  - intros H id' w Hl <-. apply elem_of_map_to_list, H in Hl. cbn in Hl.
    apply andb_false_iff in Hl as [Hl|Hl]; [by apply negb_false_iff, String.eqb_eq in Hl|].
    by rewrite String.eqb_refl in Hl.
  - intros H [id' w] Hl%elem_of_map_to_list. cbn.
    destruct (String.eqb_spec (f w) v) as [Hf|]; [|by rewrite andb_false_r].
    rewrite (H _ _ Hl Hf), String.eqb_refl. done.
Qed.

Lemma roster_wf_empty : roster_wf ∅.
Proof. split; intros *; by rewrite lookup_empty. Qed.

Lemma roster_wf_insert T id w :
  roster_wf T -> row_SandboxID w = id ->
  (forall id' w', T !! id' = Some w' -> row_TaskID w' = row_TaskID w -> id' = id) ->
  (forall id' w', T !! id' = Some w' -> row_WorktreePath w' = row_WorktreePath w -> id' = id) ->
  roster_wf (<[id := w]> T).
Proof.
  intros [K Ht Hw] Hid Ht' Hw'. split.
  - intros i x [[<- <-]|[_ Hl]]%lookup_insert_Some; eauto.
  - intros i i' x x' [[<- <-]|[? Hl]]%lookup_insert_Some [[<- <-]|[? Hl']]%lookup_insert_Some; eauto.
    intros He. symmetry. by eapply Ht'.
  - intros i i' x x' [[<- <-]|[? Hl]]%lookup_insert_Some [[<- <-]|[? Hl']]%lookup_insert_Some; eauto.
    intros He. symmetry. by eapply Hw'.
Qed.

Lemma UpsertSandbox_run now reg T T' :
  UpsertSandbox now (Some reg) T = Ok T' ->
  let id := si_ID (sr_Info reg) in
  Registration_Validate reg = Ok tt /\ T' = <[id := upserted (T !! id) (row_of now reg)]> T /\
  (forall id' w', T !! id' = Some w' -> row_TaskID w' = si_TaskID (sr_Info reg) -> id' = id) /\
  (forall id' w', T !! id' = Some w' -> row_WorktreePath w' = si_WorktreePath (sr_Info reg) -> id' = id).
Proof.
  unfold UpsertSandbox. intros H. inv_res. split_and!; try done; by apply held_by_other_false.
Qed.

Lemma UpsertSandbox_wf now reg T T' :
  roster_wf T -> UpsertSandbox now reg T = Ok T' -> roster_wf T'.
Proof.
  intros W. destruct reg as [reg|]; [|done]. intros (_ & -> & Ht & Hw)%UpsertSandbox_run.
  by apply roster_wf_insert.
Qed.

Lemma SetSandboxState_run now id st T T' : SetSandboxState now id st T = Ok T' ->
  ValidSandboxState st = true /\ exists w, T !! id = Some w /\ T' = <[id := set_row_state st now w]> T.
Proof.
  unfold SetSandboxState. intros H. inv_res. destruct (T !! id) as [w|]; [|done].
  injection H as <-. bool_to_prop. eauto.
Qed.

Lemma SetSandboxState_wf now id st T T' :
  roster_wf T -> SetSandboxState now id st T = Ok T' -> roster_wf T'.
Proof.
  intros W (_ & w & Hw & ->)%SetSandboxState_run. pose proof W as [K Ht Hp].
  apply roster_wf_insert; [done|by apply (K _ _ Hw)| |]; cbn; eauto.
Qed.

Lemma DeleteSandbox_run id T T' : DeleteSandbox id T = Ok T' -> is_Some (T !! id) /\ T' = delete id T.
Proof. unfold DeleteSandbox. destruct (T !! id); naive_solver. Qed.

Lemma DeleteSandbox_wf id T T' : roster_wf T -> DeleteSandbox id T = Ok T' -> roster_wf T'.
Proof.
  intros [K Ht Hp] [_ ->]%DeleteSandbox_run.
  split; intros *; rewrite ?lookup_delete_Some; naive_solver.
Qed.

(** ** Listing *)
Lemma elem_of_ListSandboxes r T :
  r ∈ ListSandboxes T <-> exists id w, T !! id = Some w /\ r = scanSandboxRow w.
Proof.
  unfold ListSandboxes. rewrite list_elem_of_fmap. setoid_rewrite merge_sort_Permutation.
  setoid_rewrite list_elem_of_fmap. split.
  - intros (w & -> & [id w'] & -> & Hl%elem_of_map_to_list). eauto.
  - intros (id & w & Hl & ->). exists w. split; [done|]. exists (id, w). split; [done|].
    by apply elem_of_map_to_list.
Qed.

Lemma ListSandboxes_sorted (T : Roster) : StronglySorted by_task (merge_sort by_task (snd <$> map_to_list T)).
Proof.
  apply Sorted_StronglySorted.
  - intros a b c. unfold by_task. apply transitivity.
  - apply Sorted_merge_sort. intros a b. unfold by_task. apply (total String.le).
Qed.

(** The listing is by task, each task once. *)
Lemma ListSandboxes_tasks T : roster_wf T -> NoDup (map (fun r => si_TaskID (sr_Info r)) (ListSandboxes T)).
Proof.
  intros [K Ht _]. unfold ListSandboxes. rewrite map_map.
  change (fun x => si_TaskID (sr_Info (scanSandboxRow x))) with row_TaskID.
  change (map row_TaskID) with (fmap (M := list) row_TaskID).
  rewrite merge_sort_Permutation, <- list_fmap_compose. apply NoDup_fmap_2_strong; [|apply NoDup_map_to_list].
  intros [i x] [j y] Hx%elem_of_map_to_list Hy%elem_of_map_to_list Hxy. cbn in Hxy.
  pose proof (Ht _ _ _ _ Hx Hy Hxy) as <-. by simplify_eq.
Qed.

(** ** Times *)
Lemma registry_time t : parseRegistryTime (formatRegistryTime t) = t / second_ns * second_ns.
Proof. unfold formatRegistryTime. destruct (Z.eqb_spec t 0) as [->|]; done. Qed.

(** A registration as it comes back from the table. *)
Definition reread (created : time) (r : SandboxRegistration) : SandboxRegistration :=
  let i := sr_Info r in
  let sec t := t / second_ns * second_ns in
  mkRegistration
    (mkInfo (si_ID i) (si_TaskID i) (si_WorktreePath i) (si_Backend i) (si_ImageDigest i)
       (si_NetworkMode i) (si_NetworkAllowlist i) (si_State i) (si_MemoryMB i) (si_CPUs i)
       (si_DiskQuotaMB i) created (sec (si_ExpiresAt i)) (si_PublishPorts i) None)
    (sr_ImageRef r) (sr_TTL r) (sr_ConfineAgent r).

Lemma scan_upserted old now r :
  scanSandboxRow (upserted old (row_of now r)) =
  reread (match old with Some o => parseRegistryTime (row_CreatedAt o)
          | None => si_CreatedAt (sr_Info r) / second_ns * second_ns end) r.
Proof.
  unfold scanSandboxRow, upserted, row_of, reread. cbn. rewrite registry_time.
  destruct old; [done|]. by rewrite registry_time.
Qed.

(** The registry round trip. What a daemon lists after an upsert is what it
    listed before with this sandbox's registration in the place of any earlier
    one: every launch input and the observed state come back as they were written,
    the deadline to the second; a registration keeps its first creation time, and
    a boot failure is not remembered. *)
Theorem upsert_then_list now reg T T' :
  roster_wf T -> UpsertSandbox now (Some reg) T = Ok T' ->
  let id := si_ID (sr_Info reg) in
  exists created, ListSandboxes T' ≡ₚ reread created reg :: ListSandboxes (delete id T) /\
    (T !! id = None -> created = si_CreatedAt (sr_Info reg) / second_ns * second_ns) /\
    (forall r, r ∈ ListSandboxes T -> si_ID (sr_Info r) = id -> created = si_CreatedAt (sr_Info r)) /\
    LaunchOptions (reread created reg) = LaunchOptions reg.
Proof.
  intros W (_ & -> & _ & _)%UpsertSandbox_run id.
  exists (match T !! id with Some o => parseRegistryTime (row_CreatedAt o)
          | None => si_CreatedAt (sr_Info reg) / second_ns * second_ns end). split_and!.
  - unfold ListSandboxes. rewrite !merge_sort_Permutation, <- insert_delete_eq.
    rewrite map_to_list_insert by apply lookup_delete_eq. cbn. by rewrite scan_upserted.
  - by intros ->.
  - intros r (id' & w & Hl & ->)%elem_of_ListSandboxes Hid. cbn in *.
    rewrite (rw_key _ W _ _ Hl) in Hid. subst id'. by rewrite Hl.
  - done.
Qed.

(** ** Witness *)
Definition sample_registration : SandboxRegistration :=
  mkRegistration
    (mkInfo "01SB" "MGIT-1.2" "/w" "" "" NetworkModeAllowlist ["*.golang.org:443"] StateCreated
       2048 2 4096 (5 * second_ns + 7) 0 [mkPortPublish 8080 80] None)
    (lo_ImageRef sample_launch) hour_ns false.

Lemma upsert_then_list_witness :
  exists T', UpsertSandbox 1 (Some sample_registration) ∅ = Ok T' /\
    ListSandboxes T' ≡ₚ [reread (5 * second_ns) sample_registration].
Proof.
  assert (exists T', UpsertSandbox 1 (Some sample_registration) ∅ = Ok T') as [T' H].
  { eexists. vm_compute. reflexivity. }
  exists T'. split; [exact H|].
  destruct (upsert_then_list 1 sample_registration ∅ T' roster_wf_empty H) as (c & Hp & Hc & _).
  rewrite Hp, (Hc (lookup_empty _)). reflexivity.
Defined.
