(* ===== verification/Backend.v ===== *)
(** * The backend interface of the sandbox daemon

    [model.SandboxManager] as a type class: the operations a lifecycle service
    calls, over the state [B] of a backend and the answers [A] the host gave
    during one call (what the hypervisor, the file system and the clock said).
    [ManagerLaws] is what the service relies on; [Microvm] and the resource
    ceiling of [Ceiling] are its instances. *)

From Stdlib Require Import ZArith Lia Ascii String.
From stdpp Require Import base tactics option list gmap sets strings.
From S2P Require Import Prelude.
From S2P Require Import SandboxModel.

(** What an operation of a backend fails with; [MJoin] is [errors.Join]. *)
Inductive mgr_err :=
  | MNotFound (id : string)
  | MNotRunning (id state : string)
  | MCeilingCount (count cap : Z)
  | MCeilingHost (request cap : Z)
  | MCeilingMemory (used request cap : Z)
  | MUnsupported
  | MInvalid
  | MFailed (step : string)
  | MJoin (es : list mgr_err).

Class SandboxManager (A B : Type) := {
  m_Launch : A -> SandboxLaunchOptions -> B -> res mgr_err SandboxInfo * B;
  m_List : A -> B -> res mgr_err (list SandboxInfo);
  m_Stop : A -> string -> bool -> B -> res mgr_err unit * B;
  m_Remove : A -> string -> bool -> B -> res mgr_err unit * B;
  m_Resolve : string -> B -> res mgr_err SandboxInfo }.

(** What a launch reports is the sandbox it was asked for. *)
Definition launched_as (i : SandboxInfo) (o : SandboxLaunchOptions) : Prop :=
  si_ID i = lo_SandboxID o /\ si_TaskID i = lo_TaskID o /\ si_WorktreePath i = lo_WorktreePath o /\
  lo_Network o = mkNetworkPolicy (si_NetworkMode i) (si_NetworkAllowlist i).

(** Of a backend the service relies on this: [running b] are the machines that
    execute, [known b] the sandboxes it has a record of, with their reported
    states. [stops a] says that during this call the hypervisor did halt what it
    was asked to halt. *)
Class ManagerLaws (A B : Type) `{SandboxManager A B} := {
  running : B -> gset string;
  known : B -> gmap string SandboxInfo;
  stops : A -> Prop;
  backend_ok : B -> Prop;

  resolve_known id b i : m_Resolve id b = Ok i <-> known b !! id = Some i;
  running_state id b : backend_ok b -> id ∈ running b ->
    exists i, known b !! id = Some i /\ si_State i = "running"%string;

  launch_keeps_ok a o b : backend_ok b -> lo_SandboxID o <> ""%string -> stops a -> backend_ok (m_Launch a o b).2;
  stop_keeps_ok a id f b : backend_ok b -> backend_ok (m_Stop a id f b).2;
  remove_keeps_ok a id f b : backend_ok b -> stops a \/ id ∉ running b ->
    backend_ok (m_Remove a id f b).2;

  launch_Ok a o b i b' : backend_ok b -> lo_SandboxID o <> ""%string -> m_Launch a o b = (Ok i, b') ->
    known b !! lo_SandboxID o = None /\ launched_as i o /\
    running b' = {[ lo_SandboxID o ]} ∪ running b /\ known b' = <[ lo_SandboxID o := i ]> (known b);
  launch_Err a o b e b' : backend_ok b -> lo_SandboxID o <> ""%string -> m_Launch a o b = (Err e, b') ->
    (stops a -> running b' ⊆ running b) /\
    forall id, id <> lo_SandboxID o -> known b' !! id = known b !! id;

  stop_unknown a id f b : known b !! id = None -> m_Stop a id f b = (Err (MNotFound id), b);
  stop_running a id f b : running (m_Stop a id f b).2 ⊆ running b;
  stop_Ok a id f b b' : m_Stop a id f b = (Ok tt, b') -> id ∉ running b';
  stop_halts a id f b : backend_ok b -> stops a -> id ∉ running (m_Stop a id f b).2;
  stop_known a id f b : dom (known (m_Stop a id f b).2) = dom (known b);

  remove_running a id f b : running (m_Remove a id f b).2 ⊆ running b;
  remove_known a id f b b' : m_Remove a id f b = (Ok tt, b') -> known b' = delete id (known b);
  remove_Err a id f b e b' : m_Remove a id f b = (Err e, b') -> known b' = known b }.
