(* ===== verification/Microvm.v ===== *)
(** * The microVM lifecycle manager

    internal/sandboxd/backend/microvm/manager.go: launch, stop, removal and
    lookup of supervised virtual machines, with the host directories they own;
    the readiness handshake with a booting guest; and the retry of a first
    command. The hypervisor, the guest, the store provisioner and the file
    system are not the program's own: what they answered during a call is the
    record [Host]. *)

From Stdlib Require Import ZArith Lia Ascii String.
From stdpp Require Import base tactics option list gmap sets strings.
From S2P Require Import Prelude.
From S2P Require Import GoStrings.
From S2P Require Import SandboxModel.
From S2P Require Import SandboxPolicy.
From S2P Require Import Backend.

Open Scope string_scope.
Open Scope Z_scope.

(** ** State *)

(** A supervised machine; [sb_peer] is the identity its VM reports, if any. *)
Record sandbox := mkSandbox {
  sb_info : SandboxInfo; sb_dir : string; sb_peer : option string; sb_privateStore : string;
  sb_guestReady : bool }.

(** The state directories that exist, with whether [overlay.img] is in them, are
    the host's; so are the machines that execute. *)
Record Manager := mkManager {
  mg_sandboxes : gmap string sandbox;
  mg_dirs : gmap string bool;
  mg_running : gset string;
  mg_bound : gmap string string;
  mg_notify : gset string }.

Definition set_sandboxes x (m : Manager) := mkManager x (mg_dirs m) (mg_running m) (mg_bound m) (mg_notify m).
Definition set_dirs x (m : Manager) := mkManager (mg_sandboxes m) x (mg_running m) (mg_bound m) (mg_notify m).
Definition set_running x (m : Manager) := mkManager (mg_sandboxes m) (mg_dirs m) x (mg_bound m) (mg_notify m).
Definition set_bound x (m : Manager) := mkManager (mg_sandboxes m) (mg_dirs m) (mg_running m) x (mg_notify m).
Definition set_notify x (m : Manager) := mkManager (mg_sandboxes m) (mg_dirs m) (mg_running m) (mg_bound m) x.

(** The wiring of the manager. *)
Record Config := mkConfig {
  cf_Backend : string; cf_WorkDir : string; cf_PeerBinder : bool; cf_NotifyRegistrar : bool;
  cf_GuestDialer : bool }.

(** ** The guest's answers *)

(** How one exchange on the exec channel failed, as [errors.Is] tells it. *)
Inductive exec_err := XEOF | XUnexpectedEOF | XReset | XPipe | XReported | XProbeOutput | XOther.
#[export] Instance exec_err_eq_dec : EqDecision exec_err.
Proof. solve_decision. Defined.

Definition isSilentDisconnect (e : exec_err) (stdout stderr : string) : bool :=
  if negb (String.length stdout =? 0)%nat || negb (String.length stderr =? 0)%nat then false
  else bool_decide (e ∈ [XEOF; XReset; XPipe]).

(** One exchange: its failure if any, what came back, whether another attempt
    still fits before the deadline and whether the caller is still there after
    the pause; [x_never] is [guestNeverAnswered] as read after it. *)
Record Exchange := mkExchange {
  x_err : option exec_err; x_stdout : string; x_stderr : string; x_never : bool;
  x_time : bool; x_live : bool }.

(** [execUntilTheGuestAnswers]: the exchange it returned with, and how many
    requests were sent. No exchange left means the caller went away. *)
Fixpoint execUntilTheGuestAnswers (sent : nat) (l : list Exchange) : option Exchange * nat :=
  match l with
  | [] => (None, sent)
  | x :: l =>
    let sent := S sent in
    match x_err x with
    | None => (Some x, sent)
    | Some e =>
      if negb (x_never x) || negb (isSilentDisconnect e (x_stdout x) (x_stderr x)) || negb (x_time x)
      then (Some x, sent)
      else if x_live x then execUntilTheGuestAnswers sent l else (Some x, sent)
    end
  end.

Definition ProtocolVersion : Z := 1.
Definition checkGuestHello (guestProtocol : Z) : res exec_err unit :=
  if guestProtocol =? ProtocolVersion then Ok tt else Err XOther.

(** One answer to the readiness probe, with the protocol the guest named. *)
Record Probe := mkProbe { pr_err : option exec_err; pr_protocol : Z; pr_time : bool; pr_live : bool }.

Fixpoint awaitGuestServing (l : list Probe) : res exec_err unit :=
  match l with
  | [] => Err XOther
  | p :: l =>
    match pr_err p with
    | Some XProbeOutput => Err XProbeOutput
    | None | Some XReported => checkGuestHello (pr_protocol p)
    | Some e =>
      if negb (pr_time p) then Err e else if pr_live p then awaitGuestServing l else Err XOther
    end
  end.

Definition printable (a : ascii) : bool := (32 <=? byte_of a)%N && (byte_of a <=? 126)%N.
Fixpoint printable_loop (n max : nat) (s : string) : string :=
  match s with
  | "" => ""
  | String a s =>
    if negb (printable a) then printable_loop n max s
    else if (n =? max)%nat then "..."
    else String a (printable_loop (S n) max s)
  end.
Definition printableBounded (s : string) (max : nat) : string := printable_loop 0 max s.

(** What the host answered during one call. [h_probes] are the guest's
    answers to the readiness probe, in order. *)
Record Host := mkHost {
  h_order : list (string * Z) -> list (string * Z);
  h_resolve : bool; h_shape : bool; h_newID : option string; h_now : time;
  h_mkdir : bool; h_open : bool; h_truncate : bool;
  h_quarantine : option string; h_create : option (option string); h_start : bool;
  h_notify : bool; h_probes : list Probe; h_stop : bool; h_rmdir : bool;
  h_listing : list SandboxInfo -> list SandboxInfo }.

(** ** Directories *)
Definition stateDirSegmentLen : nat := 8.

(** [filepath.Join(workDir, seg)] of two non-empty elements. *)
Definition SandboxStateDir (workDir sandboxID : string) : string :=
  let n := String.length sandboxID in
  let seg := if (stateDirSegmentLen <? n)%nat
             then String.substring (n - stateDirSegmentLen) stateDirSegmentLen sandboxID else sandboxID in
  clean (workDir +:+ "/" +:+ seg).

(** The overlay is opened with [O_CREATE|O_EXCL]; a failed [Truncate] leaves it. *)
Definition createOverlay (h : Host) (dir : string) (m : Manager) : res mgr_err unit * Manager :=
  if negb (h_mkdir h) then (Err (MFailed "create sandbox dir"), m)
  else
    let m := set_dirs (<[dir := default false (mg_dirs m !! dir)]> (mg_dirs m)) m in
    if default false (mg_dirs m !! dir) || negb (h_open h) then (Err (MFailed "create overlay"), m)
    else
      let m := set_dirs (<[dir := true]> (mg_dirs m)) m in
      if negb (h_truncate h) then (Err (MFailed "size overlay"), m) else (Ok tt, m).

(** [os.RemoveAll(dir)] on the paths that ignore its error. *)
Definition removeAll (h : Host) (dir : string) (m : Manager) : Manager :=
  if h_rmdir h then set_dirs (delete dir (mg_dirs m)) m else m.

(** ** Records *)
Definition imageDigest (ref : string) : string :=
  let '(_, digest, found) := cut (ch "@") ref in if found : bool then digest else "".

Definition newSandboxInfo (cf : Config) (now : time) (id : string) (o : SandboxLaunchOptions) : SandboxInfo :=
  mkInfo id (lo_TaskID o) (lo_WorktreePath o) (cf_Backend cf) (imageDigest (lo_ImageRef o))
    (Mode (lo_Network o)) (Allowlist_ (lo_Network o)) StateRunning (lo_MemoryMB o) 0 0
    now (if 0 <? lo_TTL o then now + lo_TTL o else 0) (lo_PublishPorts o) None.

Definition peerIdentity (peer : option string) (sandboxID : string) : string := default sandboxID peer.

(** ** Stop and Remove *)
Definition Stop (cf : Config) (h : Host) (id : string) (force : bool) (m : Manager)
    : res mgr_err unit * Manager :=
  match mg_sandboxes m !! id with
  | None => (Err (MNotFound id), m)
  | Some sb =>
    if negb (h_stop h) then (Err (MFailed "stop"), m)
    else
      let i := sb_info sb in
      let i := mkInfo (si_ID i) (si_TaskID i) (si_WorktreePath i) (si_Backend i) (si_ImageDigest i)
                 (si_NetworkMode i) (si_NetworkAllowlist i) StateSuspended (si_MemoryMB i) (si_CPUs i)
                 (si_DiskQuotaMB i) (si_CreatedAt i) (si_ExpiresAt i) (si_PublishPorts i)
                 (si_LastBootFailure i) in
      (Ok tt, set_running (mg_running m ∖ {[id]})
                (set_sandboxes (<[id := mkSandbox i (sb_dir sb) (sb_peer sb) (sb_privateStore sb)
                                          (sb_guestReady sb)]> (mg_sandboxes m)) m))
  end.

Definition Remove (cf : Config) (h : Host) (id : string) (force : bool) (m : Manager)
    : res mgr_err unit * Manager :=
  match mg_sandboxes m !! id with
  | None => (Err (MNotFound id), m)
  | Some sb =>
    let up := String.eqb (si_State (sb_info sb)) StateRunning in
    let m' := if up && h_stop h then set_running (mg_running m ∖ {[id]}) m else m in
    if up && negb (h_stop h) && negb force then (Err (MFailed "remove: stop"), m')
    else if negb (h_rmdir h) then (Err (MFailed "remove: clear sandbox dir"), m')
    else
      let m' := set_sandboxes (delete id (mg_sandboxes m'))
                  (set_dirs (delete (sb_dir sb) (mg_dirs m')) m') in
      let m' := if cf_PeerBinder cf then set_bound (delete id (mg_bound m')) m' else m' in
      (Ok tt, if cf_NotifyRegistrar cf then set_notify (mg_notify m' ∖ {[id]}) m' else m')
  end.

(** ** Launch *)
Definition registerNotify (cf : Config) (h : Host) (id : string) (m : Manager) : Manager :=
  if cf_NotifyRegistrar cf && h_notify h then set_notify ({[id]} ∪ mg_notify m) m else m.

(** A guest that never answers is torn down again. *)
Definition confirmGuestServing (cf : Config) (h : Host) (id : string) (m : Manager)
    : res mgr_err unit * Manager :=
  if negb (cf_GuestDialer cf) || is_ok (awaitGuestServing (h_probes h)) then (Ok tt, m)
  else
    let '(rs, m) := Stop cf h id true m in
    let '(rr, m) := Remove cf h id true m in
    let err r := match r with Ok _ => [] | Err e => [e] end in
    (Err (MJoin (MFailed "guest not serving" :: err rs ++ err rr)), m).

Definition Launch (cf : Config) (h : Host) (o : SandboxLaunchOptions) (m : Manager)
    : res mgr_err SandboxInfo * Manager :=
  match
    (_ ← res_map_err (fun _ => MInvalid) (Launch_Validate (h_order h) o);
     _ ← err_if (negb (h_resolve h)) (MFailed "resolve image");
     _ ← err_if (negb (h_shape h)) (MFailed "boot shape");
     if String.eqb (lo_SandboxID o) "" then res_of_option (MFailed "new id") (h_newID h)
     else Ok (lo_SandboxID o))
  with
  | Err e => (Err e, m)
  | Ok id =>
    let dir := SandboxStateDir (cf_WorkDir cf) id in
    match createOverlay h dir m with
    | (Err e, m) => (Err e, m)
    | (Ok _, m) =>
      match h_quarantine h, h_create h, h_start h with
      | None, _, _ => (Err (MFailed "quarantine"), removeAll h dir m)
      | Some _, None, _ => (Err (MFailed "create vm"), removeAll h dir m)
      | Some _, Some _, false => (Err (MFailed "start vm"), removeAll h dir m)
      | Some store, Some peer, true =>
        let info := newSandboxInfo cf (h_now h) id o in
        let m := set_sandboxes (<[id := mkSandbox info dir peer store false]> (mg_sandboxes m))
                   (set_running ({[id]} ∪ mg_running m) m) in
        let m := if cf_PeerBinder cf then set_bound (<[id := peerIdentity peer id]> (mg_bound m)) m else m in
        let m := registerNotify cf h id m in
        match confirmGuestServing cf h id m with
        | (Err e, m) => (Err e, m)
        | (Ok _, m) => (Ok info, m)
        end
      end
    end
  end.

(** ** Lookup *)
Definition Resolve (id : string) (m : Manager) : res mgr_err SandboxInfo :=
  match mg_sandboxes m !! id with Some sb => Ok (sb_info sb) | None => Err (MNotFound id) end.

(** [h_listing] is the order this run visited the map in. *)
Definition List_ (h : Host) (m : Manager) : res mgr_err (list SandboxInfo) :=
  Ok (h_listing h (map (fun e => sb_info e.2) (map_to_list (mg_sandboxes m)))).

#[export] Instance microvm_manager (cf : Config) : SandboxManager Host Manager := {
  m_Launch := Launch cf; m_List := List_; m_Stop := Stop cf; m_Remove := Remove cf;
  m_Resolve := Resolve }.

(** ** The manager's invariant *)
Section Facts.
Context (cf : Config).

(** The records and the directories agree, whatever the hypervisor does. *)
Record records_ok (m : Manager) : Prop := {
  mo_dir : forall id sb, mg_sandboxes m !! id = Some sb ->
    sb_dir sb = SandboxStateDir (cf_WorkDir cf) id /\ mg_dirs m !! sb_dir sb = Some true;
  mo_apart : forall id id' sb sb', mg_sandboxes m !! id = Some sb -> mg_sandboxes m !! id' = Some sb' ->
    sb_dir sb = sb_dir sb' -> id = id';
  mo_live : forall id sb, mg_sandboxes m !! id = Some sb -> si_State (sb_info sb) <> StateDestroyed }.

Definition running_ok (m : Manager) : Prop := forall id, id ∈ mg_running m ->
  exists sb, mg_sandboxes m !! id = Some sb /\ si_State (sb_info sb) = StateRunning.

Definition manager_ok (m : Manager) : Prop := records_ok m /\ running_ok m.

Lemma manager_ok_empty dirs b n : manager_ok (mkManager ∅ dirs ∅ b n).
Proof. split; [split; cbn; intros *; by rewrite lookup_empty|]. intros id. cbn. set_solver. Qed.

Lemma createOverlay_run h dir m r m' : createOverlay h dir m = (r, m') ->
  mg_sandboxes m' = mg_sandboxes m /\ mg_running m' = mg_running m /\ mg_bound m' = mg_bound m /\
  mg_notify m' = mg_notify m /\
  (forall d, d <> dir -> mg_dirs m' !! d = mg_dirs m !! d) /\
  (mg_dirs m !! dir = Some true -> mg_dirs m' !! dir = Some true) /\
  (r = Ok tt -> mg_dirs m !! dir <> Some true /\ mg_dirs m' !! dir = Some true).
Proof.
  unfold createOverlay. destruct (h_mkdir h); cbn [negb]; [|by intros [= <- <-]].
  cbn [mg_dirs set_dirs]. rewrite lookup_insert_eq. cbn [default from_option].
  destruct (default false (mg_dirs m !! dir)) eqn:Hd; cbn [orb].
  - intros [= <- <-]. cbn. rewrite lookup_insert_eq. cbn. split_and!; try done.
    intros d ?. by rewrite lookup_insert_ne.
  - assert (mg_dirs m !! dir <> Some true) as Hn by (intros He; by rewrite He in Hd).
    destruct (h_open h); cbn [negb]; [destruct (h_truncate h); cbn [negb]|];
      intros [= <- <-]; cbn; rewrite ?lookup_insert_eq; split_and!; try done;
      intros d ?; rewrite ?lookup_insert_ne by done; done.
Qed.

Lemma createOverlay_occupied h dir m : mg_dirs m !! dir = Some true ->
  exists e m', createOverlay h dir m = (Err e, m') /\ mg_dirs m' = mg_dirs m /\
    mg_sandboxes m' = mg_sandboxes m.
Proof.
  intros Hd. unfold createOverlay. destruct (h_mkdir h); cbn [negb]; [|by eexists _, _].
  rewrite Hd. cbn [default from_option]. rewrite insert_id by done. cbn [mg_dirs set_dirs].
  rewrite Hd. by eexists _, _.
Qed.

Lemma removeAll_keeps h dir m :
  mg_sandboxes (removeAll h dir m) = mg_sandboxes m /\ mg_running (removeAll h dir m) = mg_running m /\
  (forall d, d <> dir -> mg_dirs (removeAll h dir m) !! d = mg_dirs m !! d).
Proof. unfold removeAll. destruct (h_rmdir h); cbn; split_and!; try done. intros d ?. by rewrite lookup_delete_ne. Qed.

(** Only the host's directories changed, and none a sandbox lives in. *)
Lemma records_ok_dirs m m' dir :
  records_ok m -> mg_sandboxes m' = mg_sandboxes m ->
  (forall d, d <> dir -> mg_dirs m' !! d = mg_dirs m !! d) ->
  (mg_dirs m !! dir = Some true -> mg_dirs m' !! dir = Some true) ->
  records_ok m'.
Proof.
  intros [D A L] Hs Hd Hd'. split; [|by setoid_rewrite Hs|by setoid_rewrite Hs].
  intros id sb Hl. rewrite Hs in Hl. destruct (D _ _ Hl) as [He Ht]. split; [done|].
  destruct (decide (sb_dir sb = dir)) as [<-|]; [by auto|]. by rewrite Hd.
Qed.

Lemma Stop_records h id f m : records_ok m -> records_ok (Stop cf h id f m).2.
Proof.
  intros W. pose proof W as [D A L]. unfold Stop. destruct (mg_sandboxes m !! id) as [sb|] eqn:Hl; [|done].
  destruct (h_stop h); cbn [negb snd]; [|done]. split; cbn.
  - intros i x [[<- <-]|[? Hx]]%lookup_insert_Some; [by apply (D _ _ Hl)|by apply D].
  - intros i i' x x' [[<- <-]|[? Hx]]%lookup_insert_Some [[<- <-]|[? Hx']]%lookup_insert_Some; cbn; eauto.
  - intros i x [[<- <-]|[? Hx]]%lookup_insert_Some; [done|eauto].
Qed.

Lemma Stop_ok h id f m : manager_ok m -> manager_ok (Stop cf h id f m).2.
Proof.
  intros [W R]. split; [by apply Stop_records|].
  unfold Stop. destruct (mg_sandboxes m !! id) as [sb|] eqn:Hl; [|done].
  destruct (h_stop h); cbn [negb snd]; [|done]. intros i. cbn.
  intros [Hi Hn]%elem_of_difference. destruct (R _ Hi) as (x & Hx & Hst). exists x.
  rewrite lookup_insert_ne by set_solver. done.
Qed.

(** What a successful removal leaves: nothing of the sandbox, and everything of
    the others. *)
Lemma Remove_run h id f m r m' : Remove cf h id f m = (r, m') ->
  match r with
  | Err _ => mg_sandboxes m' = mg_sandboxes m /\ mg_dirs m' = mg_dirs m /\
             mg_running m' ⊆ mg_running m
  | Ok _ => exists sb, mg_sandboxes m !! id = Some sb /\ mg_sandboxes m' = delete id (mg_sandboxes m) /\
      mg_dirs m' = delete (sb_dir sb) (mg_dirs m) /\
      mg_bound m' = (if cf_PeerBinder cf then delete id (mg_bound m) else mg_bound m) /\
      mg_notify m' = (if cf_NotifyRegistrar cf then mg_notify m ∖ {[id]} else mg_notify m) /\
      mg_running m' = (if String.eqb (si_State (sb_info sb)) StateRunning && h_stop h
                       then mg_running m ∖ {[id]} else mg_running m)
  end.
Proof.
  unfold Remove. destruct (mg_sandboxes m !! id) as [sb|] eqn:Hl; [|intros [= <- <-]; done].
  destruct (String.eqb _ _ && h_stop h) eqn:E.
  - pose proof E as [E1 E2]%andb_true_iff. rewrite E1, E2. cbn [andb negb].
    destruct (h_rmdir h); cbn [negb]; intros [= <- <-]; [|cbn; split_and!; try done; set_solver].
    exists sb. rewrite E1. destruct (cf_PeerBinder cf), (cf_NotifyRegistrar cf); cbn; split_and!; done.
  - destruct (_ && negb (h_stop h) && negb f); [by intros [= <- <-]|].
    destruct (h_rmdir h); cbn [negb]; intros [= <- <-]; [|done].
    exists sb. rewrite E. destruct (cf_PeerBinder cf), (cf_NotifyRegistrar cf); cbn; split_and!; done.
Qed.

Lemma Remove_records h id f m : records_ok m -> records_ok (Remove cf h id f m).2.
Proof.
  intros W. pose proof W as [D A L]. destruct (Remove cf h id f m) as [r m'] eqn:Hr.
  apply Remove_run in Hr. cbn [snd]. destruct r as [[]|e].
  - destruct Hr as (sb & Hl & Hs & Hd & _). split; rewrite Hs, ?Hd.
    + intros i x [Hne Hx]%lookup_delete_Some. destruct (D _ _ Hx) as [He Ht]. split; [done|].
      rewrite lookup_delete_ne; [done|]. intros Heq. by destruct (A _ _ _ _ Hl Hx Heq).
    + intros i i' x x' [? Hx]%lookup_delete_Some [? Hx']%lookup_delete_Some. eauto.
    + intros i x [? Hx]%lookup_delete_Some. eauto.
  - destruct Hr as (Hs & Hd & _). split; rewrite ?Hs, ?Hd; [exact D|exact A|exact L].
Qed.

Lemma Remove_ok h id f m : manager_ok m -> h_stop h = true \/ id ∉ mg_running m ->
  manager_ok (Remove cf h id f m).2.
Proof.
  intros [W R] Hsafe. split; [by apply Remove_records|].
  destruct (Remove cf h id f m) as [r m'] eqn:Hr. apply Remove_run in Hr. cbn [snd]. destruct r as [[]|e].
  - destruct Hr as (sb & Hl & Hs & _ & _ & _ & Hrun). intros i. rewrite Hs, Hrun. intros Hi.
    assert (i <> id /\ i ∈ mg_running m) as [Hne Hi'].
    { destruct (decide (i = id)) as [->|]; [|destruct (_ && _); set_solver].
      exfalso. destruct Hsafe as [Hh|Hn]; [|destruct (_ && _); set_solver].
      rewrite Hh, andb_true_r in Hi.
      destruct (String.eqb_spec (si_State (sb_info sb)) StateRunning) as [|Hne]; [set_solver|].
      destruct (R _ Hi) as (x & Hx & Hst). naive_solver. }
    destruct (R _ Hi') as (x & Hx & Hst). exists x. by rewrite lookup_delete_ne.
  - destruct Hr as (Hs & Hd & Hrun). intros i Hi. rewrite Hs. apply R. set_solver.
Qed.

(** ** Launching *)

(** The state right after the machine started and was registered. *)
Lemma records_ok_started m m1 id sb :
  records_ok m -> mg_dirs m !! SandboxStateDir (cf_WorkDir cf) id <> Some true ->
  sb_dir sb = SandboxStateDir (cf_WorkDir cf) id -> si_State (sb_info sb) <> StateDestroyed ->
  (forall d, d <> sb_dir sb -> mg_dirs m1 !! d = mg_dirs m !! d) -> mg_dirs m1 !! sb_dir sb = Some true ->
  mg_sandboxes m1 = <[id := sb]> (mg_sandboxes m) -> records_ok m1.
Proof.
  intros [D A L] Hn Hdir Hst Hd Ht Hs.
  assert (forall i x, mg_sandboxes m !! i = Some x -> sb_dir x <> sb_dir sb) as Hap.
  { intros i x Hx He. destruct (D _ _ Hx) as [_ Ht']. apply Hn. by rewrite <- Hdir, <- He. }
  split; rewrite Hs.
  - intros i x [[<- <-]|[? Hx]]%lookup_insert_Some; [done|]. destruct (D _ _ Hx) as [? Hx'].
    split; [done|]. rewrite Hd; [done|by eapply Hap].
  - intros i i' x x' [[<- <-]|[? Hx]]%lookup_insert_Some [[<- <-]|[? Hx']]%lookup_insert_Some; try done;
      intros He; [destruct (Hap _ _ Hx'); done|destruct (Hap _ _ Hx); done|eauto].
  - intros i x [[<- <-]|[? Hx]]%lookup_insert_Some; [done|eauto].
Qed.

(** What a launch under the service's id comes to. *)
Inductive launched (h : Host) (o : SandboxLaunchOptions) (m : Manager) :
    res mgr_err SandboxInfo -> Manager -> Prop :=
  | LaunchRefused e m' :
      mg_sandboxes m' = mg_sandboxes m -> mg_running m' = mg_running m ->
      (records_ok m -> records_ok m') -> launched h o m (Err e) m'
  | LaunchStarted r m' m1 sb :
      let id := lo_SandboxID o in
      mg_dirs m !! SandboxStateDir (cf_WorkDir cf) id <> Some true ->
      sb = mkSandbox (newSandboxInfo cf (h_now h) id o) (SandboxStateDir (cf_WorkDir cf) id)
             (sb_peer sb) (sb_privateStore sb) false ->
      mg_sandboxes m1 = <[id := sb]> (mg_sandboxes m) -> mg_running m1 = {[id]} ∪ mg_running m ->
      (records_ok m -> records_ok m1) ->
      (cf_PeerBinder cf = true -> mg_bound m1 !! id = Some (peerIdentity (sb_peer sb) id)) ->
      (r = Ok (sb_info sb) /\ m' = m1 /\
         (cf_GuestDialer cf = true -> awaitGuestServing (h_probes h) = Ok tt) \/
       (exists e, r = Err e) /\ cf_GuestDialer cf = true /\
         m' = (Remove cf h id true (Stop cf h id true m1).2).2) ->
      launched h o m r m'.

Lemma Launch_run h o m r m' : lo_SandboxID o <> "" -> Launch cf h o m = (r, m') -> launched h o m r m'.
Proof.
  intros Hid H. unfold Launch in H. apply String.eqb_neq in Hid.
  destruct (_ ≫= _) as [id|e] eqn:Hg in H; [|injection H as <- <-; by apply LaunchRefused].
  rewrite Hid in Hg. apply bind_Ok in Hg as (_ & _ & Hg). apply bind_Ok in Hg as (_ & _ & Hg).
  apply bind_Ok in Hg as (_ & _ & Hg). injection Hg as <-.
  set (dir := SandboxStateDir _ _) in *.
  destruct (createOverlay h dir m) as [[[]|e] m0] eqn:Hc.
  2: { injection H as <- <-. apply createOverlay_run in Hc as (Hs & Hr & _ & _ & Hd & Hd' & _).
       apply LaunchRefused; [done..|]. intros W. by eapply records_ok_dirs. }
  apply createOverlay_run in Hc as (Hs & Hr & _ & _ & Hd & Hd' & Hnew).
  destruct (Hnew eq_refl) as [Hfresh Ht]. clear Hnew.
  assert (records_ok m -> records_ok (removeAll h dir m0)) as Hrm.
  { intros W. destruct (removeAll_keeps h dir m0) as (Es & Er & Ed).
    eapply (records_ok_dirs m _ dir); [done|congruence| |done].
    intros d ?. by rewrite Ed, Hd. }
  assert (forall e, launched h o m (Err e) (removeAll h dir m0)) as Hleft.
  { intros e. destruct (removeAll_keeps h dir m0) as (Es & Er & _). apply LaunchRefused; [congruence..|done]. }
  destruct (h_quarantine h) as [store|]; [|by injection H as <- <-].
  destruct (h_create h) as [peer|]; [|by injection H as <- <-].
  destruct (h_start h); [|by injection H as <- <-].
  set (sb := mkSandbox _ dir peer store false) in H.
  match type of H with context [confirmGuestServing cf h _ ?x] => set (m1 := x) in H end.
  assert (mg_sandboxes m1 = <[lo_SandboxID o := sb]> (mg_sandboxes m)) as Hs1.
  { subst m1. unfold registerNotify. rewrite <- Hs. by repeat case_match. }
  assert (mg_running m1 = {[lo_SandboxID o]} ∪ mg_running m) as Hr1.
  { subst m1. unfold registerNotify. rewrite <- Hr. by repeat case_match. }
  assert (mg_dirs m1 = mg_dirs m0) as Hd1.
  { subst m1. unfold registerNotify. by repeat case_match. }
  eapply (LaunchStarted h o m r m' m1 sb); [done|done|exact Hs1|exact Hr1| | |].
  - intros W. eapply (records_ok_started m m1 (lo_SandboxID o) sb); try done; by rewrite Hd1.
  - intros Hb. subst m1. rewrite Hb. unfold registerNotify.
    destruct (_ && h_notify h); cbn [mg_bound set_notify set_bound sb_peer]; apply lookup_insert_eq.
  - unfold confirmGuestServing in H. destruct (negb _ || _) eqn:Hgo.
    + injection H as <- <-. left. split_and!; [done|done|]. intros Hdial. rewrite Hdial in Hgo.
      cbn in Hgo. by apply is_ok_true in Hgo as [[] Hgo].
    + right. apply orb_false_iff in Hgo as [Hgo _]. apply negb_false_iff in Hgo.
      destruct (Stop cf h (lo_SandboxID o) true m1) as [rs m2]. cbn [snd].
      destruct (Remove cf h (lo_SandboxID o) true m2) as [rr m3].
      injection H as <- <-. cbn. eauto.
Qed.

(** ** The interface *)
Definition mv_known (m : Manager) : gmap string SandboxInfo := sb_info <$> mg_sandboxes m.

Lemma Stop_run h id f m r m' : Stop cf h id f m = (r, m') ->
  match r with
  | Err _ => m' = m /\ (mg_sandboxes m !! id = None \/ h_stop h = false)
  | Ok _ => mg_running m' = mg_running m ∖ {[id]} /\ dom (mg_sandboxes m') = dom (mg_sandboxes m) /\
      is_Some (mg_sandboxes m !! id)
  end.
Proof.
  unfold Stop. destruct (mg_sandboxes m !! id) as [sb|] eqn:Hl; [|intros [= <- <-]; auto].
  destruct (h_stop h); cbn [negb]; intros [= <- <-]; [|auto]. cbn. split_and!; [done| |by eexists].
  apply elem_of_dom_2 in Hl. rewrite dom_insert_L. set_solver.
Qed.

(** With a hypervisor that halts what it is told to, a stop and a forced removal
    leave nothing running, whatever else fails. *)
Lemma rollback_halts h id m : manager_ok m -> h_stop h = true ->
  mg_running (Remove cf h id true (Stop cf h id true m).2).2 ⊆ mg_running m ∖ {[id]} /\
  manager_ok (Remove cf h id true (Stop cf h id true m).2).2 /\
  forall i, i <> id -> mg_sandboxes (Remove cf h id true (Stop cf h id true m).2).2 !! i = mg_sandboxes m !! i.
Proof.
  intros W Hh. pose proof (Stop_ok h id true m W) as W'.
  assert (forall i, i <> id -> mg_sandboxes (Stop cf h id true m).2 !! i = mg_sandboxes m !! i) as Hsb.
  { intros i ?. unfold Stop. destruct (mg_sandboxes m !! id); [|done].
    destruct (negb _); [done|]. cbn. by rewrite lookup_insert_ne. }
  destruct (Stop cf h id true m) as [rs m1] eqn:Hs. apply Stop_run in Hs. cbn [snd] in *.
  assert (mg_running m1 ⊆ mg_running m ∖ {[id]}) as Hr1.
  { destruct rs; [destruct Hs as [-> _]; done|]. destruct Hs as [-> [Hn|]]; [|congruence].
    intros i Hi. apply elem_of_difference. split; [done|]. intros ->%elem_of_singleton.
    destruct (proj2 W _ Hi) as (sb & Hl & _). congruence. }
  pose proof (Remove_ok h id true m1 W' (or_introl Hh)) as W2.
  destruct (Remove cf h id true m1) as [rr m2] eqn:Hrm. apply Remove_run in Hrm. cbn [snd] in *.
  destruct rr.
  - destruct Hrm as (sb & _ & Hd & _ & _ & _ & Hrun). split_and!; [|done|].
    + rewrite Hrun. destruct (_ && _); set_solver.
    + intros i ?. rewrite Hd, lookup_delete_ne by done. auto.
  - destruct Hrm as (Hd & _ & Hrun). split_and!; [set_solver|done|]. intros i ?. rewrite Hd. auto.
Qed.

Lemma mv_known_lookup m id i :
  mv_known m !! id = Some i <-> exists sb, mg_sandboxes m !! id = Some sb /\ sb_info sb = i.
Proof. unfold mv_known. rewrite lookup_fmap, fmap_Some. naive_solver. Qed.

(** A sandbox the manager has is never launched a second time: its overlay is
    there. *)
Lemma started_fresh m id :
  records_ok m -> mg_dirs m !! SandboxStateDir (cf_WorkDir cf) id <> Some true ->
  mg_sandboxes m !! id = None.
Proof.
  intros W Hn. destruct (mg_sandboxes m !! id) as [sb|] eqn:Hl; [|done].
  destruct (mo_dir _ W _ _ Hl) as [He Ht]. by rewrite He in Ht.
Qed.

(** The machine just started is the only new one. *)
Lemma started_ok m m1 id sb :
  manager_ok m -> records_ok m1 -> mg_sandboxes m !! id = None -> si_State (sb_info sb) = StateRunning ->
  mg_sandboxes m1 = <[id := sb]> (mg_sandboxes m) -> mg_running m1 = {[id]} ∪ mg_running m -> manager_ok m1.
Proof.
  intros [_ R] W1 Hn Hst Hs Hr. split; [done|]. intros i. rewrite Hs, Hr. intros Hi.
  destruct (decide (i = id)) as [->|Hne]; [exists sb; by rewrite lookup_insert_eq|].
  destruct (R i ltac:(set_solver)) as (x & Hx & ?). exists x. by rewrite lookup_insert_ne.
Qed.

Lemma Launch_records h o m : records_ok m -> lo_SandboxID o <> "" -> records_ok (Launch cf h o m).2.
Proof.
  intros W Hid. destruct (Launch cf h o m) as [r m'] eqn:Hl. apply Launch_run in Hl; [|done]. cbn [snd].
  destruct Hl as [e m' _ _ Hk|r m' m1 sb id _ _ _ _ Hk _ [(_ & -> & _)|(_ & _ & ->)]]; [auto..|].
  apply Remove_records, Stop_records; auto.
Qed.

Lemma Launch_keeps_ok h o m : manager_ok m -> lo_SandboxID o <> "" -> h_stop h = true ->
  manager_ok (Launch cf h o m).2.
Proof.
  intros W Hid Hh. destruct (Launch cf h o m) as [r m'] eqn:Hl. apply Launch_run in Hl; [|done]. cbn [snd].
  destruct Hl as [e m' Hs Hr Hk|r m' m1 sb id Hf Hsb Hs Hr Hk _ Hx].
  - split; [apply Hk, W|]. intros i. rewrite Hs, Hr. apply W.
  - assert (manager_ok m1) as W1.
    { eapply started_ok; [done|apply Hk, W|by apply started_fresh; [apply W|]| |done|done]. by rewrite Hsb. }
    destruct Hx as [(_ & -> & _)|(_ & _ & ->)]; [done|]. apply rollback_halts; auto.
Qed.

Lemma Launch_Ok h o m i m' : manager_ok m -> lo_SandboxID o <> "" -> Launch cf h o m = (Ok i, m') ->
  mg_sandboxes m !! lo_SandboxID o = None /\ launched_as i o /\
  mg_running m' = {[lo_SandboxID o]} ∪ mg_running m /\
  mv_known m' = <[lo_SandboxID o := i]> (mv_known m) /\
  (cf_GuestDialer cf = true -> awaitGuestServing (h_probes h) = Ok tt).
Proof.
  intros W Hid Hl. apply Launch_run in Hl; [|done]. inversion Hl as [|r ? m1 sb id Hf Hsb Hs Hr _ _ Hx]; subst.
  destruct Hx as [([= ->] & -> & Ha)|((e & ?) & _)]; [|done].
  split_and!; [by apply started_fresh; [apply W|]|by rewrite Hsb; destruct o as [? ? ? ? []]|done| |done].
  unfold mv_known. by rewrite Hs, fmap_insert.
Qed.

Lemma Launch_Err h o m e m' : manager_ok m -> lo_SandboxID o <> "" -> Launch cf h o m = (Err e, m') ->
  (h_stop h = true -> mg_running m' ⊆ mg_running m) /\
  forall i, i <> lo_SandboxID o -> mg_sandboxes m' !! i = mg_sandboxes m !! i.
Proof.
  intros W Hid Hl. apply Launch_run in Hl; [|done].
  inversion Hl as [? ? Hs Hr|r ? m1 sb id Hf Hsb Hs Hr Hk _ Hx]; subst; [by rewrite Hs, Hr|].
  destruct Hx as [([=] & _)|(_ & _ & ->)]. split.
  - intros Hh. assert (manager_ok m1) as W1.
    { eapply started_ok; [done|apply Hk, W|by apply started_fresh; [apply W|]| |done|done]. by rewrite Hsb. }
    destruct (rollback_halts h (lo_SandboxID o) m1 W1 Hh) as [Hrun _].
    rewrite Hr in Hrun. set_solver.
  - intros i Hne. assert (mg_sandboxes m1 !! i = mg_sandboxes m !! i) as <- by (by rewrite Hs, lookup_insert_ne).
    destruct (Stop cf h _ true m1) as [rs m2] eqn:E1. cbn [snd].
    assert (mg_sandboxes m2 !! i = mg_sandboxes m1 !! i) as <-.
    { unfold Stop in E1. destruct (mg_sandboxes m1 !! _); [|by injection E1 as _ <-].
      destruct (negb _); injection E1 as _ <-; [done|]. cbn. by rewrite lookup_insert_ne. }
    destruct (Remove cf h _ true m2) as [rr m3] eqn:E2. apply Remove_run in E2. cbn [snd].
    destruct rr; [destruct E2 as (x & _ & -> & _); by rewrite lookup_delete_ne|by destruct E2 as [-> _]].
Qed.

#[export] Program Instance microvm_laws : ManagerLaws Host Manager (H := microvm_manager cf) := {
  running := mg_running; known := mv_known; stops h := h_stop h = true; backend_ok := manager_ok }.
Next Obligation.
  intros id b i. cbn. rewrite mv_known_lookup. unfold Resolve.
  destruct (mg_sandboxes b !! id); naive_solver.
Qed.
Next Obligation.
  intros id b W Hr. destruct (proj2 W _ Hr) as (sb & Hl & Hs). exists (sb_info sb).
  rewrite mv_known_lookup. eauto.
Qed.
Next Obligation. intros. by apply Launch_keeps_ok. Qed.
Next Obligation. intros. by apply Stop_ok. Qed.
Next Obligation. intros. by apply Remove_ok. Qed.
Next Obligation.
  intros a o b i b' W Hid Hl. destruct (Launch_Ok _ _ _ _ _ W Hid Hl) as (Hn & Hi & Hr & Hk & _).
  split_and!; try done. unfold mv_known. by rewrite lookup_fmap, Hn.
Qed.
Next Obligation.
  intros a o b e b' W Hid Hl. destruct (Launch_Err _ _ _ _ _ W Hid Hl) as [Hr Hk]. split; [done|].
  intros id Hne. unfold mv_known. by rewrite !lookup_fmap, Hk.
Qed.
Next Obligation.
  intros a id f b. cbn. unfold mv_known. rewrite lookup_fmap. unfold Stop. by destruct (mg_sandboxes b !! id).
Qed.
Next Obligation.
  intros a id f b. cbn. destruct (Stop cf a id f b) as [r b'] eqn:Hs. apply Stop_run in Hs. cbn.
  destruct r; [destruct Hs as [-> _]; set_solver|by destruct Hs as [-> _]].
Qed.
Next Obligation.
  intros a id f b b' Hs. pose proof (Stop_run _ _ _ _ _ _ Hs) as (Hr & _ & _). rewrite Hr. set_solver.
Qed.
Next Obligation.
  intros a id f b W Hh Hin. cbn in *. destruct (Stop cf a id f b) as [r b'] eqn:Hs. apply Stop_run in Hs.
  cbn in Hin. destruct r; [destruct Hs as [Hr _]; rewrite Hr in Hin; set_solver|].
  destruct Hs as [-> [Hn|]]; [|congruence]. destruct (proj2 W _ Hin) as (sb & Hl & _). congruence.
Qed.
Next Obligation.
  intros a id f b. cbn. destruct (Stop cf a id f b) as [r b'] eqn:Hs. apply Stop_run in Hs. cbn.
  unfold mv_known. rewrite !dom_fmap_L. destruct r; [by destruct Hs as (_ & -> & _)|by destruct Hs as [-> _]].
Qed.
Next Obligation.
  intros a id f b. cbn. destruct (Remove cf a id f b) as [r b'] eqn:Hs. apply Remove_run in Hs. cbn.
  destruct r; [|by destruct Hs as (_ & _ & ?)]. destruct Hs as (sb & _ & _ & _ & _ & _ & ->).
  destruct (_ && _); set_solver.
Qed.
Next Obligation.
  intros a id f b b' Hs. pose proof (Remove_run _ _ _ _ _ _ Hs) as (sb & _ & Hk & _). unfold mv_known.
  by rewrite Hk, fmap_delete.
Qed.
Next Obligation.
  intros a id f b e b' Hs. pose proof (Remove_run _ _ _ _ _ _ Hs) as (Hk & _). unfold mv_known. by rewrite Hk.
Qed.

(** ** Teardown *)

(** No residue (FR-17.19). After a removal that succeeds, nothing of the sandbox
    is left: no record, no state directory, no peer binding, no land-ready
    listener, and, if the hypervisor halts what it is told to, no machine; every
    other sandbox keeps all of its own. *)
Theorem teardown_leaves_nothing h id f m m' :
  manager_ok m -> cf_PeerBinder cf = true -> cf_NotifyRegistrar cf = true ->
  Remove cf h id f m = (Ok tt, m') ->
  mg_sandboxes m' !! id = None /\ mg_dirs m' !! SandboxStateDir (cf_WorkDir cf) id = None /\
  mg_bound m' !! id = None /\ id ∉ mg_notify m' /\
  (h_stop h = true -> id ∉ mg_running m' /\ manager_ok m') /\
  forall i, i <> id ->
    mg_sandboxes m' !! i = mg_sandboxes m !! i /\ mg_bound m' !! i = mg_bound m !! i /\
    (i ∈ mg_notify m' <-> i ∈ mg_notify m) /\ (i ∈ mg_running m' <-> i ∈ mg_running m) /\
    forall sb, mg_sandboxes m !! i = Some sb -> mg_dirs m' !! sb_dir sb = mg_dirs m !! sb_dir sb.
Proof.
  intros W Hb Hn H. pose proof (Remove_run _ _ _ _ _ _ H) as (sb & Hl & Hs & Hd & Hbd & Hnt & Hr).
  rewrite Hb in Hbd. rewrite Hn in Hnt. destruct (mo_dir _ (proj1 W) _ _ Hl) as [Hdir _].
  split_and!; [by rewrite Hs, lookup_delete_eq|by rewrite Hd, <- Hdir, lookup_delete_eq|
    by rewrite Hbd, lookup_delete_eq|set_solver| |].
  - intros Hh. split.
    + rewrite Hr, Hh, andb_true_r. destruct (String.eqb_spec (si_State (sb_info sb)) StateRunning);
        [set_solver|]. intros Hin. destruct (proj2 W _ Hin) as (x & Hx & ?). naive_solver.
    + replace m' with (Remove cf h id f m).2 by (by rewrite H). apply Remove_ok; auto.
  - intros i Hne. rewrite Hs, Hbd, !lookup_delete_ne by done. split_and!; [done..|set_solver| |].
    + rewrite Hr. destruct (_ && _); set_solver.
    + intros x Hx. rewrite Hd, lookup_delete_ne; [done|]. intros He.
      apply Hne. symmetry. exact (mo_apart _ (proj1 W) _ _ _ _ Hl Hx He).
Qed.

(** A launch of a sandbox the manager already has fails, whatever the host
    answers, and changes neither the records nor what runs. *)
Lemma relaunch_refused h o m : manager_ok m -> lo_SandboxID o <> "" ->
  is_Some (mg_sandboxes m !! lo_SandboxID o) ->
  exists e m', Launch cf h o m = (Err e, m') /\ mg_sandboxes m' = mg_sandboxes m /\
    mg_running m' = mg_running m.
Proof.
  intros W Hid [sb Hl]. destruct (Launch cf h o m) as [r m'] eqn:H. apply Launch_run in H; [|done].
  destruct H as [e m' Hs Hr _|r m' m1 x id Hf _ _ _ _ _ _]; [by exists e, m'|].
  exfalso. pose proof (started_fresh _ _ (proj1 W) Hf) as Hn. subst id. congruence.
Qed.

(** A suspended sandbox never runs again. Suspension keeps the overlay file that
    a launch insists on creating, so every later launch of the same sandbox
    fails, whatever the hypervisor answers, and leaves it recorded as suspended. *)
Theorem suspended_never_resumes h h' id f o m m1 :
  manager_ok m -> id <> "" -> Stop cf h id f m = (Ok tt, m1) -> lo_SandboxID o = id ->
  exists e m2, Launch cf h' o m1 = (Err e, m2) /\ id ∉ mg_running m2 /\
    exists i, Resolve id m2 = Ok i /\ si_State i = StateSuspended.
Proof.
  intros W Hid Hs Ho. pose proof (Stop_ok h id f m W) as W1. rewrite Hs in W1. cbn [snd] in W1.
  assert (exists sb, mg_sandboxes m1 !! id = Some sb /\ si_State (sb_info sb) = StateSuspended)
    as (sb & Hl & Hst).
  { unfold Stop in Hs. destruct (mg_sandboxes m !! id); [|done]. destruct (negb _); [done|].
    injection Hs as <-. eexists. split; [apply lookup_insert_eq|done]. }
  destruct (relaunch_refused h' o m1 W1) as (e & m2 & Hlaunch & Hs2 & Hr2); [by rewrite Ho|by rewrite Ho; eauto|].
  exists e, m2. split_and!; [done| |].
  - pose proof (Stop_run _ _ _ _ _ _ Hs) as (Hr & _ & _). rewrite Hr2, Hr. set_solver.
  - exists (sb_info sb). unfold Resolve. by rewrite Hs2, Hl.
Qed.

(** A launch that could not size its overlay strands the sandbox: the file it
    created is not removed, so every retry fails too. *)
Theorem unsized_overlay_strands h h' o m m1 r :
  lo_SandboxID o <> "" -> h_mkdir h = true -> h_open h = true -> h_truncate h = false ->
  mg_dirs m !! SandboxStateDir (cf_WorkDir cf) (lo_SandboxID o) = None ->
  Launch cf h o m = (r, m1) -> mg_dirs m1 <> mg_dirs m ->
  r = Err (MFailed "size overlay") /\
  exists e m2, Launch cf h' o m1 = (Err e, m2) /\ mg_dirs m2 = mg_dirs m1 /\
    mg_sandboxes m2 = mg_sandboxes m.
Proof.
  intros Hid Hm Ho Ht Hn H Hd. unfold Launch in H. apply String.eqb_neq in Hid.
  destruct (_ ≫= _) as [id|e] eqn:Hg in H; [|by injection H as <- <-].
  rewrite Hid in Hg. apply bind_Ok in Hg as (_ & _ & Hg). apply bind_Ok in Hg as (_ & _ & Hg).
  apply bind_Ok in Hg as (_ & _ & Hg). injection Hg as <-.
  unfold createOverlay in H. rewrite Hm, Ho, Ht, Hn in H. cbn in H.
  rewrite lookup_insert_eq, insert_insert_eq in H. cbn in H. injection H as <- <-. split; [done|].
  unfold Launch. rewrite Hid. destruct (_ ≫= _) as [id|e] eqn:Hg.
  2: { eexists _, _. split; [reflexivity|done]. }
  apply bind_Ok in Hg as (_ & _ & Hg). apply bind_Ok in Hg as (_ & _ & Hg).
  apply bind_Ok in Hg as (_ & _ & Hg). injection Hg as <-.
  match goal with |- context [createOverlay h' ?d ?x] =>
    destruct (createOverlay_occupied h' d x) as (e & m2 & -> & Hd2 & Hs2) end.
  { apply lookup_insert_eq. }
  exists e, m2. split; [done|]. by rewrite Hd2, Hs2.
Qed.
End Facts.

(** ** The first command *)
Lemma exec_run sent l r n : execUntilTheGuestAnswers sent l = (r, n) ->
  exists k, n = (sent + k)%nat /\ (k <= length l)%nat /\
    (forall x, r = Some x -> (0 < k)%nat /\ l !! (k - 1)%nat = Some x) /\
    (forall j y, (S j < k)%nat -> l !! j = Some y ->
       x_never y = true /\ x_stdout y = "" /\ x_stderr y = "" /\
       exists e, x_err y = Some e /\ e ∈ [XEOF; XReset; XPipe]).
Proof.
  revert sent. induction l as [|x l IH]; intros sent; cbn [execUntilTheGuestAnswers].
  { intros [= <- <-]. exists 0%nat. rewrite Nat.add_0_r. split_and!; [done|done|done|lia]. }
  assert (forall y, (Some y, S sent) = (r, n) -> y = x -> exists k, n = (sent + k)%nat /\
    (k <= length (x :: l))%nat /\ (forall z, r = Some z -> (0 < k)%nat /\ (x :: l) !! (k - 1)%nat = Some z) /\
    (forall j z, (S j < k)%nat -> (x :: l) !! j = Some z ->
       x_never z = true /\ x_stdout z = "" /\ x_stderr z = "" /\
       exists e, x_err z = Some e /\ e ∈ [XEOF; XReset; XPipe])) as Hlast.
  { intros y [= <- <-] ->. exists 1%nat. split_and!; [lia|cbn; lia| |lia].
    intros z [= <-]. split; [lia|done]. }
  destruct (x_err x) as [e|] eqn:He; [|intros H; by apply (Hlast x)].
  destruct (negb (x_never x) || _ || _) eqn:Hc; [intros H; by apply (Hlast x)|].
  destruct (x_live x); [|intros H; by apply (Hlast x)].
  apply orb_false_iff in Hc as [Hc _]. apply orb_false_iff in Hc as [Hnv Hs].
  apply negb_false_iff in Hnv, Hs.
  intros (k & -> & Hk & Hr & Hj)%IH. exists (S k). split_and!; [lia|cbn; lia| |].
  - intros z (Hpos & Hz)%Hr. split; [lia|]. destruct k; [lia|]. cbn in *. by rewrite Nat.sub_0_r in *.
  - intros [|j] z Hlt; cbn; [|intros; apply (Hj j); [lia|done]].
    intros [= <-]. unfold isSilentDisconnect in Hs. destruct (negb _ || negb _) eqn:Ho; [done|].
    apply orb_false_iff in Ho as [H1 H2]. apply negb_false_iff, Nat.eqb_eq in H1, H2.
    apply bool_decide_eq_true in Hs.
    split_and!; [done|by destruct (x_stdout x)|by destruct (x_stderr x)|by exists e].
Qed.

(** A command is never run twice. When the manager gives up or returns after
    sending a request [n] times, each earlier request met a guest that had never
    answered on this sandbox and came back with nothing at all, no output and a
    connection that closed or was reset; what is returned is the last exchange. *)
Theorem exec_sent_once l x n : execUntilTheGuestAnswers 0 l = (Some x, n) ->
  (0 < n <= length l)%nat /\ l !! (n - 1)%nat = Some x /\
  forall j y, (S j < n)%nat -> l !! j = Some y ->
    x_never y = true /\ x_stdout y = "" /\ x_stderr y = "" /\
    exists e, x_err y = Some e /\ e ∈ [XEOF; XReset; XPipe].
Proof.
  intros (k & -> & Hk & Hr & Hj)%exec_run. destruct (Hr _ eq_refl) as [Hpos Hx].
  split_and!; [lia|lia|done|done].
Qed.

(** ** Readiness *)
Definition answered (p : Probe) : bool := bool_decide (pr_err p ∈ [None; Some XReported]).

Lemma await_Ok l : awaitGuestServing l = Ok tt ->
  exists k p, l !! k = Some p /\ answered p = true /\ pr_protocol p = ProtocolVersion /\
    forall j q, (j < k)%nat -> l !! j = Some q -> answered q = false.
Proof.
  induction l as [|p l IH]; [done|]. cbn [awaitGuestServing]. unfold checkGuestHello.
  assert (answered p = true -> pr_protocol p = ProtocolVersion -> exists k q, (p :: l) !! k = Some q /\
    answered q = true /\ pr_protocol q = ProtocolVersion /\
    forall j z, (j < k)%nat -> (p :: l) !! j = Some z -> answered z = false) as Hhere.
  { intros. exists 0%nat, p. split_and!; try done. lia. }
  assert (answered p = false -> awaitGuestServing l = Ok tt -> exists k q, (p :: l) !! k = Some q /\
    answered q = true /\ pr_protocol q = ProtocolVersion /\
    forall j z, (j < k)%nat -> (p :: l) !! j = Some z -> answered z = false) as Hnext.
  { intros Ha (k & q & Hq & Hans & Hp & Hj)%IH. exists (S k), q. split_and!; try done.
    intros [|j] z Hlt; cbn; [by intros [= <-]|]. apply Hj. lia. }
  destruct (pr_err p) as [e|] eqn:He.
  - assert (e <> XReported -> answered p = false) as Hna.
    { intros Hne. unfold answered. rewrite He. apply bool_decide_eq_false. set_solver. }
    destruct e; try done; try (destruct (pr_time p); cbn [negb]; [|done]; destruct (pr_live p); [|done];
      by apply Hnext, Hna).
    destruct (Z.eqb_spec (pr_protocol p) ProtocolVersion); [|done]. intros _. apply Hhere; [|done].
    unfold answered. rewrite He. by apply bool_decide_eq_true; set_solver.
  - destruct (Z.eqb_spec (pr_protocol p) ProtocolVersion); [|done]. intros _. apply Hhere; [|done].
    unfold answered. rewrite He. by apply bool_decide_eq_true; set_solver.
Qed.

(** What the guest says of its build is quoted within a bound, and printable. *)
Lemma printableBounded_bound s max :
  (String.length (printableBounded s max) <= max + 3)%nat /\
  all_chars printable (printableBounded s max) = true.
Proof.
  unfold printableBounded. cut (forall n, (n <= max)%nat ->
    (String.length (printable_loop n max s) <= max - n + 3)%nat /\
    all_chars printable (printable_loop n max s) = true).
  { intros H. destruct (H 0%nat); [lia|]. split; [lia|done]. }
  induction s as [|a s IH]; intros n Hn; cbn; [split; [lia|done]|].
  destruct (printable a) eqn:Ha; cbn [negb]; [|by apply IH].
  destruct (Nat.eqb_spec n max) as [->|]; [split; [cbn; lia|done]|].
  destruct (IH (S n)) as [Hl Hc]; [lia|]. cbn. rewrite Ha, Hc. split; [lia|done].
Qed.

(** ** A small host *)
Module MicrovmToy.
Definition cf : Config := mkConfig "kvm" "/run/mgit" true true true.
Definition host (truncate : bool) (probes : list Probe) : Host :=
  mkHost (fun l => l) true true None 7 true true truncate (Some "store") (Some (Some "cid:3")) true true
    probes true true (fun l => l).
Definition ready : list Probe := [mkProbe (Some XReset) 0 true true; mkProbe (Some XReported) 1 true true].
Definition id := "01JXSB0000000000AAAABBBB".
Definition opts : SandboxLaunchOptions :=
  mkLaunch id "MGIT-1.2" "/w" (lo_ImageRef sample_launch) (lo_Network sample_launch) 2 2048 4096 0 false [] false.
Definition empty : Manager := mkManager ∅ ∅ ∅ ∅ ∅.
Definition up : Manager := (Launch cf (host true ready) opts empty).2.

Lemma up_ok : manager_ok cf up.
Proof. apply Launch_keeps_ok; [apply manager_ok_empty|done|done]. Qed.
End MicrovmToy.
Import MicrovmToy.

Lemma teardown_leaves_nothing_witness :
  is_Some (mg_sandboxes up !! id) /\ mg_sandboxes (Remove cf (host true ready) id false up).2 !! id = None.
Proof.
  split; [eexists; vm_compute; reflexivity|].
  destruct (Remove cf (host true ready) id false up) as [r m'] eqn:H.
  assert (r = Ok tt) as -> by (apply (f_equal fst) in H; cbn [fst] in H; rewrite <- H; vm_compute; reflexivity).
  exact (proj1 (teardown_leaves_nothing cf (host true ready) id false up m' up_ok eq_refl eq_refl H)).
Defined.

Lemma suspended_never_resumes_witness :
  exists m1 e m2, Stop cf (host true ready) id false up = (Ok tt, m1) /\
    Launch cf (host true ready) opts m1 = (Err e, m2).
Proof.
  destruct (Stop cf (host true ready) id false up) as [r m1] eqn:H.
  assert (r = Ok tt) as -> by (apply (f_equal fst) in H; cbn [fst] in H; rewrite <- H; vm_compute; reflexivity).
  destruct (suspended_never_resumes cf (host true ready) (host true ready) id false opts up m1
    up_ok ltac:(discriminate) H eq_refl) as (e & m2 & Hl & _).
  exists m1, e, m2. exact (conj eq_refl Hl).
Defined.

Lemma unsized_overlay_strands_witness :
  exists m1 e m2, Launch cf (host false ready) opts empty = (Err (MFailed "size overlay"), m1) /\
    Launch cf (host true ready) opts m1 = (Err e, m2).
Proof.
  destruct (Launch cf (host false ready) opts empty) as [r m1] eqn:H.
  assert (mg_dirs m1 <> mg_dirs empty) as Hd.
  { apply (f_equal (fun x => mg_dirs x.2)) in H. cbn [snd] in H. rewrite <- H. vm_compute. discriminate. }
  destruct (unsized_overlay_strands cf (host false ready) (host true ready) opts empty m1 r
    ltac:(discriminate) eq_refl eq_refl eq_refl eq_refl H Hd) as (-> & e & m2 & Hl & _).
  exists m1, e, m2. exact (conj eq_refl Hl).
Defined.

Lemma exec_sent_once_witness :
  exists x, execUntilTheGuestAnswers 0
    [mkExchange (Some XReset) "" "" true true true; mkExchange None "hi" "" true true true] = (Some x, 2%nat) /\
    (0 < 2 <= 2)%nat.
Proof.
  eexists. split; [reflexivity|].
  exact (proj1 (exec_sent_once [mkExchange (Some XReset) "" "" true true true;
    mkExchange None "hi" "" true true true] _ 2 eq_refl)).
Defined.
