(* ===== verification/Ceiling.v ===== *)
(** * The host-wide resource ceiling

    internal/sandboxd/ceiling.go: a decorator of any backend that admits a launch
    against a cap on the number of sandboxes and one on their total declared
    memory. Admission reserves capacity under a lock, the backend launches
    outside it, and the reservation is dropped once the sandbox is listed. The
    first part is the code, one launch at a time; the second interleaves any
    number of launches with stops and removals. *)

From Stdlib Require Import ZArith Lia Ascii String.
From stdpp Require Import base tactics option list gmap sets strings.
From S2P Require Import Prelude.
From S2P Require Import GoStrings.
From S2P Require Import SandboxModel.
From S2P Require Import SandboxPolicy.
From S2P Require Import Backend.
From S2P Require Import Microvm.

Open Scope string_scope.
Open Scope Z_scope.

Definition fallbackAccountedMemoryMB : Z := 2048.

Record Caps := mkCaps { maxConcurrent : Z; maxTotalMemoryMB : Z; defaultMemoryMB : Z }.

Definition NewCeilingManager (maxConcurrent maxTotalMemoryMB defaultMemoryMB : Z) : Caps :=
  mkCaps maxConcurrent maxTotalMemoryMB
    (if defaultMemoryMB <=? 0 then fallbackAccountedMemoryMB else defaultMemoryMB).

(** The decorated backend and the reservations of launches under way. *)
Record CeilingManager (B : Type) := mkCeiling { inner : B; reservedCount : Z; reservedMB : Z }.
Arguments mkCeiling {B}.
Arguments inner {B}.
Arguments reservedCount {B}.
Arguments reservedMB {B}.
Definition set_inner {B} (b : B) (c : CeilingManager B) := mkCeiling b (reservedCount c) (reservedMB c).

(** What a request, or a listed sandbox, counts for. *)
Definition accounted (k : Caps) (memoryMB : Z) : Z :=
  if memoryMB <=? 0 then defaultMemoryMB k else memoryMB.

Definition live (sb : SandboxInfo) : bool := negb (String.eqb (si_State sb) StateDestroyed).

(** The loop of [usage], with the 64-bit additions it makes. *)
Definition usage_loop (k : Caps) (l : list SandboxInfo) : Z * Z :=
  fold_left (fun acc sb => if live sb
    then (wrap64 (acc.1 + 1), wrap64 (acc.2 + accounted k (si_MemoryMB sb))) else acc) l (0, 0).

Section Ceiling.
Context {A B : Type} `{SM : SandboxManager A B} (k : Caps).

Definition usage (a : A) (c : CeilingManager B) : res mgr_err (Z * Z) :=
  l ← m_List a (inner c); Ok (usage_loop k l).

(** [CeilingManager.admit]. *)
Definition admit_launch (count usedMB requestMB : Z) : res mgr_err unit :=
  if (0 <? maxConcurrent k) && (maxConcurrent k <=? count) then Err (MCeilingCount count (maxConcurrent k))
  else if maxTotalMemoryMB k <=? 0 then Ok tt
  else if maxTotalMemoryMB k <? requestMB then Err (MCeilingHost requestMB (maxTotalMemoryMB k))
  else if maxTotalMemoryMB k <? wrap64 (usedMB + requestMB)
  then Err (MCeilingMemory usedMB requestMB (maxTotalMemoryMB k))
  else Ok tt.

Definition reserve (a : A) (requestMB : Z) (c : CeilingManager B) : res mgr_err unit * CeilingManager B :=
  match usage a c with
  | Err e => (Err e, c)
  | Ok (count, usedMB) =>
    match admit_launch (wrap64 (count + reservedCount c)) (wrap64 (usedMB + reservedMB c)) requestMB with
    | Err e => (Err e, c)
    | Ok _ => (Ok tt, mkCeiling (inner c) (wrap64 (reservedCount c + 1)) (wrap64 (reservedMB c + requestMB)))
    end
  end.

Definition unreserve (requestMB : Z) (c : CeilingManager B) : CeilingManager B :=
  mkCeiling (inner c) (wrap64 (reservedCount c - 1)) (wrap64 (reservedMB c - requestMB)).

Definition Ceiling_Launch (a : A) (o : SandboxLaunchOptions) (c : CeilingManager B)
    : res mgr_err SandboxInfo * CeilingManager B :=
  let requestMB := accounted k (lo_MemoryMB o) in
  match reserve a requestMB c with
  | (Err e, c) => (Err e, c)
  | (Ok _, c) =>
    let '(r, b) := m_Launch a o (inner c) in
    (r, unreserve requestMB (set_inner b c))
  end.

#[export] Instance ceiling_manager : SandboxManager A (CeilingManager B) := {
  m_Launch := Ceiling_Launch;
  m_List a c := m_List a (inner c);
  m_Stop a id f c := let '(r, b) := m_Stop a id f (inner c) in (r, set_inner b c);
  m_Remove a id f c := let '(r, b) := m_Remove a id f (inner c) in (r, set_inner b c);
  m_Resolve id c := m_Resolve id (inner c) }.
End Ceiling.

(** ** The decision *)

Ltac ceiling_cases := repeat match goal with
  | H : context [?x <? ?y] |- _ => destruct (Z.ltb_spec x y); cbn [andb] in H
  | H : context [?x <=? ?y] |- _ => destruct (Z.leb_spec x y); cbn [andb] in H
  | |- context [?x <? ?y] => destruct (Z.ltb_spec x y); cbn [andb]
  | |- context [?x <=? ?y] => destruct (Z.leb_spec x y); cbn [andb] end.

Lemma admit_launch_Ok k count used req :
  -(2^63) <= used + req < 2^63 ->
  admit_launch k count used req = Ok tt <->
    (0 < maxConcurrent k -> count < maxConcurrent k) /\
    (0 < maxTotalMemoryMB k -> req <= maxTotalMemoryMB k /\ used + req <= maxTotalMemoryMB k).
Proof.
  intros Hb. unfold admit_launch. rewrite wrap64_small by lia.
  ceiling_cases; first [split; [intros _; lia|done] | split; [done|intros; exfalso; lia]].
Qed.

(** The ceiling's answer, and its advice. Without overflow a launch is admitted
    exactly when both enabled caps leave room for it; a launch refused for the
    memory in use would be admitted on an idle host, and one refused as bigger
    than the host is refused whatever is freed. *)
Theorem admit_launch_exact k count used req :
  0 <= used -> 0 <= req -> used + req < 2^63 ->
  (admit_launch k count used req = Ok tt <->
     (0 < maxConcurrent k -> count < maxConcurrent k) /\
     (0 < maxTotalMemoryMB k -> used + req <= maxTotalMemoryMB k)) /\
  (forall u q cap, admit_launch k count used req = Err (MCeilingMemory u q cap) ->
     admit_launch k 0 0 req = Ok tt) /\
  (forall q cap, admit_launch k count used req = Err (MCeilingHost q cap) ->
     forall count' used', admit_launch k count' used' req <> Ok tt).
Proof.
  intros H1 H2 H3. split_and!.
  - rewrite admit_launch_Ok by lia. lia.
  - intros u q cap He. apply admit_launch_Ok; [lia|]. unfold admit_launch in He.
    ceiling_cases; try discriminate He; lia.
  - intros q cap He c' u' Hok. unfold admit_launch in He, Hok.
    ceiling_cases; try discriminate He; try discriminate Hok; lia.
Qed.

(** The count refusal hides the other one. A launch bigger than the whole host is
    told, while the host is at its sandbox count, that it "is not too big" and
    to free capacity; once every sandbox is gone it is refused all the same. *)
Theorem count_refusal_misleads k count used req :
  0 < maxConcurrent k <= count -> 0 < maxTotalMemoryMB k < req ->
  admit_launch k count used req = Err (MCeilingCount count (maxConcurrent k)) /\
  admit_launch k 0 0 req = Err (MCeilingHost req (maxTotalMemoryMB k)).
Proof. intros H1 H2. unfold admit_launch. split; ceiling_cases; try lia; done. Qed.

(** ** Launches under way *)

(** What the ceiling relies on: a listing shows every sandbox the backend has a
    record of, none of them destroyed, and a launch adds at most its own, with
    the memory the request declared. *)
Class MemoryLaws (A B : Type) `{ManagerLaws A B} := {
  mem_ok : B -> Prop;
  orders : A -> Prop;
  mem_list a b l : orders a -> m_List a b = Ok l -> l ≡ₚ snd <$> map_to_list (known b);
  mem_live b id i : mem_ok b -> known b !! id = Some i -> live i = true;
  mem_launch a o b r b' : mem_ok b -> lo_SandboxID o <> "" -> m_Launch a o b = (r, b') ->
    mem_ok b' /\ (si_MemoryMB <$> known b' = si_MemoryMB <$> known b \/
      known b !! lo_SandboxID o = None /\
      si_MemoryMB <$> known b' = <[lo_SandboxID o := lo_MemoryMB o]> (si_MemoryMB <$> known b));
  mem_stop a id f b : mem_ok b -> mem_ok (m_Stop a id f b).2 /\
    si_MemoryMB <$> known (m_Stop a id f b).2 = si_MemoryMB <$> known b;
  mem_remove a id f b : mem_ok b -> mem_ok (m_Remove a id f b).2 /\
    (si_MemoryMB <$> known (m_Remove a id f b).2 = si_MemoryMB <$> known b \/
     si_MemoryMB <$> known (m_Remove a id f b).2 = delete id (si_MemoryMB <$> known b)) }.

Definition sumZ (l : list Z) : Z := foldr Z.add 0 l.
#[export] Instance sumZ_proper : Proper ((≡ₚ) ==> eq) sumZ.
Proof. unfold sumZ. intros l l' Hl. induction Hl; cbn; lia. Qed.

(** A launch between its admission and the drop of its reservation. *)
Record Flight := mkFlight { fl_opts : SandboxLaunchOptions; fl_launched : bool }.

Section Interleaved.
Context {A B : Type} {SM : SandboxManager A B} {LW : ManagerLaws A B} {ML : MemoryLaws A B} (k : Caps).

Record System := mkSystem { sy_ceiling : CeilingManager B; sy_flights : gmap nat Flight }.

Inductive Step : System -> System -> Prop :=
  | StepReserve tid a o c c' fs :
      fs !! tid = None -> orders a -> lo_SandboxID o <> "" -> -(2^63) <= lo_MemoryMB o < 2^63 ->
      reserve k a (accounted k (lo_MemoryMB o)) c = (Ok tt, c') ->
      Step (mkSystem c fs) (mkSystem c' (<[tid := mkFlight o false]> fs))
  | StepRefuse a req e c c' fs :
      reserve k a req c = (Err e, c') -> Step (mkSystem c fs) (mkSystem c' fs)
  | StepLaunch tid a o r b c fs :
      fs !! tid = Some (mkFlight o false) -> m_Launch a o (inner c) = (r, b) ->
      Step (mkSystem c fs) (mkSystem (set_inner b c) (<[tid := mkFlight o true]> fs))
  | StepUnreserve tid o c fs :
      fs !! tid = Some (mkFlight o true) ->
      Step (mkSystem c fs) (mkSystem (unreserve (accounted k (lo_MemoryMB o)) c) (delete tid fs))
  | StepStop a id f c fs :
      Step (mkSystem c fs) (mkSystem (set_inner (m_Stop a id f (inner c)).2 c) fs)
  | StepRemove a id f c fs :
      Step (mkSystem c fs) (mkSystem (set_inner (m_Remove a id f (inner c)).2 c) fs).

Definition memory_of (m : gmap string Z) : Z := sumZ (accounted k <$> (map_to_list m).*2).
Definition declared (b : B) : gmap string Z := si_MemoryMB <$> known b.
Definition flight_memory (fs : gmap nat Flight) : Z :=
  sumZ ((fun f => accounted k (lo_MemoryMB (fl_opts f))) <$> (map_to_list fs).*2).
Definition waiting (fs : gmap nat Flight) : gmap nat Flight := filter (fun x => fl_launched x.2 = false) fs.

(** The caps leave the additions in range. *)
Definition caps_ok : Prop :=
  0 < defaultMemoryMB k < 2^63 /\ maxTotalMemoryMB k < 2^61 /\ maxConcurrent k < 2^61.

Record ceiling_ok (s : System) : Prop := {
  co_mem : mem_ok (inner (sy_ceiling s));
  co_ids : forall tid f, sy_flights s !! tid = Some f -> lo_SandboxID (fl_opts f) <> "";
  co_count : 0 < maxConcurrent k ->
    reservedCount (sy_ceiling s) = Z.of_nat (size (sy_flights s)) /\
    Z.of_nat (size (sy_flights s)) <= maxConcurrent k /\
    Z.of_nat (size (declared (inner (sy_ceiling s)))) + Z.of_nat (size (waiting (sy_flights s)))
      <= maxConcurrent k;
  co_memory : 0 < maxTotalMemoryMB k ->
    reservedMB (sy_ceiling s) = flight_memory (sy_flights s) /\
    flight_memory (sy_flights s) <= maxTotalMemoryMB k /\
    memory_of (declared (inner (sy_ceiling s))) + flight_memory (waiting (sy_flights s))
      <= maxTotalMemoryMB k }.

(** *** Sums over maps *)
Lemma accounted_pos (Hk : caps_ok) m : 0 < accounted k m.
Proof. destruct Hk as [? _]. unfold accounted. destruct (Z.leb_spec m 0); lia. Qed.

Lemma memory_insert m id v : m !! id = None -> memory_of (<[id := v]> m) = accounted k v + memory_of m.
Proof. intros H. unfold memory_of. by rewrite map_to_list_insert. Qed.

Lemma memory_nonneg (Hk : caps_ok) m : 0 <= memory_of m.
Proof.
  unfold memory_of, sumZ. induction (map_to_list m) as [|[i v] l IH]; cbn in *; [lia|].
  pose proof (accounted_pos Hk v). lia.
Qed.

Lemma memory_delete (Hk : caps_ok) m id : memory_of (delete id m) <= memory_of m.
Proof.
  destruct (m !! id) as [v|] eqn:Hl; [|by rewrite delete_id].
  rewrite <- (insert_delete_id m id v Hl) at 2. rewrite memory_insert by apply lookup_delete_eq.
  pose proof (accounted_pos Hk v). lia.
Qed.

Lemma flights_insert fs tid f : fs !! tid = None ->
  flight_memory (<[tid := f]> fs) = accounted k (lo_MemoryMB (fl_opts f)) + flight_memory fs.
Proof. intros H. unfold flight_memory. by rewrite map_to_list_insert. Qed.

Lemma flights_nonneg (Hk : caps_ok) fs : 0 <= flight_memory fs.
Proof.
  unfold flight_memory, sumZ. induction (map_to_list fs) as [|[i v] l IH]; cbn in *; [lia|].
  pose proof (accounted_pos Hk (lo_MemoryMB (fl_opts v))). lia.
Qed.

Lemma flights_delete fs tid f : fs !! tid = Some f ->
  flight_memory fs = accounted k (lo_MemoryMB (fl_opts f)) + flight_memory (delete tid fs) /\
  size fs = S (size (delete tid fs)).
Proof.
  intros H. rewrite <- (insert_delete_id fs tid f H) at 1 3.
  rewrite flights_insert, map_size_insert_None by apply lookup_delete_eq. done.
Qed.

Lemma waiting_insert fs tid o : fs !! tid = None ->
  waiting (<[tid := mkFlight o false]> fs) = <[tid := mkFlight o false]> (waiting fs) /\
  waiting fs !! tid = None.
Proof.
  intros H. unfold waiting. rewrite map_filter_insert_True by done. split; [done|].
  by apply map_lookup_filter_None_2; left.
Qed.

(** A flight whose launch has run no longer waits. *)
Lemma waiting_launched fs tid o : fs !! tid = Some (mkFlight o false) ->
  waiting (<[tid := mkFlight o true]> fs) = delete tid (waiting fs) /\
  waiting fs !! tid = Some (mkFlight o false).
Proof.
  intros H. unfold waiting. rewrite map_filter_insert_False by done.
  rewrite map_filter_delete. split; [done|]. by apply map_lookup_filter_Some.
Qed.

Lemma waiting_delete fs tid o : fs !! tid = Some (mkFlight o true) -> waiting (delete tid fs) = waiting fs.
Proof.
  intros H. unfold waiting. rewrite map_filter_delete, delete_id; [done|].
  apply map_lookup_filter_None. right. by intros f [= <-]%(eq_trans (eq_sym H)).
Qed.

Lemma flights_relabel fs tid o b b' : fs !! tid = Some (mkFlight o b) ->
  flight_memory (<[tid := mkFlight o b']> fs) = flight_memory fs /\
  size (<[tid := mkFlight o b']> fs) = size fs.
Proof.
  intros H. split; [|by apply map_size_insert_Some; eauto].
  rewrite <- insert_delete_eq, flights_insert by apply lookup_delete_eq.
  destruct (flights_delete fs tid _ H) as [-> _]. done.
Qed.

(** *** Usage *)
Lemma usage_loop_acc l a b : Forall (fun sb => live sb = true) l ->
  fold_left (fun acc sb => if live sb
    then (wrap64 (acc.1 + 1), wrap64 (acc.2 + accounted k (si_MemoryMB sb))) else acc) l (wrap64 a, wrap64 b) =
  (wrap64 (a + Z.of_nat (length l)), wrap64 (b + sumZ (accounted k <$> (si_MemoryMB <$> l)))).
Proof.
  intros Hl. revert a b. induction Hl as [|sb l Hsb Hl IH]; intros a b; cbn; [by rewrite !Z.add_0_r|].
  rewrite Hsb, !wrap64_add_l, IH. f_equal; f_equal; unfold sumZ; lia.
Qed.

Lemma usage_spec a c l : mem_ok (inner c) -> orders a -> m_List a (inner c) = Ok l ->
  usage k a c = Ok (wrap64 (Z.of_nat (size (declared (inner c)))),
                           wrap64 (memory_of (declared (inner c)))).
Proof.
  intros W Ho Hl. unfold usage. rewrite Hl. cbn [mbind res_bind].
  pose proof (mem_list _ _ _ Ho Hl) as Hp.
  assert (Forall (fun sb => live sb = true) l) as Hlive.
  { rewrite Hp, Forall_forall. intros i ([id j] & -> & Hj%elem_of_map_to_list)%list_elem_of_fmap.
    by eapply mem_live. }
  unfold usage_loop. pose proof (usage_loop_acc l 0 0 Hlive) as Hu.
  rewrite (wrap64_small 0) in Hu by lia. rewrite Hu. cbn [Z.add]. f_equal. f_equal; f_equal.
  - unfold declared. rewrite map_size_fmap, Hp, length_fmap, length_map_to_list. done.
  - unfold memory_of, declared. rewrite Hp, map_to_list_fmap, <- !list_fmap_compose.
    apply sumZ_proper. reflexivity.
Qed.

(** What an admission means, the caps in range. *)
Lemma reserve_Ok a o c c' fs : caps_ok -> ceiling_ok (mkSystem c fs) -> orders a ->
  -(2^63) <= lo_MemoryMB o < 2^63 ->
  reserve k a (accounted k (lo_MemoryMB o)) c = (Ok tt, c') ->
  inner c' = inner c /\
  (0 < maxConcurrent k -> reservedCount c' = reservedCount c + 1 /\
     Z.of_nat (size (declared (inner c))) + reservedCount c + 1 <= maxConcurrent k) /\
  (0 < maxTotalMemoryMB k -> reservedMB c' = reservedMB c + accounted k (lo_MemoryMB o) /\
     memory_of (declared (inner c)) + reservedMB c + accounted k (lo_MemoryMB o) <= maxTotalMemoryMB k).
Proof.
  intros Hk [W _ Hc Hm] Ho Hr H. cbn in *. unfold reserve in H.
  pose proof (accounted_pos Hk (lo_MemoryMB o)) as Hpos.
  pose proof (memory_nonneg Hk (declared (inner c))) as Hm0.
  pose proof (flights_nonneg Hk fs) as Hf0. pose proof (flights_nonneg Hk (waiting fs)) as Hw0.
  destruct (m_List a (inner c)) as [l|e] eqn:Hl; [|unfold usage in H; by rewrite Hl in H].
  rewrite (usage_spec a c l W Ho Hl), !wrap64_add_l in H.
  destruct (admit_launch _ _ _ _) as [[]|] eqn:Ha; [|done]. injection H as <-. cbn.
  destruct Hk as (Hd & Ht & Hn). unfold admit_launch in Ha. split_and!; [done| |].
  - intros Hmc. destruct (Hc Hmc) as (Hrc & H1 & H2). rewrite Hrc in *.
    rewrite (wrap64_small (_ + 1)) by lia. split; [done|].
    rewrite (wrap64_small (Z.of_nat _ + _)) in Ha by lia. ceiling_cases; try done; lia.
  - intros Hmt. destruct (Hm Hmt) as (Hrm & H1 & H2). rewrite Hrm in *.
    rewrite (wrap64_small (memory_of _ + _)) in Ha by lia.
    assert (accounted k (lo_MemoryMB o) <= maxTotalMemoryMB k) as Hreq by (ceiling_cases; try done; lia).
    rewrite (wrap64_small (_ + accounted _ _)) in Ha by lia.
    rewrite (wrap64_small (flight_memory _ + _)) by lia. split; [done|]. ceiling_cases; try done; lia.
Qed.

(** *** The steps *)
Lemma waiting_le fs : (size (waiting fs) <= size fs)%nat.
Proof. unfold waiting. apply map_subseteq_size, map_filter_subseteq. Qed.

Lemma step_reserve tid a o c c' fs :
  caps_ok -> ceiling_ok (mkSystem c fs) -> fs !! tid = None -> orders a -> lo_SandboxID o <> "" ->
  -(2^63) <= lo_MemoryMB o < 2^63 ->
  reserve k a (accounted k (lo_MemoryMB o)) c = (Ok tt, c') ->
  ceiling_ok (mkSystem c' (<[tid := mkFlight o false]> fs)).
Proof.
  intros Hk W Hf Ho Hid Hr H. destruct (reserve_Ok a o c c' fs Hk W Ho Hr H) as (Hi & HC & HM).
  destruct W as [Wm Wi Wc Wmm]. cbn in *. destruct (waiting_insert fs tid o Hf) as [Hw Hwn].
  split; cbn; rewrite ?Hi; [done| | |].
  - intros t f [[<- <-]|[_ Ht]]%lookup_insert_Some; [done|eauto].
  - intros Hmc. destruct (Wc Hmc) as (H1 & H2 & H3), (HC Hmc) as [HC1 HC2].
    rewrite Hw, !map_size_insert_None by done. pose proof (waiting_le fs). lia.
  - intros Hmt. destruct (Wmm Hmt) as (H1 & H2 & H3), (HM Hmt) as [HM1 HM2].
    rewrite Hw, !flights_insert by done. cbn. pose proof (memory_nonneg Hk (declared (inner c))).
    assert (flight_memory (waiting fs) <= flight_memory fs); [|lia].
    clear -Hk. induction fs as [|t f fs Ht IH] using map_ind; [done|].
    rewrite flights_insert by done. pose proof (accounted_pos Hk (lo_MemoryMB (fl_opts f))).
    destruct f as [o []].
    + unfold waiting. rewrite map_filter_insert_False by done. rewrite delete_id by done.
      cbn in *. fold (waiting fs). lia.
    + destruct (waiting_insert fs t o Ht) as [-> Hn]. rewrite flights_insert by done. cbn in *. lia.
Qed.

Lemma step_launch tid a o r b c fs :
  caps_ok -> ceiling_ok (mkSystem c fs) -> fs !! tid = Some (mkFlight o false) ->
  m_Launch a o (inner c) = (r, b) ->
  ceiling_ok (mkSystem (set_inner b c) (<[tid := mkFlight o true]> fs)).
Proof.
  intros Hk [Wm Wi Wc Wmm] Hf H. cbn in *. pose proof (Wi _ _ Hf) as Hid. cbn in Hid.
  destruct (mem_launch a o (inner c) r b Wm Hid H) as [Wb Hb]. fold (declared b) in Hb.
  fold (declared (inner c)) in Hb.
  destruct (waiting_launched fs tid o Hf) as [Hw Hws], (flights_relabel fs tid o false true Hf) as [Hm Hs].
  destruct (flights_delete (waiting fs) tid _ Hws) as [Hwm Hwsz]. cbn in Hwm.
  pose proof (accounted_pos Hk (lo_MemoryMB o)) as Hpos.
  assert (Z.of_nat (size (declared b)) <= Z.of_nat (size (declared (inner c))) + 1 /\
          memory_of (declared b) <= memory_of (declared (inner c)) + accounted k (lo_MemoryMB o)) as [Hn Hmem].
  { destruct Hb as [->|[Hnone ->]]; [lia|].
    assert (declared (inner c) !! lo_SandboxID o = None) as Hd
      by (unfold declared; by rewrite lookup_fmap, Hnone).
    rewrite map_size_insert_None, memory_insert by done. lia. }
  split; cbn; [done| | |].
  - intros t f [[<- <-]|[_ Ht]]%lookup_insert_Some; [done|eauto].
  - intros Hmc. destruct (Wc Hmc) as (H1 & H2 & H3). rewrite Hw, Hs. lia.
  - intros Hmt. destruct (Wmm Hmt) as (H1 & H2 & H3). rewrite Hw, Hm. lia.
Qed.

Lemma step_unreserve tid o c fs :
  caps_ok -> ceiling_ok (mkSystem c fs) -> fs !! tid = Some (mkFlight o true) ->
  ceiling_ok (mkSystem (unreserve (accounted k (lo_MemoryMB o)) c) (delete tid fs)).
Proof.
  intros Hk [Wm Wi Wc Wmm] Hf. cbn in *. destruct (flights_delete fs tid _ Hf) as [Hm Hs].
  cbn in Hm. pose proof (accounted_pos Hk (lo_MemoryMB o)) as Hpos.
  pose proof (flights_nonneg Hk (delete tid fs)) as Hnn. destruct Hk as (Hd & Ht & Hn).
  split; cbn; [done|intros t f [_ Hl]%lookup_delete_Some; eauto| |]; rewrite (waiting_delete fs tid o Hf).
  - intros Hmc. destruct (Wc Hmc) as (H1 & H2 & H3). rewrite wrap64_small by lia. lia.
  - intros Hmt. destruct (Wmm Hmt) as (H1 & H2 & H3). rewrite wrap64_small by lia. lia.
Qed.

Lemma step_inner b c fs : caps_ok ->
  ceiling_ok (mkSystem c fs) -> mem_ok b ->
  (size (declared b) <= size (declared (inner c)))%nat ->
  memory_of (declared b) <= memory_of (declared (inner c)) ->
  ceiling_ok (mkSystem (set_inner b c) fs).
Proof.
  intros Hk [Wm Wi Wc Wmm] Wb Hs Hm. cbn in *. split; cbn; [done|done| |].
  - intros Hmc. destruct (Wc Hmc) as (H1 & H2 & H3). lia.
  - intros Hmt. destruct (Wmm Hmt) as (H1 & H2 & H3). lia.
Qed.

Lemma step_ok s s' : caps_ok -> ceiling_ok s -> Step s s' -> ceiling_ok s'.
Proof.
  intros Hk W H. destruct H.
  - by eapply step_reserve.
  - assert (c' = c) as ->; [|done]. match goal with R : reserve _ _ _ _ = _ |- _ => revert R end.
    unfold reserve. destruct (usage k a c) as [[]|]; [|by intros [= _ <-]].
    destruct (admit_launch _ _ _ _); [done|]. by intros [= _ <-].
  - by eapply step_launch.
  - by eapply step_unreserve.
  - destruct (mem_stop a id f _ (co_mem _ W)) as [Wb Hb]. cbn in Hb.
    apply step_inner; try done; unfold declared; by rewrite Hb.
  - destruct (mem_remove a id f _ (co_mem _ W)) as [Wb Hb]. cbn in Hb.
    apply step_inner; try done; unfold declared; (destruct Hb as [->| ->]; [done|]).
    + apply map_subseteq_size, delete_subseteq.
    + by apply memory_delete.
Qed.

(** C21. The ceiling holds. However launches, stops and removals interleave, whatever
    the backend and the host answer, the sandboxes the backend has a record of never
    exceed the cap on their number, nor does the memory they count for exceed
    the cap on memory; neither does the sum with the launches admitted but not yet
    listed. *)
Theorem ceiling_holds b s :
  caps_ok -> mem_ok b -> known b = ∅ ->
  star Step (mkSystem (mkCeiling b 0 0) ∅) s ->
  let sandboxes := declared (inner (sy_ceiling s)) in
  let pending := waiting (sy_flights s) in
  (0 < maxConcurrent k -> Z.of_nat (size sandboxes) + Z.of_nat (size pending) <= maxConcurrent k) /\
  (0 < maxTotalMemoryMB k -> memory_of sandboxes + flight_memory pending <= maxTotalMemoryMB k /\
     memory_of sandboxes <= maxTotalMemoryMB k).
Proof.
  intros Hk Wb Hb Hs. assert (ceiling_ok (mkSystem (mkCeiling b 0 0) ∅)) as W0.
  { assert (declared b = ∅) as Hd by (unfold declared; by rewrite Hb, fmap_empty).
    assert (waiting ∅ = ∅) as Hw by apply map_filter_empty.
    split; cbn; rewrite ?Hd, ?Hw; [done|by intros ? ? ?| |]; intros ?;
      [rewrite !map_size_empty; lia|change (0 = 0 /\ 0 <= maxTotalMemoryMB k /\ 0 + 0 <= maxTotalMemoryMB k); lia]. }
  pose proof (star_inv Step ceiling_ok (fun s s' W H => step_ok s s' Hk W H) _ _ Hs W0) as [Wm _ Hc Hm].
  split.
  - intros Hmc. apply Hc, Hmc.
  - intros Hmt. destruct (Hm Hmt) as (_ & _ & H). pose proof (flights_nonneg Hk (waiting (sy_flights s))). lia.
Qed.
End Interleaved.

(** ** The microVM manager under the ceiling *)
Section Microvm.
Context (cf : Config).

#[export] Program Instance microvm_memory : @MemoryLaws Host Manager (microvm_manager cf) (microvm_laws cf) := {
  mem_ok := records_ok cf; orders h := forall l, h_listing h l ≡ₚ l }.
Next Obligation.
  intros a b l Ho [= <-]. etransitivity; [apply Ho|]. unfold known. cbn. unfold mv_known. rewrite map_to_list_fmap.
  change (map (fun e => sb_info e.2)) with (fmap (M := list) (fun e : string * sandbox => sb_info e.2)).
  rewrite <- list_fmap_compose. reflexivity.
Qed.
Next Obligation.
  intros b id i W. cbn. rewrite mv_known_lookup. intros (sb & Hl & <-). unfold live.
  apply negb_true_iff, String.eqb_neq, (mo_live _ _ W _ _ Hl).
Qed.
Next Obligation.
  intros a o b r b' W Hid H. cbn in *. split; [pose proof (Launch_records cf a o b W Hid) as Hx; by rewrite H in Hx|].
  apply Launch_run in H; [|done]. destruct H as [e m' Hs _ _|r m' m1 sb id Hf Hsb Hs _ _ _ Hx].
  { left. unfold mv_known. by rewrite Hs. }
  subst id. set (id := lo_SandboxID o) in *. clearbody id.
  assert (si_MemoryMB <$> mv_known m1 = <[id := lo_MemoryMB o]> (si_MemoryMB <$> mv_known b)) as H1.
  { unfold mv_known. rewrite Hs, !fmap_insert, Hsb. done. }
  assert (mv_known b !! id = None) as Hn.
  { unfold mv_known. rewrite lookup_fmap, (started_fresh cf _ _ W Hf). done. }
  destruct Hx as [(_ & -> & _)|(_ & _ & ->)]; [by right|].
  assert (si_MemoryMB <$> mv_known (Stop cf a id true m1).2 = si_MemoryMB <$> mv_known m1) as H2.
  { unfold Stop. destruct (mg_sandboxes m1 !! id) as [x|] eqn:Hl; [|done].
    destruct (h_stop a); cbn [negb snd]; [|done]. unfold mv_known. cbn. rewrite !fmap_insert. cbn.
    rewrite insert_id; [done|]. by rewrite !lookup_fmap, Hl. }
  destruct (Stop cf a id true m1) as [rs m2]. cbn [snd] in *.
  destruct (Remove cf a id true m2) as [rr m3] eqn:Hr. apply Remove_run in Hr. cbn [snd]. destruct rr.
  - destruct Hr as (x & _ & Hd & _). left.
    assert (mv_known m3 = delete id (mv_known m2)) as -> by (unfold mv_known; by rewrite Hd, fmap_delete).
    rewrite fmap_delete, H2, H1, delete_insert_id; [done|]. by rewrite lookup_fmap, Hn.
  - right. split; [done|]. destruct Hr as (Hd & _).
    assert (mv_known m3 = mv_known m2) as -> by (unfold mv_known; by rewrite Hd). by rewrite H2, H1.
Qed.
Next Obligation.
  intros a id f b W. cbn. split; [by apply Stop_records|]. unfold Stop.
  destruct (mg_sandboxes b !! id) as [x|] eqn:Hl; [|done].
  destruct (h_stop a); cbn [negb snd]; [|done]. unfold mv_known. cbn. rewrite !fmap_insert. cbn.
  rewrite insert_id; [done|]. by rewrite !lookup_fmap, Hl.
Qed.
Next Obligation.
  intros a id f b W. cbn. split; [by apply Remove_records|].
  destruct (Remove cf a id f b) as [rr m3] eqn:Hr. apply Remove_run in Hr. cbn [snd]. unfold mv_known.
  destruct rr; [right; destruct Hr as (x & _ & -> & _); by rewrite !fmap_delete|left; by destruct Hr as [-> _]].
Qed.
End Microvm.

(** ** The decorated backend keeps the laws of the inner one *)
Section Laws.
Context {A B : Type} {SM : SandboxManager A B} {LW : ManagerLaws A B} (k : Caps).

Lemma Ceiling_Launch_run a o c r c' : Ceiling_Launch k a o c = (r, c') ->
  (exists e, r = Err e) /\ c' = c \/ m_Launch a o (inner c) = (r, inner c').
Proof.
  unfold Ceiling_Launch, reserve. destruct (usage k a c) as [[n u]|e]; [|intros [= <- <-]; eauto].
  destruct (admit_launch _ _ _ _) as [[]|e]; [|intros [= <- <-]; eauto].
  cbn [inner set_inner]. destruct (m_Launch a o (inner c)) as [r' b]. intros [= <- <-]. by right.
Qed.

#[export] Program Instance ceiling_laws : @ManagerLaws A (CeilingManager B) (ceiling_manager k) := {
  running c := running (inner c); known c := known (inner c); stops := stops;
  backend_ok c := backend_ok (inner c) }.
Next Obligation. intros id c i. exact (resolve_known id (inner c) i). Qed.
Next Obligation. intros id c. exact (running_state id (inner c)). Qed.
Next Obligation.
  intros a o c W Hid Hh. cbn. destruct (Ceiling_Launch k a o c) as [r c'] eqn:H.
  apply Ceiling_Launch_run in H as [[_ ->]|H]; [done|]. cbn [snd].
  replace (inner c') with (m_Launch a o (inner c)).2 by (by rewrite H). by apply launch_keeps_ok.
Qed.
Next Obligation.
  intros a id f c W. cbn. pose proof (stop_keeps_ok a id f _ W) as H.
  destruct (m_Stop a id f (inner c)). done.
Qed.
Next Obligation.
  intros a id f c W Hs. cbn. pose proof (remove_keeps_ok a id f _ W Hs) as H.
  destruct (m_Remove a id f (inner c)). done.
Qed.
Next Obligation.
  intros a o c i c' W Hid H. apply Ceiling_Launch_run in H as [[[e ?] _]|H]; [done|]. by apply launch_Ok in H.
Qed.
Next Obligation.
  intros a o c e c' W Hid H. apply Ceiling_Launch_run in H as [[_ ->]|H]; [done|]. by apply launch_Err in H.
Qed.
Next Obligation.
  intros a id f c Hk. cbn. rewrite (stop_unknown a id f _ Hk). by destruct c.
Qed.
Next Obligation.
  intros a id f c. cbn. pose proof (stop_running a id f (inner c)) as H.
  destruct (m_Stop a id f (inner c)). done.
Qed.
Next Obligation.
  intros a id f c c'. cbn. destruct (m_Stop a id f (inner c)) as [r b] eqn:H.
  intros [= -> <-]. by apply stop_Ok in H.
Qed.
Next Obligation.
  intros a id f c W Hs. cbn. pose proof (stop_halts a id f _ W Hs) as H.
  destruct (m_Stop a id f (inner c)). done.
Qed.
Next Obligation.
  intros a id f c. cbn. pose proof (stop_known a id f (inner c)) as H.
  destruct (m_Stop a id f (inner c)). done.
Qed.
Next Obligation.
  intros a id f c. cbn. pose proof (remove_running a id f (inner c)) as H.
  destruct (m_Remove a id f (inner c)). done.
Qed.
Next Obligation.
  intros a id f c c'. cbn. destruct (m_Remove a id f (inner c)) as [r b] eqn:H.
  intros [= -> <-]. by apply remove_known in H.
Qed.
Next Obligation.
  intros a id f c e c'. cbn. destruct (m_Remove a id f (inner c)) as [r b] eqn:H.
  intros [= -> <-]. by apply remove_Err in H.
Qed.
End Laws.

(** ** Witnesses *)
Import MicrovmToy.
Definition toy_caps : Caps := NewCeilingManager 1 4096 0.

Lemma admit_launch_exact_witness :
  admit_launch toy_caps 0 1024 4000 = Err (MCeilingMemory 1024 4000 4096) /\
  admit_launch toy_caps 0 0 4000 = Ok tt.
Proof.
  split; [reflexivity|].
  exact (proj1 (proj2 (admit_launch_exact toy_caps 0 1024 4000 ltac:(lia) ltac:(lia) ltac:(lia)))
           1024 4000 4096 eq_refl).
Defined.

Lemma count_refusal_misleads_witness :
  admit_launch toy_caps 1 2048 8192 = Err (MCeilingCount 1 1) /\
  admit_launch toy_caps 0 0 8192 = Err (MCeilingHost 8192 4096).
Proof. exact (count_refusal_misleads toy_caps 1 2048 8192 ltac:(cbn; lia) ltac:(cbn; lia)). Defined.

Definition toy_ceiling : CeilingManager Manager := mkCeiling empty 0 0.
Definition toy_system : System := mkSystem toy_ceiling ∅.
Definition reserved : CeilingManager Manager :=
  (reserve (SM := microvm_manager cf) toy_caps (host true ready) 2048 toy_ceiling).2.

(** One launch is admitted; a second, concurrent with it, is refused. *)
Lemma ceiling_holds_witness :
  (reserve (SM := microvm_manager cf) toy_caps (host true ready) 2048 reserved).1 = Err (MCeilingCount 1 1) /\
  Z.of_nat (size (declared (LW := microvm_laws cf) (inner reserved))) + 1 <= 1.
Proof.
  split; [vm_compute; reflexivity|].
  assert (star (Step (ML := microvm_memory cf) toy_caps) toy_system
            (mkSystem reserved (<[0%nat := mkFlight opts false]> ∅))) as Hs.
  { eapply star_step; [|apply star_refl].
    apply (StepReserve (ML := microvm_memory cf) toy_caps 0 (host true ready) opts toy_ceiling reserved ∅);
      [reflexivity|intros l; reflexivity|discriminate|cbn; lia|].
    apply surjective_pairing. }
  exact (proj1 (ceiling_holds (ML := microvm_memory cf) toy_caps empty _ ltac:(unfold caps_ok; cbn; unfold fallbackAccountedMemoryMB; lia)
    (proj1 (manager_ok_empty cf ∅ ∅ ∅)) (fmap_empty _) Hs) eq_refl).
Defined.
