(* ===== verification/SandboxService.v ===== *)
(** * The sandbox service

    internal/service/sandbox.go with sandbox_lifecycle.go, sandbox_rehydrate.go,
    sandbox_dead_guest.go, sandbox_policy_pending.go and
    sandbox_exec_identity.go. The service holds its lock for state transitions
    and never for a boot, so a boot is three pieces here: the claim, the launch
    with its host-side controls, and the settlement; everything else is one
    piece. Registrations are pointers, as in the code: [sv_byTask] gives the
    address of a task's registration, [sv_heap] what is there, and the caller
    that owns a boot keeps the address while the lock is free. *)

From Stdlib Require Import ZArith Lia Ascii String.
From stdpp Require Import base tactics option list sorting gmap sets strings.
From S2P Require Import Prelude.
From S2P Require Import StateErr.
From S2P Require Import GoStrings.
From S2P Require Import TaskId.
From S2P Require Import SandboxModel.
From S2P Require Import SandboxPolicy.
From S2P Require Import Roster.
From S2P Require Import Backend.

Open Scope string_scope.
Open Scope Z_scope.

(** ** Errors *)
Inductive svc_err :=
  | SInvalid (e : model_err)
  | SPolicy
  | SLimit (e : limit_err)
  | SUnsupportedMode
  | SLayout
  | STaskBound (task : string)
  | SWorktreeBound (worktree : string)
  | SNewID
  | SAudit (eventType : string)
  | SRegistry (e : option roster_err)
  | SNotFound (task : string)
  | SGuestDead (task : string)
  | SBooted (id : string)
  | SCanceled
  | SBackend (e : mgr_err)
  | SEgress
  | SReplay
  | SPublish
  | SRunAs
  | SGuest (text : string)
  | SNilDereference
  | SIndexOutOfRange
  | SJoin (es : list svc_err).

(** ** State *)
Record deadGuest := mkDead { dg_at : time; dg_cause : string }.

Record sandboxReg := mkReg {
  rg_info : SandboxInfo; rg_opts : SandboxLaunchOptions; rg_booted : bool;
  rg_lastActivity : time; rg_expiresAt : time; rg_dead : option deadGuest; rg_boot : option nat }.

(** A boot under way: what its owner holds across the unlocked launch
    ([ba_reg], [ba_opts] and, once it returned, [ba_ran]) and what the waiters
    read, set when the channel is closed. *)
Record bootAttempt := mkAttempt {
  ba_reg : nat; ba_opts : SandboxLaunchOptions;
  ba_ran : option (res svc_err SandboxInfo); ba_done : option (res svc_err SandboxInfo) }.

(** [sv_egress], [sv_ports] and [sv_grants] are the sandboxes whose proxy runs,
    whose ports are open and that hold live grants. *)
Record Service (B : Type) := mkService {
  sv_heap : gmap nat sandboxReg; sv_byTask : gmap string nat;
  sv_attempts : gmap nat bootAttempt; sv_next : nat;
  sv_roster : Roster; sv_events : list SandboxEvent; sv_backend : B;
  sv_egress : gset string; sv_ports : gset string; sv_grants : gset string }.
Arguments mkService {B}.
Arguments sv_heap {B}.
Arguments sv_byTask {B}.
Arguments sv_attempts {B}.
Arguments sv_next {B}.
Arguments sv_roster {B}.
Arguments sv_events {B}.
Arguments sv_backend {B}.
Arguments sv_egress {B}.
Arguments sv_ports {B}.
Arguments sv_grants {B}.

(** The collaborators that are wired; [w_text] is [err.Error()]. *)
Record Wiring := mkWiring {
  w_registry : bool; w_egress : bool; w_capRev : bool; w_capRep : bool; w_ports : bool;
  w_execIdentity : option GuestIdentity; w_text : svc_err -> string }.

(** What the collaborators answer during one call: [a_newID] is the next ULID,
    [a_audit] which event types the trail accepts, [a_db] whether the registry's
    statement could run. *)
Record Answers (A : Type) := mkAnswers {
  a_order : list (string * Z) -> list (string * Z);
  a_policy : option SandboxPolicy; a_now : time; a_stored : time; a_newID : option string;
  a_supports : bool; a_layout : bool; a_launch : A; a_stop : A; a_remove : A;
  a_egress : bool; a_replay : bool; a_publish : bool; a_audit : string -> bool; a_db : bool;
  a_exec : ExecRequest -> res string (option GuestIdentity); a_live : bool }.
Arguments a_order {A}.
Arguments a_policy {A}.
Arguments a_now {A}.
Arguments a_stored {A}.
Arguments a_newID {A}.
Arguments a_supports {A}.
Arguments a_layout {A}.
Arguments a_launch {A}.
Arguments a_stop {A}.
Arguments a_remove {A}.
Arguments a_egress {A}.
Arguments a_replay {A}.
Arguments a_publish {A}.
Arguments a_audit {A}.
Arguments a_db {A}.
Arguments a_exec {A}.
Arguments a_live {A}.

(** ** Updates of a record *)
Definition set_info x (r : sandboxReg) :=
  mkReg x (rg_opts r) (rg_booted r) (rg_lastActivity r) (rg_expiresAt r) (rg_dead r) (rg_boot r).
Definition set_opts x (r : sandboxReg) :=
  mkReg (rg_info r) x (rg_booted r) (rg_lastActivity r) (rg_expiresAt r) (rg_dead r) (rg_boot r).
Definition set_booted x (r : sandboxReg) :=
  mkReg (rg_info r) (rg_opts r) x (rg_lastActivity r) (rg_expiresAt r) (rg_dead r) (rg_boot r).
Definition set_lastActivity x (r : sandboxReg) :=
  mkReg (rg_info r) (rg_opts r) (rg_booted r) x (rg_expiresAt r) (rg_dead r) (rg_boot r).
Definition set_expiresAt x (r : sandboxReg) :=
  mkReg (rg_info r) (rg_opts r) (rg_booted r) (rg_lastActivity r) x (rg_dead r) (rg_boot r).
Definition set_dead x (r : sandboxReg) :=
  mkReg (rg_info r) (rg_opts r) (rg_booted r) (rg_lastActivity r) (rg_expiresAt r) x (rg_boot r).
Definition set_boot x (r : sandboxReg) :=
  mkReg (rg_info r) (rg_opts r) (rg_booted r) (rg_lastActivity r) (rg_expiresAt r) (rg_dead r) x.

Definition with_state x (i : SandboxInfo) :=
  mkInfo (si_ID i) (si_TaskID i) (si_WorktreePath i) (si_Backend i) (si_ImageDigest i)
    (si_NetworkMode i) (si_NetworkAllowlist i) x (si_MemoryMB i) (si_CPUs i) (si_DiskQuotaMB i)
    (si_CreatedAt i) (si_ExpiresAt i) (si_PublishPorts i) (si_LastBootFailure i).
Definition with_allowlist x (i : SandboxInfo) :=
  mkInfo (si_ID i) (si_TaskID i) (si_WorktreePath i) (si_Backend i) (si_ImageDigest i)
    (si_NetworkMode i) x (si_State i) (si_MemoryMB i) (si_CPUs i) (si_DiskQuotaMB i)
    (si_CreatedAt i) (si_ExpiresAt i) (si_PublishPorts i) (si_LastBootFailure i).
Definition with_failure x (i : SandboxInfo) :=
  mkInfo (si_ID i) (si_TaskID i) (si_WorktreePath i) (si_Backend i) (si_ImageDigest i)
    (si_NetworkMode i) (si_NetworkAllowlist i) (si_State i) (si_MemoryMB i) (si_CPUs i)
    (si_DiskQuotaMB i) (si_CreatedAt i) (si_ExpiresAt i) (si_PublishPorts i) x.
Definition with_id x (o : SandboxLaunchOptions) :=
  mkLaunch x (lo_TaskID o) (lo_WorktreePath o) (lo_ImageRef o) (lo_Network o) (lo_CPUs o)
    (lo_MemoryMB o) (lo_DiskQuotaMB o) (lo_TTL o) (lo_ConfineAgent o) (lo_PublishPorts o)
    (lo_NoGuestRepo o).
Definition with_network x (o : SandboxLaunchOptions) :=
  mkLaunch (lo_SandboxID o) (lo_TaskID o) (lo_WorktreePath o) (lo_ImageRef o) x (lo_CPUs o)
    (lo_MemoryMB o) (lo_DiskQuotaMB o) (lo_TTL o) (lo_ConfineAgent o) (lo_PublishPorts o)
    (lo_NoGuestRepo o).

Section Updates.
Context {B : Type}.
Implicit Types s : Service B.
Definition set_heap x s := mkService x (sv_byTask s) (sv_attempts s) (sv_next s) (sv_roster s)
  (sv_events s) (sv_backend s) (sv_egress s) (sv_ports s) (sv_grants s).
Definition set_byTask x s := mkService (sv_heap s) x (sv_attempts s) (sv_next s) (sv_roster s)
  (sv_events s) (sv_backend s) (sv_egress s) (sv_ports s) (sv_grants s).
Definition set_attempts x s := mkService (sv_heap s) (sv_byTask s) x (sv_next s) (sv_roster s)
  (sv_events s) (sv_backend s) (sv_egress s) (sv_ports s) (sv_grants s).
Definition set_next x s := mkService (sv_heap s) (sv_byTask s) (sv_attempts s) x (sv_roster s)
  (sv_events s) (sv_backend s) (sv_egress s) (sv_ports s) (sv_grants s).
Definition set_roster x s := mkService (sv_heap s) (sv_byTask s) (sv_attempts s) (sv_next s) x
  (sv_events s) (sv_backend s) (sv_egress s) (sv_ports s) (sv_grants s).
Definition set_events x s := mkService (sv_heap s) (sv_byTask s) (sv_attempts s) (sv_next s)
  (sv_roster s) x (sv_backend s) (sv_egress s) (sv_ports s) (sv_grants s).
Definition set_backend (x : B) s := mkService (sv_heap s) (sv_byTask s) (sv_attempts s) (sv_next s)
  (sv_roster s) (sv_events s) x (sv_egress s) (sv_ports s) (sv_grants s).
Definition set_egress x s := mkService (sv_heap s) (sv_byTask s) (sv_attempts s) (sv_next s)
  (sv_roster s) (sv_events s) (sv_backend s) x (sv_ports s) (sv_grants s).
Definition set_ports x s := mkService (sv_heap s) (sv_byTask s) (sv_attempts s) (sv_next s)
  (sv_roster s) (sv_events s) (sv_backend s) (sv_egress s) x (sv_grants s).
Definition set_grants x s := mkService (sv_heap s) (sv_byTask s) (sv_attempts s) (sv_next s)
  (sv_roster s) (sv_events s) (sv_backend s) (sv_egress s) (sv_ports s) x.

(** [reg.field = x] through the pointer [l]. *)
Definition upd_reg (l : nat) (f : sandboxReg -> sandboxReg) s := set_heap (alter f l (sv_heap s)) s.
(** [s.byTask[task] = &sandboxReg{...}] *)
Definition put_reg (task : string) (r : sandboxReg) s :=
  set_next (S (sv_next s)) (set_heap (<[sv_next s := r]> (sv_heap s))
    (set_byTask (<[task := sv_next s]> (sv_byTask s)) s)).
Definition drop_reg (task : string) s := set_byTask (delete task (sv_byTask s)) s.

(** A task's registration, with its address. *)
Definition lookup_task (task : string) s : option (nat * sandboxReg) :=
  l ← sv_byTask s !! task; r ← sv_heap s !! l; Some (l, r).
End Updates.

(** [imageDigestOf] *)
Definition imageDigestOf (ref : string) : string :=
  let '(_, digest, found) := cut (ch "@") ref in if found : bool then digest else "".

(** The prose of a detail is kept as a word. *)
Definition event (id task eventType detail : string) : SandboxEvent :=
  mkSandboxEvent id task eventType "" "" "" detail.
Definition createdEvent (id : string) (o : SandboxLaunchOptions) (digest : string) : SandboxEvent :=
  mkSandboxEvent id (lo_TaskID o) EventCreated "" digest (Mode (lo_Network o))
    (if NetworkRiskNote (Mode (lo_Network o)) then "network_risk" else "").

Definition errs {A} (r : res svc_err A) : list svc_err :=
  match r with Ok _ => [] | Err e => [e] end.

(** Is a terminal event of a sandbox's life: nothing of it remains. *)
Definition terminal (eventType : string) : bool :=
  bool_decide (StateForEvent eventType = Some StateDestroyed).

(** What [Register] reports. *)
Definition registeredInfo (o : SandboxLaunchOptions) (now : time) : SandboxInfo :=
  mkInfo (lo_SandboxID o) (lo_TaskID o) (lo_WorktreePath o) "" (imageDigestOf (lo_ImageRef o))
    (Mode (lo_Network o)) (Allowlist_ (lo_Network o)) StateCreated (lo_MemoryMB o) (lo_CPUs o)
    (lo_DiskQuotaMB o) now 0 (lo_PublishPorts o) None.
Definition registration (info : SandboxInfo) (o : SandboxLaunchOptions) : SandboxRegistration :=
  mkRegistration info (lo_ImageRef o) (lo_TTL o) (lo_ConfineAgent o).

(** The record a boot leaves: the backend's, with the ports and the caps of the
    registration and the deadline from the service's clock. *)
Definition bootedReg (now : time) (launched : SandboxInfo) (r : sandboxReg) : sandboxReg :=
  let o := rg_opts r in
  let exp := if 0 <? lo_TTL o then now + lo_TTL o else rg_expiresAt r in
  let info := mkInfo (si_ID launched) (si_TaskID launched) (si_WorktreePath launched)
    (si_Backend launched) (si_ImageDigest launched) (si_NetworkMode launched)
    (si_NetworkAllowlist launched) (si_State launched) (lo_MemoryMB o) (lo_CPUs o) (lo_DiskQuotaMB o)
    (si_CreatedAt launched) (if 0 <? lo_TTL o then exp else si_ExpiresAt launched)
    (lo_PublishPorts o) (si_LastBootFailure launched) in
  mkReg info o true now exp (rg_dead r) (rg_boot r).

(** [expiredLocked] *)
Definition expired (r : sandboxReg) (policy : SandboxPolicy) (now : time) : bool :=
  if rg_expiresAt r =? 0 then
    let ttl := lo_TTL (rg_opts r) in
    let ttl := if ttl =? 0 then sp_TTL policy else ttl in
    if ttl =? 0 then false else negb (now <? si_CreatedAt (rg_info r) + ttl)
  else negb (now <? rg_expiresAt r).

Section Service.
Context {A B : Type} {SM : SandboxManager A B} (w : Wiring).
Abbreviation Svc := (ST (Service B) svc_err).
Implicit Types (a : Answers A) (s : Service B).

(** ** Calls to the collaborators *)
Definition AppendSandboxEvent a (e : SandboxEvent) : Svc unit := fun s =>
  match SandboxEvent_Validate e with
  | Err _ => (Err (SAudit (ev_EventType e)), s)
  | Ok _ =>
    if a_audit a (ev_EventType e) then (Ok tt, set_events (sv_events s ++ [e])%list s)
    else (Err (SAudit (ev_EventType e)), s)
  end.

(** One statement against the durable roster; a nil registry is a no-op. *)
Definition registry a (f : Roster -> res roster_err Roster) : Svc unit := fun s =>
  if negb (w_registry w) then (Ok tt, s)
  else if negb (a_db a) then (Err (SRegistry None), s)
  else match f (sv_roster s) with
       | Ok T => (Ok tt, set_roster T s)
       | Err e => (Err (SRegistry (Some e)), s)
       end.
Definition setPersistedState a (id state : string) : Svc unit :=
  registry a (SetSandboxState (a_stored a) id state).
Definition dropPersisted a (id : string) : Svc unit := registry a (DeleteSandbox id).

Definition manager_Launch a (o : SandboxLaunchOptions) : Svc SandboxInfo := fun s =>
  let '(r, b) := m_Launch (a_launch a) o (sv_backend s) in (res_map_err SBackend r, set_backend b s).
Definition manager_Stop a (id : string) (force : bool) : Svc unit := fun s =>
  let '(r, b) := m_Stop (a_stop a) id force (sv_backend s) in (res_map_err SBackend r, set_backend b s).
Definition manager_Remove a (id : string) (force : bool) : Svc unit := fun s =>
  let '(r, b) := m_Remove (a_remove a) id force (sv_backend s) in (res_map_err SBackend r, set_backend b s).

Definition StartEgress a (id : string) : Svc unit :=
  if a_egress a then modify (fun s => set_egress ({[id]} ∪ sv_egress s) s) else fail SEgress.
Definition StopEgress (id : string) : Svc unit :=
  if w_egress w then modify (fun s => set_egress (sv_egress s ∖ {[id]}) s) else mret tt.
Definition StartPublish a (id : string) : Svc unit :=
  if a_publish a then modify (fun s => set_ports ({[id]} ∪ sv_ports s) s) else fail SPublish.
Definition StopPublish (id : string) : Svc unit :=
  if w_ports w then modify (fun s => set_ports (sv_ports s ∖ {[id]}) s) else mret tt.
Definition RevokeGrants (id : string) : Svc unit :=
  if w_capRev w then modify (fun s => set_grants (sv_grants s ∖ {[id]}) s) else mret tt.

(** ** Registration *)
Definition checkExclusivity (task worktree : string) : Svc unit := fun s =>
  (_ ← err_if (bool_decide (is_Some (sv_byTask s !! task))) (STaskBound task);
   err_if (existsb (fun tl => match sv_heap s !! tl.2 with
                              | Some r => String.eqb (lo_WorktreePath (rg_opts r)) worktree
                              | None => false
                              end) (map_to_list (sv_byTask s))) (SWorktreeBound worktree), s).

Definition persistRegistration a (info : SandboxInfo) (o : SandboxLaunchOptions) : Svc unit :=
  r ← outcome (registry a (UpsertSandbox (a_stored a) (Some (registration info o))));
  match r with
  | Ok _ => mret tt
  | Err e =>
    ra ← outcome (AppendSandboxEvent a
                    (event (si_ID info) (si_TaskID info) EventDestroyed "not made durable"));
    fail (SJoin (e :: errs ra))
  end.

Definition Register a (o : SandboxLaunchOptions) : Svc SandboxInfo :=
  _ ← lift (res_map_err SInvalid (Launch_Validate (a_order a) o));
  policy ← lift (res_of_option SPolicy (a_policy a));
  _ ← lift (res_map_err SLimit (EnforceResourceLimits policy o));
  let o := applyPolicyDefaults o policy in
  _ ← lift (err_if (negb (a_supports a)) SUnsupportedMode);
  _ ← lift (err_if (negb (a_layout a)) SLayout);
  _ ← checkExclusivity (lo_TaskID o) (lo_WorktreePath o);
  id ← lift (res_of_option SNewID (a_newID a));
  let o := with_id id o in
  _ ← AppendSandboxEvent a (createdEvent id o (imageDigestOf (lo_ImageRef o)));
  let info := registeredInfo o (a_now a) in
  _ ← persistRegistration a info o;
  _ ← modify (put_reg (lo_TaskID o) (mkReg info o false (a_now a) 0 None None));
  mret info.

(** ** Boots *)

(** What a caller of [EnsureRunning] finds under the lock: a running sandbox, a
    boot to join, or a boot of its own to run, with the address it keeps. *)
Inductive Claim := CRunning (info : SandboxInfo) | CJoin (at_ : nat) | COwn (at_ : nat).

Definition EnsureRunning_claim a (task : string) : Svc Claim := fun s =>
  match a_policy a with
  | None => (Err SPolicy, s)
  | Some policy =>
    match lookup_task task s with
    | None => (Err (SNotFound task), s)
    | Some (l, r) =>
      if bool_decide (is_Some (rg_dead r)) then (Err (SGuestDead task), s)
      else if rg_booted r then (Ok (CRunning (rg_info r)), s)
      else match rg_boot r with
      | Some at_ => (Ok (CJoin at_), s)
      | None =>
        let o := applyPolicyDefaults (rg_opts r) policy in
        let at_ := sv_next s in
        (Ok (COwn at_),
         set_next (S at_) (set_attempts (<[at_ := mkAttempt l o None None]> (sv_attempts s))
           (upd_reg l (fun r => set_boot (Some at_) (set_opts o r)) s)))
      end
    end
  end.

(** The outcome of a boot another caller started; a caller that stops waiting
    gets [SCanceled]. *)
Definition joinBoot (at_ : nat) : Svc SandboxInfo := fun s =>
  match sv_attempts s !! at_ ≫= ba_done with
  | Some r => (r, s)
  | None => (Err SCanceled, s)
  end.

(** The VM goes away again, whatever stop and removal answer. *)
Definition undoLaunch a (id : string) (e : svc_err) : Svc unit :=
  rs ← outcome (manager_Stop a id true);
  rr ← outcome (manager_Remove a id true);
  fail (SJoin (e :: errs rs ++ errs rr)%list).

Definition bootEgress a (id : string) : Svc unit :=
  if negb (w_egress w) then mret tt
  else
    r ← outcome (StartEgress a id);
    match r with
    | Err e => undoLaunch a id e
    | Ok _ =>
      if w_capRep w && negb (a_replay a) then _ ← StopEgress id; undoLaunch a id SReplay
      else mret tt
    end.

Definition bootPorts a (o : SandboxLaunchOptions) (id : string) : Svc unit :=
  if negb (w_ports w) || bool_decide (lo_PublishPorts o = []) then mret tt
  else
    r ← outcome (StartPublish a id);
    match r with
    | Err e => _ ← StopEgress id; undoLaunch a id e
    | Ok _ => mret tt
    end.

(** [runBoot], the part that holds no lock. *)
Definition runBoot a (o : SandboxLaunchOptions) : Svc SandboxInfo :=
  launched ← manager_Launch a o;
  _ ← bootEgress a (si_ID launched);
  _ ← bootPorts a o (si_ID launched);
  mret launched.

Definition rollbackBoot a (id : string) : Svc unit :=
  _ ← StopPublish id;
  _ ← StopEgress id;
  rs ← outcome (manager_Stop a id true);
  rr ← outcome (manager_Remove a id true);
  match (errs rs ++ errs rr)%list with [] => mret tt | es => fail (SJoin es) end.

(** The registration a pointer leads to. *)
Definition deref (l : nat) : Svc sandboxReg := fun s =>
  match sv_heap s !! l with Some r => (Ok r, s) | None => (Err SNilDereference, s) end.

Definition recordBootLocked a (l : nat) (launched : SandboxInfo) : Svc unit :=
  r ← deref l;
  ra ← outcome (AppendSandboxEvent a (event (si_ID launched) (si_TaskID (rg_info r)) EventResumed ""));
  match ra with
  | Err e => rb ← outcome (rollbackBoot a (si_ID launched)); fail (SJoin (e :: errs rb))
  | Ok _ =>
    rs ← outcome (setPersistedState a (si_ID launched) StateRunning);
    match rs with
    | Err e => rb ← outcome (rollbackBoot a (si_ID launched)); fail (SJoin (e :: errs rb))
    | Ok _ => modify (upd_reg l (bootedReg (a_now a) launched))
    end
  end.

(** [reg.boot = nil; close(attempt.done)] *)
Definition closeBoot (l at_ : nat) (out : res svc_err SandboxInfo) s : Service B :=
  set_attempts (alter (fun b => mkAttempt (ba_reg b) (ba_opts b) (ba_ran b) (Some out)) at_
                  (sv_attempts s))
    (upd_reg l (set_boot None) s).

Definition settleBoot a (l at_ : nat) (ran : res svc_err SandboxInfo) : Svc SandboxInfo :=
  r ← outcome (match ran with Err e => fail e | Ok launched => recordBootLocked a l launched end);
  match r with
  | Err e =>
    _ ← modify (upd_reg l (fun r => set_info (with_failure (Some (mkBootFailure (a_now a) (w_text w e)))
                                                (rg_info r)) r));
    _ ← modify (closeBoot l at_ (Err e));
    fail e
  | Ok _ =>
    r ← deref l;
    _ ← modify (closeBoot l at_ (Ok (rg_info r)));
    mret (rg_info r)
  end.

(** The owner's launch has returned; it has not taken the lock again yet. *)
Definition boot_ran (at_ : nat) (ran : res svc_err SandboxInfo) s : Service B :=
  set_attempts (alter (fun b => mkAttempt (ba_reg b) (ba_opts b) (Some ran) (ba_done b)) at_
                  (sv_attempts s)) s.

(** [EnsureRunning] when nothing else runs meanwhile. *)
Definition EnsureRunning a (task : string) : Svc SandboxInfo :=
  c ← EnsureRunning_claim a task;
  match c with
  | CRunning info => mret info
  | CJoin at_ => joinBoot at_
  | COwn at_ =>
    ob ← get (fun s => sv_attempts s !! at_);
    match ob with
    | None => fail SNilDereference
    | Some b =>
      ran ← outcome (runBoot a (ba_opts b));
      _ ← modify (boot_ran at_ ran);
      settleBoot a (ba_reg b) at_ ran
    end
  end.

(** ** Teardown *)

(** One pass of [awaitBootLocked]: the registration with no boot in flight. A
    caller that finds one waits for it and passes again, or is canceled. *)
Definition awaitBootLocked (task : string) : Svc (nat * sandboxReg) := fun s =>
  match lookup_task task s with
  | None => (Err (SNotFound task), s)
  | Some (l, r) => if bool_decide (is_Some (rg_boot r)) then (Err SCanceled, s) else (Ok (l, r), s)
  end.

Definition teardownLocked a (l : nat) (eventType : string) (force : bool) : Svc unit :=
  r ← deref l;
  let id := si_ID (rg_info r) in
  _ ← (if rg_booted r then
         _ ← RevokeGrants id;
         _ ← StopPublish id;
         _ ← StopEgress id;
         _ ← manager_Stop a id force;
         manager_Remove a id force
       else mret tt);
  _ ← AppendSandboxEvent a (event id (si_TaskID (rg_info r)) eventType "");
  dropPersisted a id.

Definition Remove a (task : string) (force : bool) : Svc unit :=
  lr ← awaitBootLocked task;
  _ ← teardownLocked a lr.1 EventDestroyed force;
  modify (drop_reg task).

Definition Land a (task : string) : Svc unit :=
  lr ← awaitBootLocked task;
  _ ← AppendSandboxEvent a (event (si_ID (rg_info lr.2)) task EventLanded "");
  _ ← modify (upd_reg lr.1 (fun r => set_info (with_state StateLanded (rg_info r)) r));
  _ ← teardownLocked a lr.1 EventDestroyed false;
  modify (drop_reg task).

(** ** Sweeps *)

(** A loop that collects what it did and stops at the first error. *)
Fixpoint sweep {X Y} (f : X -> Svc (option Y)) (l : list X) s : list Y * res svc_err unit * Service B :=
  match l with
  | [] => ([], Ok tt, s)
  | x :: l =>
    match f x s with
    | (Err e, s) => ([], Err e, s)
    | (Ok y, s) => let '(ys, r, s) := sweep f l s in (match y with Some y => y :: ys | None => ys end, r, s)
    end
  end.

Definition sortedTasksLocked s : list string := merge_sort String.le (elements (dom (sv_byTask s))).

Definition suspendLocked a (l : nat) : Svc unit :=
  r ← deref l;
  let id := si_ID (rg_info r) in
  _ ← StopPublish id;
  _ ← StopEgress id;
  _ ← manager_Stop a id false;
  _ ← AppendSandboxEvent a (event id (si_TaskID (rg_info r)) EventSuspended "");
  _ ← setPersistedState a id StateSuspended;
  modify (upd_reg l (fun r => set_info (with_state StateSuspended (rg_info r)) (set_booted false r))).

(** One registration of the idle sweep; [a task] are the answers it meets. *)
Definition suspend_one (now idle : Z) (ans : string -> Answers A) (task : string) : Svc (option string) := fun s =>
  match lookup_task task s with
  | None => (Err SNilDereference, s)
  | Some (l, r) =>
    if negb (rg_booted r) || (now - rg_lastActivity r <? idle) then (Ok None, s)
    else (_ ← suspendLocked (ans task) l; mret (Some task)) s
  end.
Definition SuspendIdle (now idle : Z) (ans : string -> Answers A) s :=
  sweep (suspend_one now idle ans) (sortedTasksLocked s) s.

Definition reap_one (policy : SandboxPolicy) (now : time) (eventType : string)
    (ans : string -> Answers A) (task : string) : Svc (option string) := fun s =>
  match lookup_task task s with
  | None => (Err SNilDereference, s)
  | Some (l, r) =>
    if bool_decide (is_Some (rg_boot r)) || negb (expired r policy now) then (Ok None, s)
    else (_ ← teardownLocked (ans task) l eventType true; _ ← modify (drop_reg task); mret (Some task)) s
  end.
Definition reapExpired (policy : option SandboxPolicy) (now : time) (eventType : string)
    (ans : string -> Answers A) s : list string * res svc_err unit * Service B :=
  match policy with
  | None => ([], Err SPolicy, s)
  | Some policy => sweep (reap_one policy now eventType ans) (sortedTasksLocked s) s
  end.

(** ** Daemon start *)

(** The state a row turns out to have and whether its VM is there, if the claim
    it makes can be verified. *)
Definition verifyLocked (row : SandboxRegistration) s : option (string * bool) :=
  let state := si_State (sr_Info row) in
  let live := m_Resolve (si_ID (sr_Info row)) (sv_backend s) in
  if String.eqb state StateCreated then Some (StateCreated, false)
  else if String.eqb state StateDead then Some (StateDead, is_ok live)
  else match live with
  | Err _ => None
  | Ok i =>
    if String.eqb (si_State i) StateRunning then Some (StateRunning, true)
    else if String.eqb (si_State i) StateSuspended then Some (StateSuspended, false)
    else if String.eqb (si_State i) StateCreated then Some (StateCreated, false)
    else None
  end.

Definition adoptedReg (now : time) (row : SandboxRegistration) (state : string) (booted : bool) : sandboxReg :=
  let info := with_state state (sr_Info row) in
  mkReg info (LaunchOptions row) booted now (si_ExpiresAt info)
    (if String.eqb state StateDead then Some (mkDead now "recorded dead") else None) None.
Definition adoptLocked a (row : SandboxRegistration) (state : string) (booted : bool) : Svc unit :=
  modify (put_reg (si_TaskID (sr_Info row)) (adoptedReg (a_now a) row state booted)).

Definition discardLostLocked a (row : SandboxRegistration) : Svc unit :=
  let i := sr_Info row in
  _ ← AppendSandboxEvent a (mkSandboxEvent (si_ID i) (si_TaskID i) EventKilled ""
                              (si_ImageDigest i) (si_NetworkMode i) "unsupervised");
  dropPersisted a (si_ID i).

(** [inl] is a recovered task, [inr] a discarded one. *)
Definition rehydrate_one a (row : SandboxRegistration) : Svc (option (string + string)) := fun s =>
  let task := si_TaskID (sr_Info row) in
  if bool_decide (is_Some (sv_byTask s !! task)) then (Ok None, s)
  else match verifyLocked row s with
  | None => (_ ← discardLostLocked a row; mret (Some (inr task))) s
  | Some (state, booted) => (_ ← adoptLocked a row state booted; mret (Some (inl task))) s
  end.
Definition Rehydrate a s : list (string + string) * res svc_err unit * Service B :=
  if negb (w_registry w) then ([], Ok tt, s)
  else if negb (a_db a) then ([], Err (SRegistry None), s)
  else sweep (rehydrate_one a) (ListSandboxes (sv_roster s)) s.

(** ** A lost guest *)
Definition markDeadLocked a (l : nat) (cause : string) : Svc unit :=
  r ← deref l;
  let id := si_ID (rg_info r) in
  _ ← AppendSandboxEvent a (event id (si_TaskID (rg_info r)) EventGuestDied cause);
  _ ← setPersistedState a id StateDead;
  modify (upd_reg l (fun r => set_dead (Some (mkDead (a_now a) cause))
                                (set_info (with_state StateDead (rg_info r)) r))).

(** [a_live] is [ctx.Err() == nil]. *)
Definition noteExecFailure a (task : string) (cause : string) : Svc unit := fun s =>
  if negb (a_live a) || negb (IsLostServing (Some cause)) then (Ok tt, s)
  else match lookup_task task s with
  | Some (l, r) =>
    if negb (rg_booted r) || bool_decide (is_Some (rg_dead r)) then (Ok tt, s)
    else markDeadLocked a l cause s
  | None => (Ok tt, s)
  end.

(** ** Staged egress policy *)
Definition pendingRegLocked (id : string) : Svc (nat * sandboxReg) := fun s =>
  match find (fun tl => match sv_heap s !! tl.2 with
                        | Some r => String.eqb (si_ID (rg_info r)) id
                        | None => false
                        end) (map_to_list (sv_byTask s)) with
  | None => (Err (SNotFound id), s)
  | Some tl =>
    match sv_heap s !! tl.2 with
    | None => (Err SNilDereference, s)
    | Some r =>
      if rg_booted r || bool_decide (is_Some (rg_boot r)) then (Err (SBooted id), s)
      else (Ok (tl.2, r), s)
    end
  end.

Definition StagePendingEgressPolicy a (id : string) (entries : list string) : Svc (list string) :=
  lr ← pendingRegLocked id;
  let '(l, r) := lr : nat * sandboxReg in
  _ ← registry a (UpsertSandbox (a_stored a)
                    (Some (registration (with_allowlist entries (rg_info r)) (rg_opts r))));
  _ ← modify (upd_reg l (fun r =>
        set_info (with_allowlist entries (rg_info r))
          (set_opts (with_network (mkNetworkPolicy (Mode (lo_Network (rg_opts r))) entries) (rg_opts r)) r)));
  mret entries.
Definition PendingEgressPolicy (id : string) : Svc (list string) :=
  lr ← pendingRegLocked id; mret (Allowlist_ (lo_Network (rg_opts lr.2))).

(** ** Exec *)
Definition auditEscalation a (info : SandboxInfo) : Svc unit :=
  AppendSandboxEvent a (mkSandboxEvent (si_ID info) (si_TaskID info) EventExecPrivileged "" ""
                          (si_NetworkMode info) "escalation").

Definition with_RunAs x (q : ExecRequest) := mkExec (Command q) (Dir q) (Env q) (Timeout_ q) x (AsRoot q).
Definition with_Dir x (q : ExecRequest) := mkExec (Command q) x (Env q) (Timeout_ q) (RunAs q) (AsRoot q).

Definition decideExecIdentity a (info : SandboxInfo) (q : ExecRequest) : Svc ExecRequest :=
  if bool_decide (is_Some (RunAs q)) then fail SRunAs
  else if AsRoot q then
    let q := with_RunAs (Some RootIdentity) q in
    _ ← lift (err_if (bool_decide (Command q = [])) SIndexOutOfRange);
    _ ← auditEscalation a info; mret q
  else mret (match w_execIdentity w with Some i => with_RunAs (Some i) q | None => q end).

Definition touch a (task : string) s : Service B :=
  match sv_byTask s !! task with
  | Some l => upd_reg l (set_lastActivity (a_now a)) s
  | None => s
  end.

(** What came back of one command: the request the guest was sent and the
    verdict on the identity it ran as; the output is the guest's, unchanged. *)
Definition Exec a (task : string) (q : ExecRequest) : Svc (ExecRequest * ExecIdentity) :=
  info ← EnsureRunning a task;
  let q := if String.eqb (Dir q) "" then with_Dir (si_WorktreePath info) q else q in
  q ← decideExecIdentity a info q;
  match a_exec a q with
  | Err text =>
    rm ← outcome (noteExecFailure a task text);
    fail (SJoin (SGuest text :: errs rm))
  | Ok ranAs =>
    _ ← modify (touch a task);
    mret (q, VerdictOnExecIdentity (RunAs q) ranAs)
  end.

(** ** Views *)
Definition by_task_id (x y : SandboxInfo) : Prop := String.le (si_TaskID x) (si_TaskID y).
#[export] Instance by_task_id_dec : RelDecision by_task_id.
Proof. intros x y. unfold by_task_id. apply _. Defined.
Definition List_ s : list SandboxInfo :=
  merge_sort by_task_id (omap (fun tl => rg_info <$> sv_heap s !! tl.2) (map_to_list (sv_byTask s))).
Definition Status (task : string) : Svc SandboxInfo := fun s =>
  match lookup_task task s with
  | Some (_, r) => (Ok (rg_info r), s)
  | None => (Err (SNotFound task), s)
  end.
End Service.
