(* ===== verification/SandboxSteps.v ===== *)
(** * Runs of the sandbox service

    The step relation of [SandboxService] (every piece the lock delimits is a
    step, so two boots, a removal and a sweep interleave as the lock lets them)
    and what each operation does to the state, on each of its exits. *)

From Stdlib Require Import ZArith Lia Ascii String.
From stdpp Require Import base tactics option list sorting gmap sets strings.
From S2P Require Import Prelude.
From S2P Require Import StateErr.
From S2P Require Import GoStrings.
From S2P Require Import TaskId.
From S2P Require Import SandboxModel.
From S2P Require Import SandboxPolicy.
From S2P Require Import Roster.
From S2P Require Import Backend.
From S2P Require Import SandboxService.

Open Scope string_scope.
Open Scope Z_scope.

Section Steps.
Context {A B : Type} {SM : SandboxManager A B} {LW : ManagerLaws A B} (w : Wiring).
Abbreviation Svc := (ST (Service B) svc_err).
Implicit Types (a : Answers A) (s : Service B).

(** The registrations by task. *)
Definition regs s : gmap string sandboxReg := omap (fun l => sv_heap s !! l) (sv_byTask s).

(** A machine, a proxy or a published port of these sandboxes is up. *)
Definition active s : gset string := running (sv_backend s) ∪ sv_egress s ∪ sv_ports s.

(** ** The step relation *)

(** [newID] is a ULID generator: it returns no id that was ever recorded. *)
Definition fresh a s : Prop := forall id, a_newID a = Some id ->
  id <> "" /\ forall e, e ∈ sv_events s -> ev_SandboxID e <> id.
(** During this call the hypervisor halts what it is told to halt. *)
Definition halts a : Prop := stops (a_launch a) /\ stops (a_stop a) /\ stops (a_remove a).

(** A daemon that starts over an existing registry and trail; the machines were
    children of the one before it. *)
Definition restarted (b : B) s : Service B :=
  mkService ∅ ∅ ∅ 0 (sv_roster s) (sv_events s) b ∅ ∅ ∅.

Inductive Step : Service B -> Service B -> Prop :=
  | StepRegister a o s : fresh a s -> Step s (Register w a o s).2
  | StepClaim a task s : Step s (EnsureRunning_claim a task s).2
  | StepRun a at_ b s : sv_attempts s !! at_ = Some b -> ba_done b = None -> ba_ran b = None -> halts a ->
      Step s (let '(r, s') := runBoot w a (ba_opts b) s in boot_ran at_ r s')
  | StepSettle a at_ b r s : sv_attempts s !! at_ = Some b -> ba_done b = None -> ba_ran b = Some r ->
      halts a -> Step s (settleBoot w a (ba_reg b) at_ r s).2
  | StepRemove a task force s : Step s (Remove w a task force s).2
  | StepLand a task s : Step s (Land w a task s).2
  | StepSuspendIdle now idle ans s : Step s (SuspendIdle w now idle ans s).2
  | StepReap policy now ans s : Step s (reapExpired w policy now EventTTLExpired ans s).2
  | StepRehydrate a s : Step s (Rehydrate w a s).2
  | StepExecFailed a task cause s : Step s (noteExecFailure w a task cause s).2
  | StepTouch a task s : Step s (touch a task s)
  | StepEscalate a info s : Step s (auditEscalation a info s).2
  | StepStage a id entries s : Step s (StagePendingEgressPolicy w a id entries s).2
  | StepGrant id s : Step s (set_grants ({[id]} ∪ sv_grants s) s)
  | StepRestart b s : backend_ok b -> running b = ∅ -> Step s (restarted b s).

(** A fresh daemon over empty stores. *)
Definition initial (b : B) : Service B := mkService ∅ ∅ ∅ 0 ∅ [] b ∅ ∅ ∅.

(** ** Calls to the collaborators *)

(** The working set is as it was. *)
Definition same_set s s' : Prop :=
  sv_heap s' = sv_heap s /\ sv_byTask s' = sv_byTask s /\ sv_attempts s' = sv_attempts s /\
  sv_next s' = sv_next s.
#[export] Instance same_set_preorder : PreOrder same_set.
Proof. split; [done|]. intros x y z (?&?&?&?) (?&?&?&?). repeat split; congruence. Qed.

(** And so are the durable stores. *)
Definition same_stores s s' : Prop :=
  same_set s s' /\ sv_roster s' = sv_roster s /\ sv_events s' = sv_events s.
#[export] Instance same_stores_preorder : PreOrder same_stores.
Proof.
  split; [done|]. intros x y z (H1&?&?) (H2&?&?). split; [by etransitivity|split; congruence].
Qed.

Lemma append_run a e s r s' : AppendSandboxEvent a e s = (r, s') ->
  r = Ok tt /\ s' = set_events (sv_events s ++ [e])%list s /\ SandboxEvent_Validate e = Ok tt \/
  (exists x, r = Err x) /\ s' = s /\
    (SandboxEvent_Validate e = Ok tt -> a_audit a (ev_EventType e) = false).
Proof.
  unfold AppendSandboxEvent. destruct (SandboxEvent_Validate e) as [[]|]; [|intros [= <- <-]; naive_solver].
  destruct (a_audit a (ev_EventType e)); intros [= <- <-]; naive_solver.
Qed.

Lemma append_Err a e s x s' : AppendSandboxEvent a e s = (Err x, s') -> x = SAudit (ev_EventType e).
Proof. unfold AppendSandboxEvent. by destruct (SandboxEvent_Validate e), (a_audit a (ev_EventType e)); intros [= <-]. Qed.

(** What a statement left in the roster. *)
Definition registry_did (f : Roster -> res roster_err Roster) s (T : Roster) : Prop :=
  if w_registry w then f (sv_roster s) = Ok T else T = sv_roster s.

Lemma registry_run a f s r s' : registry w a f s = (r, s') ->
  r = Ok tt /\ registry_did f s (sv_roster s') /\ s' = set_roster (sv_roster s') s \/
  (exists x, r = Err x) /\ s' = s.
Proof.
  unfold registry, registry_did. destruct (w_registry w); cbn [negb].
  - destruct (a_db a); cbn [negb]; [|intros [= <- <-]; by eauto].
    destruct (f (sv_roster s)) as [T|]; intros [= <- <-]; eauto.
  - intros [= <- <-]. left. split_and!; try done. by destruct s.
Qed.

(** Only the backend changed: its machines only get fewer, and [id]'s is not
    among them if [gone]. *)
Definition calms (id : string) (gone : Prop) s s' : Prop :=
  same_stores s s' /\ sv_egress s' = sv_egress s /\ sv_ports s' = sv_ports s /\
  running (sv_backend s') ⊆ running (sv_backend s) /\
  (backend_ok (sv_backend s) -> gone -> backend_ok (sv_backend s') /\ id ∉ running (sv_backend s')).

Lemma manager_Stop_run a id f s r s' : manager_Stop a id f s = (r, s') ->
  (backend_ok (sv_backend s) -> backend_ok (sv_backend s')) /\
  calms id (r = Ok tt \/ stops (a_stop a)) s s'.
Proof.
  unfold manager_Stop. pose proof (stop_running (a_stop a) id f (sv_backend s)) as Hr.
  pose proof (stop_keeps_ok (a_stop a) id f (sv_backend s)) as Hk.
  pose proof (stop_halts (a_stop a) id f (sv_backend s)) as Hh.
  destruct (m_Stop (a_stop a) id f (sv_backend s)) as [r0 b] eqn:E. intros [= <- <-].
  split; [done|]. split_and!; try done. intros W Hg. split; [by apply Hk|].
  destruct Hg as [Ho|Ho]; [|by apply Hh]. apply res_map_err_Ok in Ho. subst r0. by eapply stop_Ok.
Qed.

Lemma manager_Remove_run a id f s r s' : manager_Remove a id f s = (r, s') ->
  calms id (id ∉ running (sv_backend s)) s s'.
Proof.
  unfold manager_Remove. pose proof (remove_running (a_remove a) id f (sv_backend s)) as Hr.
  pose proof (remove_keeps_ok (a_remove a) id f (sv_backend s)) as Hk.
  destruct (m_Remove (a_remove a) id f (sv_backend s)) as [r0 b] eqn:E. intros [= <- <-].
  split_and!; try done. intros W Hg. split; [by apply Hk; [|right]|]. set_solver.
Qed.

Lemma calms_trans id (g1 g2 : Prop) s s1 s2 :
  calms id g1 s s1 -> calms id (id ∉ running (sv_backend s1)) s1 s2 -> calms id g1 s s2.
Proof.
  intros (Hs & He & Hp & Hr & Hg) (Hs2 & He2 & Hp2 & Hr2 & Hg2). split_and!; try congruence.
  - by etransitivity.
  - set_solver.
  - intros W H. destruct (Hg W H) as [W1 Hn]. auto.
Qed.

(** Stop, then removal whatever it answered: the end of every undo path. *)
Lemma stop_remove_run a id s rs s1 rr s2 : stops (a_stop a) ->
  manager_Stop a id true s = (rs, s1) -> manager_Remove a id true s1 = (rr, s2) -> calms id True s s2.
Proof.
  intros Hh [_ H1]%manager_Stop_run H2%manager_Remove_run.
  destruct (calms_trans _ _ True _ _ _ H1 H2) as (? & ? & ? & ? & Hg). split_and!; auto.
Qed.

Lemma active_mono X s s' : running (sv_backend s') ⊆ X ∪ running (sv_backend s) ->
  sv_egress s' ⊆ X ∪ sv_egress s -> sv_ports s' ⊆ X ∪ sv_ports s -> active s' ⊆ X ∪ active s.
Proof.
  unfold active. generalize (running (sv_backend s')), (running (sv_backend s)). clear. set_solver.
Qed.
Lemma active_sub s s' : running (sv_backend s') ⊆ running (sv_backend s) ->
  sv_egress s' ⊆ sv_egress s -> sv_ports s' ⊆ sv_ports s -> active s' ⊆ active s.
Proof.
  unfold active. generalize (running (sv_backend s')), (running (sv_backend s)). clear. set_solver.
Qed.
Lemma minus_added (id : string) (X Y Z : gset string) :
  X ⊆ Y ∖ {[id]} -> Y ⊆ {[id]} ∪ Z -> X ⊆ Z.
Proof. set_solver. Qed.

(** A set of live proxies or listeners is only kept where one is wired. *)
Definition wired s : Prop :=
  (w_egress w = false -> sv_egress s = ∅) /\ (w_ports w = false -> sv_ports s = ∅).
Lemma wired_mono s s' : wired s -> sv_egress s' ⊆ sv_egress s -> sv_ports s' ⊆ sv_ports s -> wired s'.
Proof. intros [He Hp] H1 H2. split; intros Hn; [rewrite He in H1 by done|rewrite Hp in H2 by done]; set_solver. Qed.

Lemma StopEgress_bind {X} id (f : unit -> Svc X) s : wired s ->
  (StopEgress w id ≫= f) s = f tt (set_egress (sv_egress s ∖ {[id]}) s).
Proof.
  unfold StopEgress. intros [He _]. destruct (w_egress w); [done|].
  unfold mbind, ST_bind, mret, ST_ret. f_equal. destruct s as [? ? ? ? ? ? ? eg ? ?]. cbn in *.
  unfold set_egress. cbn. rewrite (He eq_refl). f_equal. set_solver.
Qed.
Lemma StopPublish_bind {X} id (f : unit -> Svc X) s : wired s ->
  (StopPublish w id ≫= f) s = f tt (set_ports (sv_ports s ∖ {[id]}) s).
Proof.
  unfold StopPublish. intros [_ Hp]. destruct (w_ports w); [done|].
  unfold mbind, ST_bind, mret, ST_ret. f_equal. destruct s as [? ? ? ? ? ? ? ? po ?]. cbn in *.
  unfold set_ports. cbn. rewrite (Hp eq_refl). f_equal. set_solver.
Qed.
Lemma wired_down id s : wired s ->
  wired (set_egress (sv_egress s ∖ {[id]}) s) /\ wired (set_ports (sv_ports s ∖ {[id]}) s).
Proof. intros Hw. split; (eapply wired_mono; [exact Hw|..]; cbn; set_solver). Qed.

(** ** Boots *)

(** The machine [id] is gone again, [eg] and [po] bound what is kept. *)
Definition undone (id : string) (eg po : gset string) s s' : Prop :=
  same_stores s s' /\ backend_ok (sv_backend s') /\
  running (sv_backend s') ⊆ running (sv_backend s) ∖ {[id]} /\ sv_egress s' ⊆ eg /\ sv_ports s' ⊆ po.

Lemma calms_undone id s s' : backend_ok (sv_backend s) -> calms id True s s' ->
  undone id (sv_egress s) (sv_ports s) s s'.
Proof.
  intros W (Hs & He & Hp & Hr & Hg). destruct (Hg W I). unfold undone. rewrite He, Hp.
  split_and!; try done. set_solver.
Qed.

Lemma undoLaunch_run a id e s r s' : stops (a_stop a) -> backend_ok (sv_backend s) ->
  undoLaunch a id e s = (r, s') -> (exists x, r = Err x) /\ undone id (sv_egress s) (sv_ports s) s s'.
Proof.
  intros Hh W H. unfold undoLaunch in H.
  apply outcome_bind in H as (r1 & s1 & H1 & H). apply outcome_bind in H as (r2 & s2 & H2 & H).
  injection H as <- <-. split; [eauto|]. apply calms_undone; [done|]. by eapply stop_remove_run.
Qed.

Lemma rollbackBoot_run a id s r s' : stops (a_stop a) -> wired s -> backend_ok (sv_backend s) ->
  rollbackBoot w a id s = (r, s') -> undone id (sv_egress s ∖ {[id]}) (sv_ports s ∖ {[id]}) s s'.
Proof.
  intros Hh Hw W H. unfold rollbackBoot in H.
  rewrite StopPublish_bind, StopEgress_bind in H by (try apply wired_down; done).
  apply outcome_bind in H as (r1 & s3 & H1 & H). apply outcome_bind in H as (r2 & s4 & H2 & H).
  assert (s' = s4) as -> by (destruct (errs r1 ++ errs r2)%list; by injection H).
  pose proof (stop_remove_run _ _ _ _ _ _ _ Hh H1 H2) as Hc. by apply calms_undone in Hc.
Qed.

(** The controls of a machine that is up: all there, or the machine is not. *)
Definition controlled (id : string) s (r : res svc_err unit) s' : Prop :=
  match r with
  | Ok _ => same_stores s s' /\ backend_ok (sv_backend s') /\ sv_backend s' = sv_backend s /\ wired s' /\
            sv_egress s' ⊆ {[id]} ∪ sv_egress s /\ sv_ports s' ⊆ {[id]} ∪ sv_ports s
  | Err _ => undone id (sv_egress s) (sv_ports s) s s'
  end.

Lemma controlled_refl id s : wired s -> backend_ok (sv_backend s) -> controlled id s (Ok tt) s.
Proof. intros Hw W. split_and!; try done; apply union_subseteq_r. Qed.

Lemma bootEgress_run a id s r s' : stops (a_stop a) -> wired s -> backend_ok (sv_backend s) ->
  bootEgress w a id s = (r, s') -> controlled id s r s' /\ (r = Ok tt -> sv_ports s' = sv_ports s).
Proof.
  intros Hh Hw W H. unfold bootEgress in H. destruct (w_egress w) eqn:Ew; cbn [negb] in H;
    [|injection H as <- <-; split; [by apply controlled_refl|done]].
  apply outcome_bind in H as (r1 & s1 & H1 & H). unfold StartEgress in H1.
  destruct (a_egress a); injection H1 as <- <-; [|by apply undoLaunch_run in H as [(? & ->) ?]].
  set (s1 := set_egress _ s) in H.
  assert (wired s1) as Hw1 by (split; [by rewrite Ew|apply Hw]).
  destruct (_ && _) in H; [|injection H as <- <-; split; [cbn; split_and!; try done; apply union_subseteq_r|done]].
  rewrite StopEgress_bind in H by done.
  apply undoLaunch_run in H as [(? & ->) (Hs & Hk & Hr & He & Hp)]; [|done..].
  cbn in *. split; [|done]. split_and!; try done. clear -He. set_solver.
Qed.

Lemma bootPorts_run a o id s r s' : stops (a_stop a) -> wired s -> backend_ok (sv_backend s) ->
  bootPorts w a o id s = (r, s') ->
  controlled id s r s' /\ (r <> Ok tt -> sv_egress s' ⊆ sv_egress s ∖ {[id]}).
Proof.
  intros Hh Hw W H. unfold bootPorts in H. destruct (w_ports w) eqn:Ew; cbn [negb orb] in H;
    [|injection H as <- <-; split; [by apply controlled_refl|done]].
  destruct (bool_decide _); [injection H as <- <-; split; [by apply controlled_refl|done]|].
  apply outcome_bind in H as (r1 & s1 & H1 & H). unfold StartPublish in H1.
  destruct (a_publish a); injection H1 as <- <-.
  - injection H as <- <-. split; [|done]. split_and!; try done; [|apply union_subseteq_r].
    split; cbn; [apply Hw|by rewrite Ew].
  - rewrite StopEgress_bind in H by done.
    apply undoLaunch_run in H as [(? & ->) (Hs & Hk & Hr & He & Hp)]; [|done..].
    cbn in *. split; [|done]. split_and!; try done. clear -He. set_solver.
Qed.

Lemma runBoot_run a o s r s' : halts a -> lo_SandboxID o <> "" -> backend_ok (sv_backend s) -> wired s ->
  runBoot w a o s = (r, s') ->
  same_stores s s' /\ backend_ok (sv_backend s') /\ wired s' /\
  match r with
  | Ok i => launched_as i o /\ active s' ⊆ {[lo_SandboxID o]} ∪ active s
  | Err _ => active s' ⊆ active s
  end.
Proof.
  intros (Hl & Hst & _) Hid W Hw H. unfold runBoot in H.
  apply M_bind_run in H as [(i & s1 & H1 & H)|(e & H1 & ->)]; unfold manager_Launch in H1;
    pose proof (launch_keeps_ok (a_launch a) o (sv_backend s) W Hid Hl) as Hk;
    destruct (m_Launch (a_launch a) o (sv_backend s)) as [r0 b] eqn:E; cbn [snd] in Hk.
  2: { injection H1 as Hr <-. destruct r0; [done|]. apply launch_Err in E as [Hsub _]; [|done..].
       specialize (Hsub Hl). split_and!; try done. by apply active_sub. }
  injection H1 as Hr <-. destruct r0 as [i0|]; [|done]. injection Hr as ->.
  apply launch_Ok in E as (_ & Hla & Hrun & _); [|done..]. pose proof Hla as (Hidi & _). rewrite Hidi in H.
  set (s0 := set_backend b s) in H. assert (wired s0) as Hw0 by exact Hw.
  apply M_bind_run in H as [([] & s2 & H2 & H)|(e & H2 & ->)]; apply bootEgress_run in H2 as [H2 Hpo]; try done.
  2: { destruct H2 as (Hs & Hk2 & Hr2 & He2 & Hp2). split_and!; try done; [by eapply wired_mono|].
       apply active_sub; [|done..]. apply (minus_added _ _ _ _ Hr2). cbn. by rewrite Hrun. }
  destruct H2 as (Hs2 & Hk2 & Hb2 & Hw2 & He2 & Hp2).
  apply M_bind_run in H as [([] & s3 & H3 & H)|(e & H3 & ->)]; apply bootPorts_run in H3 as [H3 Hx]; try done.
  - injection H as <- <-. destruct H3 as (Hs3 & Hk3 & Hb3 & Hw3 & He3 & Hp3).
    split_and!; try done; [by etransitivity; [exact Hs2|]|].
    rewrite (Hpo eq_refl) in Hp3. apply active_mono; [|clear -He2 He3; set_solver|done].
    rewrite Hb3, Hb2. cbn. by rewrite Hrun.
  - destruct H3 as (Hs3 & Hk3 & Hr3 & _ & Hp3). rewrite (Hpo eq_refl) in Hp3. rewrite Hb2 in Hr3. cbn in Hr3.
    pose proof (minus_added _ _ _ _ (Hx ltac:(done)) He2) as He.
    split_and!; [by etransitivity; [exact Hs2|]|done|by eapply wired_mono|].
    apply active_sub; [|done..]. apply (minus_added _ _ _ _ Hr3). by rewrite Hrun.
Qed.

(** ** Operations under the lock *)

(** Everything but the working set: the trail may have grown by events that
    create nothing, the roster is [T]. *)
Definition side (T : Roster) s s' : Prop :=
  same_set s s' /\ backend_ok (sv_backend s') /\ wired s' /\ active s' ⊆ active s /\
  sv_roster s' = T /\
  exists es, sv_events s' = (sv_events s ++ es)%list /\ Forall (fun e => ev_EventType e <> EventCreated) es.

Lemma side_refl s : backend_ok (sv_backend s) -> wired s -> side (sv_roster s) s s.
Proof. intros W Hw. split_and!; try done. exists []. by rewrite app_nil_r. Qed.

Lemma side_stores s s' : backend_ok (sv_backend s') -> wired s' -> active s' ⊆ active s ->
  same_stores s s' -> side (sv_roster s) s s'.
Proof.
  intros W Hw Ha (Hs & Hr & He). unfold side. rewrite Hr, He. split_and!; try done.
  exists []. by rewrite app_nil_r.
Qed.

Lemma side_trans T T' s s1 s2 : side T s s1 -> side T' s1 s2 -> side T' s s2.
Proof.
  intros (Hs & _ & _ & Ha & _ & es & He & Hf) (Hs2 & W & Hw & Ha2 & HT & es2 & He2 & Hf2).
  split_and!; try done; [by etransitivity..|]. exists (es ++ es2)%list.
  rewrite He2, He, app_assoc. by rewrite Forall_app.
Qed.

Lemma append_side a e s r s' : AppendSandboxEvent a e s = (r, s') -> ev_EventType e <> EventCreated ->
  backend_ok (sv_backend s) -> wired s ->
  side (sv_roster s) s s' /\
  (r = Ok tt -> sv_events s' = (sv_events s ++ [e])%list /\ sv_backend s' = sv_backend s /\
    s' = set_events (sv_events s ++ [e])%list s).
Proof.
  intros H He W Hw. apply append_run in H as [(-> & -> & _)|((x & ->) & -> & _)].
  - split; [|done]. split_and!; try done. exists [e]. by rewrite Forall_singleton.
  - split; [by apply side_refl|done].
Qed.

Lemma registry_side a f s r s' : registry w a f s = (r, s') -> backend_ok (sv_backend s) -> wired s ->
  side (sv_roster s') s s' /\ (r = Ok tt -> registry_did f s (sv_roster s')) /\
  (r <> Ok tt -> sv_roster s' = sv_roster s) /\ active s' = active s /\ sv_events s' = sv_events s.
Proof.
  intros H W Hw. apply registry_run in H as [(-> & Hd & He)|((x & ->) & ->)].
  - set (T := sv_roster s') in *. clearbody T. subst s'. split; [|done].
    unfold side. split_and!; try done. exists []. by rewrite app_nil_r.
  - split; [by apply side_refl|done].
Qed.

Lemma stop_side a id f s r s' : manager_Stop a id f s = (r, s') -> backend_ok (sv_backend s) -> wired s ->
  side (sv_roster s) s s' /\ (r = Ok tt -> id ∉ running (sv_backend s')).
Proof.
  intros (Hk & Hs & He & Hp & Hr & Hg)%manager_Stop_run W Hw.
  assert (wired s') as Hw' by (eapply wired_mono; [exact Hw|by rewrite He|by rewrite Hp]).
  split; [apply side_stores; auto; apply active_sub; [done|by rewrite He|by rewrite Hp]|].
  intros ->. apply Hg; auto.
Qed.

Lemma remove_side a id f s r s' : manager_Remove a id f s = (r, s') -> backend_ok (sv_backend s) -> wired s ->
  id ∉ running (sv_backend s) -> side (sv_roster s) s s' /\ id ∉ running (sv_backend s').
Proof.
  intros (Hs & He & Hp & Hr & Hg)%manager_Remove_run W Hw Hid. destruct (Hg W Hid) as [W' Hn].
  split; [|done]. apply side_stores; [done| | |done].
  - eapply wired_mono; [exact Hw|by rewrite He|by rewrite Hp].
  - apply active_sub; [done|by rewrite He|by rewrite Hp].
Qed.

Lemma stopped_side id s : backend_ok (sv_backend s) -> wired s ->
  let s1 := set_egress (sv_egress s ∖ {[id]}) (set_ports (sv_ports s ∖ {[id]}) s) in
  side (sv_roster s) s s1 /\ id ∉ sv_egress s1 /\ id ∉ sv_ports s1.
Proof.
  intros W Hw. cbn. split; [|clear; set_solver]. apply side_stores; [done| | |done].
  - eapply wired_mono; [exact Hw|..]; cbn; clear; set_solver.
  - apply active_sub; cbn; [done|..]; clear; set_solver.
Qed.

(** The end of a life: audited, then dropped from the roster. *)
Lemma end_side a id e s r s' :
  (_ ← AppendSandboxEvent a e; dropPersisted w a id) s = (r, s') ->
  ev_EventType e <> EventCreated -> backend_ok (sv_backend s) -> wired s ->
  side (sv_roster s') s s' /\ active s' = active s /\ (r <> Ok tt -> sv_roster s' = sv_roster s) /\
  (r = Ok tt -> registry_did (DeleteSandbox id) s (sv_roster s') /\
     sv_events s' = (sv_events s ++ [e])%list).
Proof.
  intros H Hev W Hw. apply M_bind_run in H as [([] & s1 & H1 & H)|(x & H1 & ->)].
  - pose proof H1 as H1'. apply append_side in H1 as [Hs1 H1]; try done. destruct (H1 eq_refl) as (_ & _ & ->).
    apply registry_side in H as (Hs2 & Hok & Hne & Ha & He); try done.
    split_and!; [by eapply side_trans|done|done|]. intros Hr. split; [by apply Hok|by rewrite He].
  - pose proof H1 as H1'. apply append_run in H1' as [(? & _)|(_ & -> & _)]; [done|].
    split_and!; try done. by apply side_refl.
Qed.

Lemma deref_bind {X} l r (f : sandboxReg -> Svc X) s :
  sv_heap s !! l = Some r -> (deref l ≫= f) s = f r s.
Proof. intros Hl. unfold deref, mbind, ST_bind. by rewrite Hl. Qed.
Lemma RevokeGrants_bind {X} id (f : unit -> Svc X) s :
  (RevokeGrants w id ≫= f) s =
  f tt (set_grants (if w_capRev w then sv_grants s ∖ {[id]} else sv_grants s) s).
Proof. unfold RevokeGrants. destruct (w_capRev w); [done|]. by destruct s. Qed.

(** Grants are not part of what [side] follows. *)
Lemma side_grants T g s s' : side T (set_grants g s) s' -> side T s s'.
Proof. done. Qed.

(** The machine of a booted registration and its controls, taken down. *)
Lemma haltLocked_run a id force s r s' :
  (_ ← RevokeGrants w id; _ ← StopPublish w id; _ ← StopEgress w id;
   _ ← manager_Stop a id force; manager_Remove a id force) s = (r, s') ->
  backend_ok (sv_backend s) -> wired s ->
  side (sv_roster s) s s' /\ (r = Ok tt -> id ∉ active s').
Proof.
  intros H W Hw. rewrite RevokeGrants_bind in H. set (s0 := set_grants _ s) in H.
  destruct (stopped_side id s0 W Hw) as (Hs1 & Heg & Hpo).
  rewrite StopPublish_bind in H by done. rewrite StopEgress_bind in H by (apply wired_down; done).
  cbn [sv_egress set_ports] in H. set (s1 := set_egress _ _) in *. pose proof Hs1 as (_ & W1 & Hw1 & _).
  apply M_bind_run in H as [([] & s2 & H2 & H)|(e & H2 & ->)]; pose proof H2 as H2';
    apply stop_side in H2' as [Hs2 Hn]; try done.
  2: { split; [|done]. exact (side_grants _ (sv_grants s0) _ _ (side_trans _ _ _ _ _ Hs1 Hs2)). }
  pose proof Hs2 as (_ & W2 & Hw2 & _). pose proof H as H3.
  apply remove_side in H as [Hs3 Hn3]; [|done..|by apply Hn].
  apply manager_Stop_run in H2 as (_ & _ & He2 & Hp2 & _). apply manager_Remove_run in H3 as (_ & He3 & Hp3 & _).
  pose proof Hs2 as (_ & _ & _ & _ & HT & _). rewrite HT in Hs3.
  split; [exact (side_grants _ (sv_grants s0) _ _ (side_trans _ _ _ _ _ (side_trans _ _ _ _ _ Hs1 Hs2) Hs3))|].
  intros _. unfold active. rewrite He3, Hp3, He2, Hp2, !not_elem_of_union. done.
Qed.

(** [teardownLocked] never fails halfway without the record saying so: an error
    leaves the roster, and a success leaves nothing up. *)
Lemma teardownLocked_run a l ev force s r s' rg : teardownLocked w a l ev force s = (r, s') ->
  sv_heap s !! l = Some rg -> ev <> EventCreated -> backend_ok (sv_backend s) -> wired s ->
  let id := si_ID (rg_info rg) in
  side (sv_roster s') s s' /\ (r <> Ok tt -> sv_roster s' = sv_roster s) /\
  (r = Ok tt -> registry_did (DeleteSandbox id) s (sv_roster s') /\
     (rg_booted rg = true -> id ∉ active s') /\
     event id (si_TaskID (rg_info rg)) ev "" ∈ sv_events s').
Proof.
  intros H Hl Hev W Hw id. unfold teardownLocked in H. rewrite (deref_bind _ _ _ _ Hl) in H.
  assert (exists s1, side (sv_roster s) s s1 /\
    (r <> Ok tt /\ s' = s1 \/ (rg_booted rg = true -> id ∉ active s1) /\
     (_ ← AppendSandboxEvent a (event id (si_TaskID (rg_info rg)) ev ""); dropPersisted w a id) s1 = (r, s')))
    as (s1 & Hs1 & Hx).
  { destruct (rg_booted rg).
    - apply M_bind_run in H as [([] & s1 & H1 & H)|(e & H1 & ->)];
        apply haltLocked_run in H1 as [Hs1 Hn]; try done; exists s1 || exists s'; auto.
    - exists s. split; [by apply side_refl|]. right. by split. }
  pose proof Hs1 as (_ & W1 & Hw1 & _ & HT & es & He & _). destruct Hx as [(Hr & ->)|(Hn & Hx)].
  - rewrite HT. split_and!; try done.
  - apply end_side in Hx as (Hs2 & Ha & Hne & Ho); [|done..]. rewrite HT in Hne.
    split_and!; [by eapply side_trans|done|]. intros Hr. destruct (Ho Hr) as [Hd Hev2].
    split_and!; [unfold registry_did in *; by rewrite <- HT|by rewrite Ha|].
    rewrite Hev2. apply elem_of_app. right. by apply list_elem_of_singleton.
Qed.

(** An audited change of state: the event, then the roster. *)
Lemma transition_side a e id st (k : Svc unit) s r s' :
  (_ ← AppendSandboxEvent a e; _ ← setPersistedState w a id st; k) s = (r, s') ->
  ev_EventType e <> EventCreated -> backend_ok (sv_backend s) -> wired s ->
  r <> Ok tt /\ side (sv_roster s) s s' /\ active s' = active s \/
  exists s1, side (sv_roster s1) s s1 /\ active s1 = active s /\ e ∈ sv_events s1 /\
    registry_did (SetSandboxState (a_stored a) id st) s (sv_roster s1) /\ k s1 = (r, s').
Proof.
  intros H He W Hw. apply M_bind_run in H as [([] & s1 & H1 & H)|(x & H1 & ->)].
  2: { left. pose proof H1 as H2. apply append_run in H2 as [(? & _)|(_ & -> & _)]; [done|].
       split_and!; [done|by apply side_refl|done]. }
  apply append_side in H1 as [Hs1 H1]; [|done..]. destruct (H1 eq_refl) as (_ & _ & ->).
  pose proof Hs1 as (_ & W1 & Hw1 & _).
  apply M_bind_run in H as [([] & s2 & H2 & H)|(x & H2 & ->)];
    apply registry_side in H2 as (Hs2 & Hok & Hne & Ha & He2); try done.
  - right. exists s2. split_and!; [by eapply side_trans|done| |by apply Hok|done].
    rewrite He2. apply elem_of_app. right. by apply list_elem_of_singleton.
  - left. rewrite (Hne ltac:(done)) in Hs2. split_and!; [done|by eapply side_trans|done].
Qed.

Lemma suspendLocked_run a l s r s' rg : suspendLocked w a l s = (r, s') ->
  sv_heap s !! l = Some rg -> backend_ok (sv_backend s) -> wired s ->
  let id := si_ID (rg_info rg) in
  r <> Ok tt /\ side (sv_roster s) s s' \/
  r = Ok tt /\ exists s1, side (sv_roster s1) s s1 /\ id ∉ active s1 /\
    registry_did (SetSandboxState (a_stored a) id StateSuspended) s (sv_roster s1) /\
    s' = upd_reg l (fun r => set_info (with_state StateSuspended (rg_info r)) (set_booted false r)) s1.
Proof.
  intros H Hl W Hw id. unfold suspendLocked in H. rewrite (deref_bind _ _ _ _ Hl) in H.
  destruct (stopped_side id s W Hw) as (Hs1 & Heg & Hpo).
  rewrite StopPublish_bind in H by done. rewrite StopEgress_bind in H by (apply wired_down; done).
  cbn [sv_egress set_ports] in H. fold id in H. set (s1 := set_egress _ _) in *. pose proof Hs1 as (_ & W1 & Hw1 & _).
  apply M_bind_run in H as [([] & s2 & H2 & H)|(e & H2 & ->)]; pose proof H2 as H2';
    apply stop_side in H2' as [Hs2 Hn]; try done.
  2: { left. split; [done|]. exact (side_trans _ _ _ _ _ Hs1 Hs2). }
  pose proof (side_trans _ _ _ _ _ Hs1 Hs2) as (Hss & W2 & Hw2 & Ha2 & HT & He).
  assert (side (sv_roster s) s s2) as Hs by (by split_and!).
  apply manager_Stop_run in H2 as (_ & _ & He2 & Hp2 & _).
  assert (id ∉ active s2) as Hid by (unfold active; rewrite He2, Hp2, !not_elem_of_union; auto).
  apply transition_side in H as [(Hr & Hs3 & _)|(s3 & Hs3 & Ha3 & _ & Hd & H)]; [| |done..].
  - left. rewrite HT in Hs3. split; [done|by eapply side_trans].
  - injection H as <- <-. right. split; [done|]. exists s3. split_and!; [by eapply side_trans|by rewrite Ha3| |done].
    unfold registry_did in *. rewrite HT in Hd. exact Hd.
Qed.

Lemma markDeadLocked_run a l cause s r s' rg : markDeadLocked w a l cause s = (r, s') ->
  sv_heap s !! l = Some rg -> backend_ok (sv_backend s) -> wired s ->
  let id := si_ID (rg_info rg) in
  side (sv_roster s) s s' \/
  exists s1, side (sv_roster s1) s s1 /\ registry_did (SetSandboxState (a_stored a) id StateDead) s (sv_roster s1) /\
    s' = upd_reg l (fun r => set_dead (Some (mkDead (a_now a) cause))
                               (set_info (with_state StateDead (rg_info r)) r)) s1.
Proof.
  intros H Hl W Hw id. unfold markDeadLocked in H. rewrite (deref_bind _ _ _ _ Hl) in H.
  apply transition_side in H as [(Hr & Hs & _)|(s1 & Hs & _ & _ & Hd & H)]; [| |done..]; [by left|right].
  injection H as <- <-. eauto.
Qed.

Lemma undone_side id s s1 s' : side (sv_roster s) s s1 -> wired s1 ->
  undone id (sv_egress s1 ∖ {[id]}) (sv_ports s1 ∖ {[id]}) s1 s' ->
  side (sv_roster s) s s' /\ id ∉ active s'.
Proof.
  intros Hs Hw (Hs1 & W & Hr & He & Hp). pose proof Hs as (_ & _ & _ & _ & HT & _).
  split; [|revert Hr He Hp; unfold active; generalize (running (sv_backend s')), (running (sv_backend s1)); clear; set_solver].
  eapply side_trans; [exact Hs|]. rewrite <- HT. apply side_stores; [done| | |done].
  - eapply wired_mono; [exact Hw|..]; [revert He|revert Hp]; clear; set_solver.
  - apply active_sub; [revert Hr|revert He|revert Hp]; clear; set_solver.
Qed.

Lemma recordBootLocked_run a l i s r s' rg : recordBootLocked w a l i s = (r, s') ->
  sv_heap s !! l = Some rg -> halts a -> backend_ok (sv_backend s) -> wired s ->
  (exists x, r = Err x) /\ side (sv_roster s) s s' /\ si_ID i ∉ active s' \/
  r = Ok tt /\ exists s1, side (sv_roster s1) s s1 /\
    registry_did (SetSandboxState (a_stored a) (si_ID i) StateRunning) s (sv_roster s1) /\
    s' = upd_reg l (bootedReg (a_now a) i) s1.
Proof.
  intros H Hl (_ & Hst & _) W Hw. unfold recordBootLocked in H. rewrite (deref_bind _ _ _ _ Hl) in H.
  set (e := event _ _ _ _) in H.
  assert (forall r0 s1 x0, side (sv_roster s) s s1 ->
    (rb ← outcome (rollbackBoot w a (si_ID i)); fail (SJoin (x0 :: errs rb)) : Svc unit) s1 = (r0, s') ->
    (exists x, r0 = Err x) /\ side (sv_roster s) s s' /\ si_ID i ∉ active s') as Hroll.
  { intros r0 s1 x0 Hs Hx. apply outcome_bind in Hx as (rb & s2 & H2 & Hx). injection Hx as <- <-.
    pose proof Hs as (_ & W1 & Hw1 & _). apply rollbackBoot_run in H2; [|done..].
    split; [eauto|]. by eapply undone_side. }
  apply outcome_bind in H as (ra & s1 & H1 & H). apply append_side in H1 as [Hs1 H1]; [|done..].
  pose proof Hs1 as (_ & W1 & Hw1 & _).
  destruct ra as [[]|x]; [|left; by eapply Hroll]. destruct (H1 eq_refl) as (_ & _ & ->).
  apply outcome_bind in H as (rs & s2 & H2 & H).
  apply registry_side in H2 as (Hs2 & Hok & Hne & _); [|done..].
  destruct rs as [[]|x].
  - injection H as <- <-. right. split; [done|]. exists s2. split_and!; [by eapply side_trans|by apply Hok|done].
  - left. eapply Hroll; [|exact H]. rewrite (Hne ltac:(done)) in Hs2. by eapply side_trans.
Qed.

(** A boot's settlement, either way. *)
Lemma settleBoot_run a l at_ ran s r s' rg : settleBoot w a l at_ ran s = (r, s') ->
  sv_heap s !! l = Some rg -> halts a -> backend_ok (sv_backend s) -> wired s ->
  (exists e s1, r = Err e /\ side (sv_roster s) s s1 /\ (forall i, ran = Ok i -> si_ID i ∉ active s1) /\
     s' = closeBoot l at_ (Err e) (upd_reg l (fun r => set_info
            (with_failure (Some (mkBootFailure (a_now a) (w_text w e))) (rg_info r)) r) s1)) \/
  (exists i s1, ran = Ok i /\ r = Ok (rg_info (bootedReg (a_now a) i rg)) /\ side (sv_roster s1) s s1 /\
     registry_did (SetSandboxState (a_stored a) (si_ID i) StateRunning) s (sv_roster s1) /\
     s' = closeBoot l at_ r (upd_reg l (bootedReg (a_now a) i) s1)).
Proof.
  intros H Hl Hh W Hw. unfold settleBoot in H. apply outcome_bind in H as (r1 & s1 & H1 & H).
  destruct ran as [i|e].
  - pose proof H1 as H1'. apply recordBootLocked_run with (rg := rg) in H1' as [((x & ->) & Hs & Hn)|(-> & s2 & Hs & Hd & ->)]; [| |done..].
    + left. apply modify_bind, modify_bind in H. injection H as <- <-. exists x, s1. split_and!; try done.
      by intros ? [= <-].
    + assert (sv_heap (upd_reg l (bootedReg (a_now a) i) s2) !! l = Some (bootedReg (a_now a) i rg)) as Hl2.
      { pose proof Hs as ((Hh2 & _) & _). cbn. by rewrite Hh2, lookup_alter_eq, Hl. }
      rewrite (deref_bind _ _ _ _ Hl2) in H. apply modify_bind in H. injection H as <- <-. right. eauto 10.
  - injection H1 as <- <-. apply modify_bind, modify_bind in H. injection H as <- <-. left.
    exists e, s. split_and!; try done. by apply side_refl.
Qed.

(** ** Registration *)
Lemma destroyed_valid id o digest : SandboxEvent_Validate (createdEvent id o digest) = Ok tt ->
  SandboxEvent_Validate (event id (lo_TaskID o) EventDestroyed "not made durable") = Ok tt.
Proof.
  unfold SandboxEvent_Validate, createdEvent, event. cbn. rewrite !seq_Ok.
  intros (H1 & H2 & _). split_and!; try done.
Qed.

(** The registration of [o] under the id it was given. *)
Definition newReg (now : time) (o : SandboxLaunchOptions) : sandboxReg :=
  mkReg (registeredInfo o now) o false now 0 None None.

(** The trail of a registration that could not be made durable. *)
Definition stillborn a (o : SandboxLaunchOptions) s : list SandboxEvent :=
  let id := lo_SandboxID o in
  sv_events s ++ createdEvent id o (imageDigestOf (lo_ImageRef o)) ::
    (if a_audit a EventDestroyed then [event id (lo_TaskID o) EventDestroyed "not made durable"] else []).

(** An answer that joins nothing. *)
Ltac register_plain := unfold res_map_err, res_of_option, err_if, mbind, res_bind in *; repeat case_match; simplify_eq; done.
Lemma Register_run a o s r s' : Register w a o s = (r, s') ->
  (exists e, r = Err e /\ forall es, e <> SJoin es) /\ s' = s \/
  (exists e o', r = Err (SJoin (e :: if a_audit a EventDestroyed then [] else [SAudit EventDestroyed])) /\
     a_newID a = Some (lo_SandboxID o') /\ s' = set_events (stillborn a o' s) s) \/
  exists policy o' s1,
    a_policy a = Some policy /\ a_newID a = Some (lo_SandboxID o') /\
    o' = with_id (lo_SandboxID o') (applyPolicyDefaults o policy) /\
    Launch_Validate (a_order a) o = Ok tt /\ EnforceResourceLimits policy o = Ok tt /\
    sv_byTask s !! lo_TaskID o' = None /\
    (forall t r, regs s !! t = Some r -> lo_WorktreePath (rg_opts r) <> lo_WorktreePath o') /\
    s1 = set_roster (sv_roster s1) (set_events (sv_events s ++
           [createdEvent (lo_SandboxID o') o' (imageDigestOf (lo_ImageRef o'))])%list s) /\
    registry_did (UpsertSandbox (a_stored a) (Some (registration (registeredInfo o' (a_now a)) o')))
      s (sv_roster s1) /\
    r = Ok (registeredInfo o' (a_now a)) /\ s' = put_reg (lo_TaskID o') (newReg (a_now a) o') s1.
Proof.
  intros H. unfold Register in H.
  apply lift_bind in H as [([] & Hv%res_map_err_Ok & H)|(e & He & -> & ->)]; [|left; split; [exists e; split; [done|register_plain]|done]].
  apply lift_bind in H as [(policy & Hp%res_of_option_Ok & H)|(e & He & -> & ->)]; [|left; split; [exists e; split; [done|register_plain]|done]].
  apply lift_bind in H as [([] & Hl%res_map_err_Ok & H)|(e & He & -> & ->)]; [|left; split; [exists e; split; [done|register_plain]|done]].
  apply lift_bind in H as [([] & _ & H)|(e & He & -> & ->)]; [|left; split; [exists e; split; [done|register_plain]|done]].
  apply lift_bind in H as [([] & _ & H)|(e & He & -> & ->)]; [|left; split; [exists e; split; [done|register_plain]|done]].
  set (o1 := applyPolicyDefaults o policy) in H.
  apply M_bind_run in H as [([] & s0 & [= Hx <-] & H)|(e & [= He <-] & ->)]; [|left; split; [exists e; split; [done|register_plain]|done]].
  rewrite seq_Ok, !err_if_Ok in Hx. destruct Hx as [Hbt Hwt].
  apply lift_bind in H as [(id & Hid%res_of_option_Ok & H)|(e & He & -> & ->)]; [|left; split; [exists e; split; [done|register_plain]|done]].
  set (o' := with_id id o1) in H.
  apply M_bind_run in H as [([] & s0 & H0 & H)|(e & H0 & ->)]; pose proof H0 as Happ; apply append_run in H0;
    destruct H0 as [(? & Hs0 & Hval)|(? & Hs0 & _)]; try done;
    [|naive_solver|].
  2: { left. split; [|done]. exists e. split; [done|]. apply append_Err in Happ. by subst e. }
  apply M_bind_run in H as [([] & s1 & H1 & H)|(e & H1 & ->)]; unfold persistRegistration in H1;
    apply outcome_bind in H1 as (r1 & s2 & Hreg & H1); apply registry_run in Hreg as [(-> & Hd & Hs2)|((x & ->) & ->)].
  - injection H1 as <-. injection H as <- <-. right. right. exists policy, o', s2. subst s0. split_and!; try done.
    + by bool_to_prop; destruct (sv_byTask s !! _) eqn:E; [exfalso; apply Hbt; eauto|].
    + intros t rr Hr He. apply Forall_existsb_false in Hwt. rewrite Forall_forall in Hwt.
      unfold regs in Hr. apply lookup_omap_Some in Hr as (l & Hh & Hb).
      specialize (Hwt (t, l) ltac:(by apply elem_of_map_to_list)). cbn in Hwt. rewrite Hh in Hwt.
      by apply String.eqb_neq in Hwt.
  - apply outcome_bind in H1 as (? & ? & _ & [=]).
  - by injection H1.
  - apply outcome_bind in H1 as (ra & s3 & Ha & H1). injection H1 as <- <-. right. left.
    exists x, o'. unfold AppendSandboxEvent in Ha.
    apply destroyed_valid in Hval. set (i0 := registeredInfo o' (a_now a)) in Ha.
    rewrite (Hval : SandboxEvent_Validate (event (si_ID i0) (si_TaskID i0) EventDestroyed _) = _) in Ha.
    unfold stillborn. cbn in Ha. subst s0. destruct (a_audit a EventDestroyed); injection Ha as <- <-; [|done].
    split_and!; [done|done|]. cbn. by rewrite <- app_assoc.
Qed.
End Steps.
