(* ===== verification/SandboxSafety.v ===== *)
(** * What the sandbox service guarantees

    The invariant of [SandboxSteps.Step]: the working set and the boots under way
    agree (a boot's owner still finds its registration in the map), nothing is up
    that no registration accounts for, and every registration is durable and
    audited. *)

From Stdlib Require Import ZArith Lia Ascii String.
From stdpp Require Import base tactics option list sorting gmap sets strings.
From S2P Require Import Prelude.
From S2P Require Import StateErr.
From S2P Require Import GoStrings.
From S2P Require Import TaskId.
From S2P Require Import SandboxModel.
From S2P Require Import SandboxPolicy.
From S2P Require Import Roster.
From S2P Require Import Backend.
From S2P Require Import SandboxService.
From S2P Require Import SandboxSteps.

Open Scope string_scope.
Open Scope Z_scope.

(** ** Launch inputs on disk and in memory *)

(** [o] is [o'], with resources [o'] may have filled in since. *)
Record same_launch (o o' : SandboxLaunchOptions) : Prop := {
  sl_id : lo_SandboxID o = lo_SandboxID o'; sl_task : lo_TaskID o = lo_TaskID o';
  sl_worktree : lo_WorktreePath o = lo_WorktreePath o'; sl_image : lo_ImageRef o = lo_ImageRef o';
  sl_network : lo_Network o = lo_Network o'; sl_confine : lo_ConfineAgent o = lo_ConfineAgent o';
  sl_ports : lo_PublishPorts o = lo_PublishPorts o';
  sl_cpus : lo_CPUs o = lo_CPUs o' \/ lo_CPUs o = 0;
  sl_memory : lo_MemoryMB o = lo_MemoryMB o' \/ lo_MemoryMB o = 0;
  sl_disk : lo_DiskQuotaMB o = lo_DiskQuotaMB o' \/ lo_DiskQuotaMB o = 0;
  sl_ttl : lo_TTL o = lo_TTL o' \/ lo_TTL o = 0 }.

Lemma same_launch_defaults o o' p : same_launch o o' -> same_launch o (applyPolicyDefaults o' p).
Proof.
  intros [? ? ? ? ? ? ? Hc Hm Hd Ht]. unfold applyPolicyDefaults. split; cbn; try done;
    match goal with |- context [if ?x =? 0 then _ else _] => destruct (Z.eqb_spec x 0) end; lia.
Qed.

(** The launch options rebuilt from a registration's view. *)
Definition view_launch (r : sandboxReg) : SandboxLaunchOptions :=
  LaunchOptions (registration (rg_info r) (rg_opts r)).
Definition row_launch (x : SandboxRow) : SandboxLaunchOptions := LaunchOptions (scanSandboxRow x).

Definition reg_ok (r : sandboxReg) : Prop :=
  lo_SandboxID (rg_opts r) <> "" /\ same_launch (view_launch r) (rg_opts r).

Lemma reg_id r : reg_ok r -> si_ID (rg_info r) = lo_SandboxID (rg_opts r).
Proof. intros [_ H]. apply H. Qed.
Lemma reg_task r : reg_ok r -> si_TaskID (rg_info r) = lo_TaskID (rg_opts r).
Proof. intros [_ H]. apply H. Qed.

(** ** Trails *)
Definition created_in (E : list SandboxEvent) (id : string) : Prop :=
  exists e, e ∈ E /\ ev_EventType e = EventCreated /\ ev_SandboxID e = id.
Definition ended_in (E : list SandboxEvent) (id : string) : Prop :=
  exists e, e ∈ E /\ terminal (ev_EventType e) = true /\ ev_SandboxID e = id.

Lemma created_in_app E es id : created_in E id -> created_in (E ++ es)%list id.
Proof. intros (e & He & H). exists e. split; [|done]. apply elem_of_app. by left. Qed.
Lemma ended_in_app E es id : ended_in E id -> ended_in (E ++ es)%list id.
Proof. intros (e & He & H). exists e. split; [|done]. apply elem_of_app. by left. Qed.

Section Safety.
Context {A B : Type} {SM : SandboxManager A B} {LW : ManagerLaws A B} (w : Wiring).
Abbreviation Svc := (ST (Service B) svc_err).
Implicit Types (a : Answers A) (s : Service B).

(** ** The durable stores *)

(** The sandboxes whose registration failed and whose end was not recorded
    either: [persistRegistration] could write neither. *)
Context (X : string -> Prop).

(** [L] are the launch inputs of the registered sandboxes, by task. *)
Record stores_ok (L : gmap string SandboxLaunchOptions) (T : Roster) (E : list SandboxEvent) : Prop := {
  st_wf : roster_wf T;
  st_rows id x : T !! id = Some x -> id <> "" /\ created_in E id;
  st_created t o : L !! t = Some o -> created_in E (lo_SandboxID o);
  st_durable : w_registry w = true -> forall t o, L !! t = Some o ->
    exists x, T !! lo_SandboxID o = Some x /\ same_launch (row_launch x) o;
  st_ended : w_registry w = true -> forall id, created_in E id -> is_Some (T !! id) \/ ended_in E id \/ X id;
  st_stranded id : X id -> created_in E id /\ T !! id = None /\
    forall t o, L !! t = Some o -> lo_SandboxID o <> id }.

Lemma stores_append L T E es : Forall (fun e => ev_EventType e <> EventCreated) es ->
  stores_ok L T E -> stores_ok L T (E ++ es)%list.
Proof.
  intros Hf [W Hr Hc Hd He Hs]. split; [done|..].
  - intros id x Hx. destruct (Hr _ _ Hx). split; [done|]. by apply created_in_app.
  - intros t o Ho. apply created_in_app. by eapply Hc.
  - done.
  - intros Hw id (e & [Hin|Hin]%elem_of_app & Ht & Hi).
    + destruct (He Hw id) as [|[|]]; [by exists e|by left|right; left; by apply ended_in_app|by right; right].
    + rewrite Forall_forall in Hf. by destruct (Hf _ Hin).
  - intros id Hi. destruct (Hs id Hi) as [? ?]. split; [by apply created_in_app|done].
Qed.

Lemma row_launch_state st now x : row_launch (set_row_state st now x) = row_launch x.
Proof. done. Qed.

(** The statement of a transition touches no launch input. *)
Lemma stores_state L T T' E now id st : stores_ok L T E ->
  (if w_registry w then SetSandboxState now id st T = Ok T' else T' = T) -> stores_ok L T' E.
Proof.
  intros H Hd. destruct (w_registry w) eqn:Ew; [|by subst].
  pose proof (SetSandboxState_wf _ _ _ _ _ (st_wf _ _ _ H) Hd) as W'.
  apply SetSandboxState_run in Hd as (_ & x & Hx & ->). destruct H as [W Hr Hc Hdu He Hs]. split; [done|..].
  - intros i y [[<- _]|[_ Hy]]%lookup_insert_Some; eauto.
  - done.
  - intros _ t o Ho. destruct (Hdu Ew _ _ Ho) as (y & Hy & Hl).
    destruct (decide (id = lo_SandboxID o)) as [->|Hne].
    + exists (set_row_state st now x). rewrite lookup_insert_eq, row_launch_state.
      split; [done|]. congruence.
    + exists y. by rewrite lookup_insert_ne.
  - intros _ i Hi. destruct (He Ew i Hi) as [[y Hy]|]; [left|by right].
    destruct (decide (id = i)) as [->|]; [rewrite lookup_insert_eq|rewrite lookup_insert_ne by done]; eauto.
  - intros i Hi. destruct (Hs i Hi) as (? & Hn & ?). split_and!; [done| |done].
    rewrite lookup_insert_ne; [done|]. intros ->. congruence.
Qed.

(** A sandbox leaves the roster with its last event. *)
Lemma stores_drop L L' T T' E id : stores_ok L T E ->
  (if w_registry w then DeleteSandbox id T = Ok T' else T' = T) -> L' ⊆ L ->
  (forall t o, L' !! t = Some o -> lo_SandboxID o <> id) -> ended_in E id -> stores_ok L' T' E.
Proof.
  intros [W Hr Hc Hd He Hs] HD Hsub Hne Hend.
  assert (forall t o, L' !! t = Some o -> L !! t = Some o) as Hin
    by (intros t o Ho; exact (lookup_weaken _ _ _ _ Ho Hsub)).
  assert (forall i, X i -> created_in E i /\ T !! i = None /\ forall t o, L' !! t = Some o -> lo_SandboxID o <> i) as Hs'
    by (intros i Hi; destruct (Hs i Hi) as (? & ? & ?); split_and!; eauto).
  destruct (w_registry w) eqn:Ew; [|subst; split; eauto; congruence].
  pose proof (DeleteSandbox_wf _ _ _ W HD) as W'. apply DeleteSandbox_run in HD as [_ ->]. split; [done|..].
  - intros i y [_ Hy]%lookup_delete_Some. eauto.
  - eauto.
  - intros _ t o Ho. rewrite lookup_delete_ne by (symmetry; by eapply Hne). by eapply Hd, Hin.
  - intros _ i Hi. destruct (decide (i = id)) as [->|]; [by right; left|].
    rewrite lookup_delete_ne by done. by apply He.
  - intros i Hi. destruct (Hs' i Hi) as (? & ? & ?). split_and!; [done|apply lookup_delete_None; by right|done].
Qed.

Lemma row_launch_upserted old now reg : row_launch (upserted old (row_of now reg)) = LaunchOptions reg.
Proof. unfold row_launch. by rewrite scan_upserted. Qed.

(** A registration is written: a new sandbox, or new inputs of an old one. *)
Lemma stores_upsert L T T' E E' t o now reg : stores_ok L T E ->
  (if w_registry w then UpsertSandbox now (Some reg) T = Ok T' else T' = T) ->
  lo_SandboxID o <> "" -> same_launch (LaunchOptions reg) o ->
  (forall t' o', L !! t' = Some o' -> t' <> t -> lo_SandboxID o' <> lo_SandboxID o) ->
  (forall i, created_in E i -> created_in E' i) -> (forall i, ended_in E i -> ended_in E' i) ->
  (forall i, created_in E' i -> created_in E i \/ i = lo_SandboxID o) ->
  created_in E' (lo_SandboxID o) -> ~ X (lo_SandboxID o) -> stores_ok (<[t := o]> L) T' E'.
Proof.
  intros [W Hr Hc Hd He Hs] HU Hid Hsl Hne Hci Hei Hcr Hcid Hnx.
  assert (forall t' o', <[t := o]> L !! t' = Some o' -> created_in E' (lo_SandboxID o')) as Hc'
    by (intros t' o' [[_ <-]|[_ Ho]]%lookup_insert_Some; eauto).
  assert (forall i, X i -> created_in E' i /\ T !! i = None /\
    forall t' o', <[t := o]> L !! t' = Some o' -> lo_SandboxID o' <> i) as Hs'.
  { intros i Hi. destruct (Hs i Hi) as (? & ? & Hl). split_and!; [eauto|done|].
    intros t' o' [[_ <-]|[_ Ho]]%lookup_insert_Some; [by intros <-|by eapply Hl]. }
  destruct (w_registry w) eqn:Ew;
    [|subst; split; [done| |done|congruence|congruence|done]; intros i x Hx; destruct (Hr _ _ Hx); eauto].
  pose proof (UpsertSandbox_wf _ _ _ _ W HU) as W'. apply UpsertSandbox_run in HU as (_ & -> & _).
  change (si_ID (sr_Info reg)) with (lo_SandboxID (LaunchOptions reg)) in *.
  rewrite (sl_id _ _ Hsl) in *. split; [done| |done|..].
  - intros i x [[<- _]|[_ Hx]]%lookup_insert_Some; [done|]. destruct (Hr _ _ Hx). eauto.
  - intros _ t' o' [[<- <-]|[Ht Ho]]%lookup_insert_Some.
    + eexists. rewrite lookup_insert_eq. split; [done|]. by rewrite row_launch_upserted.
    + rewrite lookup_insert_ne by (symmetry; eapply Hne; eauto). by eapply Hd.
  - intros _ i [Hi| ->]%Hcr; [|left; rewrite lookup_insert_eq; eauto].
    destruct (He eq_refl i Hi) as [[y Hy]|[|]]; [left|right; left; by apply Hei|by right; right].
    destruct (decide (lo_SandboxID o = i)) as [->|];
      [rewrite lookup_insert_eq|rewrite lookup_insert_ne by done]; eauto.
  - intros i Hi. destruct (Hs' i Hi) as (? & ? & ?). split_and!; [done| |done].
    rewrite lookup_insert_ne; [done|]. by intros <-.
Qed.

Lemma created_in_event E id o d i : created_in (E ++ [createdEvent id o d])%list i <-> created_in E i \/ i = id.
Proof.
  unfold created_in. setoid_rewrite elem_of_app. setoid_rewrite list_elem_of_singleton. split.
  - intros (e & [He| ->] & Ht & <-); [left; eauto|by right].
  - intros [(e & He & H)| ->]; [exists e; auto|]. exists (createdEvent id o d). auto.
Qed.

(** ** The working set *)
Record working_ok s : Prop := {
  wo_ptr t l : sv_byTask s !! t = Some l -> exists r, sv_heap s !! l = Some r /\ lo_TaskID (rg_opts r) = t;
  wo_boot t l r at_ : sv_byTask s !! t = Some l -> sv_heap s !! l = Some r -> rg_boot r = Some at_ ->
    exists b, sv_attempts s !! at_ = Some b /\ ba_reg b = l /\ ba_done b = None;
  wo_flight at_ b : sv_attempts s !! at_ = Some b -> ba_done b = None ->
    exists t r, sv_byTask s !! t = Some (ba_reg b) /\ sv_heap s !! ba_reg b = Some r /\
      rg_boot r = Some at_ /\ rg_opts r = ba_opts b /\ rg_booted r = false /\ rg_dead r = None /\
      forall i, ba_ran b = Some (Ok i) -> launched_as i (ba_opts b);
  wo_next l : (sv_next s <= l)%nat -> sv_heap s !! l = None /\ sv_attempts s !! l = None;
  wo_reg t r : regs s !! t = Some r -> reg_ok r;
  wo_apart t t' r r' : regs s !! t = Some r -> regs s !! t' = Some r' ->
    lo_SandboxID (rg_opts r) = lo_SandboxID (rg_opts r') \/
    lo_WorktreePath (rg_opts r) = lo_WorktreePath (rg_opts r') -> t = t' }.

Lemma regs_lookup s t r : regs s !! t = Some r <->
  exists l, sv_byTask s !! t = Some l /\ sv_heap s !! l = Some r.
Proof. clear X. unfold regs. rewrite lookup_omap_Some. naive_solver. Qed.
Lemma lookup_task_Some s t l r : lookup_task t s = Some (l, r) <->
  sv_byTask s !! t = Some l /\ sv_heap s !! l = Some r.
Proof. clear X.
  unfold lookup_task. destruct (sv_byTask s !! t) as [l'|]; cbn; [|naive_solver].
  destruct (sv_heap s !! l') as [r'|] eqn:E; cbn; naive_solver.
Qed.
Lemma lookup_task_None s t : working_ok s -> lookup_task t s = None <-> sv_byTask s !! t = None.
Proof.
  intros Wo. unfold lookup_task. destruct (sv_byTask s !! t) as [l|] eqn:E; cbn; [|done].
  destruct (wo_ptr _ Wo _ _ E) as (r & -> & _). done.
Qed.

(** Two tasks never share a registration. *)
Lemma ptr_inj s t t' l : working_ok s -> sv_byTask s !! t = Some l -> sv_byTask s !! t' = Some l -> t = t'.
Proof.
  intros Wo H H'. destruct (wo_ptr _ Wo _ _ H) as (r & Hr & <-).
  destruct (wo_ptr _ Wo _ _ H') as (r' & Hr' & <-). congruence.
Qed.

(** [lo_TaskID] is the key. *)
Lemma regs_task s t r : working_ok s -> regs s !! t = Some r -> lo_TaskID (rg_opts r) = t.
Proof. intros Wo (l & Hb & Hh)%regs_lookup. destruct (wo_ptr _ Wo _ _ Hb) as (r' & ? & ?). congruence. Qed.

Lemma working_same s s' : same_set s s' -> working_ok s -> working_ok s'.
Proof. destruct s, s'. intros (E1 & E2 & E3 & E4) Wo. cbn in *. subst. destruct Wo. by split. Qed.

Lemma regs_same s s' : same_set s s' -> regs s' = regs s.
Proof. intros (E1 & E2 & _). unfold regs. by rewrite E1, E2. Qed.

Lemma regs_upd s l f t : working_ok s -> sv_byTask s !! t = Some l -> regs (upd_reg l f s) = alter f t (regs s).
Proof.
  intros Wo Hb. apply map_eq. intros t'. unfold regs. cbn. rewrite lookup_omap.
  destruct (decide (t = t')) as [<-|Hne].
  - rewrite lookup_alter_eq, lookup_omap, Hb. cbn. by rewrite lookup_alter_eq.
  - rewrite lookup_alter_ne, lookup_omap by done. destruct (sv_byTask s !! t') as [l'|] eqn:Hb'; [|done]. cbn.
    destruct (decide (l = l')) as [<-|]; [by destruct Hne; eapply ptr_inj|by rewrite lookup_alter_ne].
Qed.

Lemma regs_put s t r : working_ok s -> regs (put_reg t r s) = <[t := r]> (regs s).
Proof.
  intros Wo. apply map_eq. intros t'. unfold regs. cbn. rewrite lookup_omap.
  destruct (decide (t = t')) as [<-|Hne]; [rewrite !lookup_insert_eq; cbn; by rewrite lookup_insert_eq|].
  rewrite !lookup_insert_ne, lookup_omap by done. destruct (sv_byTask s !! t') as [l'|] eqn:Hb'; [|done]. cbn.
  rewrite lookup_insert_ne; [done|]. intros <-. destruct (wo_ptr _ Wo _ _ Hb') as (r' & Hr' & _).
  destruct (wo_next _ Wo (sv_next s)) as [Hn _]; [done|]. congruence.
Qed.

Lemma regs_drop s t : regs (drop_reg t s) = delete t (regs s).
Proof. unfold regs. cbn. by rewrite omap_delete. Qed.

(** A registration changes in place; its identity does not, and during a boot
    neither do its inputs. *)
Definition settled_change (r r' : sandboxReg) : Prop :=
  rg_boot r' = rg_boot r /\ lo_TaskID (rg_opts r') = lo_TaskID (rg_opts r) /\
  lo_SandboxID (rg_opts r') = lo_SandboxID (rg_opts r) /\
  lo_WorktreePath (rg_opts r') = lo_WorktreePath (rg_opts r) /\
  (rg_boot r <> None -> rg_opts r' = rg_opts r /\ rg_booted r' = rg_booted r /\ rg_dead r' = rg_dead r).

(** The registrations of [s'] are those of [s] with the one of [t] changed. *)
Lemma apart_alter (R : gmap string sandboxReg) f t :
  (forall r, R !! t = Some r -> lo_SandboxID (rg_opts (f r)) = lo_SandboxID (rg_opts r) /\
     lo_WorktreePath (rg_opts (f r)) = lo_WorktreePath (rg_opts r)) ->
  (forall t1 t2 r1 r2, R !! t1 = Some r1 -> R !! t2 = Some r2 ->
     lo_SandboxID (rg_opts r1) = lo_SandboxID (rg_opts r2) \/
     lo_WorktreePath (rg_opts r1) = lo_WorktreePath (rg_opts r2) -> t1 = t2) ->
  forall t1 t2 r1 r2, alter f t R !! t1 = Some r1 -> alter f t R !! t2 = Some r2 ->
     lo_SandboxID (rg_opts r1) = lo_SandboxID (rg_opts r2) \/
     lo_WorktreePath (rg_opts r1) = lo_WorktreePath (rg_opts r2) -> t1 = t2.
Proof.
  intros Hf Hap t1 t2 r1 r2. rewrite !lookup_alter_Some.
  intros [[<- (x & Hx & ->)]|[_ H1]] [[<- (y & Hy & ->)]|[_ H2]]; try done;
    [destruct (Hf _ Hx) as [-> ->]|destruct (Hf _ Hy) as [-> ->]|]; eauto.
Qed.

Lemma working_upd s l f t r : working_ok s -> sv_byTask s !! t = Some l -> sv_heap s !! l = Some r ->
  settled_change r (f r) -> reg_ok (f r) -> working_ok (upd_reg l f s).
Proof.
  intros Wo Hb Hl (Hbo & Ht & Hid & Hwt & Hx) Hok. pose proof (regs_upd s l f t Wo Hb) as Hregs.
  assert (regs s !! t = Some r) as Hr by (apply regs_lookup; eauto).
  split.
  - intros t' l' Hb'. cbn in Hb'. destruct (wo_ptr _ Wo _ _ Hb') as (r' & Hr' & Ht'). cbn.
    destruct (decide (l = l')) as [<-|]; [|rewrite lookup_alter_ne by done; eauto].
    rewrite lookup_alter_eq, Hl. simplify_eq. exists (f r). by rewrite Ht.
  - intros t' l' r' at_. cbn. intros Hb'. rewrite lookup_alter_Some. intros [[<- (r0 & Hr0 & ->)]|[_ Hr']] Hat.
    + simplify_eq. rewrite Hbo in Hat. by eapply (wo_boot _ Wo t).
    + by eapply wo_boot.
  - intros at_ b Hat Hd. cbn in Hat. destruct (wo_flight _ Wo _ _ Hat Hd) as (t' & r' & Hb' & Hr' & Hat' & Ho & Hbt & Hde & Hla).
    cbn. exists t'. destruct (decide (l = ba_reg b)) as [->|]; [|rewrite lookup_alter_ne by done; eauto 10].
    rewrite lookup_alter_eq, Hl. assert (r' = r) as -> by congruence.
    destruct Hx as (Hx1 & Hx2 & Hx3); [by rewrite Hat'|].
    exists (f r). split_and!; try done; congruence.
  - intros n Hn. cbn in *. destruct (wo_next _ Wo n Hn) as [Hh ?]. split; [|done].
    apply lookup_alter_None. done.
  - rewrite Hregs. intros t' r'. rewrite lookup_alter_Some. intros [[<- (r0 & Hr0 & ->)]|[_ Hr']];
      [by simplify_eq|by eapply wo_reg].
  - rewrite Hregs. apply apart_alter; [|apply (wo_apart _ Wo)]. intros r0 Hr0. by simplify_eq.
Qed.

Lemma working_put s t r : working_ok s -> sv_byTask s !! t = None -> lo_TaskID (rg_opts r) = t ->
  rg_boot r = None -> reg_ok r ->
  (forall t' r', regs s !! t' = Some r' -> lo_SandboxID (rg_opts r') <> lo_SandboxID (rg_opts r) /\
     lo_WorktreePath (rg_opts r') <> lo_WorktreePath (rg_opts r)) ->
  working_ok (put_reg t r s).
Proof.
  intros Wo Hb Ht Hbo Hok Hap. pose proof (regs_put s t r Wo) as Hregs.
  assert (forall l r', sv_heap s !! l = Some r' -> sv_next s <> l) as Hnew.
  { intros l r' Hl <-. destruct (wo_next _ Wo (sv_next s)) as [Hn _]; [done|]. congruence. }
  split.
  - intros t' l. cbn. intros [[<- <-]|[_ Hb']]%lookup_insert_Some; [rewrite lookup_insert_eq; eauto|].
    destruct (wo_ptr _ Wo _ _ Hb') as (r' & Hr' & ?). exists r'. rewrite lookup_insert_ne by eauto. done.
  - intros t' l r' at_. cbn. intros [[<- <-]|[_ Hb']]%lookup_insert_Some.
    + rewrite lookup_insert_eq. intros [= <-]. by rewrite Hbo.
    + intros [[<- <-]|[_ Hr']]%lookup_insert_Some; [by rewrite Hbo|]. by eapply wo_boot.
  - intros at_ b Hat Hd. cbn in *. destruct (wo_flight _ Wo _ _ Hat Hd) as (t' & r' & Hb' & Hr' & H).
    exists t', r'. rewrite lookup_insert_ne by (intros ->; congruence).
    rewrite lookup_insert_ne by eauto. done.
  - intros n Hn. cbn in *. destruct (wo_next _ Wo n) as [Hh ?]; [lia|]. split; [|done].
    rewrite lookup_insert_ne by lia. done.
  - rewrite Hregs. intros t' r' [[_ <-]|[_ Hr']]%lookup_insert_Some; [done|by eapply wo_reg].
  - rewrite Hregs. intros t1 t2 r1 r2 [[<- <-]|[_ H1]]%lookup_insert_Some [[<- <-]|[_ H2]]%lookup_insert_Some Hor; try done.
    + destruct (Hap _ _ H2); naive_solver.
    + destruct (Hap _ _ H1); naive_solver.
    + by eapply wo_apart.
Qed.

Lemma working_drop s t l r : working_ok s -> sv_byTask s !! t = Some l -> sv_heap s !! l = Some r ->
  rg_boot r = None -> working_ok (drop_reg t s).
Proof.
  intros Wo Hb Hl Hbo. pose proof (regs_drop s t) as Hregs. split.
  - cbn. intros t' l' [_ Hb']%lookup_delete_Some. by eapply wo_ptr.
  - cbn. intros t' l' r' at_ [_ Hb']%lookup_delete_Some. by eapply wo_boot.
  - cbn. intros at_ b Hat Hd. destruct (wo_flight _ Wo _ _ Hat Hd) as (t' & r' & Hb' & Hr' & Hat' & H).
    exists t', r'. rewrite lookup_delete_ne; [done|]. intros ->. congruence.
  - apply (wo_next _ Wo).
  - rewrite Hregs. intros t' r' [_ Hr']%lookup_delete_Some. by eapply wo_reg.
  - rewrite Hregs. intros t1 t2 r1 r2 [_ H1]%lookup_delete_Some [_ H2]%lookup_delete_Some. by eapply wo_apart.
Qed.

(** A boot is claimed: the registration's inputs are completed and copied. *)
Definition claimed (l : nat) (o : SandboxLaunchOptions) s : Service B :=
  set_next (S (sv_next s)) (set_attempts (<[sv_next s := mkAttempt l o None None]> (sv_attempts s))
    (upd_reg l (fun r => set_boot (Some (sv_next s)) (set_opts o r)) s)).

Lemma working_claim s t l r p : working_ok s -> sv_byTask s !! t = Some l -> sv_heap s !! l = Some r ->
  rg_boot r = None -> rg_booted r = false -> rg_dead r = None ->
  let o := applyPolicyDefaults (rg_opts r) p in
  working_ok (claimed l o s) /\ regs (claimed l o s) = alter (fun r => set_boot (Some (sv_next s)) (set_opts o r)) t (regs s).
Proof.
  intros Wo Hb Hl Hbo Hbt Hde o. set (f := fun r => _) in *.
  assert (regs s !! t = Some r) as Hr by (apply regs_lookup; eauto).
  assert (regs (claimed l o s) = alter f t (regs s)) as Hregs by (by apply regs_upd).
  split; [|done]. split.
  - intros t' l' Hb'. cbn in Hb'. destruct (wo_ptr _ Wo _ _ Hb') as (r' & Hr' & Ht'). cbn.
    destruct (decide (l = l')) as [<-|]; [|rewrite lookup_alter_ne by done; eauto].
    rewrite lookup_alter_eq, Hl. simplify_eq. eexists. split; done.
  - intros t' l' r' at_. cbn. intros Hb'. rewrite lookup_alter_Some.
    intros [[<- (r0 & Hr0 & ->)]|[Hne Hr']] Hat.
    + injection Hat as <-. eexists. by rewrite lookup_insert_eq.
    + destruct (wo_boot _ Wo _ _ _ _ Hb' Hr' Hat) as (b & Hx & ?). exists b.
      rewrite lookup_insert_ne; [done|]. intros <-. destruct (wo_next _ Wo (sv_next s)); [done|congruence].
  - intros at_ b. cbn. intros [[<- <-]|[Hne Hat]]%lookup_insert_Some Hd.
    + exists t, (f r). rewrite lookup_alter_eq, Hl. split_and!; done.
    + destruct (wo_flight _ Wo _ _ Hat Hd) as (t' & r' & Hb' & Hr' & Hat' & H). exists t', r'.
      rewrite lookup_alter_ne; [done|]. intros ->. congruence.
  - intros n Hn. cbn in *. destruct (wo_next _ Wo n) as [? ?]; [lia|].
    rewrite lookup_insert_ne by lia. by rewrite lookup_alter_None.
  - rewrite Hregs. intros t' r'. rewrite lookup_alter_Some. intros [[<- (r0 & Hr0 & ->)]|[_ Hr']]; [|by eapply wo_reg].
    assert (r0 = r) as -> by congruence. destruct (wo_reg _ Wo _ _ Hr0) as [Hid Hsl]. split; [done|].
    pose proof (same_launch_defaults _ _ p Hsl) as [? ? ? ? ? ? ? ? ? ? ?]. split; try done. cbn. by left.
  - rewrite Hregs. apply apart_alter; [|apply (wo_apart _ Wo)]. intros r0 Hr0. by simplify_eq.
Qed.

Lemma working_ran s at_ b res : working_ok s -> sv_attempts s !! at_ = Some b ->
  (forall i, res = Ok i -> launched_as i (ba_opts b)) -> working_ok (boot_ran at_ res s).
Proof.
  intros Wo Hat Hla. destruct Wo as [Hp Hb Hf Hn Hr Ha]. split; try done; cbn.
  - intros t l r a' H1 H2 H3. destruct (Hb _ _ _ _ H1 H2 H3) as (b' & Hb' & Hl & Hd).
    destruct (decide (at_ = a')) as [<-|]; [|exists b'; by rewrite lookup_alter_ne].
    rewrite lookup_alter_eq, Hat. simplify_eq. eexists. split; done.
  - intros a' b' [[<- (b0 & Hb0 & ->)]|[_ Hb']]%lookup_alter_Some Hd; [|by eapply Hf].
    assert (b0 = b) as -> by congruence.
    destruct (Hf _ _ Hat Hd) as (t & r & H1 & H2 & H3 & H4 & H5 & H6 & _). exists t, r.
    split_and!; try done. cbn. intros i [= ->]. by apply Hla.
  - intros l Hl. destruct (Hn l Hl) as [? ?]. by rewrite lookup_alter_None.
Qed.

(** A boot is over: the registration is as [g] left it, with no boot. *)
Lemma working_close s at_ b out g : working_ok s -> sv_attempts s !! at_ = Some b -> ba_done b = None ->
  (forall r, rg_opts (g r) = rg_opts r) ->
  (forall t r, regs s !! t = Some r -> sv_byTask s !! t = Some (ba_reg b) -> reg_ok (g r)) ->
  let s' := closeBoot (ba_reg b) at_ out (upd_reg (ba_reg b) g s) in
  working_ok s' /\ exists t r, sv_byTask s !! t = Some (ba_reg b) /\ sv_heap s !! ba_reg b = Some r /\
    rg_boot r = Some at_ /\ regs s' = alter (fun r => set_boot None (g r)) t (regs s).
Proof.
  intros Wo Hat Hd Hg Hok s'. set (l := ba_reg b) in *. set (f := fun r => set_boot None (g r)).
  destruct (wo_flight _ Wo _ _ Hat Hd) as (t & r & Hb & Hl & Hbo & Ho & Hbt & Hde & Hla). fold l in Hb, Hl.
  assert (sv_heap s' = alter f l (sv_heap s)) as Hheap.
  { cbn. by rewrite alter_alter_eq. }
  assert (regs s' = alter f t (regs s)) as Hregs.
  { transitivity (regs (upd_reg l f s)); [unfold regs; by rewrite Hheap|by apply regs_upd]. }
  assert (regs s !! t = Some r) as Hr by (apply regs_lookup; eauto).
  split; [|exists t, r; done].
  split.
  - intros t' l' Hb'. rewrite Hheap. destruct (wo_ptr _ Wo _ _ Hb') as (r' & Hr' & Ht').
    destruct (decide (l = l')) as [<-|]; [|rewrite lookup_alter_ne by done; eauto].
    rewrite lookup_alter_eq, Hr'. eexists. split; [done|]. cbn. by rewrite Hg.
  - intros t' l' r' at' Hb'. rewrite Hheap, lookup_alter_Some. intros [[<- (r0 & Hr0 & ->)]|[Hne Hr']] Hat'; [done|].
    destruct (wo_boot _ Wo _ _ _ _ Hb' Hr' Hat') as (b' & Hx & Hl' & ?). exists b'. cbn.
    rewrite lookup_alter_ne; [done|]. intros <-. apply Hne. unfold l. congruence.
  - intros at' b'. cbn. intros [[<- (b0 & Hb0 & ->)]|[Hne Hat']]%lookup_alter_Some Hd'; [done|].
    destruct (wo_flight _ Wo _ _ Hat' Hd') as (t' & r' & Hb' & Hr' & Hat2 & H).
    exists t', r'. fold s'. cbn in Hheap. rewrite Hheap, lookup_alter_ne; [done|]. intros Heq. congruence.
  - intros n Hn. rewrite Hheap. destruct (wo_next _ Wo n Hn) as [? ?]. cbn. by rewrite !lookup_alter_None.
  - rewrite Hregs. intros t' r'. rewrite lookup_alter_Some. intros [[<- (r0 & Hr0 & ->)]|[_ Hr']]; [|by eapply wo_reg].
    exact (Hok _ _ Hr0 Hb).
  - rewrite Hregs. apply apart_alter; [|apply (wo_apart _ Wo)]. intros r0 Hr0. unfold f. cbn. by rewrite Hg.
Qed.

(** ** What is up *)

(** Someone accounts for the machine [id]: a booted registration, or the owner of
    a boot whose launch has returned. *)
Definition owner (id : string) s : Prop :=
  (exists t r, regs s !! t = Some r /\ rg_booted r = true /\ lo_SandboxID (rg_opts r) = id) \/
  (exists at_ b i, sv_attempts s !! at_ = Some b /\ ba_done b = None /\ ba_ran b = Some (Ok i) /\
     lo_SandboxID (ba_opts b) = id).

Record active_ok s : Prop := {
  ac_backend : backend_ok (sv_backend s);
  ac_wired : wired w s;
  ac_owner id : id ∈ active s -> owner id s }.

Definition launches s : gmap string SandboxLaunchOptions := rg_opts <$> regs s.

Record svc_ok s : Prop := {
  so_working : working_ok s;
  so_active : active_ok s;
  so_stores : stores_ok (launches s) (sv_roster s) (sv_events s) }.

Lemma owner_regs id s s' : regs s' = regs s -> sv_attempts s' = sv_attempts s -> owner id s -> owner id s'.
Proof. intros Hr Ha. unfold owner. by rewrite Hr, Ha. Qed.

Lemma owner_alter id s s' t f :
  regs s' = alter f t (regs s) -> sv_attempts s' = sv_attempts s ->
  (forall r, regs s !! t = Some r -> rg_booted r = true -> lo_SandboxID (rg_opts r) = id ->
     rg_booted (f r) = true /\ lo_SandboxID (rg_opts (f r)) = id) ->
  owner id s -> owner id s'.
Proof.
  intros Hr Ha Hf [(t' & r & Ht & Hb & Hid)|H]; [left|right; by rewrite Ha].
  rewrite Hr. destruct (decide (t = t')) as [<-|].
  - exists t, (f r). rewrite lookup_alter_eq, Ht. destruct (Hf r Ht Hb Hid). done.
  - exists t', r. by rewrite lookup_alter_ne.
Qed.

Lemma side_active T s s' : active_ok s -> side w T s s' -> active_ok s'.
Proof.
  intros [W Hw Ho] (Hs & W' & Hw' & Ha & _). split; [done|done|]. intros id Hid.
  eapply owner_regs; [by apply regs_same|apply Hs|]. apply Ho. by apply Ha.
Qed.

Lemma side_trail L T T' s s' : side w T s s' -> stores_ok L T' (sv_events s) -> stores_ok L T' (sv_events s').
Proof. intros (_ & _ & _ & _ & _ & es & -> & Hf) H. by apply stores_append. Qed.

Lemma launches_same s s' : same_set s s' -> launches s' = launches s.
Proof. intros H. unfold launches. by rewrite (regs_same _ _ H). Qed.

(** A call that left the working set and the roster alone. *)
Lemma side_ok s s' : svc_ok s -> side w (sv_roster s) s s' -> svc_ok s'.
Proof.
  intros [Wo Ac St] H. pose proof H as (Hs & _ & _ & _ & HT & _). split.
  - by eapply working_same.
  - by eapply side_active.
  - rewrite HT, (launches_same _ _ Hs). by eapply side_trail.
Qed.

Lemma launches_lookup s t o : launches s !! t = Some o <-> exists r, regs s !! t = Some r /\ rg_opts r = o.
Proof. clear X. unfold launches. rewrite lookup_fmap_Some. naive_solver. Qed.

Lemma launches_alter s s' f t : regs s' = alter f t (regs s) -> (forall r, rg_opts (f r) = rg_opts r) ->
  launches s' = launches s.
Proof.
  intros Hr Hf. unfold launches. rewrite Hr. apply map_eq. intros t'. rewrite !lookup_fmap.
  destruct (decide (t = t')) as [<-|]; [|by rewrite lookup_alter_ne].
  rewrite lookup_alter_eq. destruct (regs s !! t); cbn; [|done]. by rewrite Hf.
Qed.

(** A transition: a call, a statement against the roster, a change in place. *)
Lemma upd_ok s s1 l f t r : svc_ok s -> side w (sv_roster s1) s s1 ->
  stores_ok (launches s) (sv_roster s1) (sv_events s) ->
  sv_byTask s !! t = Some l -> sv_heap s !! l = Some r ->
  (forall r, rg_opts (f r) = rg_opts r) -> settled_change r (f r) -> reg_ok (f r) ->
  (rg_booted r = true -> rg_booted (f r) = true \/ lo_SandboxID (rg_opts r) ∉ active s1) ->
  svc_ok (upd_reg l f s1).
Proof.
  intros [Wo Ac St] Hs Hst Hb Hl Hopt Hset Hok Hact. pose proof Hs as (Hss & _).
  pose proof (working_same _ _ Hss Wo) as Wo1. destruct (Hss) as (Hh & Hbt & _).
  assert (sv_byTask s1 !! t = Some l) as Hb1 by (by rewrite Hbt).
  assert (sv_heap s1 !! l = Some r) as Hl1 by (by rewrite Hh).
  pose proof (regs_upd s1 l f t Wo1 Hb1) as Hregs.
  assert (regs s1 !! t = Some r) as Hr by (apply regs_lookup; eauto).
  destruct (side_active _ _ _ Ac Hs) as [W1 Hw1 Ho1]. split.
  - by eapply working_upd.
  - split; [done|done|]. intros id Hid. eapply owner_alter; [exact Hregs|done| |by apply Ho1].
    intros r' Hr' Hbo <-. assert (r' = r) as -> by congruence. rewrite Hopt.
    destruct (Hact Hbo) as [?|Hn]; [done|by destruct Hn].
  - rewrite (launches_alter _ _ _ _ Hregs Hopt), (launches_same _ _ Hss). cbn. by eapply side_trail.
Qed.

Lemma registry_state a id st s s1 : svc_ok s ->
  registry_did w (SetSandboxState (a_stored a) id st) s (sv_roster s1) ->
  stores_ok (launches s) (sv_roster s1) (sv_events s).
Proof. intros [_ _ St] Hd. by eapply stores_state. Qed.

Lemma terminal_created ev : terminal ev = true -> ev <> EventCreated.
Proof. by intros H ->. Qed.

(** A teardown: all of it or a registration that can be retried. *)
Lemma teardown_ok a t l ev force s r s' rg : svc_ok s ->
  sv_byTask s !! t = Some l -> sv_heap s !! l = Some rg -> rg_boot rg = None -> terminal ev = true ->
  teardownLocked w a l ev force s = (r, s') ->
  (r <> Ok tt -> svc_ok s') /\ (r = Ok tt -> svc_ok (drop_reg t s')).
Proof.
  intros [Wo Ac St] Hb Hl Hbo Hev H. pose proof (ac_backend _ Ac) as W. pose proof (ac_wired _ Ac) as Hw.
  eapply teardownLocked_run in H as (Hs & Hne & Hok); [|done|by apply terminal_created|done..].
  split; [intros Hr; rewrite (Hne Hr) in Hs; by eapply side_ok|]. intros Hr. destruct (Hok Hr) as (Hd & Hact & Hin).
  pose proof Hs as (Hss & _). destruct (Hss) as (Hh & Hbt & _). pose proof (working_same _ _ Hss Wo) as Wo1.
  assert (sv_byTask s' !! t = Some l) as Hb1 by (by rewrite Hbt).
  assert (sv_heap s' !! l = Some rg) as Hl1 by (by rewrite Hh).
  assert (regs s !! t = Some rg) as Hreg by (apply regs_lookup; eauto).
  pose proof (reg_id _ (wo_reg _ Wo _ _ Hreg)) as Hid. rewrite Hid in *.
  destruct (side_active _ _ _ Ac Hs) as [W1 Hw1 Ho1]. split.
  - by eapply working_drop.
  - split; [done|done|]. intros id Hi. destruct (Ho1 id Hi) as [(t' & r' & Hr' & Hbo' & Hid')|Hf]; [left|by right].
    exists t', r'. rewrite regs_drop, lookup_delete_ne; [done|]. intros <-.
    rewrite (regs_same _ _ Hss) in Hr'. assert (r' = rg) as -> by congruence. subst id. by apply (Hact Hbo').
  - assert (launches (drop_reg t s') = delete t (launches s)) as ->.
    { unfold launches. rewrite regs_drop, (regs_same _ _ Hss). by rewrite fmap_delete. }
    cbn. eapply stores_drop; [by eapply side_trail|exact Hd|apply delete_subseteq| |].
    + intros t' o' [Ht (r' & Hr' & <-)%launches_lookup]%lookup_delete_Some Heq. apply Ht.
      eapply (wo_apart _ Wo); [exact Hreg|exact Hr'|by left].
    + eexists. split; [exact Hin|]. done.
Qed.

Lemma put_ok s s1 t r : svc_ok s -> same_set s s1 -> active s1 = active s ->
  backend_ok (sv_backend s1) -> wired w s1 -> sv_byTask s !! t = None -> lo_TaskID (rg_opts r) = t ->
  rg_boot r = None -> reg_ok r ->
  (forall t' r', regs s !! t' = Some r' -> lo_SandboxID (rg_opts r') <> lo_SandboxID (rg_opts r) /\
     lo_WorktreePath (rg_opts r') <> lo_WorktreePath (rg_opts r)) ->
  stores_ok (<[t := rg_opts r]> (launches s)) (sv_roster s1) (sv_events s1) -> svc_ok (put_reg t r s1).
Proof.
  intros [Wo Ac St] Hss Ha W1 Hw1 Hb Ht Hbo Hok Hap Hst. pose proof (working_same _ _ Hss Wo) as Wo1.
  destruct (Hss) as (Hh & Hbt & Hat & _). pose proof (regs_put s1 t r Wo1) as Hregs.
  assert (regs s !! t = None) as Hn by (unfold regs; by rewrite lookup_omap, Hb).
  split.
  - apply working_put; [done|by rewrite Hbt|done|done|done|by rewrite (regs_same _ _ Hss)].
  - split; [done|done|]. intros id Hid. change (id ∈ active s1) in Hid. rewrite Ha in Hid.
    destruct (ac_owner _ Ac _ Hid) as [(t' & r' & Hr' & H)|H]; [left|right; cbn; by rewrite Hat].
    exists t', r'. rewrite Hregs, lookup_insert_ne, (regs_same _ _ Hss) by (intros ->; congruence). done.
  - unfold launches. rewrite Hregs, fmap_insert, (regs_same _ _ Hss). exact Hst.
Qed.

Lemma same_launch_refl o : same_launch o o.
Proof. split; auto. Qed.

Lemma same_launch_new now o : same_launch (view_launch (newReg now o)) o.
Proof. destruct o as [? ? ? ? []]. split; cbn; auto. Qed.

(** ** Boots *)
Lemma stores_defaults L T E t o p : stores_ok L T E -> L !! t = Some o ->
  stores_ok (<[t := applyPolicyDefaults o p]> L) T E.
Proof.
  intros [W Hr Hc Hd He Hs] Ho. split; [done|done| | |done|].
  - intros t' o' [[<- <-]|[_ Ho']]%lookup_insert_Some; [exact (Hc _ _ Ho)|eauto].
  - intros Ew t' o' [[<- <-]|[_ Ho']]%lookup_insert_Some; [|eauto].
    destruct (Hd Ew _ _ Ho) as (x & Hx & Hsl). exists x. split; [done|]. by apply same_launch_defaults.
  - intros i Hi. destruct (Hs i Hi) as (? & ? & Hl). split_and!; [done|done|].
    intros t' o' [[_ <-]|[_ Ho']]%lookup_insert_Some; [exact (Hl _ _ Ho)|eauto].
Qed.

Lemma claim_ok a task s r s' : svc_ok s -> EnsureRunning_claim a task s = (r, s') -> svc_ok s'.
Proof.
  intros H0 H. pose proof H0 as [Wo Ac St]. unfold EnsureRunning_claim in H.
  destruct (a_policy a) as [p|]; [|by injection H as _ <-].
  destruct (lookup_task task s) as [[l r0]|] eqn:Hl; [|by injection H as _ <-].
  apply lookup_task_Some in Hl as [Hb Hl].
  case_bool_decide as Hde; [by injection H as _ <-|]. destruct (rg_booted r0) eqn:Hbt; [by injection H as _ <-|].
  destruct (rg_boot r0) eqn:Hbo; [by injection H as _ <-|]. injection H as _ <-.
  apply eq_None_not_Some in Hde. pose proof (working_claim s task l r0 p Wo Hb Hl Hbo Hbt Hde) as [Wo' Hregs].
  assert (regs s !! task = Some r0) as Hr by (apply regs_lookup; eauto).
  fold (claimed l (applyPolicyDefaults (rg_opts r0) p) s). split; [done| |].
  - destruct Ac as [W Hw Ho]. split; [done|done|]. intros id Hid.
    destruct (Ho id Hid) as [(t & r' & Hr' & Hb' & Hi')|(at_ & b & i & Hat & H)].
    + left. exists t, r'. rewrite Hregs, lookup_alter_ne; [done|]. intros <-. congruence.
    + right. exists at_, b, i. cbn. rewrite lookup_insert_ne; [done|]. intros <-.
      destruct (wo_next _ Wo (sv_next s)); [done|congruence].
  - assert (launches (claimed l (applyPolicyDefaults (rg_opts r0) p) s) =
            <[task := applyPolicyDefaults (rg_opts r0) p]> (launches s)) as ->.
    { unfold launches. rewrite Hregs. apply map_eq. intros t. rewrite lookup_fmap.
      destruct (decide (task = t)) as [<-|]; [by rewrite lookup_alter_eq, Hr, lookup_insert_eq|].
      by rewrite lookup_alter_ne, lookup_insert_ne, lookup_fmap. }
    apply stores_defaults; [done|]. apply launches_lookup. eauto.
Qed.

Lemma run_ok a at_ b s : svc_ok s -> sv_attempts s !! at_ = Some b -> ba_done b = None ->
  ba_ran b = None -> halts a -> svc_ok (let '(r, s') := runBoot w a (ba_opts b) s in boot_ran at_ r s').
Proof.
  intros H0 Hat Hd Hran Hh. pose proof H0 as [Wo Ac St].
  destruct (runBoot w a (ba_opts b) s) as [r s'] eqn:H.
  destruct (wo_flight _ Wo _ _ Hat Hd) as (t & rg & Hb & Hl & _ & Ho & _).
  assert (regs s !! t = Some rg) as Hreg by (apply regs_lookup; eauto).
  destruct (wo_reg _ Wo _ _ Hreg) as [Hid _]. rewrite Ho in Hid.
  apply runBoot_run in H as ((Hss & HT & HE) & W1 & Hw1 & Hr); [|done|done|apply Ac|apply Ac].
  pose proof (working_same _ _ Hss Wo) as Wo1. destruct (Hss) as (_ & _ & Hat1 & _).
  assert (sv_attempts s' !! at_ = Some b) as Hat' by (by rewrite Hat1).
  split.
  - apply (working_ran s' at_ b); [done|done|]. intros i ->. apply Hr.
  - split; [done|done|]. intros id Hi. change (id ∈ active s') in Hi.
    assert (id ∈ active s \/ id = lo_SandboxID (ba_opts b) /\ exists i, r = Ok i) as [Hin|(-> & i & ->)].
    { destruct r as [i|e]; [|left; by apply Hr]. destruct Hr as [_ Hr].
      apply Hr, elem_of_union in Hi as [Hi|Hi]; [right|by left]. apply elem_of_singleton in Hi. eauto. }
    + destruct (ac_owner _ Ac _ Hin) as [(t' & r' & Hr' & Hx)|(at' & b' & i & Hat2 & Hd2 & Hran2 & Hx)]; [left|right].
      * exists t', r'. change (regs (boot_ran at_ r s')) with (regs s'). by rewrite (regs_same _ _ Hss).
      * exists at', b', i. cbn. rewrite Hat1, lookup_alter_ne; [done|]. intros <-. congruence.
    + right. eexists at_, _, i. cbn. rewrite lookup_alter_eq, Hat'. split_and!; done.
  - change (launches (boot_ran at_ r s')) with (launches s'). cbn. by rewrite HT, HE, (launches_same _ _ Hss).
Qed.

(** The record a boot leaves still matches the inputs it was launched with. *)
Lemma bootedReg_ok now i r : reg_ok r -> launched_as i (rg_opts r) -> reg_ok (bootedReg now i r).
Proof.
  intros [Hid Hsl] (H1 & H2 & H3 & H4). split; [done|]. unfold bootedReg.
  split; cbn; auto.
Qed.
Lemma failed_ok x r : reg_ok r -> reg_ok (set_info (with_failure x (rg_info r)) r).
Proof. intros [Hid Hsl]. split; [done|]. by destruct Hsl. Qed.
Lemma state_ok x r : reg_ok r -> reg_ok (set_info (with_state x (rg_info r)) r).
Proof. intros [Hid Hsl]. split; [done|]. by destruct Hsl. Qed.

Lemma close_ok s s1 at_ b out g r0 : svc_ok s -> side w (sv_roster s1) s s1 ->
  stores_ok (launches s) (sv_roster s1) (sv_events s) ->
  sv_attempts s !! at_ = Some b -> ba_done b = None -> sv_heap s !! ba_reg b = Some r0 ->
  (forall r, rg_opts (g r) = rg_opts r) -> reg_ok (g r0) ->
  (forall i, ba_ran b = Some (Ok i) -> rg_booted (g r0) = true \/ lo_SandboxID (ba_opts b) ∉ active s1) ->
  svc_ok (closeBoot (ba_reg b) at_ out (upd_reg (ba_reg b) g s1)).
Proof.
  intros [Wo Ac St] Hs Hst Hat Hd Hl Hg Hok Hran. pose proof Hs as (Hss & _).
  pose proof (working_same _ _ Hss Wo) as Wo1. destruct (Hss) as (Hh & Hbt & Hat1 & _).
  destruct (wo_flight _ Wo _ _ Hat Hd) as (t & r & Hb & Hl' & Hbo & Ho & Hbtd & _).
  assert (r0 = r) as -> by congruence.
  destruct (working_close s1 at_ b out g Wo1) as (Wo2 & t1 & r1 & Hb1 & Hl1 & Hbo1 & Hregs); try done.
  { by rewrite Hat1. }
  { intros t' r' Hr' Hb'. apply regs_lookup in Hr' as (l & Hbl & Hrl). rewrite Hh in Hrl.
    assert (r' = r) as -> by congruence. done. }
  rewrite Hh in Hl1. assert (r1 = r) as -> by congruence.
  assert (t1 = t) as -> by (eapply (ptr_inj s1); [done|exact Hb1|by rewrite Hbt]).
  assert (regs s1 !! t = Some r) as Hr by (apply regs_lookup; rewrite Hbt, Hh; eauto).
  destruct (side_active _ _ _ Ac Hs) as [W1 Hw1 Ho1]. split; [done| |].
  - split; [done|done|]. intros id Hid. change (id ∈ active s1) in Hid.
    destruct (Ho1 id Hid) as [(t' & r' & Hr' & Hb' & Hi')|(at' & b' & i & Hat' & Hd' & Hran' & Hi')].
    + left. exists t', r'. rewrite Hregs, lookup_alter_ne; [done|]. intros <-. congruence.
    + destruct (decide (at_ = at')) as [<-|Hne].
      * rewrite Hat1 in Hat'. assert (b' = b) as -> by congruence.
        destruct (Hran i Hran') as [Hbg|Hn]; [left|by destruct Hn; rewrite Hi'].
        eexists t, _. rewrite Hregs, lookup_alter_eq, Hr. split_and!; [done|done|]. cbn. by rewrite Hg, Ho.
      * right. exists at', b', i. cbn. by rewrite lookup_alter_ne.
  - assert (forall r, rg_opts (set_boot None (g r)) = rg_opts r) as Hg2 by (intros; apply Hg).
    rewrite (launches_alter _ _ _ _ Hregs Hg2), (launches_same _ _ Hss). cbn. by eapply side_trail.
Qed.

Lemma settle_ok a at_ b ran s r s' : svc_ok s -> sv_attempts s !! at_ = Some b -> ba_done b = None ->
  ba_ran b = Some ran -> halts a -> settleBoot w a (ba_reg b) at_ ran s = (r, s') -> svc_ok s'.
Proof.
  intros H0 Hat Hd Hran Hh H. pose proof H0 as [Wo Ac St].
  destruct (wo_flight _ Wo _ _ Hat Hd) as (t & rg & Hb & Hl & _ & Ho & _ & _ & Hla).
  assert (regs s !! t = Some rg) as Hreg by (apply regs_lookup; eauto).
  pose proof (wo_reg _ Wo _ _ Hreg) as Hok.
  eapply settleBoot_run in H as [(e & s1 & -> & Hs & Hn & ->)|(i & s1 & -> & _ & Hs & Hdid & ->)];
    [| |exact Hl|done|apply Ac|apply Ac].
  - pose proof Hs as (_ & _ & _ & _ & HT & _). rewrite <- HT in Hs.
    eapply close_ok; [exact H0|exact Hs|by rewrite HT|done|done|exact Hl|done|by apply failed_ok|].
    intros i Hi. right. assert (ran = Ok i) as -> by congruence.
    destruct (Hla i Hran) as (<- & _). by apply Hn.
  - eapply close_ok; [exact H0|exact Hs|by eapply registry_state|done|done|exact Hl|done| |].
    + apply bootedReg_ok; [done|]. rewrite Ho. by apply Hla.
    + by left.
Qed.

(** ** The other operations *)
Lemma awaitBoot_run task s r s' : awaitBootLocked task s = (r, s') ->
  s' = s /\ forall l rg, r = Ok (l, rg) ->
    sv_byTask s !! task = Some l /\ sv_heap s !! l = Some rg /\ rg_boot rg = None.
Proof.
  unfold awaitBootLocked. destruct (lookup_task task s) as [[l rg]|] eqn:Hl; [|by intros [= <- <-]].
  apply lookup_task_Some in Hl as [Hb Hl]. case_bool_decide as Hbo; intros [= <- <-]; (split; [done|]).
  - done.
  - intros l' rg' [= <- <-]. apply eq_None_not_Some in Hbo. done.
Qed.

Lemma remove_step_ok a task force s r s' : svc_ok s -> Remove w a task force s = (r, s') -> svc_ok s'.
Proof.
  intros H0 H. unfold Remove in H. apply M_bind_run in H as [([l rg] & s0 & Ha & H)|(e & Ha & ->)];
    apply awaitBoot_run in Ha as [-> Ha]; [|done].
  destruct (Ha l rg eq_refl) as (Hb & Hl & Hbo). cbn [fst] in H.
  apply M_bind_run in H as [([] & s1 & Ht & H)|(e & Ht & ->)];
    destruct (teardown_ok _ _ _ EventDestroyed _ _ _ _ _ H0 Hb Hl Hbo eq_refl Ht) as [Hne Hok]; [|by apply Hne].
  injection H as _ <-. by apply Hok.
Qed.

Lemma settled_refl r r' : rg_boot r' = rg_boot r -> rg_opts r' = rg_opts r ->
  rg_booted r' = rg_booted r -> rg_dead r' = rg_dead r -> settled_change r r'.
Proof. intros H1 H2 H3 H4. unfold settled_change. by rewrite H1, H2, H3, H4. Qed.

Lemma registry_none s s1 : svc_ok s -> side w (sv_roster s) s s1 ->
  side w (sv_roster s1) s s1 /\ stores_ok (launches s) (sv_roster s1) (sv_events s).
Proof. intros H Hs. pose proof Hs as (_ & _ & _ & _ & -> & _). split; [done|apply H]. Qed.

Lemma Land_ok a task s r s' : svc_ok s -> Land w a task s = (r, s') -> svc_ok s'.
Proof.
  intros H0 H. unfold Land in H. apply M_bind_run in H as [([l rg] & s0 & Ha & H)|(e & Ha & ->)];
    apply awaitBoot_run in Ha as [-> Ha]; [|done].
  destruct (Ha l rg eq_refl) as (Hb & Hl & Hbo). cbn [fst snd] in H.
  apply M_bind_run in H as [([] & s1 & He & H)|(e & He & ->)];
    apply (append_side w) in He as [Hs1 _]; try done; try apply H0; [|by eapply side_ok].
  set (f := fun r => set_info (with_state StateLanded (rg_info r)) r) in H. apply modify_bind in H.
  assert (regs s !! task = Some rg) as Hreg by (apply regs_lookup; eauto).
  destruct (registry_none _ _ H0 Hs1) as [Hs Hst].
  assert (svc_ok (upd_reg l f s1)) as H1.
  { eapply upd_ok; [exact H0|exact Hs|done|exact Hb|exact Hl|done|by apply settled_refl| |by left].
    apply state_ok. by eapply wo_reg; [apply H0|]. }
  pose proof Hs as ((Hh & Hbt & _) & _). cbn [fst snd] in H.
  apply M_bind_run in H as [([] & s2 & Ht & H)|(e & Ht & ->)];
    eapply (teardown_ok a task l _ _ _ _ _ (f rg)) in Ht as [Hne Hok];
    try exact H1; try done; try (cbn; by rewrite ?Hbt, ?Hh, ?lookup_alter_eq, ?Hl); [|by apply Hne].
  injection H as _ <-. by apply Hok.
Qed.

(** A booted registration has no boot under way. *)
Lemma booted_quiet s t l rg : svc_ok s -> sv_byTask s !! t = Some l -> sv_heap s !! l = Some rg ->
  rg_booted rg = true -> rg_boot rg = None.
Proof.
  intros H0 Hb Hl Hbt. destruct (rg_boot rg) as [at_|] eqn:E; [|done].
  destruct (wo_boot _ (so_working _ H0) _ _ _ _ Hb Hl E) as (b & Hat & Hlb & Hd).
  destruct (wo_flight _ (so_working _ H0) _ _ Hat Hd) as (t' & r' & _ & Hr' & _ & _ & Hf & _). congruence.
Qed.

Lemma suspended_ok a l t s r s' rg : svc_ok s -> sv_byTask s !! t = Some l -> sv_heap s !! l = Some rg ->
  rg_booted rg = true -> suspendLocked w a l s = (r, s') -> svc_ok s'.
Proof.
  intros H0 Hb Hl Hbt H. assert (regs s !! t = Some rg) as Hreg by (apply regs_lookup; eauto).
  pose proof (wo_reg _ (so_working _ H0) _ _ Hreg) as Hok.
  pose proof (booted_quiet _ _ _ _ H0 Hb Hl Hbt) as Hbo.
  eapply suspendLocked_run in H as [(_ & Hs)|(_ & s1 & Hs & Hn & Hd & ->)];
    [by eapply side_ok| |exact Hl|apply H0|apply H0].
  eapply upd_ok; [exact H0|exact Hs|by eapply registry_state|exact Hb|exact Hl|done|
    |exact (state_ok StateSuspended (set_booted false rg) Hok)|].
  - split_and!; try done.
  - intros _. right. by rewrite <- (reg_id _ Hok).
Qed.

Lemma sweep_ok {U V} (f : U -> Svc (option V)) l s ys r s' :
  (forall x s r s', svc_ok s -> f x s = (r, s') -> svc_ok s') -> svc_ok s ->
  sweep f l s = (ys, r, s') -> svc_ok s'.
Proof.
  intros Hf. revert s ys r s'. induction l as [|x l IH]; intros s ys r s' H0 H; cbn in H.
  - by injection H as <- <- <-.
  - destruct (f x s) as [[y|e] s1] eqn:E; [|injection H as <- <- <-; by eapply Hf].
    destruct (sweep f l s1) as [[ys' r'] s2] eqn:E2. injection H as <- <- <-. eapply IH; [|exact E2]. by eapply Hf.
Qed.

Lemma suspend_one_ok now idle ans task s r s' : svc_ok s -> suspend_one w now idle ans task s = (r, s') -> svc_ok s'.
Proof.
  intros H0 H. unfold suspend_one in H. destruct (lookup_task task s) as [[l rg]|] eqn:Hl; [|by injection H as _ <-].
  apply lookup_task_Some in Hl as [Hb Hl]. destruct (rg_booted rg) eqn:Hbt; [|by injection H as _ <-].
  cbn [negb orb] in H. destruct (_ <? idle); [by injection H as _ <-|].
  apply M_bind_run in H as [([] & s1 & Hs & H)|(e & Hs & ->)]; [injection H as _ <-|]; by eapply suspended_ok.
Qed.

Lemma reap_one_ok p now ans task s r s' : svc_ok s ->
  reap_one w p now EventTTLExpired ans task s = (r, s') -> svc_ok s'.
Proof.
  intros H0 H. unfold reap_one in H. destruct (lookup_task task s) as [[l rg]|] eqn:Hl; [|by injection H as _ <-].
  apply lookup_task_Some in Hl as [Hb Hl]. case_bool_decide as Hbo; [by injection H as _ <-|].
  apply eq_None_not_Some in Hbo. cbn [orb] in H. destruct (negb _); [by injection H as _ <-|].
  apply M_bind_run in H as [([] & s1 & Ht & H)|(e & Ht & ->)];
    destruct (teardown_ok _ _ _ EventTTLExpired _ _ _ _ _ H0 Hb Hl Hbo eq_refl Ht) as [Hne Hok]; [|by apply Hne].
  apply modify_bind in H. injection H as _ <-. by apply Hok.
Qed.

Lemma noteExecFailure_ok a task cause s r s' : svc_ok s -> noteExecFailure w a task cause s = (r, s') -> svc_ok s'.
Proof.
  intros H0 H. unfold noteExecFailure in H. destruct (_ || _); [by injection H as _ <-|].
  destruct (lookup_task task s) as [[l rg]|] eqn:Hl; [|by injection H as _ <-].
  apply lookup_task_Some in Hl as [Hb Hl]. destruct (rg_booted rg) eqn:Hbt; [|by injection H as _ <-].
  cbn [negb orb] in H. case_bool_decide as Hde; [by injection H as _ <-|].
  assert (regs s !! task = Some rg) as Hreg by (apply regs_lookup; eauto).
  pose proof (booted_quiet _ _ _ _ H0 Hb Hl Hbt) as Hbo.
  eapply markDeadLocked_run in H as [Hs|(s1 & Hs & Hd & ->)]; [by eapply side_ok| |exact Hl|apply H0|apply H0].
  eapply upd_ok; [exact H0|exact Hs|by eapply registry_state|exact Hb|exact Hl|done| | |by left].
  - split_and!; try done.
  - apply (state_ok StateDead rg). by eapply wo_reg; [apply H0|].
Qed.

Lemma touch_ok a task s : svc_ok s -> svc_ok (touch a task s).
Proof.
  intros H0. unfold touch. destruct (sv_byTask s !! task) as [l|] eqn:Hb; [|done].
  destruct (wo_ptr _ (so_working _ H0) _ _ Hb) as (rg & Hl & _).
  assert (regs s !! task = Some rg) as Hreg by (apply regs_lookup; eauto).
  pose proof (wo_reg _ (so_working _ H0) _ _ Hreg) as Hok.
  destruct (registry_none _ _ H0 (side_refl w _ (ac_backend _ (so_active _ H0)) (ac_wired _ (so_active _ H0)))) as [Hs Hst].
  eapply upd_ok; [exact H0|exact Hs|done|exact Hb|exact Hl|done|by apply settled_refl|exact Hok|by left].
Qed.

(** ** Daemon start *)

(** The rows still to be visited are rows of the table, each task once. *)
Definition pending_rows (rows : list SandboxRegistration) s : Prop :=
  svc_ok s /\ w_registry w = true /\
  Forall (fun row => exists x, sv_roster s !! si_ID (sr_Info row) = Some x /\ row = scanSandboxRow x) rows /\
  NoDup (map (fun row => si_TaskID (sr_Info row)) rows).

Lemma row_task_inj s id id' x x' : svc_ok s -> sv_roster s !! id = Some x -> sv_roster s !! id' = Some x' ->
  row_TaskID x = row_TaskID x' -> id = id'.
Proof. intros H. apply (rw_task _ (st_wf _ _ _ (so_stores _ H))). Qed.

(** A registered sandbox's row, and what it was registered with. *)
Lemma durable s t r : svc_ok s -> w_registry w = true -> regs s !! t = Some r ->
  exists x, sv_roster s !! lo_SandboxID (rg_opts r) = Some x /\ same_launch (row_launch x) (rg_opts r) /\
    row_TaskID x = t.
Proof.
  intros H Hw Hr. destruct (st_durable _ _ _ (so_stores _ H) Hw t (rg_opts r)) as (x & Hx & Hsl).
  { apply launches_lookup. eauto. }
  exists x. split_and!; [done|done|]. rewrite <- (regs_task s t r (so_working _ H) Hr). by destruct Hsl.
Qed.

Lemma adopt_ok a s x st bt : svc_ok s -> w_registry w = true -> sv_roster s !! row_SandboxID x = Some x ->
  sv_byTask s !! row_TaskID x = None ->
  svc_ok (put_reg (row_TaskID x) (adoptedReg (a_now a) (scanSandboxRow x) st bt) s).
Proof.
  intros H0 Hw Hx Hn. pose proof H0 as [Wo Ac St]. destruct (st_rows _ _ _ St _ _ Hx) as [Hid Hcr].
  apply (put_ok s s); [done|done|done|apply Ac|apply Ac|done|done|done| | |].
  - split; [done|]. apply (same_launch_refl (row_launch x)).
  - intros t' r' Hr'. destruct (durable _ _ _ H0 Hw Hr') as (x' & Hx' & Hsl & Ht').
    assert (lo_SandboxID (rg_opts r') <> row_SandboxID x) as Hne.
    { intros Heq. assert (x' = x) as -> by congruence. subst t'.
      apply regs_lookup in Hr' as (l & Hb & _). congruence. }
    split; [done|]. intros Heq. apply Hne. apply (rw_worktree _ (st_wf _ _ _ St) _ _ _ _ Hx' Hx).
    transitivity (lo_WorktreePath (rg_opts r')); [exact (sl_worktree _ _ Hsl)|exact Heq].
  - destruct St as [W Hr Hc Hd He Hs]. split; [done|done| | |done|].
    + intros t o [[<- <-]|[_ Ho]]%lookup_insert_Some; [exact Hcr|by eapply Hc].
    + intros _ t o [[<- <-]|[_ Ho]]%lookup_insert_Some; [|by eapply Hd].
      exists x. split; [exact Hx|]. apply (same_launch_refl (row_launch x)).
    + intros i Hi. destruct (Hs i Hi) as (? & ? & ?). split_and!; [done|done|].
      intros t o [[_ <-]|[_ Ho]]%lookup_insert_Some; [cbn; intros <-; congruence|eauto].
Qed.

Lemma discard_ok a s x r s' : svc_ok s -> w_registry w = true -> sv_roster s !! row_SandboxID x = Some x ->
  sv_byTask s !! row_TaskID x = None -> discardLostLocked w a (scanSandboxRow x) s = (r, s') ->
  svc_ok s' /\ forall id y, id <> row_SandboxID x -> sv_roster s !! id = Some y -> sv_roster s' !! id = Some y.
Proof.
  intros H0 Hw Hx Hn H. pose proof H0 as [Wo Ac St]. unfold discardLostLocked in H.
  apply (end_side w) in H as (Hs & Ha & Hne & Hok); [|done|apply Ac|apply Ac].
  assert (r = Ok tt \/ r <> Ok tt) as [Hr|Hr] by (destruct r as [[]|]; auto).
  - destruct (Hok Hr) as [Hd He]. pose proof Hs as (Hss & _).
    assert (sv_roster s' = delete (row_SandboxID x) (sv_roster s)) as HT.
    { unfold registry_did in Hd. rewrite Hw in Hd. by apply DeleteSandbox_run in Hd as [_ ->]. }
    split; [|intros id y Hid Hy; rewrite HT, lookup_delete_ne by done; done].
    split; [by eapply working_same|by eapply side_active|]. rewrite (launches_same _ _ Hss).
    eapply stores_drop; [by eapply side_trail|exact Hd|done| |].
    + intros t o (r' & Hr' & <-)%launches_lookup Heq. destruct (durable _ _ _ H0 Hw Hr') as (x' & Hx' & _ & Ht').
      assert (x' = x) as -> by (cbn in *; congruence). subst t. apply regs_lookup in Hr' as (l & Hb & _). congruence.
    + rewrite He. eexists. split; [apply elem_of_app; right; by apply list_elem_of_singleton|]. done.
  - rewrite (Hne Hr) in Hs. split; [by eapply side_ok|]. intros. by rewrite (Hne Hr).
Qed.

Lemma rehydrate_one_ok a row rows s r s' : pending_rows (row :: rows) s ->
  rehydrate_one w a row s = (r, s') -> pending_rows rows s'.
Proof.
  intros (H0 & Hw & Hrows & Hnd) H. apply Forall_cons in Hrows as [(x & Hx & Hrow) Hrows].
  apply NoDup_cons in Hnd as [Hni Hnd].
  assert (row_SandboxID x = si_ID (sr_Info row)) as Hid by (by rewrite Hrow).
  assert (row_TaskID x = si_TaskID (sr_Info row)) as Ht by (by rewrite Hrow).
  rewrite <- Hid in Hx. unfold rehydrate_one in H. rewrite <- Ht in *.
  case_bool_decide as Hb; [by injection H as _ <-|]. apply eq_None_not_Some in Hb. subst row.
  destruct (verifyLocked _ _) as [[st bt]|].
  - apply modify_bind in H. injection H as _ <-. split_and!; [by apply adopt_ok|done|done|done].
  - assert (exists r1, discardLostLocked w a (scanSandboxRow x) s = (r1, s')) as [r1 H1].
    { apply M_bind_run in H as [([] & s1 & H1 & H)|(e & H1 & _)]; [injection H as _ <-|]; eauto. }
    apply (discard_ok _ _ _ _ _ H0 Hw Hx Hb) in H1 as [H1 Hkeep]. split_and!; try done.
    rewrite Forall_forall in *. intros row' Hin. destruct (Hrows _ Hin) as (x' & Hx' & ->).
    exists x'. split; [|done]. apply Hkeep; [|done]. intros Heq. cbn in Heq. apply Hni.
    apply list_elem_of_fmap. exists (scanSandboxRow x'). split; [|done]. cbn.
    cbn in Hx'. rewrite Heq in Hx'. by assert (x' = x) as -> by congruence.
Qed.

Lemma rehydrate_rows_ok a rows s ys r s' : pending_rows rows s ->
  sweep (rehydrate_one w a) rows s = (ys, r, s') -> svc_ok s'.
Proof.
  revert s ys r s'. induction rows as [|row rows IH]; intros s ys r s' H0 H; cbn in H.
  - injection H as <- <- <-. apply H0.
  - destruct (rehydrate_one w a row s) as [[y|e] s1] eqn:E; apply rehydrate_one_ok with (rows := rows) in E;
      try done; [|injection H as <- <- <-; apply E].
    destruct (sweep _ rows s1) as [[ys' r'] s2] eqn:E2. injection H as <- <- <-. by eapply IH.
Qed.

Lemma pending_ListSandboxes s : svc_ok s -> w_registry w = true -> pending_rows (ListSandboxes (sv_roster s)) s.
Proof.
  intros H0 Hw. pose proof (st_wf _ _ _ (so_stores _ H0)) as W. split_and!; [done|done| |by apply ListSandboxes_tasks].
  apply Forall_forall. intros row (id & x & Hx & ->)%elem_of_ListSandboxes. exists x. cbn.
  by rewrite (rw_key _ W _ _ Hx).
Qed.

Lemma Rehydrate_ok a s ys r s' : svc_ok s -> Rehydrate w a s = (ys, r, s') -> svc_ok s'.
Proof.
  intros H0 H. unfold Rehydrate in H. destruct (w_registry w) eqn:Hw; cbn [negb] in H; [|by injection H as _ _ <-].
  destruct (a_db a); cbn [negb] in H; [|by injection H as _ _ <-].
  eapply rehydrate_rows_ok; [|exact H]. by apply pending_ListSandboxes.
Qed.

(** ** Staged policy *)
Lemma pendingReg_run id s r s' : pendingRegLocked id s = (r, s') ->
  s' = s /\ forall l rg, r = Ok (l, rg) -> exists t,
    sv_byTask s !! t = Some l /\ sv_heap s !! l = Some rg /\ si_ID (rg_info rg) = id /\
    rg_booted rg = false /\ rg_boot rg = None.
Proof.
  unfold pendingRegLocked. destruct (find _ _) as [[t l]|] eqn:Hf; [|by intros [= <- <-]].
  apply find_some in Hf as [Hin Hid]. cbn in *. apply list_elem_of_In, elem_of_map_to_list in Hin.
  destruct (sv_heap s !! l) as [rg|] eqn:Hl; [|done]. apply String.eqb_eq in Hid.
  destruct (rg_booted rg) eqn:Hbt; cbn [orb]; [by intros [= <- <-]|].
  case_bool_decide as Hbo; intros [= <- <-]; (split; [done|]); [done|]. intros l' rg' [= <- <-].
  exists t. apply eq_None_not_Some in Hbo. done.
Qed.

(** The registration with another allowlist. *)
Definition staged (entries : list string) (r : sandboxReg) : sandboxReg :=
  set_info (with_allowlist entries (rg_info r))
    (set_opts (with_network (mkNetworkPolicy (Mode (lo_Network (rg_opts r))) entries) (rg_opts r)) r).

Lemma staged_ok entries r : reg_ok r -> reg_ok (staged entries r).
Proof.
  intros [Hid Hsl]. split; [done|]. destruct Hsl as [? ? ? ? Hn ? ? ? ? ? ?]. split; cbn in *; try done.
  by rewrite <- Hn.
Qed.

Lemma Stage_run a id entries s r s' : svc_ok s -> StagePendingEgressPolicy w a id entries s = (r, s') ->
  (exists e, r = Err e) /\ s' = s \/
  r = Ok entries /\ exists t l rg T,
    sv_byTask s !! t = Some l /\ sv_heap s !! l = Some rg /\ lo_SandboxID (rg_opts rg) = id /\
    rg_booted rg = false /\ rg_boot rg = None /\
    registry_did w (UpsertSandbox (a_stored a)
      (Some (registration (with_allowlist entries (rg_info rg)) (rg_opts rg)))) s T /\
    s' = upd_reg l (staged entries) (set_roster T s).
Proof.
  intros H0 H. unfold StagePendingEgressPolicy in H.
  apply M_bind_run in H as [([l rg] & s0 & Hp & H)|(e & Hp & ->)]; apply pendingReg_run in Hp as [-> Hp]; [|left; eauto].
  destruct (Hp l rg eq_refl) as (t & Hb & Hl & Hid & Hbt & Hbo).
  assert (regs s !! t = Some rg) as Hreg by (apply regs_lookup; eauto).
  rewrite (reg_id _ (wo_reg _ (so_working _ H0) _ _ Hreg)) in Hid.
  apply M_bind_run in H as [([] & s1 & Hr & H)|(e & Hr & ->)]; apply registry_run in Hr as [(? & Hd & Hs1)|(? & ->)];
    try done; [|naive_solver|left; eauto].
  apply modify_bind in H. injection H as <- <-. right. split; [done|].
  set (T := sv_roster s1) in *. clearbody T. subst s1. exists t, l, rg, T. split_and!; done.
Qed.

Lemma Stage_ok a id entries s r s' : svc_ok s -> StagePendingEgressPolicy w a id entries s = (r, s') -> svc_ok s'.
Proof.
  intros H0 H. apply Stage_run in H as [[_ ->]|(_ & t & l & rg & T & Hb & Hl & _ & Hbt & Hbo & Hd & ->)]; [done| |done].
  pose proof H0 as [Wo Ac St]. set (s1 := set_roster T s).
  assert (working_ok s1) as Wo1 by (by apply (working_same s)).
  pose proof (regs_upd s1 l (staged entries) t Wo1 Hb) as Hregs.
  assert (regs s !! t = Some rg) as Hreg by (apply regs_lookup; eauto).
  pose proof (wo_reg _ Wo _ _ Hreg) as Hok. split.
  - eapply working_upd; [done|exact Hb|exact Hl| |by apply staged_ok]. split_and!; try done.
  - split; [apply Ac|apply Ac|]. intros id' Hid. eapply owner_alter; [exact Hregs|done|done|].
    by apply (ac_owner _ Ac).
  - assert (launches (upd_reg l (staged entries) s1) = <[t := rg_opts (staged entries rg)]> (launches s)) as ->.
    { unfold launches. rewrite Hregs. apply map_eq. intros t'. rewrite lookup_fmap. change (regs s1) with (regs s).
      destruct (decide (t = t')) as [<-|]; [by rewrite lookup_alter_eq, Hreg, lookup_insert_eq|].
      by rewrite lookup_alter_ne, lookup_insert_ne, lookup_fmap. }
    destruct Hok as [Hid Hsl]. cbn.
    eapply (stores_upsert _ _ _ _ _ _ _ _ _ St Hd); [done| | | | | | |].
    + destruct Hsl as [? ? ? ? Hn ? ? ? ? ? ?]. split; cbn in *; auto. by rewrite <- Hn.
    + intros t' o' (r' & Hr' & <-)%launches_lookup Hne Heq. apply Hne. eapply (wo_apart _ Wo); [exact Hr'|exact Hreg|].
      by left.
    + done.
    + done.
    + by left.
    + apply (st_created _ _ _ St t (rg_opts rg)). apply launches_lookup. eauto.
    + intros (_ & _ & Hx)%(st_stranded _ _ _ St). eapply (Hx t); [apply launches_lookup; eauto|done].
Qed.

(** ** Every step *)
Lemma no_launches b (s : Service B) : launches (restarted b s) = ∅.
Proof. unfold launches, regs. cbn. by rewrite omap_empty, fmap_empty. Qed.

(** A daemon with an empty working set. *)
Lemma restarted_ok b s : stores_ok ∅ (sv_roster s) (sv_events s) -> backend_ok b -> running b = ∅ ->
  svc_ok (restarted b s).
Proof.
  intros St W Hr. split; [|split; [done|done|]|by rewrite no_launches].
  - split; cbn; intros *; rewrite ?lookup_empty; done.
  - intros id. unfold active. cbn. rewrite Hr. set_solver.
Qed.

Lemma stores_forget L T E : stores_ok L T E -> stores_ok ∅ T E.
Proof.
  intros [Wf Hrow _ _ He Hs]. split; [done|done| | |done|]; intros; simplify_map_eq.
  destruct (Hs id) as (? & ? & _); [done|]. split_and!; [done|done|]. intros; simplify_map_eq.
Qed.

End Safety.

(** ** Registration, and every step *)
Section Runs.
Context {A B : Type} {SM : SandboxManager A B} {LW : ManagerLaws A B} (w : Wiring).
Implicit Types (a : Answers A) (s : Service B) (X : string -> Prop).

(** This call leaves [id] neither registered nor ended: its creation was audited,
    and then neither its row nor its end could be written, which the answer says. *)
Definition strands s (id : string) s' : Prop :=
  exists a o x, fresh a s /\ a_newID a = Some id /\
    Register w a o s = (Err (SJoin [x; SAudit EventDestroyed]), s').

(** What being stranded means for the stores. *)
Definition lost (L : gmap string SandboxLaunchOptions) (T : Roster) (E : list SandboxEvent) (id : string) : Prop :=
  created_in E id /\ T !! id = None /\ forall t o, L !! t = Some o -> lo_SandboxID o <> id.

Lemma stores_widen X Y L T E : stores_ok w X L T E -> (forall id, X id -> Y id) ->
  (forall id, Y id -> X id \/ lost L T E id) -> stores_ok w Y L T E.
Proof.
  intros [W Hr Hc Hd He Hs] HXY HY. split; try done.
  - intros Ew id Hi. destruct (He Ew id Hi) as [|[|]]; auto.
  - intros id [Hi|Hi]%HY; [by apply Hs|done].
Qed.

(** A registration that could not be made durable has its end in the trail, or
    it is stranded. *)
Lemma stores_stillborn X Y L T s a o : stores_ok w X L T (sv_events s) ->
  (forall e, e ∈ sv_events s -> ev_SandboxID e <> lo_SandboxID o) ->
  (forall i, Y i <-> X i \/ i = lo_SandboxID o /\ a_audit a EventDestroyed = false) ->
  stores_ok w Y L T (stillborn a o s).
Proof.
  intros [W Hr Hc Hd He Hs] Hf HY. set (id := lo_SandboxID o) in *.
  set (c := createdEvent id o (imageDigestOf (lo_ImageRef o))).
  assert (exists es, stillborn a o s = ((sv_events s ++ [c]) ++ es)%list /\
    Forall (fun e => ev_EventType e <> EventCreated) es /\
    (ended_in es id \/ a_audit a EventDestroyed = false)) as (es & -> & Hes & Hend).
  { unfold stillborn. fold id c. destruct (a_audit a EventDestroyed); eexists; (split; [by rewrite <- app_assoc|]);
      (split; [repeat constructor; discriminate|]); [left|by right].
    eexists. split; [by apply list_elem_of_singleton|done]. }
  assert (forall i, created_in (sv_events s) i -> i <> id) as Hne by (intros i (e & Hin & _ & <-); by apply Hf).
  split; [done|..].
  - intros i x Hx. destruct (Hr _ _ Hx). split; [done|]. by do 2 apply created_in_app.
  - intros t o' Ho. do 2 apply created_in_app. by eapply Hc.
  - done.
  - intros Ew i (e & [Hin|Hin]%elem_of_app & Ht & Hi); [|rewrite Forall_forall in Hes; by destruct (Hes _ Hin)].
    assert (created_in (sv_events s ++ [c]) i) as [Hi'| ->]%created_in_event by (by exists e).
    + destruct (He Ew i Hi') as [|[|]]; [by left|right; left; by do 2 apply ended_in_app|]. right; right. apply HY. by left.
    + destruct Hend as [(d & Hd' & H)|]; [|right; right; apply HY; by right].
      right; left. exists d. split; [apply elem_of_app; by right|done].
  - intros i [Hi|[-> _]]%HY.
    + destruct (Hs i Hi) as [? ?]. split; [by do 2 apply created_in_app|done].
    + split_and!; [apply created_in_app, created_in_event; by right| |].
      * destruct (T !! id) eqn:Hx; [|done]. destruct (Hr _ _ Hx) as [_ Hcr]. by destruct (Hne _ Hcr).
      * intros t o' Ho. by eapply Hne, Hc.
Qed.

(** The invariant gives what a fresh id is fresh for. *)
Lemma fresh_regs X a s id t r : svc_ok w X s -> fresh a s -> a_newID a = Some id ->
  regs s !! t = Some r -> lo_SandboxID (rg_opts r) <> id.
Proof.
  intros [_ _ St] Hf Hid Hr He. destruct (Hf _ Hid) as [_ Hne].
  destruct (st_created _ _ _ _ _ St t (rg_opts r)) as (e & Hin & _ & Hei); [apply launches_lookup; eauto|].
  apply (Hne _ Hin). congruence.
Qed.

Lemma strands_lost X s id s' : svc_ok w X s -> strands s id s' ->
  lost (launches s') (sv_roster s') (sv_events s') id.
Proof.
  intros H0 (a & o & x & Hf & Hid & H). pose proof H0 as [_ _ St].
  apply Register_run in H as [((e & [= <-] & Hne) & _)|[(e & o' & _ & Hid' & ->)|(p & o' & s1 & _ & _ & _ & _ & _ & _ & _ & _ & _ & [=] & _)]].
  - by destruct (Hne _ eq_refl).
  - assert (lo_SandboxID o' = id) as Heq by congruence. destruct (Hf _ Hid) as [_ Hne].
    split_and!.
    + eexists. split; [apply elem_of_app; right; by left|done].
    + destruct (sv_roster s !! id) eqn:Hx; [|done].
      destruct (st_rows _ _ _ _ _ St _ _ Hx) as (_ & e' & Hin & _ & He). by destruct (Hne _ Hin).
    + intros t o2 (r2 & Hr2 & <-)%launches_lookup. by eapply fresh_regs.
Qed.

Lemma svc_widen X s s' : svc_ok w X s -> svc_ok w X s' -> svc_ok w (fun id => X id \/ strands s id s') s'.
Proof.
  intros H0 [Wo Ac St]. split; [done|done|]. eapply stores_widen; [exact St|by left|].
  intros id [|Hs]; [by left|right]. by eapply strands_lost.
Qed.

Lemma Register_ok X a o s r s' : svc_ok w X s -> fresh a s -> Register w a o s = (r, s') ->
  svc_ok w (fun id => X id \/ strands s id s') s'.
Proof.
  intros H0 Hf H. pose proof H0 as [Wo Ac St]. pose proof H as H1.
  apply Register_run in H1 as [(_ & ->)|[(e & o' & -> & Hid & ->)|(p & o' & s1 & _ & Hid & _ & _ & _ & Hbt & Hwt & Hs1 & Hd & -> & ->)]];
    [by apply svc_widen| |].
  - split; [by apply (working_same s)|destruct Ac; by split|].
    set (Y := fun i => X i \/ i = lo_SandboxID o' /\ a_audit a EventDestroyed = false).
    eapply (stores_widen Y); [eapply stores_stillborn; [exact St|by apply Hf|done]|intros id [Hi|[-> Ha]]|intros id [Hi|Hi]].
    + by left.
    + right. exists a, o, e. rewrite Ha in H. done.
    + left. by left.
    + right. by eapply (strands_lost X s).
  - apply svc_widen; [done|]. destruct (Hf _ Hid) as [Hne Hfe].
    set (T := sv_roster s1) in *. clearbody T. subst s1.
    assert (forall i, created_in (sv_events s) i -> i <> lo_SandboxID o') as Hfresh
      by (intros i (e & Hin & _ & <-); by apply Hfe).
    apply (put_ok w X s); [done|done|done|apply Ac|apply Ac|done|done|done| | |].
    + split; [done|apply same_launch_new].
    + intros t' r' Hr'. split; [by eapply fresh_regs|by eapply Hwt].
    + cbn. eapply (stores_upsert _ _ _ _ _ _ _ _ _ _ _ St Hd);
        [done|apply (same_launch_new (a_now a))| | | | | |].
      * intros t' o2 (r2 & Hr2 & <-)%launches_lookup _. by eapply fresh_regs.
      * intros i. apply created_in_app.
      * intros i. apply ended_in_app.
      * intros i. by rewrite created_in_event.
      * rewrite created_in_event. by right.
      * intros (Hc & _)%(st_stranded _ _ _ _ _ St). by eapply Hfresh.
Qed.

Lemma other_step_ok X s s' : svc_ok w X s -> Step w s s' ->
  svc_ok w X s' \/ exists a o r, fresh a s /\ Register w a o s = (r, s').
Proof.
  intros H0 H. destruct H; [by right; eexists a, o, _; split; [|apply surjective_pairing]|left..].
  - destruct (EnsureRunning_claim a task s) as [r s'] eqn:E. by eapply claim_ok.
  - by apply run_ok.
  - destruct (settleBoot w a (ba_reg b) at_ r s) as [r' s'] eqn:E. by eapply settle_ok.
  - destruct (Remove w a task force s) as [r s'] eqn:E. by eapply remove_step_ok.
  - destruct (Land w a task s) as [r s'] eqn:E. by eapply Land_ok.
  - destruct (SuspendIdle w now idle ans s) as [[ys r] s'] eqn:E.
    eapply sweep_ok; [|exact H0|exact E]. intros. by eapply suspend_one_ok.
  - unfold reapExpired. destruct policy as [p|]; [|done].
    destruct (sweep _ _ s) as [[ys r] s'] eqn:E. eapply sweep_ok; [|exact H0|exact E]. intros. by eapply reap_one_ok.
  - destruct (Rehydrate w a s) as [[ys r] s'] eqn:E. by eapply Rehydrate_ok.
  - destruct (noteExecFailure w a task cause s) as [r s'] eqn:E. by eapply noteExecFailure_ok.
  - by apply touch_ok.
  - destruct (auditEscalation a info s) as [r s'] eqn:E.
    apply (append_side w) in E as [Hs _]; try apply H0; [by eapply side_ok|done].
  - destruct (StagePendingEgressPolicy w a id entries s) as [r s'] eqn:E. by eapply Stage_ok.
  - destruct H0 as [Wo Ac St]. split; [by apply (working_same s)|by destruct Ac; split|done].
  - apply restarted_ok; [|done|done]. by eapply stores_forget, so_stores.
Qed.

Lemma svc_step_ok X s s' : svc_ok w X s -> Step w s s' -> svc_ok w (fun id => X id \/ strands s id s') s'.
Proof.
  intros H0 [H|(a & o & r & Hf & H)]%(other_step_ok X); [by apply svc_widen|by eapply Register_ok|done].
Qed.

Lemma initial_ok b : backend_ok b -> running b = ∅ -> svc_ok w (fun _ => False) (initial b).
Proof.
  intros W Hr. apply (restarted_ok w _ b (initial b)); [|done|done]. cbn.
  split; [apply roster_wf_empty|..]; try (intros; simplify_map_eq; fail); [|done].
  intros _ id (e & He & _). by apply not_elem_of_nil in He.
Qed.

(** Reached by the service from a daemon with nothing running. *)
Definition reachable s : Prop :=
  exists b, backend_ok b /\ running b = ∅ /\ star (Step w) (initial b) s.
Lemma reachable_step s s' : reachable s -> Step w s s' -> reachable s'.
Proof.
  intros (b & W & Hr & Hs) H. exists b. split_and!; [done|done|]. eapply star_trans; [exact Hs|].
  eapply star_step; [exact H|apply star_refl].
Qed.

(** A registration in the past of [s] stranded [id]. *)
Definition stranded s (id : string) : Prop :=
  exists s0 s1, reachable s0 /\ strands s0 id s1 /\ star (Step w) s1 s.

Lemma star_svc X s s' : svc_ok w X s -> star (Step w) s s' ->
  exists Y, svc_ok w Y s' /\ forall id, X id -> Y id.
Proof.
  intros H Hs. apply (star_inv (Step w) (fun s => exists Y, svc_ok w Y s /\ forall id, X id -> Y id)) in Hs; [done| |by exists X].
  intros s1 s2 (Y & HY & HXY) Hst%(svc_step_ok Y); [|done]. eexists. split; [exact Hst|]. intros id Hi. left. auto.
Qed.

Lemma reachable_some s : reachable s -> exists X, svc_ok w X s /\ forall id, X id -> stranded s id.
Proof.
  intros (b & W & Hr & Hs).
  cut (reachable s /\ exists X, svc_ok w X s /\ forall id, X id -> stranded s id); [by intros [_ ?]|].
  eapply (star_inv (Step w) (fun s => reachable s /\ exists X, svc_ok w X s /\ forall id, X id -> stranded s id)); [|exact Hs|].
  - intros s1 s2 (Hre & X & Hok & HX) Hst. split; [by eapply reachable_step|].
    eexists. split; [by eapply svc_step_ok|]. intros id [(s3 & s4 & H3 & H4 & H5)%HX|Hi].
    + exists s3, s4. split_and!; [done|done|]. eapply star_trans; [exact H5|].
      eapply star_step; [exact Hst|apply star_refl].
    + exists s1, s2. split_and!; [done|done|apply star_refl].
  - split; [exists b; split_and!; [done|done|apply star_refl]|]. exists (fun _ => False). split; [by apply initial_ok|done].
Qed.

Lemma stranded_lost s id : stranded s id -> lost (launches s) (sv_roster s) (sv_events s) id.
Proof.
  intros (s0 & s1 & (X & H0 & _)%reachable_some & Hst & Hs).
  assert (Step w s0 s1) as Hstep.
  { destruct Hst as (a & o & x & Hf & _ & H). pose proof (StepRegister w a o s0 Hf) as Hr. by rewrite H in Hr. }
  pose proof (svc_step_ok X _ _ H0 Hstep) as H1. destruct (star_svc _ _ _ H1 Hs) as (Y & HY & HXY).
  apply (st_stranded _ _ _ _ _ (so_stores _ _ _ HY)). apply HXY. by right.
Qed.

(** From a daemon with nothing running, every reachable state is in order. *)
Lemma reachable_svc s : reachable s -> svc_ok w (stranded s) s.
Proof.
  intros (X & [Wo Ac St] & HX)%reachable_some. split; [done|done|].
  eapply stores_widen; [exact St|exact HX|]. intros id Hi. right. by apply stranded_lost.
Qed.
End Runs.
