(* ===== verification/SandboxToy.v ===== *)
(** * A small sandbox service

    A service over the microVM backend of [Microvm], with one sandbox: registered,
    booting and booted; the runs the witnesses of [SandboxResults] and
    [SandboxLapses] start from. *)

From Stdlib Require Import ZArith Lia Ascii String.
From stdpp Require Import base tactics option list sorting gmap sets strings.
From S2P Require Import Prelude.
From S2P Require Import StateErr.
From S2P Require Import GoStrings.
From S2P Require Import TaskId.
From S2P Require Import SandboxModel.
From S2P Require Import SandboxPolicy.
From S2P Require Import Roster.
From S2P Require Import Backend.
From S2P Require Import Microvm.
From S2P Require Import SandboxService.
From S2P Require Import SandboxSteps.

Open Scope string_scope.
Open Scope Z_scope.

Import MicrovmToy.

Module SandboxToy.
Definition task := "MGIT-1.2".
Definition daemon : GuestIdentity := mkIdentity 1000 1000 "dev" "/home/dev".
Definition wiring : Wiring := mkWiring true true true false false (Some daemon) (fun _ => "boot failed").
Definition vm : Microvm.Host := host true ready.
Definition answers (audit : string -> bool) (db : bool) : Answers Microvm.Host :=
  mkAnswers _ (fun l => l) (Some DefaultSandboxPolicy) 100 100 (Some id) true true vm vm vm true true true audit db
    (fun q => Ok (RunAs q)) true.
Definition fine : Answers Microvm.Host := answers (fun _ => true) true.

Definition wanted : SandboxLaunchOptions := with_id "" opts.
Definition first : Service Manager := initial empty.
Definition registered : Service Manager := (Register wiring fine wanted first).2.
Definition claimed_ : Service Manager := (EnsureRunning_claim fine task registered).2.
Definition attempt : bootAttempt :=
  mkAttempt 0 (applyPolicyDefaults (with_id id (applyPolicyDefaults wanted DefaultSandboxPolicy)) DefaultSandboxPolicy) None None.
Definition ran : res svc_err SandboxInfo * Service Manager := runBoot (SM := microvm_manager cf) wiring fine (ba_opts attempt) claimed_.
Definition booted : Service Manager := (settleBoot (SM := microvm_manager cf) wiring fine 0 1 ran.1 (boot_ran 1 ran.1 ran.2)).2.
Definition flying : Service Manager := boot_ran 1 ran.1 ran.2.

Abbreviation Run := (star (Step (LW := microvm_laws cf) wiring) first).
Lemma halting audit db : halts (LW := microvm_laws cf) (answers audit db).
Proof. by split_and!. Qed.
Lemma run_registered : Run registered.
Proof.
  eapply star_step; [|apply star_refl]. apply StepRegister.
  intros i [= <-]. split; [done|]. intros e He. by apply not_elem_of_nil in He.
Qed.
Lemma run_claimed : Run claimed_.
Proof.
  eapply star_trans; [apply run_registered|]. eapply star_step; [|apply star_refl]. apply StepClaim.
Qed.
Lemma attempt_made : sv_attempts claimed_ !! 1%nat = Some attempt.
Proof. vm_compute. reflexivity. Qed.
Lemma run_flying : Run flying.
Proof.
  eapply star_trans; [apply run_claimed|]. eapply star_step; [|apply star_refl].
  pose proof (StepRun (LW := microvm_laws cf) wiring fine 1 attempt claimed_ attempt_made eq_refl eq_refl (halting _ _)) as H.
  unfold flying, ran. destruct (runBoot _ _ _ claimed_). exact H.
Qed.
Lemma attempt_flying : sv_attempts flying !! 1%nat = Some (mkAttempt 0 (ba_opts attempt) (Some ran.1) None).
Proof. vm_compute. reflexivity. Qed.
Lemma run_booted : Run booted.
Proof.
  eapply star_trans; [apply run_flying|]. eapply star_step; [|apply star_refl].
  exact (StepSettle (LW := microvm_laws cf) wiring fine 1 _ _ flying attempt_flying eq_refl eq_refl (halting _ _)).
Qed.
End SandboxToy.
