(* ===== verification/SandboxResults.v ===== *)
(** * What a sandbox's life comes to

    Theorems about [SandboxService] over the steps of [SandboxSteps]: what is up
    and who accounts for it, boots and their waiters, durability across a daemon
    restart, the trail, staged policy and the identity of a command; and the ways
    a failed teardown goes wrong. *)

From Stdlib Require Import ZArith Lia Ascii String.
From stdpp Require Import base tactics option list sorting gmap sets strings.
From S2P Require Import Prelude.
From S2P Require Import StateErr.
From S2P Require Import GoStrings.
From S2P Require Import TaskId.
From S2P Require Import SandboxModel.
From S2P Require Import SandboxPolicy.
From S2P Require Import Roster.
From S2P Require Import Backend.
From S2P Require Import Microvm.
From S2P Require Import SandboxService.
From S2P Require Import SandboxSteps.
From S2P Require Import SandboxSafety.
From S2P Require Import SandboxToy.

Open Scope string_scope.
Open Scope Z_scope.

Section Results.
Context {A B : Type} {SM : SandboxManager A B} {LW : ManagerLaws A B} (w : Wiring).
Implicit Types (a : Answers A) (s : Service B).

(** ** What is up *)

(** C3. Nothing is orphaned. In every reachable state a machine that runs, a
    proxy or a published port that is open belongs to exactly one registration,
    which is booted, or which is being booted by a launch that has returned: a
    removed, reaped or landed sandbox, a failed boot and an un-booted registration
    have nothing up. *)
Theorem no_orphans s id : reachable w s -> id ∈ active s ->
  exists t r, regs s !! t = Some r /\ lo_SandboxID (rg_opts r) = id /\
    (rg_booted r = true \/
     exists at_ b i, rg_boot r = Some at_ /\ sv_attempts s !! at_ = Some b /\ ba_ran b = Some (Ok i) /\
       ba_done b = None) /\
    forall t' r', regs s !! t' = Some r' -> lo_SandboxID (rg_opts r') = id -> t' = t.
Proof.
  intros H Hid. apply reachable_svc in H. pose proof (so_working _ _ _ H) as Wo.
  assert (forall t r t' r', regs s !! t = Some r -> lo_SandboxID (rg_opts r) = id ->
    regs s !! t' = Some r' -> lo_SandboxID (rg_opts r') = id -> t' = t) as Huniq.
  { intros t r t' r' Hr Hi Hr' Hi'. eapply (wo_apart _ Wo); eauto. left. congruence. }
  destruct (ac_owner _ _ (so_active _ _ _ H) _ Hid) as [(t & r & Hr & Hb & Hi)|(at_ & b & i & Hat & Hd & Hran & Hi)].
  - exists t, r. split_and!; [done|done|by left|]. intros. by eapply Huniq.
  - destruct (wo_flight _ Wo _ _ Hat Hd) as (t & r & Hb & Hl & Hbo & Ho & _).
    assert (regs s !! t = Some r) as Hr by (apply regs_lookup; eauto). rewrite <- Ho in Hi.
    exists t, r. split_and!; [done|done|right; eauto 10|]. intros. by eapply Huniq.
Qed.

(** C35. A boot keeps its registration. While a boot is under way its owner's
    pointer is still the map's entry for its task, un-booted, alive and with the
    inputs the launch was given; the registration names this boot, so no other
    boot has it; and no two registrations share a sandbox id or a worktree. *)
Theorem boot_keeps_registration s at_ b : reachable w s -> sv_attempts s !! at_ = Some b -> ba_done b = None ->
  exists t r, sv_byTask s !! t = Some (ba_reg b) /\ sv_heap s !! ba_reg b = Some r /\
    lo_TaskID (ba_opts b) = t /\ rg_opts r = ba_opts b /\ rg_booted r = false /\ rg_dead r = None /\
    (forall at' b', sv_attempts s !! at' = Some b' -> ba_done b' = None -> ba_reg b' = ba_reg b -> at' = at_) /\
    (forall t' r', regs s !! t' = Some r' ->
       si_ID (rg_info r') = lo_SandboxID (ba_opts b) \/ si_WorktreePath (rg_info r') = lo_WorktreePath (ba_opts b) ->
       t' = t).
Proof.
  intros H Hat Hd. apply reachable_svc in H. pose proof (so_working _ _ _ H) as Wo.
  destruct (wo_flight _ Wo _ _ Hat Hd) as (t & r & Hb & Hl & Hbo & Ho & Hbt & Hde & _).
  assert (regs s !! t = Some r) as Hr by (apply regs_lookup; eauto).
  exists t, r. rewrite <- Ho. split_and!; try done.
  - by eapply regs_task.
  - intros at' b' Hat' Hd' Heq. destruct (wo_flight _ Wo _ _ Hat' Hd') as (t' & r' & _ & Hl' & Hbo' & _).
    rewrite Heq in Hl'. congruence.
  - intros t' r' Hr' Hor. destruct (wo_reg _ Wo _ _ Hr') as [_ [Hi _ Hw _ _ _ _ _ _ _ _]].
    eapply (wo_apart _ Wo); [exact Hr'|exact Hr|]. cbn in Hi, Hw. destruct Hor; [left|right]; congruence.
Qed.

(** C4. Every boot settles, and its waiters get its outcome. From any reachable
    state with a boot whose launch has not returned, the launch and the settlement
    can both be taken, whatever the hypervisor answers as long as it halts what it
    is told to; after them every caller that joined the boot gets exactly the
    owner's answer, no boot is under way for the task, and the registration is
    booted if and only if that answer is a sandbox. *)
Theorem boot_settles s at_ b a a' ran s1 out s3 : reachable w s -> sv_attempts s !! at_ = Some b -> ba_done b = None ->
  ba_ran b = None -> halts a -> halts a' ->
  runBoot w a (ba_opts b) s = (ran, s1) ->
  settleBoot w a' (ba_reg b) at_ ran (boot_ran at_ ran s1) = (out, s3) ->
  Step w s (boot_ran at_ ran s1) /\ Step w (boot_ran at_ ran s1) s3 /\ joinBoot at_ s3 = (out, s3) /\
  exists r, regs s3 !! lo_TaskID (ba_opts b) = Some r /\ rg_boot r = None /\ rg_booted r = is_ok out /\
    (forall info, out = Ok info -> rg_info r = info).
Proof.
  intros H0 Hat Hd Hran Hh Hh' Hrun Hset. pose proof (reachable_svc _ _ H0) as H. pose proof H as [Wo Ac St].
  pose proof (StepRun w a at_ b s Hat Hd Hran Hh) as Hst. rewrite Hrun in Hst.
  set (s2 := boot_ran at_ ran s1) in *.
  pose proof (svc_step_ok _ _ _ _ H Hst) as H2. pose proof H2 as [Wo2 Ac2 St2].
  destruct (wo_flight _ Wo _ _ Hat Hd) as (t & rg & Hb & Hl & Hbo & Ho & Hbt & _).
  assert (regs s !! t = Some rg) as Hreg by (apply regs_lookup; eauto).
  pose proof (regs_task _ _ _ Wo Hreg) as Htask. rewrite Ho in Htask. subst t.
  destruct (wo_reg _ Wo _ _ Hreg) as [Hid _]. rewrite Ho in Hid.
  apply runBoot_run in Hrun as ((Hss & _) & _ & _ & _); [|done|done|apply Ac|apply Ac].
  destruct (Hss) as (Hh1 & Hbt1 & Hat1 & _).
  set (b2 := mkAttempt (ba_reg b) (ba_opts b) (Some ran) (ba_done b)).
  assert (sv_attempts s2 !! at_ = Some b2) as Hat2 by (cbn; by rewrite lookup_alter_eq, Hat1, Hat).
  assert (sv_heap s2 !! ba_reg b = Some rg) as Hl2 by (cbn; by rewrite Hh1).
  assert (sv_byTask s2 !! lo_TaskID (ba_opts b) = Some (ba_reg b)) as Hb2 by (cbn; by rewrite Hbt1).
  pose proof (StepSettle w a' at_ b2 ran s2 Hat2 Hd eq_refl Hh') as Hst2.
  change (ba_reg b2) with (ba_reg b) in Hst2.
  rewrite Hset in Hst2. cbn [snd] in Hst2. split; [done|]. split; [done|].
  eapply settleBoot_run in Hset as [(e & s4 & -> & Hs & _ & ->)|(i & s4 & -> & -> & Hs & _ & ->)];
    [| |exact Hl2|done|apply Ac2|apply Ac2];
    destruct Hs as ((Hh4 & Hbt4 & Hat4 & _) & _);
    (split; [unfold joinBoot; cbn; by rewrite Hat4, lookup_alter_eq, Hat2|]);
    (eexists; split; [apply regs_lookup; exists (ba_reg b); cbn;
      rewrite Hbt4, Hh4, alter_alter_eq, lookup_alter_eq, Hl2; split; [done|reflexivity]|]); cbn; split_and!; try done.
  by intros info [= <-].
Qed.

(** ** The durable record *)

(** C20. Every life is on record. Of the sandboxes whose creation was ever
    audited, each is still in the registry, or its end is in the trail, or it is
    stranded: a registration earlier in this history could write neither its row
    nor its end, and its answer named both failures. A stranded sandbox is in no
    row of the registry and in no registration, then and ever after, though the
    trail has its creation. Each registered sandbox has its creation in the trail
    and its row in the registry, with the launch inputs it has in memory (resources
    that a default filled in since may still be open there). *)
Theorem trail_accounts s : reachable w s -> w_registry w = true ->
  (forall e, e ∈ sv_events s -> ev_EventType e = EventCreated ->
     is_Some (sv_roster s !! ev_SandboxID e) \/
     (exists e', e' ∈ sv_events s /\ ev_SandboxID e' = ev_SandboxID e /\ StateForEvent (ev_EventType e') = Some StateDestroyed) \/
     stranded w s (ev_SandboxID e)) /\
  (forall id, stranded w s id ->
     (exists e, e ∈ sv_events s /\ ev_EventType e = EventCreated /\ ev_SandboxID e = id) /\
     sv_roster s !! id = None /\ forall t r, regs s !! t = Some r -> si_ID (rg_info r) <> id) /\
  (forall t r, regs s !! t = Some r ->
     (exists e, e ∈ sv_events s /\ ev_EventType e = EventCreated /\ ev_SandboxID e = si_ID (rg_info r)) /\
     exists row, row ∈ ListSandboxes (sv_roster s) /\ si_TaskID (sr_Info row) = t /\
       same_launch (LaunchOptions row) (rg_opts r)).
Proof.
  intros H Hw. apply reachable_svc in H. pose proof H as [Wo Ac St]. split_and!.
  - intros e He Ht. destruct (st_ended _ _ _ _ _ St Hw (ev_SandboxID e)) as [|[(e' & He' & Hterm & Hid)|]];
      [by exists e|by left|right; left|by right; right].
    exists e'. split_and!; [done|done|]. by apply bool_decide_eq_true in Hterm.
  - intros id (Hc & Hn & Hl)%stranded_lost. split_and!; [done|done|]. intros t r Hr.
    rewrite (reg_id _ (wo_reg _ Wo _ _ Hr)). apply (Hl t), launches_lookup. eauto.
  - intros t r Hr. rewrite (reg_id _ (wo_reg _ Wo _ _ Hr)). split.
    + apply (st_created _ _ _ _ _ St t). apply launches_lookup. eauto.
    + destruct (durable _ _ _ _ _ H Hw Hr) as (x & Hx & Hsl & Ht). exists (scanSandboxRow x).
      split_and!; [|done|done]. apply elem_of_ListSandboxes. eauto.
Qed.

(** A row whose state claims no machine, or a machine already lost. *)
Definition claims_nothing (row : SandboxRegistration) : bool :=
  let st := si_State (sr_Info row) in String.eqb st StateCreated || String.eqb st StateDead.
Definition row_task (row : SandboxRegistration) : string := si_TaskID (sr_Info row).
Definition lost_event (row : SandboxRegistration) : SandboxEvent :=
  let i := sr_Info row in
  mkSandboxEvent (si_ID i) (si_TaskID i) EventKilled "" (si_ImageDigest i) (si_NetworkMode i) "unsupervised".
(** What a new daemon reports of a row. *)
Definition verdict (row : SandboxRegistration) : string + string :=
  if claims_nothing row then inl (row_task row) else inr (row_task row).
Definition readopted a (row : SandboxRegistration) : sandboxReg :=
  adoptedReg (a_now a) row (si_State (sr_Info row)) false.

Lemma verify_fresh row s : known (sv_backend s) = ∅ ->
  verifyLocked row s = if claims_nothing row then Some (si_State (sr_Info row), false) else None.
Proof.
  intros Hk. unfold verifyLocked, claims_nothing.
  assert (exists e, m_Resolve (si_ID (sr_Info row)) (sv_backend s) = Err e) as [e ->].
  { destruct (m_Resolve _ _) as [i|e] eqn:E; [|by eexists]. apply resolve_known in E. by rewrite Hk, lookup_empty in E. }
  destruct (String.eqb_spec (si_State (sr_Info row)) StateCreated) as [E|_]; [by rewrite E|].
  by destruct (String.eqb_spec (si_State (sr_Info row)) StateDead) as [E|_]; [rewrite E|].
Qed.

(** A trail and a registry that take what a starting daemon writes. *)
Definition accepting a (rows : list SandboxRegistration) : Prop :=
  a_db a = true /\ a_audit a EventKilled = true /\
  Forall (fun row => SandboxEvent_Validate (lost_event row) = Ok tt) rows.

Lemma discard_fresh a row s : w_registry w = true -> accepting a [row] ->
  is_Some (sv_roster s !! si_ID (sr_Info row)) ->
  discardLostLocked w a row s =
  (Ok tt, set_roster (delete (si_ID (sr_Info row)) (sv_roster s)) (set_events (sv_events s ++ [lost_event row])%list s)).
Proof.
  intros Hw (Hdb & Hau & Hv) [x Hx]. apply Forall_cons in Hv as [Hv _]. cbv beta in Hv.
  unfold discardLostLocked, mbind, ST_bind, AppendSandboxEvent. fold (lost_event row). rewrite Hv.
  cbn [ev_EventType lost_event]. rewrite Hau. unfold dropPersisted, registry. rewrite Hw, Hdb. cbn.
  unfold DeleteSandbox. by rewrite Hx.
Qed.

Lemma rehydrate_fresh {X} a rows s ys r s' : pending_rows w X rows s -> known (sv_backend s) = ∅ -> accepting a rows ->
  Forall (fun row => sv_byTask s !! row_task row = None) rows ->
  sweep (rehydrate_one w a) rows s = (ys, r, s') ->
  r = Ok tt /\ ys = map verdict rows /\
  (forall t rg, regs s' !! t = Some rg <-> regs s !! t = Some rg \/
     exists row, row ∈ rows /\ row_task row = t /\ claims_nothing row = true /\ rg = readopted a row) /\
  (forall row, row ∈ rows -> claims_nothing row = false ->
     lost_event row ∈ sv_events s' /\ sv_roster s' !! si_ID (sr_Info row) = None) /\
  (forall e, e ∈ sv_events s -> e ∈ sv_events s') /\
  (forall id, sv_roster s !! id = None -> sv_roster s' !! id = None).
Proof.
  revert s ys r s'. induction rows as [|row rows IH]; intros s ys r s' Hp Hk Hacc Hn H; cbn in H.
  { injection H as <- <- <-. split_and!; try done; setoid_rewrite elem_of_nil; naive_solver. }
  destruct Hacc as (Hdb & Hau & [Hv Hvs]%Forall_cons). apply Forall_cons in Hn as [Hn Hns].
  pose proof Hp as (H0 & Hw & [(x & Hx & Hrow) _]%Forall_cons & [Hni _]%NoDup_cons).
  assert (exists s1 y, rehydrate_one w a row s = (Ok (Some y), s1) /\ y = verdict row /\
    sv_backend s1 = sv_backend s /\ (forall t, sv_byTask s1 !! t = None <-> sv_byTask s !! t = None /\
       (claims_nothing row = true -> t <> row_task row)) /\
    regs s1 = (if claims_nothing row then <[row_task row := readopted a row]> (regs s) else regs s) /\
    (claims_nothing row = false -> lost_event row ∈ sv_events s1 /\ sv_roster s1 !! si_ID (sr_Info row) = None) /\
    (forall e, e ∈ sv_events s -> e ∈ sv_events s1) /\
    (forall id, sv_roster s !! id = None -> sv_roster s1 !! id = None))
    as (s1 & y & Hone & -> & Hb & Hbt & Hregs & Hlost & Hev & Hro).
  { unfold rehydrate_one. fold (row_task row). rewrite Hn, bool_decide_eq_false_2 by (by intros [? ?]).
    rewrite verify_fresh by done. unfold verdict. destruct (claims_nothing row) eqn:Hc.
    - eexists _, _. split; [reflexivity|]. split_and!; try done.
      + intros t. cbn. rewrite lookup_insert_None. split; [intros [? ?]; split; [done|by intros _ ->]|].
        intros [? Hne]. split; [done|]. intros <-. by apply Hne.
      + cbn. by apply regs_put, H0.
    - unfold mbind, ST_bind. rewrite discard_fresh; [|done|by split_and!; [..|constructor]|eauto].
      eexists _, _. split; [reflexivity|]. cbn. split_and!; try done.
      + intros t. split; [done|by intros [? _]].
      + intros _. split; [apply elem_of_app; right; by apply list_elem_of_singleton|apply lookup_delete_eq].
      + intros e He. apply elem_of_app. by left.
      + intros id Hid. apply lookup_delete_None. by right. }
  rewrite Hone in H. destruct (sweep _ rows s1) as [[ys1 r1] s2] eqn:E. injection H as <- <- <-.
  apply IH in E as (-> & -> & Hr2 & Hl2 & He2 & Ho2).
  - split_and!; try done; [| |by auto|by auto].
    + intros t rg. rewrite Hr2, Hregs. setoid_rewrite elem_of_cons.
      destruct (claims_nothing row) eqn:Hc; [rewrite lookup_insert_Some|].
      2: { split; intros [?|(row' & Hin & Hy)]; [by left|right; exists row'; tauto|by left|].
           destruct Hin as [->|Hin]; [destruct Hy as (_ & Hy & _); congruence|]. right. by exists row'. }
      assert (regs s !! row_task row = None) as Hrn by (unfold regs; by rewrite lookup_omap, Hn).
      split.
      * intros [[[<- <-]|[_ ?]]|(row' & Hin & ?)]; [right; exists row; auto|by left|right; exists row'; tauto].
      * intros [Hr|(row' & [->|Hin] & <- & Hc' & ->)]; [left; right; split; [congruence|done]|by left; left|].
        right. exists row'. auto.
    + intros row' [->|Hin]%elem_of_cons Hc; [|by apply Hl2]. destruct (Hlost Hc). auto.
  - by eapply rehydrate_one_ok.
  - by rewrite Hb.
  - by split_and!.
  - rewrite Forall_forall in *. intros row' Hin. apply Hbt. split; [by apply Hns|]. intros _ Heq.
    apply Hni. apply list_elem_of_fmap. by exists row'.
Qed.

(** C19. A restart recovers what it can account for. A daemon that starts over
    the stores of another whose machines are gone, with a trail and a registry
    that accept its writes, ends its rehydration without an error and reports
    every row once: a sandbox that had never booted, or was already recorded dead,
    is registered again, un-booted, from its row; every other row leaves the
    registry with the loss in the trail. So of each registration of the daemon
    before, either it is there again with its launch inputs, or its loss is on
    record; and nothing else is registered. *)
Theorem restart_recovers a b s ys r s' : reachable w s -> w_registry w = true -> backend_ok b -> known b = ∅ ->
  accepting a (ListSandboxes (sv_roster s)) -> Rehydrate w a (restarted b s) = (ys, r, s') ->
  r = Ok tt /\ ys = map verdict (ListSandboxes (sv_roster s)) /\
  (forall t rg, regs s' !! t = Some rg <-> exists row, row ∈ ListSandboxes (sv_roster s) /\
     row_task row = t /\ claims_nothing row = true /\ rg = readopted a row) /\
  (forall t old, regs s !! t = Some old ->
     (exists rg, regs s' !! t = Some rg /\ same_launch (rg_opts rg) (rg_opts old) /\ rg_booted rg = false) \/
     (exists e, e ∈ sv_events s' /\ ev_EventType e = EventKilled /\ ev_SandboxID e = lo_SandboxID (rg_opts old) /\
        sv_roster s' !! ev_SandboxID e = None)) /\
  (forall e, e ∈ sv_events s -> e ∈ sv_events s').
Proof.
  intros H Hw W Hk Hacc Hre. apply reachable_svc in H. pose proof H as [Wo Ac St].
  assert (running b = ∅) as Hrun.
  { apply elem_of_equiv_empty_L. intros id (i & Hi & _)%running_state; [|done]. by rewrite Hk, lookup_empty in Hi. }
  unfold Rehydrate in Hre. rewrite Hw, (proj1 Hacc) in Hre. cbn [negb] in Hre.
  assert (pending_rows w (stranded w s) (ListSandboxes (sv_roster s)) (restarted b s)) as Hp.
  { apply (pending_ListSandboxes w _ (restarted b s)); [|done]. apply restarted_ok; [|done..]. by eapply stores_forget. }
  eapply rehydrate_fresh in Hre as (-> & -> & Hregs & Hlost & Hev & _); [|done..|].
  2: { apply Forall_forall. intros row _. apply lookup_empty. }
  assert (forall t rg, regs s' !! t = Some rg <-> exists row, row ∈ ListSandboxes (sv_roster s) /\
     row_task row = t /\ claims_nothing row = true /\ rg = readopted a row) as Hregs'.
  { intros t rg. rewrite Hregs. split; [|by right]. intros [Hr|?]; [|done].
    unfold regs in Hr. cbn in Hr. by rewrite omap_empty, lookup_empty in Hr. }
  split_and!; [done|done|done| |exact Hev]. intros t old Hold.
  destruct (durable _ _ _ _ _ H Hw Hold) as (x & Hx & Hsl & Ht).
  assert (scanSandboxRow x ∈ ListSandboxes (sv_roster s)) as Hin by (apply elem_of_ListSandboxes; eauto).
  destruct (claims_nothing (scanSandboxRow x)) eqn:Hc.
  - left. eexists. split; [apply Hregs'; eauto|done].
  - right. destruct (Hlost _ Hin Hc) as [He Hgone]. exists (lost_event (scanSandboxRow x)).
    split_and!; [done|done| |done]. exact (sl_id _ _ Hsl).
Qed.

(** ** Policy and identity *)

Lemma pendingReg_found s t l rg : working_ok s -> sv_byTask s !! t = Some l -> sv_heap s !! l = Some rg ->
  rg_booted rg = false -> rg_boot rg = None ->
  pendingRegLocked (lo_SandboxID (rg_opts rg)) s = (Ok (l, rg), s).
Proof.
  intros Wo Hb Hl Hbt Hbo. unfold pendingRegLocked.
  assert (forall t r, regs s !! t = Some r -> si_ID (rg_info r) = lo_SandboxID (rg_opts r)) as Hid
    by (intros; eapply reg_id, wo_reg; eauto).
  assert (regs s !! t = Some rg) as Hreg by (apply regs_lookup; eauto).
  destruct (find _ _) as [[t' l']|] eqn:Hf.
  - apply find_some in Hf as [Hin He]. apply list_elem_of_In, elem_of_map_to_list in Hin. cbn in *.
    destruct (sv_heap s !! l') as [r'|] eqn:Hl'; [|done]. apply String.eqb_eq in He.
    assert (regs s !! t' = Some r') as Hreg' by (apply regs_lookup; eauto).
    rewrite (Hid _ _ Hreg') in He.
    assert (t' = t) as -> by (eapply (wo_apart _ Wo); eauto). simplify_eq. by rewrite Hbt, Hbo.
  - assert (In (t, l) (map_to_list (sv_byTask s))) as Hin by (by apply list_elem_of_In, elem_of_map_to_list).
    apply (find_none _ _ Hf) in Hin. cbn in Hin. by rewrite Hl, (Hid _ _ Hreg), String.eqb_refl in Hin.
Qed.

(** A staged policy is the one that boots. Staging either is refused and
    changes nothing, a booted or booting sandbox always refuses it, or the entries
    are what is shown from then on, what the registry keeps, and what the next
    boot of a live guest is launched with; the mode is as it was registered. *)
Theorem staged_policy_boots a id entries s r s' : reachable w s ->
  StagePendingEgressPolicy w a id entries s = (r, s') ->
  match r with
  | Err _ => s' = s
  | Ok got => got = entries /\ exists t rg,
      let net := mkNetworkPolicy (Mode (lo_Network (rg_opts rg))) entries in
      regs s !! t = Some rg /\ lo_SandboxID (rg_opts rg) = id /\ rg_booted rg = false /\ rg_boot rg = None /\
      PendingEgressPolicy id s' = (Ok entries, s') /\
      (w_registry w = true -> exists row, row ∈ ListSandboxes (sv_roster s') /\
         si_ID (sr_Info row) = id /\ lo_Network (LaunchOptions row) = net) /\
      forall a' p, a_policy a' = Some p -> rg_dead rg = None -> exists at_ b s'',
        EnsureRunning_claim a' t s' = (Ok (COwn at_), s'') /\ sv_attempts s'' !! at_ = Some b /\
        lo_Network (ba_opts b) = net
  end.
Proof.
  intros H0 H. apply reachable_svc in H0. pose proof (Stage_ok _ _ _ _ _ _ _ _ H0 H) as H1.
  apply (Stage_run w (stranded w s)) in H as [[[e ->] ->]|(-> & t & l & rg & T & Hb & Hl & Hid & Hbt & Hbo & Hd & Hs')]; [done| |done].
  split; [done|]. exists t, rg. intros net. subst id.
  assert (sv_byTask s' !! t = Some l /\ sv_heap s' !! l = Some (staged entries rg) /\ sv_roster s' = T) as (Hb' & Hl' & HT).
  { subst s'. cbn. by rewrite lookup_alter_eq, Hl. }
  split_and!; [apply regs_lookup; eauto|done|done|done| | |].
  - unfold PendingEgressPolicy, mbind, ST_bind.
    change (lo_SandboxID (rg_opts rg)) with (lo_SandboxID (rg_opts (staged entries rg))).
    by rewrite (pendingReg_found s' t l _ (so_working _ _ _ H1) Hb' Hl').
  - intros Hw. assert (regs s' !! t = Some (staged entries rg)) as Hr by (apply regs_lookup; eauto).
    destruct (durable _ _ _ _ _ H1 Hw Hr) as (x & Hx & Hsl & _). exists (scanSandboxRow x).
    split_and!; [apply elem_of_ListSandboxes; eauto|exact (sl_id _ _ Hsl)|exact (sl_network _ _ Hsl)].
  - intros a' p Hp Hde. unfold EnsureRunning_claim. rewrite Hp.
    assert (lookup_task t s' = Some (l, staged entries rg)) as -> by (by apply lookup_task_Some).
    change (rg_dead (staged entries rg)) with (rg_dead rg). change (rg_boot (staged entries rg)) with (rg_boot rg).
    change (rg_booted (staged entries rg)) with (rg_booted rg).
    rewrite Hde, bool_decide_eq_false_2, Hbt, Hbo by (by intros [? ?]). eexists _, _, _. split; [reflexivity|]. cbn.
    by rewrite lookup_insert_eq.
Qed.
(** The record of an escalation. *)
Definition escalation (i : SandboxInfo) : SandboxEvent :=
  mkSandboxEvent (si_ID i) (si_TaskID i) EventExecPrivileged "" "" (si_NetworkMode i) "escalation".
(** What a guest may be sent for the request [q] of a caller, given a trail. *)
Definition permitted (i : SandboxInfo) (q sent : ExecRequest) (trail : list SandboxEvent) : Prop :=
  RunAs q = None /\
  sent = with_RunAs (if AsRoot q then Some RootIdentity else w_execIdentity w)
           (if String.eqb (Dir q) "" then with_Dir (si_WorktreePath i) q else q) /\
  (AsRoot q = true -> escalation i ∈ trail).

Lemma decide_permitted a i q s sent s' :
  decideExecIdentity w a i (if String.eqb (Dir q) "" then with_Dir (si_WorktreePath i) q else q) s = (Ok sent, s') ->
  permitted i q sent (sv_events s').
Proof.
  set (q0 := if String.eqb (Dir q) "" then _ else q). intros H. unfold decideExecIdentity in H.
  assert (RunAs q0 = RunAs q /\ AsRoot q0 = AsRoot q) as [Hru Has] by (unfold q0; by destruct (String.eqb _ _)).
  unfold permitted. fold q0. case_bool_decide as Hn; [done|]. apply eq_None_not_Some in Hn.
  rewrite Hru in Hn. split; [done|]. rewrite Has in H. destruct (AsRoot q); split.
  - apply lift_bind in H as [([] & _ & H)|(e & _ & [=] & _)].
    apply M_bind_Ok in H as ([] & s1 & _ & H). by injection H.
  - intros _. apply lift_bind in H as [([] & _ & H)|(e & _ & [=] & _)].
    apply M_bind_Ok in H as ([] & s1 & H1 & H). injection H as _ <-.
    apply append_run in H1 as [(_ & -> & _)|((? & [=]) & _)]. apply elem_of_app. right.
    by apply list_elem_of_singleton.
  - injection H as <- _. destruct (w_execIdentity w); [done|]. unfold with_RunAs. rewrite <- Hn, <- Hru. by destruct q0.
  - done.
Qed.

Lemma decide_refused a i q s e s' : decideExecIdentity w a i q s = (Err e, s') ->
  e = SRunAs \/ e = SIndexOutOfRange \/ e = SAudit EventExecPrivileged.
Proof.
  unfold decideExecIdentity. case_bool_decide as Hn; [intros [= <- _]; auto|]. destruct (AsRoot q); [|by destruct (w_execIdentity w)].
  intros [([] & _ & H)|(e' & He & [= <-] & _)]%lift_bind; [|by destruct (bool_decide _); [injection He as <-; auto|]].
  apply M_bind_Err in H as [H|([] & s1 & _ & H)]; [|done]. unfold auditEscalation, AppendSandboxEvent in H.
  cbn [ev_EventType] in H.
  destruct (SandboxEvent_Validate _); [destruct (a_audit _ _); [done|]|]; injection H as <- _; auto.
Qed.

Lemma registry_events a f s r s' : registry w a f s = (r, s') -> sv_events s' = sv_events s.
Proof. by intros [(_ & _ & ->)|(_ & ->)]%registry_run. Qed.
Lemma append_events a e s r s' : AppendSandboxEvent a e s = (r, s') -> sv_events s ⊆ sv_events s'.
Proof. intros [(_ & -> & _)|(_ & -> & _)]%append_run; [|done]. intros e' He'. apply elem_of_app. by left. Qed.

Lemma mark_events a l cause s r s' : markDeadLocked w a l cause s = (r, s') -> sv_events s ⊆ sv_events s'.
Proof.
  unfold markDeadLocked. destruct (sv_heap s !! l) as [rg|] eqn:Hl.
  2: { intros H. unfold mbind, ST_bind, deref in H. rewrite Hl in H. by injection H as _ <-. }
  rewrite (deref_bind _ _ _ _ Hl). intros H.
  apply M_bind_run in H as [([] & s2 & H2 & H)|(e & H2 & _)]; apply append_events in H2; [|done].
  apply M_bind_run in H as [([] & s3 & H3 & H)|(e & H3 & _)]; apply registry_events in H3; [|by rewrite H3].
  injection H as _ <-. cbn. by rewrite H3.
Qed.

Lemma noteExecFailure_events a task cause s r s' : noteExecFailure w a task cause s = (r, s') ->
  sv_events s ⊆ sv_events s'.
Proof.
  unfold noteExecFailure. destruct (_ || _); [by intros [= _ <-]|].
  destruct (lookup_task task s) as [[l rg]|]; [|by intros [= _ <-]].
  destruct (_ || _); [by intros [= _ <-]|]. apply mark_events.
Qed.

(** A command runs as the daemon decided. What an exec sends the guest of a
    running sandbox is the caller's request, in the worktree unless it names a
    directory, under the daemon's identity, or as root when the caller escalates,
    and then the escalation is in the trail; a caller that names an identity has
    nothing sent. The verdict a caller reads is [Verified] only when the guest
    reported the very identity it was asked for. *)
Theorem exec_identity a task q s i s1 r s' : EnsureRunning w a task s = (Ok i, s1) ->
  Exec w a task q s = (r, s') ->
  match r with
  | Ok (sent, v) => exists ranAs, permitted i q sent (sv_events s') /\ a_exec a sent = Ok ranAs /\
      v = VerdictOnExecIdentity (RunAs sent) ranAs /\
      (ei_Verified v = true <-> exists asked ran, RunAs sent = Some asked /\ ranAs = Some ran /\
         UID ran = UID asked /\ GID ran = GID asked)
  | Err (SJoin (SGuest text :: _)) => exists sent, permitted i q sent (sv_events s') /\ a_exec a sent = Err text
  | Err e => True
  end.
Proof.
  intros He H. unfold Exec, mbind at 1, ST_bind at 1 in H. rewrite He in H. cbv zeta in H.
  apply M_bind_run in H as [(sent & s2 & H2 & H)|(e & H2 & ->)].
  2: { by apply decide_refused in H2 as [-> | [-> | ->]]. }
  apply decide_permitted in H2. destruct (a_exec a sent) as [ranAs|text] eqn:Hex.
  - apply modify_bind in H. injection H as <- <-. exists ranAs. split_and!; [|done|done|apply verdict_verified].
    unfold touch. by destruct (sv_byTask s2 !! task).
  - apply outcome_bind in H as (rm & s3 & H3 & H). injection H as <- <-. apply noteExecFailure_events in H3.
    exists sent. split; [|done]. destruct H2 as (? & ? & Ht). split_and!; auto.
Qed.
End Results.

(** ** Witnesses *)
Import MicrovmToy SandboxToy.
Abbreviation Reached := (reachable (LW := microvm_laws cf) wiring).
Lemma toy_reached (s : Service Manager) : star (Step (LW := microvm_laws cf) wiring) first s -> Reached s.
Proof. intros H. exists empty. split_and!; [apply (manager_ok_empty cf)|done|done]. Qed.

Lemma no_orphans_witness : id ∈ active (LW := microvm_laws cf) booted /\
  exists t r, regs booted !! t = Some r /\ lo_SandboxID (rg_opts r) = id.
Proof.
  assert (id ∈ active (LW := microvm_laws cf) booted) as H
    by (apply elem_of_union; left; apply elem_of_union; left; vm_compute; reflexivity).
  split; [exact H|].
  destruct (no_orphans wiring booted id (toy_reached _ run_booted) H) as (t & r & Hr & Hi & _).
  exists t, r. exact (conj Hr Hi).
Defined.

Lemma boot_keeps_registration_witness :
  exists r, sv_heap flying !! 0%nat = Some r /\ rg_booted r = false /\ rg_dead r = None.
Proof.
  destruct (boot_keeps_registration wiring flying 1 _ (toy_reached _ run_flying) attempt_flying eq_refl)
    as (t & r & _ & Hl & _ & _ & Hb & Hd & _).
  exists r. exact (conj Hl (conj Hb Hd)).
Defined.

Lemma boot_settles_witness : exists out s3, joinBoot 1 s3 = (out, s3) /\
  settleBoot (SM := microvm_manager cf) wiring fine 0 1 ran.1 flying = (out, s3).
Proof.
  destruct (settleBoot (SM := microvm_manager cf) wiring fine 0 1 ran.1 flying) as [out s3] eqn:H.
  destruct (boot_settles wiring claimed_ 1 attempt fine fine ran.1 ran.2 out s3 (toy_reached _ run_claimed)
    attempt_made eq_refl eq_refl (halting _ _) (halting _ _) (surjective_pairing _) H) as (_ & _ & Hj & _).
  exists out, s3. exact (conj Hj eq_refl).
Defined.

(** Neither the registry nor the trail takes anything after the creation. *)
Definition failing : Answers Microvm.Host := answers (fun e => negb (String.eqb e EventDestroyed)) false.
Definition refused : res svc_err SandboxInfo * Service Manager := Register wiring failing wanted first.
Lemma first_fresh audit db : fresh (answers audit db) first.
Proof. intros i [= <-]. split; [done|]. intros e He. by apply not_elem_of_nil in He. Qed.
Lemma toy_stranded : stranded (LW := microvm_laws cf) wiring refused.2 id.
Proof.
  exists first, refused.2. split_and!; [apply toy_reached, star_refl| |apply star_refl].
  exists failing, wanted, (SRegistry None). split_and!; [apply first_fresh|done|]. vm_compute. reflexivity.
Qed.
Lemma run_refused : star (Step (LW := microvm_laws cf) wiring) first refused.2.
Proof. eapply star_step; [|apply star_refl]. exact (StepRegister wiring failing wanted first (first_fresh _ _)). Qed.

Lemma trail_accounts_witness :
  (exists row, row ∈ ListSandboxes (sv_roster booted) /\ si_TaskID (sr_Info row) = task) /\
  sv_roster refused.2 !! id = None /\ map ev_EventType (sv_events refused.2) = [EventCreated].
Proof.
  assert (exists r, regs booted !! task = Some r) as [r Hr] by (eexists; vm_compute; reflexivity).
  destruct (trail_accounts wiring booted (toy_reached _ run_booted) eq_refl) as (_ & _ & Hall).
  destruct (Hall task r Hr) as (_ & row & Hrow & Ht & _).
  destruct (trail_accounts wiring refused.2 (toy_reached _ run_refused) eq_refl) as (_ & Hst & _).
  destruct (Hst id toy_stranded) as (_ & Hn & _).
  split; [exists row; exact (conj Hrow Ht)|]. split; [exact Hn|]. vm_compute. reflexivity.
Defined.

Lemma is_ok_tt {E} (r : res E unit) : is_ok r = true -> r = Ok tt.
Proof. by destruct r as [[]|]. Qed.
Lemma toy_accepting (s : Service Manager) : Forall (fun row => SandboxEvent_Validate (lost_event row) = Ok tt) (ListSandboxes (sv_roster s)) ->
  accepting fine (ListSandboxes (sv_roster s)).
Proof. intros H. exact (conj eq_refl (conj eq_refl H)). Qed.
Lemma restart_recovers_witness : exists ys s', Rehydrate (SM := microvm_manager cf) wiring fine (restarted empty booted) = (ys, Ok tt, s') /\
  ys = map verdict (ListSandboxes (sv_roster booted)).
Proof.
  destruct (Rehydrate (SM := microvm_manager cf) wiring fine (restarted empty booted)) as [[ys r] s'] eqn:H.
  assert (Forall (fun row => SandboxEvent_Validate (lost_event row) = Ok tt) (ListSandboxes (sv_roster booted))) as Ha.
  { apply Forall_forall. intros row (id' & x & Hx & ->)%elem_of_ListSandboxes. apply elem_of_map_to_list in Hx.
    apply list_elem_of_In in Hx.
    assert (forallb (fun kx => is_ok (SandboxEvent_Validate (lost_event (scanSandboxRow kx.2))))
              (map_to_list (sv_roster booted)) = true) as Hall by (vm_compute; reflexivity).
    apply (proj1 (forallb_forall _ _) Hall) in Hx. cbn [snd] in Hx. exact (is_ok_tt _ Hx). }
  destruct (restart_recovers wiring fine empty booted ys r s' (toy_reached _ run_booted) eq_refl
    (manager_ok_empty cf ∅ ∅ ∅) (fmap_empty _) (toy_accepting _ Ha) H) as (-> & Hys & _).
  exists ys, s'. exact (conj eq_refl Hys).
Defined.

Lemma staged_policy_boots_witness : exists s', StagePendingEgressPolicy wiring fine id ["go.dev:443"] registered = (Ok ["go.dev:443"], s') /\
  PendingEgressPolicy id s' = (Ok ["go.dev:443"], s').
Proof.
  destruct (StagePendingEgressPolicy wiring fine id ["go.dev:443"] registered) as [r s'] eqn:H.
  assert (r = Ok ["go.dev:443"]) as -> by (apply (f_equal fst) in H; cbn [fst] in H; rewrite <- H; vm_compute; reflexivity).
  destruct (staged_policy_boots wiring fine id ["go.dev:443"] registered _ s' (toy_reached _ run_registered) H)
    as (_ & t & rg & _ & _ & _ & _ & Hp & _).
  exists s'. exact (conj eq_refl Hp).
Defined.

Definition as_root : ExecRequest := mkExec ["id"] "" [] 0 None true.
Lemma exec_identity_witness : exists sent v s', Exec (SM := microvm_manager cf) wiring fine task as_root booted = (Ok (sent, v), s') /\
  RunAs sent = Some RootIdentity /\ ei_Verified v = true.
Proof.
  assert (exists i, EnsureRunning (SM := microvm_manager cf) wiring fine task booted = (Ok i, booted)) as [i Hi]
    by (eexists; vm_compute; reflexivity).
  destruct (Exec (SM := microvm_manager cf) wiring fine task as_root booted) as [r s'] eqn:H.
  pose proof (exec_identity wiring fine task as_root booted i booted r s' Hi H) as Hx.
  assert (exists x, r = Ok x) as [[sent v] ->].
  { apply (f_equal fst) in H. cbn [fst] in H. rewrite <- H. eexists. vm_compute. reflexivity. }
  destruct Hx as (ranAs & (_ & Hs & _) & Hx & Hv & _). exists sent, v, s'. rewrite Hs in *. injection Hx as <-.
  rewrite Hv. split; [reflexivity|]. split; reflexivity.
Defined.
