(* ===== verification/SandboxLapses.v ===== *)
(** * How a teardown goes wrong

    The paths on which [SandboxService] loses track of a sandbox: a teardown whose
    last write fails after the machine is gone, a terminal event whose row could
    not be dropped, and the removal of a suspended sandbox. *)

From Stdlib Require Import ZArith Lia Ascii String.
From stdpp Require Import base tactics option list sorting gmap sets strings.
From S2P Require Import Prelude.
From S2P Require Import StateErr.
From S2P Require Import GoStrings.
From S2P Require Import TaskId.
From S2P Require Import SandboxModel.
From S2P Require Import SandboxPolicy.
From S2P Require Import Roster.
From S2P Require Import Backend.
From S2P Require Import Microvm.
From S2P Require Import SandboxService.
From S2P Require Import SandboxSteps.
From S2P Require Import SandboxSafety.
From S2P Require Import SandboxResults.
From S2P Require Import SandboxToy.

Open Scope string_scope.
Open Scope Z_scope.

Section Lapses.
Context {A B : Type} {SM : SandboxManager A B} {LW : ManagerLaws A B} (w : Wiring).
Implicit Types (a : Answers A) (s : Service B).

Lemma await_idle s t l rg : sv_byTask s !! t = Some l -> sv_heap s !! l = Some rg -> rg_boot rg = None ->
  awaitBootLocked t s = (Ok (l, rg), s).
Proof.
  intros Hb Hl Hbo. unfold awaitBootLocked.
  assert (lookup_task t s = Some (l, rg)) as -> by (by apply lookup_task_Some).
  by rewrite bool_decide_eq_false_2 by (rewrite Hbo; by intros [? ?]).
Qed.

(** What the controls of a sandbox are after they were stopped. *)
Definition uncontrolled (id : string) s : Service B :=
  set_egress (sv_egress s ∖ {[id]}) (set_ports (sv_ports s ∖ {[id]})
    (set_grants (if w_capRev w then sv_grants s ∖ {[id]} else sv_grants s) s)).

(** A teardown of a booted registration up to the manager's answers. *)
Lemma teardown_booted a l ev force s rg : sv_heap s !! l = Some rg -> rg_booted rg = true -> wired w s ->
  let id := si_ID (rg_info rg) in
  teardownLocked w a l ev force s =
  (_ ← (_ ← manager_Stop a id force; manager_Remove a id force);
   _ ← AppendSandboxEvent a (event id (si_TaskID (rg_info rg)) ev ""); dropPersisted w a id) (uncontrolled id s).
Proof.
  intros Hl Hbt Hw id. unfold teardownLocked. rewrite (deref_bind _ _ _ _ Hl), Hbt. cbv zeta. fold id.
  unfold mbind at 1, ST_bind at 1. rewrite RevokeGrants_bind. set (s0 := set_grants _ s).
  rewrite StopPublish_bind, StopEgress_bind by (try apply wired_down; done). reflexivity.
Qed.

Lemma booted_at {X} s t rg : svc_ok w X s -> regs s !! t = Some rg -> rg_booted rg = true ->
  exists l, awaitBootLocked t s = (Ok (l, rg), s) /\ sv_heap s !! l = Some rg /\
    si_ID (rg_info rg) = lo_SandboxID (rg_opts rg).
Proof.
  intros H Hr Hbt. pose proof (wo_reg _ (so_working _ _ _ H) _ _ Hr) as Hok.
  apply regs_lookup in Hr as (l & Hb & Hl). exists l. split_and!; [|done|by apply reg_id].
  apply await_idle; [done|done|by eapply booted_quiet].
Qed.

(** The manager does not know the machine of a booted registration. *)
Lemma teardown_unknown {X} a l ev force s rg : svc_ok w X s -> sv_heap s !! l = Some rg -> rg_booted rg = true ->
  known (sv_backend s) !! si_ID (rg_info rg) = None ->
  teardownLocked w a l ev force s = (Err (SBackend (MNotFound (si_ID (rg_info rg)))), uncontrolled (si_ID (rg_info rg)) s).
Proof.
  intros H Hl Hbt Hk. rewrite (teardown_booted _ _ _ _ _ _ Hl Hbt) by apply (ac_wired _ _ (so_active _ _ _ H)).
  unfold mbind, ST_bind, manager_Stop. cbn [sv_backend uncontrolled set_egress set_ports set_grants].
  by rewrite stop_unknown.
Qed.

Lemma Remove_unknown {X} a t force s rg : svc_ok w X s -> regs s !! t = Some rg -> rg_booted rg = true ->
  known (sv_backend s) !! lo_SandboxID (rg_opts rg) = None ->
  Remove w a t force s = (Err (SBackend (MNotFound (lo_SandboxID (rg_opts rg)))), uncontrolled (lo_SandboxID (rg_opts rg)) s).
Proof.
  intros H Hr Hbt Hk. destruct (booted_at _ _ _ H Hr Hbt) as (l & Ha & Hl & Hid).
  unfold Remove, mbind, ST_bind. rewrite Ha. cbn [fst]. rewrite <- Hid in *. by rewrite (teardown_unknown (X := X) _ _ _ _ _ rg).
Qed.

Lemma Remove_unaudited {X} a t force s rg b1 b2 : svc_ok w X s -> regs s !! t = Some rg -> rg_booted rg = true ->
  let id := lo_SandboxID (rg_opts rg) in
  m_Stop (a_stop a) id force (sv_backend s) = (Ok tt, b1) -> m_Remove (a_remove a) id force b1 = (Ok tt, b2) ->
  a_audit a EventDestroyed = false ->
  Remove w a t force s = (Err (SAudit EventDestroyed), set_backend b2 (uncontrolled id s)).
Proof.
  intros H Hr Hbt id H1 H2 Ha. destruct (booted_at _ _ _ H Hr Hbt) as (l & Haw & Hl & Hid). fold id in Hid.
  unfold Remove. unfold mbind at 1, ST_bind at 1. rewrite Haw. cbn [fst].
  unfold mbind at 1, ST_bind at 1. rewrite (teardown_booted _ _ _ _ _ _ Hl Hbt), Hid by apply (ac_wired _ _ (so_active _ _ _ H)).
  unfold mbind, ST_bind, manager_Stop, manager_Remove, AppendSandboxEvent.
  cbn [sv_backend uncontrolled set_egress set_ports set_grants set_backend]. rewrite H1. cbn.
  rewrite H2. cbn. rewrite Ha. by destruct (SandboxEvent_Validate _).
Qed.

(** The registration of [t] cannot be removed: every removal, whatever the trail
    and the host answer, fails because the manager does not know [id]; meanwhile
    the task keeps its registrations [R], nothing of [id] runs, and a caller is
    told it does. *)
Definition stuck (t id : string) (rg : sandboxReg) s : Prop :=
  forall a force, exists s2, Remove w a t force s = (Err (SBackend (MNotFound id)), s2) /\
    regs s2 = regs s /\ id ∉ active s2 /\
    forall a' p, a_policy a' = Some p -> rg_dead rg = None -> EnsureRunning w a' t s2 = (Ok (rg_info rg), s2).

(** A teardown that could not be audited can never be completed. When the
    machine of a booted sandbox was stopped and removed and only then the trail
    refused the terminal event, the registration stays, and from then on every
    removal, whatever the trail and the host answer, fails because the manager no
    longer knows the sandbox; until the daemon restarts the task keeps its
    registration, and a caller is told a sandbox is running that is gone. *)
Theorem failed_teardown_sticks a t force s rg b1 b2 : reachable w s -> regs s !! t = Some rg -> rg_booted rg = true ->
  let id := lo_SandboxID (rg_opts rg) in
  m_Stop (a_stop a) id force (sv_backend s) = (Ok tt, b1) -> m_Remove (a_remove a) id force b1 = (Ok tt, b2) ->
  a_audit a EventDestroyed = false ->
  exists s1, Remove w a t force s = (Err (SAudit EventDestroyed), s1) /\ regs s1 = regs s /\ id ∉ active s1 /\ stuck t id rg s1.
Proof.
  intros H0 Hr Hbt id H1 H2 Ha. apply reachable_svc in H0.
  pose proof (Remove_unaudited _ _ _ _ _ _ _ H0 Hr Hbt H1 H2 Ha) as Hrem. fold id in Hrem.
  set (s1 := set_backend b2 (uncontrolled id s)) in *.
  pose proof (remove_step_ok _ _ _ _ _ _ _ _ H0 Hrem) as H3.
  assert (known b2 !! id = None) as Hk by (erewrite remove_known by exact H2; apply lookup_delete_eq).
  assert (id ∉ active s1) as Hn.
  { unfold active. cbn. rewrite !not_elem_of_union. split_and!; [|set_solver..].
    intros (i & Hi & _)%running_state; [congruence|]. apply H3. }
  exists s1. split_and!; [done|done|done|]. intros a' force'. eexists.
  split; [by apply (Remove_unknown (X := stranded w s) a' t force' s1 rg)|]. split_and!; [done| |].
  { revert Hn. unfold active. cbn. fold id. clear. set_solver. }
  intros a'' p Hp Hde. apply regs_lookup in Hr as (l & Hb & Hl).
  unfold EnsureRunning, mbind, ST_bind, EnsureRunning_claim. rewrite Hp.
  assert (forall s', sv_byTask s' = sv_byTask s -> sv_heap s' = sv_heap s -> lookup_task t s' = Some (l, rg)) as Hlook.
  { intros s' E1 E2. apply lookup_task_Some. by rewrite E1, E2. }
  rewrite Hlook, Hde, bool_decide_eq_false_2 by (done || by intros [? ?]). by rewrite Hbt.
Qed.
(** A registration without a machine: its teardown only writes. *)
Lemma teardown_unbooted a l ev force s rg : sv_heap s !! l = Some rg -> rg_booted rg = false ->
  let id := si_ID (rg_info rg) in
  teardownLocked w a l ev force s =
  (_ ← AppendSandboxEvent a (event id (si_TaskID (rg_info rg)) ev ""); dropPersisted w a id) s.
Proof. intros Hl Hbt id. unfold teardownLocked. by rewrite (deref_bind _ _ _ _ Hl), Hbt. Qed.

Lemma settled_resumed a l at_ ran s i s' : settleBoot w a l at_ ran s = (Ok i, s') ->
  exists e, sv_events s' = (sv_events s ++ [e])%list /\ ev_EventType e = EventResumed.
Proof.
  intros H. unfold settleBoot in H. apply outcome_bind in H as ([[]|e] & s1 & H1 & H).
  2: { by apply modify_bind, modify_bind in H. }
  apply M_bind_Ok in H as (r & s2 & H2 & H). apply modify_bind in H. injection H as _ <-. cbn.
  unfold deref in H2. destruct (sv_heap s1 !! l); [|done]. injection H2 as _ <-.
  destruct ran as [launched|e]; [|done]. unfold recordBootLocked in H1.
  apply M_bind_Ok in H1 as (r1 & s4 & H4 & H1). unfold deref in H4. destruct (sv_heap s !! l); [|done]. injection H4 as <- <-.
  apply outcome_bind in H1 as ([[]|e] & s4 & H4 & H1).
  2: { by apply outcome_bind in H1 as (? & ? & _ & [=]). }
  apply append_run in H4 as [(_ & -> & _)|((? & [=]) & _)].
  apply outcome_bind in H1 as ([[]|e] & s5 & H5 & H1).
  2: { by apply outcome_bind in H1 as (? & ? & _ & [=]). }
  apply registry_events in H5. injection H1 as <-. cbn. rewrite H5. by eexists.
Qed.

Lemma booted_resumed {X} a t s i s' : svc_ok w X s -> halts a -> EnsureRunning w a t s = (Ok i, s') ->
  (forall rg, regs s !! t = Some rg -> rg_booted rg = false /\ rg_boot rg = None) ->
  exists e, sv_events s' = (sv_events s ++ [e])%list /\ ev_EventType e = EventResumed.
Proof.
  intros H0 Hh H Hun. unfold EnsureRunning in H. apply M_bind_Ok in H as (c & s1 & Hc & H).
  pose proof (claim_ok _ _ _ _ _ _ _ H0 Hc) as H1. unfold EnsureRunning_claim in Hc.
  destruct (a_policy a) as [p|]; [|done]. destruct (lookup_task t s) as [[l rg]|] eqn:Hl; [|done].
  apply lookup_task_Some in Hl as [Hb Hl]. destruct (Hun rg) as [Hbt Hbo]; [apply regs_lookup; eauto|].
  case_bool_decide as Hde; [done|]. rewrite Hbt, Hbo in Hc. injection Hc as <- <-.
  fold (claimed l (applyPolicyDefaults (rg_opts rg) p) s) in *. set (s1 := claimed _ _ s) in *.
  unfold mbind at 1, ST_bind at 1, get at 1 in H.
  assert (sv_attempts s1 !! sv_next s = Some (mkAttempt l (applyPolicyDefaults (rg_opts rg) p) None None)) as Hat
    by (by cbn; rewrite lookup_insert_eq).
  rewrite Hat in H. cbn [ba_opts ba_reg] in H. apply outcome_bind in H as (ran & s2 & H2 & H). apply modify_bind in H.
  assert (reg_ok rg) as [Hid _].
  { eapply (wo_reg _ (so_working _ _ _ H0) t). apply regs_lookup. eauto. }
  apply runBoot_run in H2 as ((_ & _ & He) & _); [|done| |apply H1|apply H1].
  - apply settled_resumed in H as (e & He2 & Ht). exists e. split; [|done]. rewrite He2. cbn. by rewrite He.
  - done.
Qed.

(** Every boot of [t] from [s] writes a resumption at the end of the trail. *)
Definition resumes (t : string) s : Prop :=
  forall a i s2, halts a -> EnsureRunning w a t s = (Ok i, s2) -> exists e,
    sv_events s2 = (sv_events s ++ [e])%list /\ ev_EventType e = EventResumed.

(** A sandbox can be resumed after it was destroyed. When the removal of an
    un-booted sandbox gets its terminal event into the trail and then cannot drop
    the registry row, it fails with the registration as it was; a command that
    comes next boots that sandbox, and the trail has a resumption after the end. *)
Theorem ended_then_resumed a t force s rg : reachable w s -> regs s !! t = Some rg ->
  rg_booted rg = false -> rg_boot rg = None -> w_registry w = true -> a_db a = false ->
  let ended := event (lo_SandboxID (rg_opts rg)) t EventDestroyed "" in
  SandboxEvent_Validate ended = Ok tt -> a_audit a EventDestroyed = true ->
  exists s1, Remove w a t force s = (Err (SRegistry None), s1) /\ regs s1 = regs s /\
    sv_events s1 = (sv_events s ++ [ended])%list /\ terminal (ev_EventType ended) = true /\ resumes t s1.
Proof.
  intros H0 Hr Hbt Hbo Hw Hdb ended Hv Ha. apply reachable_svc in H0.
  pose proof (wo_reg _ (so_working _ _ _ H0) _ _ Hr) as Hok. pose proof (reg_id _ Hok) as Hid.
  pose proof (reg_task _ Hok) as Ht. rewrite (regs_task _ _ _ (so_working _ _ _ H0) Hr) in Ht.
  pose proof Hr as (l & Hb & Hl)%regs_lookup.
  set (s1 := set_events (sv_events s ++ [ended])%list s).
  assert (Remove w a t force s = (Err (SRegistry None), s1)) as Hrem.
  { unfold Remove, mbind at 1, ST_bind at 1. rewrite (await_idle _ _ _ _ Hb Hl Hbo). cbn [fst].
    unfold mbind at 1, ST_bind at 1. rewrite (teardown_unbooted _ _ _ _ _ _ Hl Hbt), Hid, Ht. fold ended.
    unfold mbind, ST_bind, AppendSandboxEvent. rewrite Hv. cbn [ev_EventType ended event]. rewrite Ha.
    unfold dropPersisted, registry. by rewrite Hw, Hdb. }
  exists s1. split_and!; [done|done|done|done|]. intros a' i s2 Hh Hen.
  apply (booted_resumed (X := stranded w s)) in Hen; [done|by eapply remove_step_ok|done|].
  - intros rg' Hr'. change (regs s1) with (regs s) in Hr'. by simplify_eq.
Qed.

(** A suspension: the manager keeps its record of the sandbox, and its grants live. *)
Lemma suspended_at a l s s' rg : sv_heap s !! l = Some rg -> wired w s -> suspendLocked w a l s = (Ok tt, s') ->
  is_Some (known (sv_backend s') !! si_ID (rg_info rg)) /\ sv_grants s' = sv_grants s /\
  sv_heap s' !! l = Some (set_info (with_state StateSuspended (rg_info rg)) (set_booted false rg)) /\
  sv_byTask s' = sv_byTask s.
Proof.
  intros Hl Hw H. unfold suspendLocked in H. rewrite (deref_bind _ _ _ _ Hl) in H. cbv zeta in H.
  set (id := si_ID (rg_info rg)) in *.
  rewrite StopPublish_bind, StopEgress_bind in H by (try apply wired_down; done).
  apply M_bind_Ok in H as ([] & s1 & H1 & H). apply M_bind_Ok in H as ([] & s2 & H2 & H).
  apply M_bind_Ok in H as ([] & s3 & H3 & H). injection H as <-.
  apply append_run in H2 as [(_ & -> & _)|((? & [=]) & _)].
  assert (s3 = set_roster (sv_roster s3) (set_events (sv_events s3) s1)) as ->.
  { by apply registry_run in H3 as [(_ & _ & ->)|((? & [=]) & _)]. }
  unfold manager_Stop in H1. cbn [sv_backend set_egress set_ports] in H1.
  destruct (m_Stop (a_stop a) id false (sv_backend s)) as [r b] eqn:E. injection H1 as Hr <-.
  destruct r as [[]|]; [|done].
  assert (is_Some (known b !! id)) as Hk.
  { apply elem_of_dom. pose proof (stop_known (a_stop a) id false (sv_backend s)) as Hd. rewrite E in Hd. cbn in Hd.
    rewrite Hd. apply elem_of_dom. destruct (known (sv_backend s) !! id) eqn:Hn; [done|].
    rewrite (stop_unknown _ _ _ _ Hn) in E. done. }
  split_and!; [done|done| |done]. cbn. by rewrite lookup_alter_eq, Hl.
Qed.

(** The manager still has a record of the machine, its grants are as in [s0]. *)
Definition left_over (id : string) s0 s : Prop :=
  is_Some (known (sv_backend s) !! id) /\ sv_grants s = sv_grants s0.

(** Removing a suspended sandbox removes nothing but its registration. After
    the idle sweep suspended a sandbox, a removal that succeeds leaves the manager
    with its record of the machine, and so whatever is kept with it, and leaves
    the sandbox's capability grants live. *)
Theorem suspended_removal_leaks now idle ans t s s1 a force s2 : reachable w s ->
  suspend_one w now idle ans t s = (Ok (Some t), s1) -> Remove w a t force s1 = (Ok tt, s2) ->
  exists rg, regs s !! t = Some rg /\ regs s2 !! t = None /\ left_over (lo_SandboxID (rg_opts rg)) s s2.
Proof.
  intros H0 Hs Hrem. apply reachable_svc in H0. pose proof (suspend_one_ok _ _ _ _ _ _ _ _ _ H0 Hs) as H1.
  unfold suspend_one in Hs. destruct (lookup_task t s) as [[l rg]|] eqn:Hl; [|done].
  apply lookup_task_Some in Hl as [Hb Hl]. destruct (rg_booted rg) eqn:Hbt; [|done]. cbn [negb orb] in Hs.
  destruct (_ <? idle); [done|]. apply M_bind_Ok in Hs as ([] & s1' & Hs & [= ->]).
  assert (regs s !! t = Some rg) as Hreg by (apply regs_lookup; eauto).
  pose proof (reg_id _ (wo_reg _ (so_working _ _ _ H0) _ _ Hreg)) as Hid.
  pose proof (booted_quiet _ _ _ _ _ _ H0 Hb Hl Hbt) as Hbo.
  destruct (suspended_at _ _ _ _ _ Hl (ac_wired _ _ (so_active _ _ _ H0)) Hs) as (Hk & Hg & Hh1 & Hb1).
  exists rg. unfold Remove in Hrem. apply M_bind_Ok in Hrem as ([l' r'] & s3 & Haw & Hrem).
  apply awaitBoot_run in Haw as [-> Haw]. destruct (Haw _ _ eq_refl) as (Hb' & Hl' & _). cbn [fst] in Hrem.
  rewrite Hb1 in Hb'. simplify_eq.
  apply M_bind_Ok in Hrem as ([] & s3 & Ht & [= <-]).
  rewrite (teardown_unbooted _ _ _ _ _ _ Hh1) in Ht by done.
  apply M_bind_Ok in Ht as ([] & s4 & Hap & Hd).
  assert (s4 = set_events (sv_events s4) s1) as E4.
  { by apply append_run in Hap as [(_ & -> & _)|((? & [=]) & _)]. }
  assert (s3 = set_roster (sv_roster s3) s4) as E3.
  { by apply registry_run in Hd as [(_ & _ & ->)|((? & [=]) & _)]. }
  split_and!; [done| |split].
  - rewrite regs_drop. apply lookup_delete_eq.
  - rewrite E3, E4. cbn. by rewrite <- Hid.
  - rewrite E3, E4. done.
Qed.
End Lapses.

(** ** Witnesses *)
Import MicrovmToy SandboxToy.
Definition unaudited : Answers Microvm.Host := answers (fun e => negb (String.eqb e EventDestroyed)) true.
Definition undropped : Answers Microvm.Host := answers (fun _ => true) false.
Lemma fst_is {X Y} (p : X * Y) x : p.1 = x -> p = (x, p.2).
Proof. destruct p. by intros <-. Qed.
Lemma toy_booted : exists rg, regs booted !! task = Some rg /\ rg_booted rg = true /\ lo_SandboxID (rg_opts rg) = id.
Proof. eexists. split; [vm_compute; reflexivity|]. by split. Qed.
Lemma toy_registered : exists rg, regs registered !! task = Some rg /\
  rg_booted rg = false /\ rg_boot rg = None /\ lo_SandboxID (rg_opts rg) = id.
Proof. eexists. split; [vm_compute; reflexivity|]. by split_and!. Qed.

Lemma failed_teardown_sticks_witness : exists e s1, Remove (SM := microvm_manager cf) wiring unaudited task false booted = (Err e, s1) /\
  exists s2, Remove (SM := microvm_manager cf) wiring fine task true s1 = (Err (SBackend (MNotFound id)), s2).
Proof.
  destruct toy_booted as (rg & Hr & Hb & Hi).
  assert (exists b1, m_Stop (SandboxManager := microvm_manager cf) vm id false (sv_backend booted) = (Ok tt, b1)) as [b1 H1]
    by (eexists; apply fst_is; vm_compute; reflexivity).
  assert (exists b2, m_Remove (SandboxManager := microvm_manager cf) vm id false b1 = (Ok tt, b2)) as [b2 H2].
  { apply (f_equal snd) in H1. cbn [snd] in H1. rewrite <- H1. eexists. apply fst_is. vm_compute. reflexivity. }
  rewrite <- Hi in H1, H2 |- *.
  destruct (failed_teardown_sticks (LW := microvm_laws cf) wiring unaudited task false booted rg b1 b2
    (toy_reached _ run_booted) Hr Hb H1 H2 eq_refl) as (s1 & Hrem & _ & _ & Hlater).
  destruct (Hlater fine true) as (s2 & Hs2 & _).
  exists (SAudit EventDestroyed), s1. split; [exact Hrem|]. exists s2. exact Hs2.
Defined.

Lemma ended_then_resumed_witness : exists s1, Remove (SM := microvm_manager cf) wiring undropped task false registered = (Err (SRegistry None), s1) /\
  exists i s2 e, EnsureRunning (SM := microvm_manager cf) wiring fine task s1 = (Ok i, s2) /\
    ev_EventType e = EventResumed /\ e ∈ sv_events s2.
Proof.
  destruct toy_registered as (rg & Hr & Hb & Hbo & Hi).
  assert (SandboxEvent_Validate (event (lo_SandboxID (rg_opts rg)) task EventDestroyed "") = Ok tt) as Hv
    by (rewrite Hi; vm_compute; reflexivity).
  destruct (ended_then_resumed (LW := microvm_laws cf) wiring undropped task false registered rg
    (toy_reached _ run_registered) Hr Hb Hbo eq_refl eq_refl Hv eq_refl) as (s1 & Hrem & _ & _ & _ & Hlater).
  exists s1. split; [exact Hrem|].
  assert (exists i s2, EnsureRunning (SM := microvm_manager cf) wiring fine task s1 = (Ok i, s2)) as (i & s2 & Hen).
  { apply (f_equal snd) in Hrem. cbn [snd] in Hrem. rewrite <- Hrem. eexists _, _. apply fst_is. vm_compute. reflexivity. }
  destruct (Hlater fine i s2 (halting _ _) Hen) as (e & He & Ht).
  exists i, s2, e. split; [exact Hen|]. split; [exact Ht|]. rewrite He. apply elem_of_app. right.
  apply list_elem_of_singleton. reflexivity.
Defined.

Lemma suspended_removal_leaks_witness : exists s1 s2,
  suspend_one (SM := microvm_manager cf) wiring 200 50 (fun _ => fine) task booted = (Ok (Some task), s1) /\
  Remove (SM := microvm_manager cf) wiring fine task true s1 = (Ok tt, s2) /\
  is_Some (known (ManagerLaws := microvm_laws cf) (sv_backend s2) !! id).
Proof.
  assert (exists s1, suspend_one (SM := microvm_manager cf) wiring 200 50 (fun _ => fine) task booted = (Ok (Some task), s1))
    as [s1 Hs] by (eexists; apply fst_is; vm_compute; reflexivity).
  assert (exists s2, Remove (SM := microvm_manager cf) wiring fine task true s1 = (Ok tt, s2)) as [s2 Hrem].
  { apply (f_equal snd) in Hs. cbn [snd] in Hs. rewrite <- Hs. eexists. apply fst_is. vm_compute. reflexivity. }
  exists s1, s2. split; [exact Hs|]. split; [exact Hrem|].
  destruct (suspended_removal_leaks (LW := microvm_laws cf) wiring 200 50 (fun _ => fine) task booted s1 fine true s2
    (toy_reached _ run_booted) Hs Hrem) as (rg & Hr & _ & Hk).
  destruct toy_booted as (rg' & Hr' & _ & <-). rewrite Hr in Hr'. injection Hr' as ->. exact (proj1 Hk).
Defined.
