(* ===== verification/Allowlist.v ===== *)
(** * The egress allowlist (src/internal/sandboxd/egress/allowlist.go)

    The compiled allowlist of one sandbox: name rules, IP rules, the entries
    they came from and the live grants. The
    theorems state what an entry list authorizes, entry by entry, and that a
    grant adds exactly one destination. *)

From Stdlib Require Import ZArith Lia Ascii String.
From stdpp Require Import base list strings gmap.
From S2P Require Import Prelude GoStrings Regex Netip.

Local Open Scope string_scope.
Local Open Scope list_scope.
Local Open Scope Z_scope.

Inductive allow_err : Type :=
  | EmptyEntry | InvalidCIDR | MatchAllWildcard | NotHostname | MalformedHostPort | InvalidPort
  | GrantInvalidIP | GrantInvalidPort.

Definition label_re : re :=
  RCat (RCls cls_lower_num)
    (ropt (RCat (RStar (RCls (fun a => cls_lower_num a || Ascii.eqb a "-"))) (RCls cls_lower_num))).
(** [^[a-z0-9]([a-z0-9-]*[a-z0-9])?(\.[a-z0-9]([a-z0-9-]*[a-z0-9])?)+$] *)
Definition hostnameRe : re := RCat label_re (rplus (RCat (rchar dot) label_re)).

Record nameRule := mkNameRule { exact : string; suffix : string; nr_port : Z; wildcard : bool }.
Record netRule := mkNetRule { prefix : Prefix; net_port : Z }.

Record Allowlist := mkAllowlist {
  names : list nameRule; nets : list netRule; source : list string; grants : gset (Addr * Z)
}.

Definition empty_allowlist : Allowlist := mkAllowlist [] [] [] ∅.

(** ** Live grants *)

Definition GrantIP (al : Allowlist) (ip : Addr) (port : Z) : res allow_err Allowlist :=
  _ ← err_if (negb (IsValid ip)) GrantInvalidIP;
  _ ← err_if ((port <? 1) || (65535 <? port)) GrantInvalidPort;
  Ok (mkAllowlist (names al) (nets al) (source al) ({[(Unmap ip, port)]} ∪ grants al)).

Definition RevokeGrants (al : Allowlist) : Allowlist :=
  mkAllowlist (names al) (nets al) (source al) ∅.

Definition isGranted (al : Allowlist) (ip : Addr) (port : Z) : bool :=
  bool_decide ((Unmap ip, port) ∈ grants al).

(** ** Compiling entries *)

Definition add_name_rule (al : Allowlist) (r : nameRule) : Allowlist :=
  mkAllowlist (names al ++ [r]) (nets al) (source al) (grants al).
Definition add_net_rule (al : Allowlist) (r : netRule) : Allowlist :=
  mkAllowlist (names al) (nets al ++ [r]) (source al) (grants al).

Definition splitOptionalPort (raw : string) : res allow_err (string * Z) :=
  let '(host, portStr, found) := cut colon raw in
  if negb found then Ok (raw, 0)
  else if contains colon portStr then Err MalformedHostPort
  else match atoi portStr with
       | Some port => if (port <? 1) || (65535 <? port) then Err InvalidPort else Ok (host, port)
       | None => Err InvalidPort
       end.

Definition addName (al : Allowlist) (host : string) (port : Z) : res allow_err Allowlist :=
  match cut_prefix "*." host with
  | Some suf =>
      if String.eqb suf "" || negb (re_match hostnameRe suf) then Err MatchAllWildcard
      else Ok (add_name_rule al (mkNameRule "" (String dot suf) port true))
  | None =>
      if negb (re_match hostnameRe host) then Err NotHostname
      else Ok (add_name_rule al (mkNameRule host "" port false))
  end.

Definition add (al : Allowlist) (raw : string) : res allow_err Allowlist :=
  if String.eqb raw "" then Err EmptyEntry
  else if contains slash raw then
    match ParsePrefix raw with
    | None => Err InvalidCIDR
    | Some p => Ok (add_net_rule al (mkNetRule (Masked p) 0))
    end
  else match ParseAddr raw with
  | Some ip => Ok (add_net_rule al (mkNetRule (PrefixFrom ip (BitLen ip)) 0))
  | None =>
      hp ← splitOptionalPort raw;
      let '(host, port) := hp in
      match ParseAddr host with
      | Some ip => Ok (add_net_rule al (mkNetRule (PrefixFrom ip (BitLen ip)) port))
      | None => addName al host port
      end
  end.

Fixpoint compile_loop (al : Allowlist) (entries : list string) : res allow_err Allowlist :=
  match entries with
  | [] => Ok al
  | raw :: entries => al ← add al raw; compile_loop al entries
  end.

Definition Compile (entries : list string) : res allow_err Allowlist :=
  al ← compile_loop empty_allowlist entries;
  Ok (mkAllowlist (names al) (nets al) entries (grants al)).

Definition Rules (al : Allowlist) : list string := source al.
Definition Entries (al : Allowlist) : nat := (length (names al) + length (nets al))%nat.

(** [SetRules] (livepolicy.go): the new rules are compiled first and swapped
    in whole; the live grants are dropped. *)
Definition SetRules (al : Allowlist) (entries : list string) : res allow_err Allowlist :=
  next ← Compile entries;
  Ok (mkAllowlist (names next) (nets next) (source next) ∅).

(** ** Decisions *)

Definition portOK (rulePort reqPort : Z) : bool := (rulePort =? 0) || (rulePort =? reqPort).

Definition matches (r : nameRule) (host : string) : bool :=
  if wildcard r then
    has_suffix (suffix r) host && (String.length (suffix r) <? String.length host)%nat
  else String.eqb host (exact r).

Definition norm_host (host : string) : string := to_lower (trim_suffix1 dot host).

Definition AllowsName (al : Allowlist) (host : string) (port : Z) : bool :=
  existsb (fun r => matches r (norm_host host) && portOK (nr_port r) port) (names al).

Definition HasName (al : Allowlist) (host : string) : bool :=
  existsb (fun r => matches r (norm_host host)) (names al).

Definition AllowsIP (al : Allowlist) (ip : Addr) (port : Z) : bool :=
  let ip := Unmap ip in
  if existsb (fun r => Contains (prefix r) ip && portOK (net_port r) port) (nets al) then true
  else isGranted al ip port.

Example comp1 : is_ok (Compile ["*"]) = false. Proof. vm_compute. reflexivity. Qed.
Example comp2 : is_ok (Compile ["*.golang.org:443"; "1.2.3.4:80"; "10.0.0.0/8"]) = true.
Proof. vm_compute. reflexivity. Qed.

(** ** What an entry authorizes *)

(** A hostname entry, with the port it is restricted to (0: any). *)
Definition entry_name (e host : string) (port : Z) : Prop :=
  contains slash e = false /\ ParseAddr e = None /\ splitOptionalPort e = Ok (host, port) /\
  ParseAddr host = None.

(** An address or range entry, with the port it is restricted to. *)
Definition entry_net (e : string) (p : Prefix) (port : Z) : Prop :=
  (contains slash e = true /\ port = 0 /\ exists q, ParsePrefix e = Some q /\ p = Masked q) \/
  (contains slash e = false /\ port = 0 /\ exists ip, ParseAddr e = Some ip /\ p = PrefixFrom ip (BitLen ip)) \/
  (contains slash e = false /\ ParseAddr e = None /\
   exists host ip, splitOptionalPort e = Ok (host, port) /\ ParseAddr host = Some ip /\
     p = PrefixFrom ip (BitLen ip)).

(** The pattern [*.suffix] covers the proper subdomains; a name, itself. *)
Definition name_covers (pat host : string) : Prop :=
  host = pat \/ exists suf pre, pat = "*." +:+ suf /\ pre <> "" /\ host = pre +:+ "." +:+ suf.

Lemma has_suffix_app p s : has_suffix p s = true <-> exists b, s = b +:+ p.
Proof.
  unfold has_suffix. rewrite andb_true_iff, Nat.leb_le, String.eqb_eq. split.
  - intros [Hl He]. exists (String.substring 0 (String.length s - String.length p) s).
    rewrite <- He at 2. clear He. remember (String.length s - String.length p)%nat as n eqn:Hn.
    assert (String.length p = (String.length s - n)%nat) as -> by lia.
    assert (n <= String.length s)%nat as Hns by lia. clear Hl Hn p.
    revert n Hns. induction s as [|a s IH]; intros [|n] Hns; cbn in *; try lia; try done.
    + rewrite app_nil. f_equal. clear. induction s as [|a s IH]; [done|]. cbn. by rewrite <- IH.
    + rewrite app_cons. f_equal. apply IH. lia.
  - intros [b ->]. rewrite length_sapp. split; [lia|].
    replace (String.length b + String.length p - String.length p)%nat with (String.length b) by lia.
    induction b as [|a b IH]; [|rewrite app_cons; cbn; apply IH].
    rewrite app_nil. cbn. induction p as [|a p IH]; [done|]. cbn. by rewrite IH.
Qed.

Lemma cut_prefix_Some p s r : cut_prefix p s = Some r <-> s = p +:+ r.
Proof.
  revert s. induction p as [|a p IH]; intros s; cbn.
  - rewrite app_nil. naive_solver.
  - rewrite app_cons. destruct s as [|b s]; [naive_solver|].
    destruct (Ascii.eqb_spec a b) as [->|]; [rewrite IH; naive_solver|naive_solver].
Qed.

Lemma hostname_head s : re_match hostnameRe s = true -> exists a r, s = String a r /\ a <> "*"%char.
Proof.
  intros H. pose proof (re_match_no_char "*" hostnameRe s ltac:(by vm_compute) H) as Hs.
  destruct s as [|a r]; [by vm_compute in H|]. exists a, r. split; [done|]. intros ->. done.
Qed.

Lemma entry_name_fun e h1 q1 h2 q2 : entry_name e h1 q1 -> entry_name e h2 q2 -> h1 = h2 /\ q1 = q2.
Proof. unfold entry_name. intros (_ & _ & H1 & _) (_ & _ & H2 & _). rewrite H1 in H2. by simplify_eq. Qed.

Lemma entry_net_fun e p1 q1 p2 q2 : entry_net e p1 q1 -> entry_net e p2 q2 -> p1 = p2 /\ q1 = q2.
Proof.
  unfold entry_net.
  intros [(?&?&?&?&?)|[(?&?&?&?&?)|(?&?&?&?&?&?&?)]] [(?&?&?&?&?)|[(?&?&?&?&?)|(?&?&?&?&?&?&?)]];
    split; congruence.
Qed.

Lemma entry_name_net e h q p q' : entry_name e h q -> entry_net e p q' -> False.
Proof.
  unfold entry_name, entry_net.
  intros (?&?&?&?) [(?&?&?&?&?)|[(?&?&?&?&?)|(?&?&?&?&?&?&?)]]; congruence.
Qed.

Lemma sapp_inj_l a b c : a +:+ b = a +:+ c -> b = c.
Proof. induction a as [|x a IH]; [by rewrite !app_nil|]. rewrite !app_cons. intros [=]. auto. Qed.

(** The rule [addName] makes of a hostname pattern. *)
Lemma addName_rule al pat port al' :
  addName al pat port = Ok al' ->
  exists r, al' = add_name_rule al r /\ nr_port r = port /\
    forall h, matches r h = true <-> name_covers pat h.
Proof.
  unfold addName. destruct (cut_prefix "*." pat) as [suf|] eqn:E.
  - apply cut_prefix_Some in E as ->.
    destruct (String.eqb suf "" || negb (re_match hostnameRe suf)) eqn:Eb; [done|].
    intros [= <-]. eexists. split; [done|]. split; [done|]. intros h. unfold matches. cbn [wildcard suffix].
    rewrite andb_true_iff, has_suffix_app, Nat.ltb_lt. split.
    + intros [[b ->] Hl]. rewrite length_sapp in Hl. right. exists suf, b. split_and!; [done| |done].
      intros ->. cbn in Hl. lia.
    + intros [->|(suf' & pre & Hs & Hne & ->)].
      * split; [by exists "*"|]. rewrite length_sapp. cbn. lia.
      * apply sapp_inj_l in Hs as <-. split; [by exists pre|]. rewrite length_sapp. change ("." +:+ suf) with (String dot suf).
        destruct pre; [done|]. cbn [String.length]. lia.
  - destruct (re_match hostnameRe pat); [|done]. intros [= <-]. eexists. split; [done|]. split; [done|].
    intros h. unfold matches, name_covers. cbn [wildcard exact]. rewrite String.eqb_eq.
    split; [by left|]. intros [?|(suf & pre & -> & _)]; [done|].
    enough (cut_prefix "*." ("*." +:+ suf) = Some suf) by congruence. by apply cut_prefix_Some.
Qed.

(** What adding one entry does. *)
Lemma add_effect al raw al' :
  add al raw = Ok al' ->
  (exists pat q r, entry_name raw pat q /\ al' = add_name_rule al r /\ nr_port r = q /\
     forall h, matches r h = true <-> name_covers pat h) \/
  (exists p q, entry_net raw p q /\ al' = add_net_rule al (mkNetRule p q)).
Proof.
  unfold add. destruct (String.eqb raw ""); [done|].
  destruct (contains slash raw) eqn:Es.
  { destruct (ParsePrefix raw) as [p|] eqn:Ep; [|done]. intros [= <-]. right.
    exists (Masked p), 0. split; [|done]. left. eauto. }
  destruct (ParseAddr raw) as [ip|] eqn:Ea.
  { intros [= <-]. right. eexists _, 0. split; [|done]. right; left. eauto. }
  intros ([host port] & Hsp & H)%bind_Ok.
  destruct (ParseAddr host) as [ip|] eqn:Eh.
  - injection H as <-. right. eexists _, port. split; [|done]. right; right. eauto 10.
  - apply addName_rule in H as (r & -> & Hp & Hm). left. exists host, port, r. done.
Qed.

Lemma compile_loop_names al es al' :
  compile_loop al es = Ok al' ->
  forall h p, existsb (fun r => matches r h && portOK (nr_port r) p) (names al') = true <->
  existsb (fun r => matches r h && portOK (nr_port r) p) (names al) = true \/
  exists e pat q, e ∈ es /\ entry_name e pat q /\ name_covers pat h /\ portOK q p = true.
Proof.
  revert al. induction es as [|e es IH]; intros al H h p; cbn in H.
  { simplify_eq. split; [by left|]. intros [?|(e & pat & q & He & _)]; [done|].
    by apply elem_of_nil in He. }
  apply bind_Ok in H as (al1 & H1 & H2). rewrite (IH _ H2). clear IH H2.
  setoid_rewrite elem_of_cons. apply add_effect in H1 as [(pat & q & r & He & -> & Hq & Hm)|(pf & q & He & ->)]; cbn [names add_name_rule add_net_rule].
  - rewrite existsb_app, orb_true_iff. cbn [existsb]. rewrite orb_false_r, andb_true_iff, Hm, Hq. split.
    + intros [[?|?]|?]; [by left|right; exists e, pat, q; tauto|right; naive_solver].
    + intros [?|(e' & pat' & q' & [->|?] & He' & ?)]; [tauto| |right; naive_solver].
      destruct (entry_name_fun _ _ _ _ _ He He') as [<- <-]. tauto.
  - split; [naive_solver|].
    intros [?|(e' & pat' & q' & [->|?] & He' & ?)]; [tauto| |right; naive_solver].
    by destruct (entry_name_net _ _ _ _ _ He' He).
Qed.

Lemma compile_loop_nets al es al' :
  compile_loop al es = Ok al' ->
  forall ip p, existsb (fun r => Contains (prefix r) ip && portOK (net_port r) p) (nets al') = true <->
  existsb (fun r => Contains (prefix r) ip && portOK (net_port r) p) (nets al) = true \/
  exists e pf q, e ∈ es /\ entry_net e pf q /\ Contains pf ip = true /\ portOK q p = true.
Proof.
  revert al. induction es as [|e es IH]; intros al H ip p; cbn in H.
  { simplify_eq. split; [by left|]. intros [?|(e & pf & q & He & _)]; [done|].
    by apply elem_of_nil in He. }
  apply bind_Ok in H as (al1 & H1 & H2). rewrite (IH _ H2). clear IH H2.
  setoid_rewrite elem_of_cons. apply add_effect in H1 as [(pat & q & r & He & -> & Hq & Hm)|(pf & q & He & ->)]; cbn [nets add_name_rule add_net_rule].
  - split; [naive_solver|].
    intros [?|(e' & pf' & q' & [->|?] & He' & ?)]; [tauto| |right; naive_solver].
    by destruct (entry_name_net _ _ _ _ _ He He').
  - rewrite existsb_app, orb_true_iff. cbn [existsb prefix net_port].
    rewrite orb_false_r, andb_true_iff. split.
    + intros [[?|?]|?]; [by left|right; exists e, pf, q; tauto|right; naive_solver].
    + intros [?|(e' & pf' & q' & [->|?] & He' & ?)]; [tauto| |right; naive_solver].
      destruct (entry_net_fun _ _ _ _ _ He He') as [<- <-]. tauto.
Qed.

Lemma compile_loop_grants al es al' : compile_loop al es = Ok al' -> grants al' = grants al.
Proof.
  revert al. induction es as [|e es IH]; intros al H; cbn in H; [by simplify_eq|].
  apply bind_Ok in H as (al1 & H1 & H2). rewrite (IH _ H2).
  by apply add_effect in H1 as [(? & ? & ? & _ & -> & _)|(? & ? & _ & ->)].
Qed.

Lemma portOK_iff q p : portOK q p = true <-> q = 0 \/ q = p.
Proof. unfold portOK. by rewrite orb_true_iff, !Z.eqb_eq. Qed.

(** A compiled allowlist authorizes a host on a port exactly when
    some entry is a hostname pattern covering the host, lowered and without
    its trailing dot, with no port or that port. *)
Theorem Compile_AllowsName es al host port :
  Compile es = Ok al ->
  AllowsName al host port = true <->
  exists e pat q, e ∈ es /\ entry_name e pat q /\ name_covers pat (norm_host host) /\ (q = 0 \/ q = port).
Proof.
  intros (al1 & H1 & [= <-])%bind_Ok. unfold AllowsName. cbn [names].
  rewrite (compile_loop_names _ _ _ H1). setoid_rewrite portOK_iff. cbn. naive_solver.
Qed.

Lemma Compile_AllowsName_witness :
  exists al, Compile ["*.golang.org:443"] = Ok al /\ AllowsName al "Proxy.Golang.org." 443 = true /\
    AllowsName al "golang.org" 443 = false.
Proof.
  eexists. split; [vm_compute; reflexivity|]. split.
  - refine (proj2 (Compile_AllowsName ["*.golang.org:443"] _ _ _ _) _); [vm_compute; reflexivity|].
    exists "*.golang.org:443", "*.golang.org", 443. split; [left|]. split.
    + unfold entry_name. split_and!; vm_compute; reflexivity.
    + split; [|by right]. right. exists "golang.org", "proxy". split_and!; [reflexivity|discriminate|].
      vm_compute. reflexivity.
  - vm_compute. reflexivity.
Defined.

(** A compiled allowlist with no grants authorizes an address on a
    port exactly when some entry is an address or range containing it,
    unmapped, with no port or that port. *)
Theorem Compile_AllowsIP es al ip port :
  Compile es = Ok al ->
  AllowsIP al ip port = true <->
  exists e p q, e ∈ es /\ entry_net e p q /\ Contains p (Unmap ip) = true /\ (q = 0 \/ q = port).
Proof.
  intros (al1 & H1 & [= <-])%bind_Ok. unfold AllowsIP, isGranted. cbn [nets grants].
  rewrite (compile_loop_grants _ _ _ H1). cbn [grants empty_allowlist].
  rewrite bool_decide_eq_false_2 by set_solver.
  pose proof (compile_loop_nets _ _ _ H1 (Unmap ip) port) as Hn.
  setoid_rewrite portOK_iff in Hn. cbn [nets empty_allowlist existsb] in Hn.
  destruct (existsb _ _); naive_solver.
Qed.

Lemma Compile_AllowsIP_witness :
  exists al, Compile ["1.2.3.0/24"] = Ok al /\ AllowsIP al (ip4 1 2 3 77) 22 = true.
Proof.
  eexists. split; [vm_compute; reflexivity|].
  refine (proj2 (Compile_AllowsIP ["1.2.3.0/24"] _ _ _ _) _); [vm_compute; reflexivity|].
  exists "1.2.3.0/24", (mkPrefix (ip4 1 2 3 0) 24), 0. split; [left|]. split.
  - left. split_and!; [reflexivity..|]. eexists. split; vm_compute; reflexivity.
  - split; [vm_compute; reflexivity|by left].
Defined.

(** ** Live changes *)

(** A live grant admits exactly the one address and port it
    names, an address and its IPv4-mapped form being the same destination: no
    other address decision changes, no name decision changes, and dropping the
    grants drops it. *)
Theorem GrantIP_exact al ip port al' :
  GrantIP al ip port = Ok al' ->
  (forall x p, AllowsIP al' x p = AllowsIP al x p || bool_decide (Unmap x = Unmap ip /\ p = port)) /\
  (forall h p, AllowsName al' h p = AllowsName al h p) /\
  (forall x p, AllowsIP (RevokeGrants al') x p = AllowsIP (RevokeGrants al) x p) /\
  1 <= port <= 65535 /\ IsValid ip = true.
Proof.
  unfold GrantIP. intros H. inv_res. bool_to_prop. split_and!; try done; try lia.
  - intros x p. unfold AllowsIP, isGranted. cbn [nets grants]. rewrite Unmap_idem.
    destruct (existsb _ _); [done|]. apply eq_true_iff_eq.
    rewrite orb_true_iff, !bool_decide_eq_true, elem_of_union, elem_of_singleton, pair_equal_spec.
    tauto.
Qed.

Lemma GrantIP_exact_witness :
  exists al', GrantIP empty_allowlist (ip4 9 9 9 9) 443 = Ok al' /\
    AllowsIP al' (ip4 9 9 9 9) 443 = true /\ AllowsIP al' (ip4 9 9 9 9) 80 = false.
Proof.
  eexists. split; [vm_compute; reflexivity|].
  destruct (GrantIP_exact empty_allowlist (ip4 9 9 9 9) 443 _ eq_refl) as [H _].
  split; (etransitivity; [apply H|vm_compute; reflexivity]).
Defined.

(** Replacing the rules of a running sandbox is compiling them
    afresh: nothing of the old rules or grants survives, and a list that does
    not compile changes nothing. *)
Theorem SetRules_fresh al es :
  SetRules al es = Compile es /\ forall al', SetRules al es = Ok al' -> grants al' = ∅ /\ source al' = es.
Proof.
  assert (SetRules al es = Compile es) as Heq.
  { unfold SetRules. destruct (Compile es) as [al'|e] eqn:E; [|done]. cbn. f_equal.
    apply bind_Ok in E as (al1 & H1 & [= <-]). cbn.
    by rewrite (compile_loop_grants _ _ _ H1). }
  split; [done|]. rewrite Heq. intros al' (al1 & H1 & [= <-])%bind_Ok. cbn.
  by rewrite (compile_loop_grants _ _ _ H1).
Qed.

Lemma SetRules_fresh_witness :
  exists al', SetRules empty_allowlist ["a.example.com"] = Ok al' /\ source al' = ["a.example.com"].
Proof.
  eexists. split; [vm_compute; reflexivity|].
  refine (proj2 (proj2 (SetRules_fresh empty_allowlist ["a.example.com"]) _ _)).
  vm_compute. reflexivity.
Defined.

(** The empty policy opens nothing. *)
Lemma Compile_nil : Compile [] = Ok empty_allowlist.
Proof. done. Qed.
