(* ===== verification/Egress.v ===== *)
(** * The egress engine of one sandbox
    (src/internal/sandboxd/egress: resolver.go, authorizer.go, openauthorizer.go)

    The state an allowlist-mode sandbox's flows are decided against: the live
    allowlist, the resolver's window counters and pins, the audit log and the
    denials handed to the escalation observer. Each operation is the whole
    method; what the host's DNS answered and what the clock read are arguments
    of the operation that consults them. [op] is the alphabet of the engine:
    a guest flow, a guest DNS query, a live grant, a revocation, a live policy
    change. *)

From Stdlib Require Import ZArith Lia Ascii String.
From stdpp Require Import base list strings gmap.
From S2P Require Import Prelude GoStrings Netip IpClass SandboxModel Allowlist.

Local Open Scope string_scope.
Local Open Scope list_scope.
Local Open Scope Z_scope.

(** What [Lookup] returned: addresses, [ErrNXDOMAIN], or another failure. *)
Inductive lookup_answer := Found (ips : list Addr) | NXDomain | LookupFailed.

Inductive resolve_err := ErrNameNotAllowlisted | ErrRateLimited | ErrLookup.

Record ResolverState := mkResolver {
  windowStart : time; queryCount : Z; nxCount : Z; nxFlagged : bool; pins : gmap string (list Addr)
}.

Record Config := mkConfig {
  SandboxID : string; TaskID_ : string; ResolveAny : bool; maxQPW : Z; window : Z; nxCap : Z
}.

Definition orDefault (v def : Z) : Z := if 0 <? v then v else def.

(** The tuning [NewResolver] settles on. *)
Definition NewConfig (sb task : string) (any : bool) (maxq win nx : Z) : Config :=
  mkConfig sb task any (orDefault maxq 60) (if win <=? 0 then minute_ns else win) (orDefault nx 10).

Record Engine := mkEngine {
  allow : Allowlist; rstate : ResolverState; log : list EgressRecord; escalated : list ObservedDenial
}.

Definition NewResolverState : ResolverState := mkResolver 0 0 0 false ∅.
Definition NewEngine (al : Allowlist) : Engine := mkEngine al NewResolverState [] [].

Definition set_rstate (e : Engine) (r : ResolverState) : Engine :=
  mkEngine (allow e) r (log e) (escalated e).
Definition set_allow (e : Engine) (al : Allowlist) : Engine :=
  mkEngine al (rstate e) (log e) (escalated e).
Definition add_log (e : Engine) (r : EgressRecord) : Engine :=
  mkEngine (allow e) (rstate e) (log e ++ [r]) (escalated e).
Definition escalate (e : Engine) (d : ObservedDenial) : Engine :=
  mkEngine (allow e) (rstate e) (log e) (escalated e ++ [d]).

Section Engine.
Context (cfg : Config).

(** ** Resolver *)

Definition dns_audit (e : Engine) (decision name rule : string) : Engine :=
  add_log e (mkEgressRecord (SandboxID cfg) (TaskID_ cfg) decision "dns"
               (TruncateDestHost name) "" 0 rule).

(** [admit_query]: the fixed-window rate cap, rolling the window on the clock. *)
Definition admit_query (r : ResolverState) (now : time) : ResolverState * bool :=
  let r :=
    if (windowStart r =? 0) || (window cfg <=? time_sub now (windowStart r))
    then mkResolver now 0 0 false (pins r) else r in
  if maxQPW cfg <=? queryCount r then (r, false)
  else (mkResolver (windowStart r) (queryCount r + 1) (nxCount r) (nxFlagged r) (pins r), true).

Definition recordNXDOMAIN (r : ResolverState) : ResolverState * bool :=
  let n := nxCount r + 1 in
  if (nxCap cfg <=? n) && negb (nxFlagged r)
  then (mkResolver (windowStart r) (queryCount r) n true (pins r), true)
  else (mkResolver (windowStart r) (queryCount r) n (nxFlagged r) (pins r), false).

Definition pin (r : ResolverState) (name : string) (ips : list Addr) : ResolverState :=
  mkResolver (windowStart r) (queryCount r) (nxCount r) (nxFlagged r) (<[name := ips]> (pins r)).

Definition filterDeniedIPs (ips : list Addr) : list Addr := List.filter (fun ip => negb (denied ip)) ips.

Definition Pinned (r : ResolverState) (name : string) : option (list Addr) := pins r !! name.

Definition IsPinned (r : ResolverState) (ip : Addr) : bool :=
  existsb (fun p : string * list Addr => bool_decide (ip ∈ p.2)) (map_to_list (pins r)).

Definition Resolve (e : Engine) (now : time) (ans : lookup_answer) (name : string)
    : Engine * res resolve_err (list Addr) :=
  if negb (ResolveAny cfg) && negb (HasName (allow e) name) then
    (dns_audit e EgressDeny name "dns: name not allowlisted", Err ErrNameNotAllowlisted)
  else
    let '(r, ok) := admit_query (rstate e) now in
    let e := set_rstate e r in
    if negb ok then (dns_audit e EgressDeny name "dns: rate limit exceeded", Err ErrRateLimited)
    else match ans with
    | Found ips =>
        let allowed := filterDeniedIPs ips in
        let e := set_rstate e (pin (rstate e) name allowed) in
        (dns_audit e EgressAllow name "dns: resolved (pinned)", Ok allowed)
    | NXDomain =>
        let '(r, flag) := recordNXDOMAIN (rstate e) in
        let e := set_rstate e r in
        let e := if flag then dns_audit e EgressDeny name "dns: nxdomain_burst flagged" else e in
        (dns_audit e EgressDeny name "dns: lookup failed", Err ErrLookup)
    | LookupFailed => (dns_audit e EgressDeny name "dns: lookup failed", Err ErrLookup)
    end.

(** ** Authorizer *)

Record Flow := mkFlow { Protocol : string; Host : string; Port : Z }.

(** [Allow = false] is the decision returned with [ErrEgressDenied]. *)
Record Decision := mkDecision { Allow : bool; DestIP : Addr; Rule : string }.

Definition tcp_audit (e : Engine) (decision : string) (f : Flow) (ip : Addr) (rule : string) : Engine :=
  add_log e (mkEgressRecord (SandboxID cfg) (TaskID_ cfg) decision "tcp"
               (TruncateDestHost (Host f)) (if IsValid ip then addr_string ip else "")
               (Port f) rule).

Definition allow_flow (e : Engine) (f : Flow) (ip : Addr) (rule : string) : Engine * Decision :=
  (tcp_audit e EgressAllow f ip rule, mkDecision true ip rule).

Definition deny_flow (e : Engine) (f : Flow) (ip : Addr) (rule : string) : Engine * Decision :=
  let e := tcp_audit e EgressDeny f ip rule in
  let e := if IsValid ip
           then escalate e (mkDenial (SandboxID cfg) (TaskID_ cfg) ip (Port f) rule) else e in
  (e, mkDecision false AInvalid rule).

Definition authorizeRawIP (e : Engine) (f : Flow) (ip : Addr) : Engine * Decision :=
  match IsUnconditionallyDenied ip with
  | Some reason => deny_flow e f ip ("denied range: " +:+ deny_reason_string reason)
  | None =>
      if AllowsIP (allow e) ip (Port f) then allow_flow e f ip "ip allowlisted"
      else if IsPinned (rstate e) ip then
        allow_flow e f ip "pinned by a prior allowlisted resolution"
      else deny_flow e f ip "raw-ip not allowlisted (host-side DNS bypassed)"
  end.

(** The first resolved address that is not denied, unmapped. *)
Definition first_usable (ips : list Addr) : option Addr :=
  find (fun ip => negb (denied ip)) (map Unmap ips).

Definition authorizeName (e : Engine) (now : time) (ans : lookup_answer) (f : Flow)
    : Engine * Decision :=
  if negb (AllowsName (allow e) (Host f) (Port f)) then
    deny_flow e f AInvalid "name/port not allowlisted"
  else match Resolve e now ans (Host f) with
  | (e, Err _) => deny_flow e f AInvalid "name resolution refused"
  | (e, Ok ips) =>
      match first_usable ips with
      | Some ip => allow_flow e f ip "name allowlisted (pinned)"
      | None => deny_flow e f AInvalid "name resolved only to denied ranges (rebind)"
      end
  end.

Definition Authorize (e : Engine) (now : time) (ans : lookup_answer) (f : Flow)
    : Engine * Decision :=
  if (Port f <? 1) || (65535 <? Port f) then deny_flow e f AInvalid "invalid port"
  else if negb (String.eqb (Protocol f) "tcp") then
    deny_flow e f AInvalid "non-tcp blocked (quic/udp have no egress path)"
  else match ParseAddr (Host f) with
  | Some ip => authorizeRawIP e f (Unmap ip)
  | None => authorizeName e now ans f
  end.

(** ** Open mode (openauthorizer.go) *)
Definition Open_deny (e : Engine) (f : Flow) (rule : string) : Engine * Decision :=
  (tcp_audit e EgressDeny f AInvalid rule, mkDecision false AInvalid rule).

Definition Open_Authorize (e : Engine) (f : Flow) : Engine * Decision :=
  if (Port f <? 1) || (65535 <? Port f) then Open_deny e f "invalid port"
  else if negb (String.eqb (Protocol f) "tcp") then
    Open_deny e f "non-tcp blocked (quic/udp have no egress path)"
  else match ParseAddr (Host f) with
  | None => Open_deny e f "open mode connects by address; no host-side resolution"
  | Some ip => allow_flow e f (Unmap ip) "open mode: unrestricted egress"
  end.

(** ** The engine's operations *)
Inductive op : Type :=
  | OpFlow (now : time) (ans : lookup_answer) (f : Flow)
  | OpDNS (now : time) (ans : lookup_answer) (name : string)
  | OpGrant (ip : Addr) (port : Z)
  | OpRevokeGrants
  | OpSetRules (entries : list string).

Definition step (e : Engine) (o : op) : Engine :=
  match o with
  | OpFlow now ans f => fst (Authorize e now ans f)
  | OpDNS now ans name => fst (Resolve e now ans name)
  | OpGrant ip port =>
      match GrantIP (allow e) ip port with Ok al => set_allow e al | Err _ => e end
  | OpRevokeGrants => set_allow e (RevokeGrants (allow e))
  | OpSetRules es =>
      match SetRules (allow e) es with Ok al => set_allow e al | Err _ => e end
  end.

Definition run (e : Engine) (os : list op) : Engine := fold_left step os e.
End Engine.

(** ** Lemmas *)

Lemma denied_false ip : denied ip = false <-> IsUnconditionallyDenied ip = None.
Proof. unfold denied. rewrite bool_decide_eq_false. destruct (IsUnconditionallyDenied ip); naive_solver. Qed.

Lemma IsPinned_true r ip :
  IsPinned r ip = true <-> exists name ips, pins r !! name = Some ips /\ ip ∈ ips.
Proof.
  unfold IsPinned. rewrite existsb_true_elem. split.
  - intros ([n ips] & Hm%elem_of_map_to_list & Hi%bool_decide_eq_true). eauto.
  - intros (n & ips & Hm%elem_of_map_to_list & Hi). exists (n, ips). by rewrite bool_decide_eq_true.
Qed.

Lemma filterDeniedIPs_elem l ip : ip ∈ filterDeniedIPs l <-> ip ∈ l /\ denied ip = false.
Proof.
  unfold filterDeniedIPs. rewrite !list_elem_of_In, filter_In. by rewrite negb_true_iff.
Qed.

Section EngineLemmas.
Context (cfg : Config).

Lemma admit_pins r now : pins (fst (admit_query cfg r now)) = pins r.
Proof.
  unfold admit_query. destruct (_ || _); destruct (_ <=? _); done.
Qed.

(** The pins a query leaves: unchanged, or the filtered answer for the name. *)
Lemma Resolve_pins e now ans name :
  let e' := fst (Resolve cfg e now ans name) in
  allow e' = allow e /\ escalated e' = escalated e /\
  (pins (rstate e') = pins (rstate e) \/
   exists l, ans = Found l /\ (ResolveAny cfg = true \/ HasName (allow e) name = true) /\
     pins (rstate e') = <[name := filterDeniedIPs l]> (pins (rstate e))).
Proof.
  unfold Resolve. destruct (ResolveAny cfg) eqn:Ea, (HasName (allow e) name) eqn:Eh;
    cbn [negb andb]; try (by (split_and!; [..|left])).
  all: pose proof (admit_pins (rstate e) now) as Hp;
    destruct (admit_query cfg (rstate e) now) as [r ok]; cbn [fst] in Hp;
    destruct ok; cbn [negb]; [|by (split_and!; [..|left])];
    destruct ans as [l| |]; cbn; [|destruct (recordNXDOMAIN cfg r) as [r' fl] eqn:En|].
  all: try (split_and!; [done..|]; try (by left); right; exists l; rewrite Hp; by eauto).
  all: unfold recordNXDOMAIN in En; destruct (_ && _) in En; simplify_eq; by (split_and!; [..|left]).
Qed.

Lemma Resolve_Ok e now ans name ips :
  snd (Resolve cfg e now ans name) = Ok ips ->
  exists l, ans = Found l /\ ips = filterDeniedIPs l /\
    (ResolveAny cfg = true \/ HasName (allow e) name = true) /\
    snd (admit_query cfg (rstate e) now) = true.
Proof.
  unfold Resolve. destruct (ResolveAny cfg) eqn:Ea, (HasName (allow e) name) eqn:Eh;
    cbn [negb andb]; try done.
  all: destruct (admit_query cfg (rstate e) now) as [r [|]]; cbn; try done;
    destruct ans as [l| |]; cbn; try done; [|by destruct (recordNXDOMAIN cfg r) as [r' []]].
  all: intros [= <-]; by eauto 10.
Qed.

Lemma deny_flow_state e f ip rule :
  let e' := fst (deny_flow cfg e f ip rule) in
  allow e' = allow e /\ rstate e' = rstate e /\ Allow (snd (deny_flow cfg e f ip rule)) = false.
Proof. unfold deny_flow. by destruct (IsValid ip). Qed.

Lemma first_usable_Some l ip :
  first_usable l = Some ip -> denied ip = false /\ exists a, a ∈ l /\ ip = Unmap a.
Proof.
  unfold first_usable. intros [Hin Hd]%find_some. apply negb_true_iff in Hd.
  apply in_map_iff in Hin as (a & <- & Ha%list_elem_of_In). eauto.
Qed.

(** Why a flow to [ip] is let through. *)
Definition flow_permitted (e : Engine) (now : time) (ans : lookup_answer) (f : Flow) (ip : Addr) : Prop :=
  1 <= Port f <= 65535 /\ Protocol f = "tcp" /\ denied ip = false /\
  ((exists a, ParseAddr (Host f) = Some a /\ ip = Unmap a /\
      (AllowsIP (allow e) ip (Port f) = true \/ IsPinned (rstate e) ip = true)) \/
   (ParseAddr (Host f) = None /\ AllowsName (allow e) (Host f) (Port f) = true /\
    exists ips, snd (Resolve cfg e now ans (Host f)) = Ok ips /\ first_usable ips = Some ip)).

(** C29. A flow is allowed, to one destination, exactly when it is TCP on
    a real port and its destination is not denied and either the guest named
    an address that an entry, a grant or a pin admits, or it named a host the
    allowlist covers on that port and the host's own resolution yields the
    destination. *)
Theorem Authorize_allow_iff e now ans f ip :
  (exists rule, snd (Authorize cfg e now ans f) = mkDecision true ip rule) <->
  flow_permitted e now ans f ip.
Proof.
  unfold Authorize, flow_permitted.
  assert (forall ip' rule d, snd (deny_flow cfg e f ip' rule) = d -> Allow d = false) as Hd.
  { intros ip' rule d <-. apply deny_flow_state. }
  destruct ((Port f <? 1) || (65535 <? Port f)) eqn:Ep.
  { split; [intros [r Hr]; by apply Hd in Hr|]. intros (? & _). bool_to_prop. lia. }
  destruct (String.eqb_spec (Protocol f) "tcp") as [Et|]; cbn [negb].
  2:{ split; [intros [r Hr]; by apply Hd in Hr|tauto]. }
  bool_to_prop. destruct (ParseAddr (Host f)) as [a|] eqn:Ea.
  - unfold authorizeRawIP. destruct (IsUnconditionallyDenied (Unmap a)) eqn:Eu.
    { split; [intros [r Hr]; by apply Hd in Hr|].
      intros (_ & _ & Hf & [(b & [= <-] & -> & _)|[? _]]); [|done].
      apply denied_false in Hf. congruence. }
    apply denied_false in Eu.
    destruct (AllowsIP (allow e) (Unmap a) (Port f)) eqn:Eal; [|destruct (IsPinned (rstate e) (Unmap a)) eqn:Epn].
    + split; [intros [r [= <- _]]; split_and!; try done; try lia; left; eauto|].
      intros (_ & _ & _ & [(b & [= <-] & -> & _)|[? _]]); [|done]. cbn. eauto.
    + split; [intros [r [= <- _]]; split_and!; try done; try lia; left; eauto|].
      intros (_ & _ & _ & [(b & [= <-] & -> & _)|[? _]]); [|done]. cbn. eauto.
    + split; [intros [r Hr]; by apply Hd in Hr|].
      intros (_ & _ & _ & [(b & [= <-] & -> & [?|?])|[? _]]); congruence.
  - unfold authorizeName. destruct (AllowsName (allow e) (Host f) (Port f)) eqn:En; cbn [negb].
    2:{ split; [intros [r Hr]; by apply Hd in Hr|]. intros (_ & _ & _ & [(b & ? & _)|(_ & ? & _)]); done. }
    destruct (Resolve cfg e now ans (Host f)) as [e1 [ips|er]] eqn:Er.
    + destruct (first_usable ips) as [ip'|] eqn:Ef.
      * pose proof (first_usable_Some _ _ Ef) as [Hden _]. cbn. split.
        -- intros [r [= <- _]]. split_and!; try done; try lia. right. eauto.
        -- intros (_ & _ & _ & [(b & ? & _)|(_ & _ & ips' & [= <-] & Hf)]); [done|].
           rewrite Ef in Hf. simplify_eq. eauto.
      * split.
        -- intros [r Hr]. pose proof (deny_flow_state e1 f AInvalid
             "name resolved only to denied ranges (rebind)") as (_ & _ & Hx).
           rewrite Hr in Hx. done.
        -- intros (_ & _ & _ & [(b & ? & _)|(_ & _ & ips' & [= <-] & Hf)]); congruence.
    + split.
      * intros [r Hr]. pose proof (deny_flow_state e1 f AInvalid "name resolution refused") as (_ & _ & Hx).
        rewrite Hr in Hx. done.
      * intros (_ & _ & _ & [(b & ? & _)|(_ & _ & ips' & [=] & _)]); done.
Qed.

(** ** The audit trail *)

Definition is_dns (r : EgressRecord) : Prop := er_Protocol r = "dns".

Lemma Resolve_log e now ans name :
  exists dns, log (fst (Resolve cfg e now ans name)) = log e ++ dns /\ dns <> [] /\ Forall is_dns dns.
Proof.
  unfold Resolve, dns_audit, is_dns. destruct (negb _ && negb _).
  { eexists [_]. split_and!; [done..|]. by repeat constructor. }
  destruct (admit_query cfg (rstate e) now) as [r [|]]; cbn [negb].
  2:{ eexists [_]. split_and!; [done..|]. by repeat constructor. }
  destruct ans as [l| |]; [| |]; cbn [set_rstate rstate].
  - eexists [_]. split_and!; [done..|]. by repeat constructor.
  - destruct (recordNXDOMAIN cfg r) as [r' [|]].
    + eexists [_; _]. cbn. rewrite <- app_assoc. split_and!; [done..|]. by repeat constructor.
    + eexists [_]. split_and!; [done..|]. by repeat constructor.
  - eexists [_]. split_and!; [done..|]. by repeat constructor.
Qed.

(** The record of a decision. *)
Definition tcp_record (f : Flow) (d : Decision) (r : EgressRecord) : Prop :=
  er_Protocol r = "tcp" /\ er_Decision r = (if Allow d then EgressAllow else EgressDeny) /\
  er_DestHost r = TruncateDestHost (Host f) /\ er_DestPort r = Port f /\ er_Rule r = Rule d /\
  (Allow d = true -> er_DestIP r = addr_string (DestIP d)) /\
  er_SandboxID r = SandboxID cfg /\ er_TaskID r = TaskID_ cfg.

Lemma allow_flow_log e f ip rule : IsValid ip = true ->
  exists r, log (fst (allow_flow cfg e f ip rule)) = log e ++ [r] /\
    tcp_record f (snd (allow_flow cfg e f ip rule)) r.
Proof. intros Hv. eexists. split; [done|]. unfold tcp_record. cbn. by rewrite Hv. Qed.

Lemma deny_flow_log e f ip rule :
  exists r, log (fst (deny_flow cfg e f ip rule)) = log e ++ [r] /\
    tcp_record f (snd (deny_flow cfg e f ip rule)) r.
Proof. unfold deny_flow. destruct (IsValid ip) eqn:E; (eexists; split; [done|]); unfold tcp_record; cbn; by rewrite ?E. Qed.

Lemma denied_valid ip : denied ip = false -> IsValid ip = true.
Proof. by destruct ip. Qed.

(** Every decision is put on the record: a flow appends the
    records of the DNS query it caused, if it caused one, and then exactly one
    record of the decision itself, which names the sandbox, the host asked
    for, the port, the rule, and on an allow the address connected to. *)
Theorem Authorize_audited e now ans f :
  let '(e', d) := Authorize cfg e now ans f in
  exists dns r, log e' = log e ++ dns ++ [r] /\ Forall is_dns dns /\ tcp_record f d r.
Proof.
  unfold Authorize.
  assert (forall ip rule, let '(e', d) := deny_flow cfg e f ip rule in
    exists dns r, log e' = log e ++ dns ++ [r] /\ Forall is_dns dns /\ tcp_record f d r) as Hdeny.
  { intros ip rule. destruct (deny_flow_log e f ip rule) as (r & Hl & Hr).
    destruct (deny_flow cfg e f ip rule) as [e' d]. by exists [], r. }
  assert (forall ip rule, denied ip = false -> let '(e', d) := allow_flow cfg e f ip rule in
    exists dns r, log e' = log e ++ dns ++ [r] /\ Forall is_dns dns /\ tcp_record f d r) as Hallow.
  { intros ip rule Hd%denied_valid. destruct (allow_flow_log e f ip rule Hd) as (r & Hl & Hr).
    destruct (allow_flow cfg e f ip rule) as [e' d]. by exists [], r. }
  destruct (_ || _); [apply Hdeny|]. destruct (negb _); [apply Hdeny|].
  destruct (ParseAddr (Host f)) as [a|].
  - unfold authorizeRawIP. destruct (IsUnconditionallyDenied (Unmap a)) eqn:Eu; [apply Hdeny|].
    apply denied_false in Eu. destruct (AllowsIP _ _ _); [by apply Hallow|].
    destruct (IsPinned _ _); [by apply Hallow|apply Hdeny].
  - unfold authorizeName. destruct (negb _); [apply Hdeny|].
    destruct (Resolve_log e now ans (Host f)) as (dns & Hl & _ & HF).
    destruct (Resolve cfg e now ans (Host f)) as [e1 [ips|er]]; cbn [fst] in Hl.
    + destruct (first_usable ips) as [ip|] eqn:Ef.
      * pose proof (first_usable_Some _ _ Ef) as [Hd%denied_valid _].
        destruct (allow_flow_log e1 f ip "name allowlisted (pinned)" Hd) as (r & Hl1 & Hr).
        destruct (allow_flow cfg e1 f ip _) as [e' d]. cbn [fst snd] in *.
        exists dns, r. by rewrite Hl1, Hl, app_assoc.
      * destruct (deny_flow_log e1 f AInvalid "name resolved only to denied ranges (rebind)") as (r & Hl1 & Hr).
        destruct (deny_flow cfg e1 f AInvalid _) as [e' d]. cbn [fst snd] in *.
        exists dns, r. by rewrite Hl1, Hl, app_assoc.
    + destruct (deny_flow_log e1 f AInvalid "name resolution refused") as (r & Hl1 & Hr).
      destruct (deny_flow cfg e1 f AInvalid _) as [e' d]. cbn [fst snd] in *.
      exists dns, r. by rewrite Hl1, Hl, app_assoc.
Qed.

(** ** Where pins come from *)

(** [o] made the host resolve [name] and get [l], the name being open to
    resolution in state [e]. *)
Definition resolves (e : Engine) (o : op) (name : string) (l : list Addr) : Prop :=
  (ResolveAny cfg = true \/ HasName (allow e) name = true) /\
  exists now, o = OpDNS now (Found l) name \/
    exists f, o = OpFlow now (Found l) f /\ Host f = name.

Lemma Authorize_pins e now ans f :
  let e' := fst (Authorize cfg e now ans f) in
  allow e' = allow e /\
  (pins (rstate e') = pins (rstate e) \/
   exists l, ans = Found l /\ (ResolveAny cfg = true \/ HasName (allow e) (Host f) = true) /\
     pins (rstate e') = <[Host f := filterDeniedIPs l]> (pins (rstate e))).
Proof.
  unfold Authorize.
  assert (forall e1 ip rule, allow (fst (deny_flow cfg e1 f ip rule)) = allow e1 /\
    rstate (fst (deny_flow cfg e1 f ip rule)) = rstate e1) as Hd.
  { intros e1 ip rule. pose proof (deny_flow_state e1 f ip rule). naive_solver. }
  assert (forall ip rule, allow (fst (deny_flow cfg e f ip rule)) = allow e /\
    (pins (rstate (fst (deny_flow cfg e f ip rule))) = pins (rstate e) \/
     exists l, ans = Found l /\ (ResolveAny cfg = true \/ HasName (allow e) (Host f) = true) /\
       pins (rstate (fst (deny_flow cfg e f ip rule))) =
         <[Host f := filterDeniedIPs l]> (pins (rstate e)))) as Hd'.
  { intros ip rule. destruct (Hd e ip rule) as [-> ->]. split; [done|by left]. }
  destruct (_ || _); [apply Hd'|]. destruct (negb _); [apply Hd'|].
  destruct (ParseAddr (Host f)) as [a|].
  - unfold authorizeRawIP. destruct (IsUnconditionallyDenied _); [apply Hd'|].
    destruct (AllowsIP _ _ _); [by split; [|left]|].
    destruct (IsPinned _ _); [by split; [|left]|apply Hd'].
  - unfold authorizeName. destruct (negb _); [apply Hd'|].
    pose proof (Resolve_pins e now ans (Host f)) as (Ha & _ & Hp).
    destruct (Resolve cfg e now ans (Host f)) as [e1 [ips|er]]; cbn [fst] in *.
    + destruct (first_usable ips); [by split|].
      destruct (Hd e1 AInvalid "name resolved only to denied ranges (rebind)") as [-> ->]. done.
    + destruct (Hd e1 AInvalid "name resolution refused") as [-> ->]. done.
Qed.

Lemma step_pins e o name ips :
  pins (rstate (step cfg e o)) !! name = Some ips ->
  pins (rstate e) !! name = Some ips \/
  exists l, resolves e o name l /\ ips = filterDeniedIPs l.
Proof.
  assert (forall (e' : Engine) n ans' , pins (rstate e') = pins (rstate e) \/
     (exists l, ans' = Found l /\ (ResolveAny cfg = true \/ HasName (allow e) n = true) /\
       pins (rstate e') = <[n := filterDeniedIPs l]> (pins (rstate e))) ->
    pins (rstate e') !! name = Some ips ->
    pins (rstate e) !! name = Some ips \/
    (exists l, ans' = Found l /\ n = name /\ (ResolveAny cfg = true \/ HasName (allow e) name = true) /\
      ips = filterDeniedIPs l)) as Haux.
  { intros e' n ans' [->|(l & -> & Hn & ->)] H; [by left|].
    destruct (decide (n = name)) as [->|Hne].
    - rewrite lookup_insert_eq in H. simplify_eq. right. eauto.
    - rewrite lookup_insert_ne in H by done. by left. }
  destruct o as [now ans f|now ans n|ip port| |es]; cbn [step]; intros H.
  - destruct (Authorize_pins e now ans f) as [_ Hp].
    destruct (Haux _ _ _ Hp H) as [?|(l & -> & <- & Hn & ->)]; [by left|].
    right. exists l. split; [|done]. split; [done|]. exists now. right. eauto.
  - destruct (Resolve_pins e now ans n) as (_ & _ & Hp).
    destruct (Haux _ _ _ Hp H) as [?|(l & -> & <- & Hn & ->)]; [by left|].
    right. exists l. split; [|done]. split; [done|]. exists now. by left.
  - destruct (GrantIP _ _ _); by left.
  - by left.
  - destruct (SetRules _ _); by left.
Qed.

(** C30. In every state the engine reaches, whatever flows, queries,
    grants, revocations and policy changes led there, each pinned address is
    an answer the host itself got when it resolved a name the policy in force
    at that moment listed (any name in open mode), and is not in a denied
    range. *)
Theorem pins_provenance al os name ips :
  pins (rstate (run cfg (NewEngine al) os)) !! name = Some ips ->
  exists os1 o os2 l,
    os = os1 ++ o :: os2 /\ resolves (run cfg (NewEngine al) os1) o name l /\
    forall ip, ip ∈ ips -> ip ∈ l /\ denied ip = false.
Proof.
  revert ips. induction os as [|o os IH] using rev_ind; intros ips H.
  { cbn in H. by rewrite lookup_empty in H. }
  unfold run in *. rewrite fold_left_app in H. cbn [fold_left] in H.
  apply step_pins in H as [H|(l & Hr & ->)].
  - destruct (IH _ H) as (os1 & o' & os2 & l & -> & Hr & Hin).
    exists os1, o', (os2 ++ [o]), l. by rewrite <- app_assoc.
  - exists os, o, [], l. split_and!; [done..|]. intros ip. apply filterDeniedIPs_elem.
Qed.
End EngineLemmas.

(** ** The DNS gate and the rate cap *)

(** A name the allowlist does not list is refused without the host's
    resolver being asked: whatever it would have answered, the outcome is the
    same refusal, the same record and no pin. *)
Theorem Resolve_gate cfg e now ans ans' name :
  ResolveAny cfg = false -> HasName (allow e) name = false ->
  Resolve cfg e now ans name = Resolve cfg e now ans' name /\
  snd (Resolve cfg e now ans name) = Err ErrNameNotAllowlisted /\
  pins (rstate (fst (Resolve cfg e now ans name))) = pins (rstate e).
Proof. unfold Resolve. by intros -> ->. Qed.

Definition demo_cfg : Config := NewConfig "01SB" "MGIT-1" false 0 0 0.
Definition demo_allow : Allowlist := add_name_rule empty_allowlist (mkNameRule "registry.npmjs.org" "" 443 false).

Lemma Resolve_gate_witness :
  HasName demo_allow "c2VjcmV0.evil.example" = false /\
  snd (Resolve demo_cfg (NewEngine demo_allow) 5 (Found [ip4 6 6 6 6]) "c2VjcmV0.evil.example")
    = Err ErrNameNotAllowlisted.
Proof.
  split; [vm_compute; reflexivity|].
  refine (proj1 (proj2 (Resolve_gate demo_cfg (NewEngine demo_allow) 5 (Found [ip4 6 6 6 6]) NXDomain
    "c2VjcmV0.evil.example" _ _))); vm_compute; reflexivity.
Defined.

Lemma pins_provenance_witness :
  pins (rstate (run demo_cfg (NewEngine demo_allow)
    [OpDNS 5 (Found [ip4 104 16 0 1]) "registry.npmjs.org"])) !! "registry.npmjs.org"
    = Some [ip4 104 16 0 1] /\
  exists os1 o os2 l,
    [OpDNS 5 (Found [ip4 104 16 0 1]) "registry.npmjs.org"] = os1 ++ o :: os2 /\
    resolves demo_cfg (run demo_cfg (NewEngine demo_allow) os1) o "registry.npmjs.org" l.
Proof.
  assert (pins (rstate (run demo_cfg (NewEngine demo_allow)
    [OpDNS 5 (Found [ip4 104 16 0 1]) "registry.npmjs.org"])) !! "registry.npmjs.org"
    = Some [ip4 104 16 0 1]) as H by (vm_compute; reflexivity).
  split; [exact H|].
  destruct (pins_provenance demo_cfg demo_allow _ _ _ H) as (os1 & o & os2 & l & Hs & Hr & _).
  exists os1, o, os2, l. exact (conj Hs Hr).
Defined.

(** How many of the queries at these clock readings reach the host's resolver. *)
Fixpoint admitted (cfg : Config) (r : ResolverState) (nows : list time) : Z :=
  match nows with
  | [] => 0
  | t :: ts => let '(r', ok) := admit_query cfg r t in (if ok : bool then 1 else 0) + admitted cfg r' ts
  end.

Definition rolls (cfg : Config) (r : ResolverState) (t : time) : Prop :=
  windowStart r = 0 \/ window cfg <= time_sub t (windowStart r).

Lemma admitted_in_window cfg r nows :
  windowStart r <> 0 -> Forall (fun t => time_sub t (windowStart r) < window cfg) nows ->
  queryCount r <= maxQPW cfg -> admitted cfg r nows <= maxQPW cfg - queryCount r.
Proof.
  intros Hz HF. revert r Hz HF. induction nows as [|t ts IH]; intros r Hz HF Hq; cbn; [lia|].
  apply Forall_cons in HF as [Ht HF]. unfold admit_query.
  rewrite (proj2 (Z.eqb_neq _ _) Hz), (proj2 (Z.leb_gt _ _) Ht). cbn [orb].
  destruct (Z.leb_spec (maxQPW cfg) (queryCount r)).
  - specialize (IH r Hz HF Hq). lia.
  - match goal with |- context [admitted cfg ?r' ts] => specialize (IH r' Hz HF ltac:(cbn; lia)) end.
    cbn [queryCount] in IH. lia.
Qed.

(** From the query that opens a window to the window's end,
    at most [MaxQueriesPerWindow] queries reach the host's resolver, however
    many the guest makes. *)
Theorem rate_limit cfg r t0 nows :
  rolls cfg r t0 -> t0 <> 0 -> 0 < maxQPW cfg ->
  Forall (fun t => time_sub t t0 < window cfg) nows ->
  admitted cfg r (t0 :: nows) <= maxQPW cfg.
Proof.
  intros Hr Ht Hq HF. cbn [admitted]. unfold admit_query.
  assert ((windowStart r =? 0) || (window cfg <=? time_sub t0 (windowStart r)) = true) as ->.
  { apply orb_true_iff. rewrite Z.eqb_eq, Z.leb_le. exact Hr. }
  cbn [queryCount]. rewrite (proj2 (Z.leb_gt _ _) Hq).
  match goal with |- context [admitted cfg ?r' nows] =>
    pose proof (admitted_in_window cfg r' nows Ht HF ltac:(cbn; lia)) as H end.
  cbn [queryCount] in H. lia.
Qed.

Lemma rate_limit_witness :
  let cfg := NewConfig "01SB" "MGIT-1" false 2 0 0 in
  admitted cfg NewResolverState [100; 101; 102; 103] = 2 /\
  admitted cfg NewResolverState [100; 101; 102; 103] <= maxQPW cfg.
Proof.
  split; [vm_compute; reflexivity|].
  refine (rate_limit (NewConfig "01SB" "MGIT-1" false 2 0 0) NewResolverState 100 [101; 102; 103] _ _ _ _).
  - left. reflexivity.
  - discriminate.
  - vm_compute. reflexivity.
  - repeat constructor.
Defined.

(** ** Limits of the enforcement, as the code stands *)

(** A pin outlives the policy it was made under, and carries no
    port: after any live policy change that compiles, an address that was
    pinned before it is still admitted, by literal address, on every port. *)
Theorem SetRules_keeps_pins cfg e es al' now ans host a port :
  SetRules (allow e) es = Ok al' ->
  ParseAddr host = Some a -> IsPinned (rstate e) (Unmap a) = true -> denied a = false ->
  1 <= port <= 65535 ->
  Allow (snd (Authorize cfg (step cfg e (OpSetRules es)) now ans (mkFlow "tcp" host port))) = true.
Proof.
  intros Hs Hp Hpin Hd Hport. cbn [step]. rewrite Hs.
  destruct (proj2 (Authorize_allow_iff cfg (set_allow e al') now ans (mkFlow "tcp" host port) (Unmap a))) as [rule ->]; [|done].
  split_and!; cbn [Port Protocol Host]; try lia; [done|by rewrite denied_Unmap|].
  left. exists a. split_and!; [done..|]. by right.
Qed.

(** The policy allowed one registry on port 443; it is then revoked whole. *)
Lemma SetRules_keeps_pins_witness :
  let e := run demo_cfg (NewEngine demo_allow) [OpDNS 5 (Found [ip4 104 16 3 34]) "registry.npmjs.org"] in
  SetRules (allow e) [] = Ok empty_allowlist /\
  Allow (snd (Authorize demo_cfg (step demo_cfg e (OpSetRules [])) 9 NXDomain
    (mkFlow "tcp" "104.16.3.34" 22))) = true.
Proof.
  split; [reflexivity|].
  refine (SetRules_keeps_pins demo_cfg
    (run demo_cfg (NewEngine demo_allow) [OpDNS 5 (Found [ip4 104 16 3 34]) "registry.npmjs.org"])
    [] empty_allowlist 9 NXDomain "104.16.3.34" (ip4 104 16 3 34) 22 _ _ _ _ _);
    [vm_compute; reflexivity..|lia].
Defined.

(** Open mode's authorizer admits every literal address on
    every port over TCP and consults no denied range, so the cloud metadata
    endpoint, which is denied unconditionally elsewhere, is admitted. *)
Theorem Open_Authorize_admits cfg e f :
  (Allow (snd (Open_Authorize cfg e f)) = true <->
   1 <= Port f <= 65535 /\ Protocol f = "tcp" /\ ParseAddr (Host f) <> None) /\
  denied metadataIP = true /\
  snd (Open_Authorize cfg e (mkFlow "tcp" "169.254.169.254" 80))
    = mkDecision true metadataIP "open mode: unrestricted egress".
Proof.
  split; [|by vm_compute]. unfold Open_Authorize.
  destruct ((Port f <? 1) || (65535 <? Port f)) eqn:Ep.
  { cbn. bool_to_prop. split; [done|]. intros (? & _). lia. }
  bool_to_prop. destruct (String.eqb_spec (Protocol f) "tcp"); cbn [negb]; [|naive_solver].
  destruct (ParseAddr (Host f)); cbn; naive_solver lia.
Qed.

Lemma zoned_facts (z : string) : z <> "" ->
  let a := A6 (groups_value [0x2606; 0x4700; 0; 0; 0; 0; 0; 1]) z in
  hasZone a = true /\ addr_string a = "2606:4700::1%" +:+ z /\
  ParseAddr ("2606:4700::1%" +:+ z) = Some a /\ IsUnconditionallyDenied a = None.
Proof.
  intros Hz a. destruct z as [|c z]; [by destruct Hz|]. clear Hz. split_and!; [reflexivity| | |].
  - unfold addr_string, a. change (String.eqb (String c z) "") with false.
    replace (Is4In6 _) with false by (vm_compute; reflexivity).
    replace (string6 _) with "2606:4700::1" by (vm_compute; reflexivity). reflexivity.
  - unfold ParseAddr. change (addr_kind ("2606:4700::1%" +:+ String c z)) with (Some colon).
    change (Ascii.eqb colon dot) with false. change (Ascii.eqb colon colon) with true.
    cbn iota. unfold parse_ipv6.
    change ("2606:4700::1%" +:+ String c z) with ("2606:4700::1" +:+ String "%" (String c z)).
    rewrite cut_app by reflexivity. vm_compute. reflexivity.
  - vm_compute. reflexivity.
Qed.

(** The text after '%' of an IPv6 literal is the guest's: for an
    address no rule, grant or pin admits, the denial escalated to the operator
    carries it, and the capability request made of the denial, which passes
    validation, shows it as the observed destination. *)
Theorem guest_text_in_request cfg e now ans (z : string) t :
  z <> "" -> SandboxID cfg <> "" -> TaskId.ParseTaskID (TaskID_ cfg) = Ok t ->
  let a := A6 (groups_value [0x2606; 0x4700; 0; 0; 0; 0; 0; 1]) z in
  isGranted (allow e) a 443 = false -> IsPinned (rstate e) a = false ->
  let '(e', d) := Authorize cfg e now ans (mkFlow "tcp" ("2606:4700::1%" +:+ z) 443) in
  exists den req, escalated e' = escalated e ++ [den] /\
    RequestFromObservedDenial den = Ok req /\
    cr_ObservedDestIP req = "2606:4700::1%" +:+ z.
Proof.
  intros Hz Hsb Ht a Hg Hpin.
  destruct (zoned_facts z Hz) as (Hzone & Hstr & Hparse & Hden). fold a in Hzone, Hstr, Hparse, Hden.
  assert (AllowsIP (allow e) a 443 = false) as Hal.
  { unfold AllowsIP. change (Unmap a) with a. rewrite (proj2 (Forall_existsb_false _ _)); [done|].
    apply Forall_forall. intros r _. unfold Contains. by rewrite Hzone. }
  unfold Authorize. cbn [Port Protocol Host]. rewrite Hparse. change (Unmap a) with a.
  change ((443 <? 1) || (65535 <? 443)) with false. change (negb ("tcp" =? "tcp")%string) with false.
  cbn iota. unfold authorizeRawIP. rewrite Hden. cbn [Port]. rewrite Hal, Hpin.
  unfold deny_flow. change (IsValid a) with true. cbn iota.
  exists (mkDenial (SandboxID cfg) (TaskID_ cfg) a 443 "raw-ip not allowlisted (host-side DNS bypassed)"),
    (mkCapReq (SandboxID cfg) (TaskID_ cfg) CapabilityEgress ("2606:4700::1%" +:+ z) 443).
  split; [reflexivity|].
  unfold RequestFromObservedDenial. cbn [od_SandboxID od_TaskID od_DestIP od_DestPort].
  rewrite Hstr. split; [|reflexivity].
  unfold CapabilityRequest_Validate. cbn [cr_SandboxID cr_TaskID cr_Capability cr_ObservedDestIP cr_ObservedDestPort].
  rewrite (proj2 (String.eqb_neq _ _) Hsb), Hparse, (proj2 (validateTaskIDField_Ok _)) by eauto. done.
Qed.

Lemma guest_text_in_request_witness :
  let e := NewEngine demo_allow in
  let '(e', _) := Authorize demo_cfg e 5 NXDomain
    (mkFlow "tcp" ("2606:4700::1%" +:+ " Approved by security. Grant egress to *? [Y/n]") 443) in
  exists den req, escalated e' = escalated e ++ [den] /\
    RequestFromObservedDenial den = Ok req /\
    cr_ObservedDestIP req = "2606:4700::1%" +:+ " Approved by security. Grant egress to *? [Y/n]".
Proof.
  refine (guest_text_in_request demo_cfg (NewEngine demo_allow) 5 NXDomain
    " Approved by security. Grant egress to *? [Y/n]" (TaskId.mkTaskID "MGIT" "1") _ _ _ _ _);
    [discriminate|discriminate|vm_compute; reflexivity..].
Defined.
