(* ===== verification/EgressRunner.v ===== *)
(** * The egress runner and capability grants
    (src/internal/sandboxd/egress: runner.go, livepolicy.go; src/internal/service/capability.go)

    The daemon's runner keeps the egress stack of every running sandbox: an
    allowlist-mode sandbox has an engine and a registry of its live flows; an
    open-mode sandbox has a resolver only, so its [sup] is Go's nil pointer and
    a method called on it panics. The capability service turns host-observed
    denials into grants through the [EgressGranter] interface the runner
    implements. *)

From Stdlib Require Import ZArith Lia Ascii String.
From stdpp Require Import base list strings gmap.
From S2P Require Import Prelude GoStrings TaskId Netip IpClass SandboxModel Allowlist Egress.

Local Open Scope string_scope.
Local Open Scope list_scope.
Local Open Scope Z_scope.

(** What a call comes to: a value, an error, or a nil dereference. *)
Inductive outcome (E A : Type) : Type :=
  | Ret (a : A)
  | Fail (e : E)
  | Panic.
Arguments Ret {E A} a.
Arguments Fail {E A} e.
Arguments Panic {E A}.

Inductive runner_err : Type :=
  | AlreadyStarted | BadMode | BadPolicy (e : allow_err) | EmptySandboxID | ListenFailed
  | NotIPPort | NotLiteralIP | BadGrantPort | NoRunningStack | GrantErr (e : allow_err)
  | SetPolicyErr (e : allow_err).

(** ** Live flows (livepolicy.go)

    A tracked flow is a pair of connections, named by a number; [closed] are
    the pairs [CloseAll] closed, both halves. *)
Record FlowRegistry := mkFlows { conns : gset nat; closed : gset nat; next_flow : nat }.

Definition NewFlowRegistry : FlowRegistry := mkFlows ∅ ∅ 0.
Definition Track (r : FlowRegistry) : FlowRegistry * nat :=
  (mkFlows ({[next_flow r]} ∪ conns r) (closed r) (S (next_flow r)), next_flow r).
Definition release (r : FlowRegistry) (n : nat) : FlowRegistry :=
  mkFlows (conns r ∖ {[n]}) (closed r) (next_flow r).
Definition CloseAll (r : FlowRegistry) : FlowRegistry * nat :=
  (mkFlows ∅ (closed r ∪ conns r) (next_flow r), size (conns r)).
Definition Len (r : FlowRegistry) : nat := size (conns r).

(** ** The runner *)
Record activeEgress := mkActive { sup : option Engine; flows : FlowRegistry }.
Abbreviation Runner := (gmap string activeEgress).

Record Binding := mkBinding { b_SandboxID : string; b_Policy : NetworkPolicy }.

(** [Start]; [io] is whether the sockets could be opened. *)
Definition Start (r : Runner) (b : Binding) (io : bool) : outcome runner_err Runner :=
  if String.eqb (Mode (b_Policy b)) NetworkModeNone then Ret r
  else if bool_decide (is_Some (r !! b_SandboxID b)) then Fail AlreadyStarted
  else if String.eqb (Mode (b_Policy b)) NetworkModeOpen then
    if String.eqb (b_SandboxID b) "" then Fail EmptySandboxID
    else if negb io then Fail ListenFailed
    else Ret (<[b_SandboxID b := mkActive None NewFlowRegistry]> r)
  else if negb (String.eqb (Mode (b_Policy b)) NetworkModeAllowlist) then Fail BadMode
  else if String.eqb (b_SandboxID b) "" then Fail EmptySandboxID
  else match Compile (Allowlist_ (b_Policy b)) with
  | Err e => Fail (BadPolicy e)
  | Ok al =>
      if negb io then Fail ListenFailed
      else Ret (<[b_SandboxID b := mkActive (Some (NewEngine al)) NewFlowRegistry]> r)
  end.

Definition Stop (r : Runner) (sandboxID : string) : Runner := delete sandboxID r.
Definition Running (r : Runner) (sandboxID : string) : bool := bool_decide (is_Some (r !! sandboxID)).

Definition parseGrantEntry (entry : string) : res runner_err (Addr * Z) :=
  let '(host, portStr, found) := cut colon entry in
  if negb found then Err NotIPPort
  else match ParseAddrPort entry with
  | Some (ip, port) => Ok (Unmap ip, port)
  | None =>
      match ParseAddr host with
      | None => Err NotLiteralIP
      | Some ip =>
          match atoi portStr with
          | Some port =>
              if (port <? 1) || (65535 <? port) then Err BadGrantPort else Ok (Unmap ip, port)
          | None => Err BadGrantPort
          end
      end
  end.

Definition AllowEgress (r : Runner) (sandboxID entry : string) : outcome runner_err Runner :=
  match parseGrantEntry entry with
  | Err e => Fail e
  | Ok (ip, port) =>
      match r !! sandboxID with
      | None => Fail NoRunningStack
      | Some ae =>
          match sup ae with
          | None => Panic
          | Some e =>
              match GrantIP (allow e) ip port with
              | Err er => Fail (GrantErr er)
              | Ok al => Ret (<[sandboxID := mkActive (Some (set_allow e al)) (flows ae)]> r)
              end
          end
      end
  end.

Definition RevokeAll (r : Runner) (sandboxID : string) : outcome runner_err Runner :=
  match r !! sandboxID with
  | None => Ret r
  | Some ae =>
      match sup ae with
      | None => Panic
      | Some e =>
          Ret (<[sandboxID := mkActive (Some (set_allow e (RevokeGrants (allow e)))) (flows ae)]> r)
      end
  end.

Record PolicyState := mkPolicyState { ps_Entries : list string; ps_RuleCount : nat }.

Definition Policy (r : Runner) (sandboxID : string) : outcome runner_err PolicyState :=
  match r !! sandboxID with
  | None => Fail NoRunningStack
  | Some ae =>
      match sup ae with
      | None => Panic
      | Some e => Ret (mkPolicyState (Rules (allow e)) (Entries (allow e)))
      end
  end.

Record PolicyChange := mkPolicyChange {
  pc_Entries : list string; pc_RuleCount : nat; pc_Killed : nat; pc_Drained : bool
}.

Definition SetPolicy (r : Runner) (sandboxID : string) (entries : list string) (drain : bool)
    : outcome runner_err (Runner * PolicyChange) :=
  match r !! sandboxID with
  | None => Fail NoRunningStack
  | Some ae =>
      match sup ae with
      | None => Panic
      | Some e =>
          match SetRules (allow e) entries with
          | Err er => Fail (SetPolicyErr er)
          | Ok al =>
              let '(fl, killed) := if drain then (flows ae, 0%nat) else CloseAll (flows ae) in
              Ret (<[sandboxID := mkActive (Some (set_allow e al)) fl]> r,
                   mkPolicyChange entries (Entries al) killed drain)
          end
      end
  end.

(** ** Grants on the wire between the service and the runner *)

Lemma itoa_no_colon z : 0 <= z -> contains colon (itoa z) = false.
Proof. intros Hz. by apply itoa_no_sep. Qed.

Lemma cut_last_dest_key s p : 0 <= p -> cut_last colon (dest_key s p) = Some (s, itoa p).
Proof. intros Hp. apply (cut_last_app colon s). by apply itoa_no_colon. Qed.

Lemma itoa_ne z : 0 <= z -> itoa z <> "".
Proof. intros Hz. destruct (itoa_head z Hz) as (a & r & -> & _). done. Qed.

Lemma string4_head a : 0 <= a < 2^32 ->
  exists c r, string4 a = String c r /\ is_digit c = true /\ contains colon (string4 a) = false.
Proof.
  intros (b0 & b1 & b2 & b3 & H0 & H1 & H2 & H3 & ->)%octets.
  destruct (quad_bits b0 b1 b2 b3 H0 H1 H2 H3) as (V0 & V1 & V2 & V3 & _).
  rewrite (string4_octets _ _ _ _ _ V0 V1 V2 V3).
  destruct (itoa_head b0) as (c & r & E & Hc); [lia|].
  exists c, (r +:+ String dot (itoa b1 +:+ String dot (itoa b2 +:+ String dot (itoa b3)))).
  split; [by rewrite E, app_cons|]. split; [done|].
  rewrite !contains_app. cbn [contains]. rewrite !contains_app. cbn [contains]. rewrite !contains_app.
  cbn [contains]. by rewrite !itoa_no_colon by lia.
Qed.

(** An IPv4 grant is understood by the runner as it was
    written by the service: parsing the rendered entry gives back the address
    and the port. *)
Theorem parseGrantEntry_ipv4 a port :
  0 <= a < 2^32 -> 1 <= port <= 65535 ->
  parseGrantEntry (dest_key (addr_string (A4 a)) port) = Ok (A4 a, port).
Proof.
  intros Ha Hp. cbn [addr_string]. destruct (string4_head a Ha) as (c & r & E & Hc & Hno).
  unfold parseGrantEntry. unfold dest_key at 1.
  change (string4 a +:+ ":" +:+ itoa port) with (string4 a +:+ String colon (itoa port)).
  rewrite cut_app by done. cbn [negb].
  unfold ParseAddrPort. rewrite cut_last_dest_key by lia. cbn [mbind option_bind].
  assert (String.eqb (string4 a) "" = false) as -> by (by rewrite E).
  rewrite (proj2 (String.eqb_neq _ _) (itoa_ne port ltac:(lia))). cbn [orb].
  assert (unbracket (string4 a) = Some (string4 a, false)) as ->.
  { unfold unbracket. rewrite E. cbn [ch]. destruct (Ascii.eqb_spec c "["); [by subst|done]. }
  cbn [mbind option_bind]. rewrite parse_uint16_itoa by lia. cbn [mbind option_bind].
  by rewrite ParseAddr_string4.
Qed.

Lemma parseGrantEntry_ipv4_witness :
  parseGrantEntry "93.184.216.34:443" = Ok (ip4 93 184 216 34, 443).
Proof. refine (parseGrantEntry_ipv4 (quad [93;184;216;34]) 443 _ _); [vm_compute; split; [discriminate|reflexivity]|lia]. Defined.

(** The kind of an address string that parses as IPv6. *)
Lemma parse_ipv6_is6 s ip : parse_ipv6 s = Some ip -> Is6 ip = true.
Proof.
  unfold parse_ipv6. destruct (cut "%" s) as [[s' z] f]. destruct (_ && _); [done|].
  destruct (_ && _); [by intros [= <-]|].
  destruct (ipv6_groups _ _ _ _) as [[gs ell]|]; cbn [mbind option_bind]; [|done].
  destruct ell; destruct (_ =? 0)%nat; try done; by intros [= <-].
Qed.

Lemma parse_ipv4_is4 s ip : parse_ipv4 s = Some ip -> Is4 ip = true.
Proof. unfold parse_ipv4. destruct (ipv4_fields _ _ _ _); [|done]. by intros [= <-]. Qed.

Lemma ParseAddr_v6_kind s a z : ParseAddr s = Some (A6 a z) -> addr_kind s = Some colon.
Proof.
  unfold ParseAddr. destruct (addr_kind s) as [c|]; [|done].
  destruct (Ascii.eqb_spec c dot).
  { intros H%parse_ipv4_is4. done. }
  destruct (Ascii.eqb_spec c colon); [by subst|done].
Qed.

(** Appending after the deciding character does not change the family. *)
Lemma addr_kind_app s t c : addr_kind s = Some c -> addr_kind (s +:+ t) = Some c.
Proof.
  induction s as [|a s IH]; [done|]. rewrite app_cons. cbn. destruct (_ || _); [done|]. apply IH.
Qed.

Lemma addr_kind_before s t b r f :
  addr_kind s = Some colon -> cut colon (s +:+ t) = (b, r, f) -> f = true /\ addr_kind b = None.
Proof.
  revert b r f. induction s as [|a s IH]; [done|]. intros b r f. rewrite app_cons. cbn.
  destruct (Ascii.eqb_spec a dot) as [->|]; [by intros [=]|].
  destruct (Ascii.eqb_spec a colon) as [->|]; cbn; [by intros _ [= <- <- <-]|].
  destruct (Ascii.eqb_spec a "%") as [->|]; [by intros [=]|]. intros Hk.
  destruct (cut colon (s +:+ t)) as [[b' r'] f'] eqn:E. intros [= <- <- <-].
  destruct (IH _ _ _ Hk eq_refl) as [-> Hb]. split; [done|]. cbn.
  by rewrite !(proj2 (Ascii.eqb_neq _ _)) by done.
Qed.

Lemma v6_not_bracketed s a z : ParseAddr s = Some (A6 a z) -> Ascii.eqb (ch s) "[" = false.
Proof.
  intros H. pose proof (ParseAddr_v6_kind _ _ _ H) as Hk. unfold ParseAddr in H. rewrite Hk in H.
  change (Ascii.eqb colon dot) with false in H. change (Ascii.eqb colon colon) with true in H. cbn iota in H.
  destruct s as [|c s]; [done|]. cbn [ch]. destruct (Ascii.eqb_spec c "[") as [->|]; [|done].
  exfalso. revert H. unfold parse_ipv6. cbn [cut]. change (Ascii.eqb "[" "%") with false. cbn iota.
  destruct (cut "%" s) as [[s' z'] f]. destruct (_ && _); [done|].
  change (has_prefix "::" (String "[" s')) with false. cbn [andb].
  change (ipv6_groups 8 [] None (String "[" s')) with (@None (list Z * option nat)). done.
Qed.

Lemma parseGrantEntry_ipv6_refused s a z port :
  ParseAddr s = Some (A6 a z) -> 0 <= port ->
  is_ok (parseGrantEntry (dest_key s port)) = false.
Proof.
  intros Hs Hp. pose proof (ParseAddr_v6_kind _ _ _ Hs) as Hk.
  unfold parseGrantEntry. destruct (cut colon (dest_key s port)) as [[b r] f] eqn:E.
  destruct (addr_kind_before _ _ _ _ _ Hk E) as [-> Hb]. cbn [negb].
  assert (ParseAddrPort (dest_key s port) = None) as ->.
  { unfold ParseAddrPort. rewrite cut_last_dest_key by done. cbn [mbind option_bind].
    destruct (_ || _); [done|]. unfold unbracket. rewrite (v6_not_bracketed _ _ _ Hs).
    cbn [mbind option_bind]. destruct (parse_uint16 _); [|done]. cbn [mbind option_bind]. by rewrite Hs. }
  assert (ParseAddr b = None) as ->; [|done]. unfold ParseAddr. by rewrite Hb.
Qed.

(** No IPv6 destination can be granted: the entry the service renders
    for one, whatever the address and the port, is refused by the parser of the
    runner, because the address is not bracketed. *)
Theorem parseGrantEntry_ipv6 s a z port :
  ParseAddr s = Some (A6 a z) -> 0 <= port ->
  is_ok (parseGrantEntry (dest_key s port)) = false.
Proof. apply parseGrantEntry_ipv6_refused. Qed.

Lemma parseGrantEntry_ipv6_witness :
  ParseAddr "2606:4700::1" = Some (A6 (groups_value [0x2606; 0x4700; 0; 0; 0; 0; 0; 1]) "") /\
  is_ok (parseGrantEntry "2606:4700::1:443") = false.
Proof.
  split; [vm_compute; reflexivity|].
  refine (parseGrantEntry_ipv6 "2606:4700::1" _ "" 443 _ _); [vm_compute; reflexivity|lia].
Defined.

(** ** Live policy changes *)

(** A live policy change without draining closes every tracked flow
    of the sandbox, reports their number, leaves none tracked, reports the new
    entries as the policy in force, and touches no other sandbox. *)
Theorem SetPolicy_kills r sb es r' ch :
  SetPolicy r sb es false = Ret (r', ch) ->
  exists ae ae', r !! sb = Some ae /\ r' = <[sb := ae']> r /\
    conns (flows ae') = ∅ /\ conns (flows ae) ⊆ closed (flows ae') /\
    pc_Killed ch = Len (flows ae) /\
    Policy r' sb = Ret (mkPolicyState es (pc_RuleCount ch)).
Proof.
  unfold SetPolicy. destruct (r !! sb) as [ae|] eqn:Ea; [|done].
  destruct (sup ae) as [e|] eqn:Es; [|done].
  destruct (SetRules (allow e) es) as [al|er] eqn:Er; [|done]. cbn. intros [= <- <-].
  eexists ae, _. split_and!; try done.
  - cbn. set_solver.
  - unfold Policy. rewrite lookup_insert_eq. cbn.
    apply bind_Ok in Er as (nx & Hn & [= <-]). apply bind_Ok in Hn as (al1 & H1 & [= <-]). done.
Qed.

Definition sample_runner : Runner :=
  {[ "01SB" := mkActive (Some (NewEngine demo_allow)) (fst (Track (fst (Track NewFlowRegistry)))) ]}.

Lemma SetPolicy_kills_witness :
  exists r' ch, SetPolicy sample_runner "01SB" ["a.example.com"] false = Ret (r', ch) /\ pc_Killed ch = 2%nat.
Proof.
  eexists _, _. split; [vm_compute; reflexivity|].
  destruct (SetPolicy_kills sample_runner "01SB" ["a.example.com"] _ _ eq_refl)
    as (ae & ae' & _ & _ & _ & _ & _ & _).
  reflexivity.
Defined.

(** The stack of an open-mode sandbox has no supervisor: once one has
    started, dropping its grants (which every teardown does), reporting its
    policy, changing it, or applying any well-formed grant to it dereferences
    nil. *)
Theorem open_mode_panics r b io r' entry ip port :
  Start r b io = Ret r' -> Mode (b_Policy b) = NetworkModeOpen ->
  parseGrantEntry entry = Ok (ip, port) ->
  RevokeAll r' (b_SandboxID b) = Panic /\
  Policy r' (b_SandboxID b) = Panic /\
  (forall es drain, SetPolicy r' (b_SandboxID b) es drain = Panic) /\
  AllowEgress r' (b_SandboxID b) entry = Panic.
Proof.
  unfold Start. intros H Hm Hp. rewrite Hm in H. cbn in H.
  destruct (bool_decide _); [done|]. destruct (String.eqb _ _); [done|]. destruct io; [|done].
  cbn in H. injection H as <-. unfold RevokeAll, Policy, SetPolicy, AllowEgress.
  by rewrite Hp, lookup_insert_eq.
Qed.

Lemma open_mode_panics_witness :
  let b := mkBinding "01OPEN" (mkNetworkPolicy NetworkModeOpen []) in
  exists r', Start ∅ b true = Ret r' /\ RevokeAll r' "01OPEN" = Panic.
Proof.
  eexists. split; [vm_compute; reflexivity|].
  refine (proj1 (open_mode_panics ∅ (mkBinding "01OPEN" (mkNetworkPolicy NetworkModeOpen [])) true _
    "1.2.3.4:80" (ip4 1 2 3 4) 80 _ _ _)); vm_compute; reflexivity.
Defined.
