(* ===== verification/Capability.v ===== *)
(** * Capability grants (src/internal/service/capability.go)

    The escalation engine: a denial the host observed becomes a pending
    request, an operator's approval becomes an audited grant that lives as
    long as the sandbox. The service is modelled against the interface
    [EgressGranter] it is written against; the runner is an instance. *)

From Stdlib Require Import ZArith Lia Ascii String.
From stdpp Require Import base list strings gmap.
From S2P Require Import Prelude GoStrings TaskId Netip SandboxModel Allowlist Egress EgressRunner.

Local Open Scope string_scope.
Local Open Scope list_scope.
Local Open Scope Z_scope.

(** The egress engine as the service sees it: one entry admitted for one
    running sandbox, every entry of a sandbox dropped. [gr_admits] is what the
    engine promises. *)
Class EgressGranter (G : Type) := {
  gr_allow : G -> string -> string -> outcome runner_err G;
  gr_revoke : G -> string -> outcome runner_err G;
  gr_admits : G -> string -> string -> Prop;
  gr_allow_admits g sb e g' : gr_allow g sb e = Ret g' -> gr_admits g' sb e;
  gr_allow_keeps g sb e g' sb' e' :
    gr_allow g sb e = Ret g' -> gr_admits g sb' e' -> gr_admits g' sb' e';
  gr_revoke_drops g sb g' e : gr_revoke g sb = Ret g' -> ~ gr_admits g' sb e;
  gr_revoke_keeps g sb g' sb' e :
    gr_revoke g sb = Ret g' -> sb' <> sb -> gr_admits g sb' e -> gr_admits g' sb' e
}.

(** The runner admits an entry when the engine of the sandbox holds its grant. *)
Definition runner_admits (r : Runner) (sb entry : string) : Prop :=
  exists ae e ip port, r !! sb = Some ae /\ sup ae = Some e /\
    parseGrantEntry entry = Ok (ip, port) /\ (Unmap ip, port) ∈ grants (allow e).

Lemma AllowEgress_Ret r sb entry r' :
  AllowEgress r sb entry = Ret r' ->
  exists ae e ip port al, r !! sb = Some ae /\ sup ae = Some e /\
    parseGrantEntry entry = Ok (ip, port) /\ GrantIP (allow e) ip port = Ok al /\
    grants al = {[(Unmap ip, port)]} ∪ grants (allow e) /\
    r' = <[sb := mkActive (Some (set_allow e al)) (flows ae)]> r.
Proof.
  unfold AllowEgress. destruct (parseGrantEntry entry) as [[ip port]|] eqn:Ep; [|done].
  destruct (r !! sb) as [ae|] eqn:Ea; [|done]. destruct (sup ae) as [e|] eqn:Es; [|done].
  destruct (GrantIP (allow e) ip port) as [al|] eqn:Eg; [|done]. intros [= <-].
  exists ae, e, ip, port, al. split_and!; try done.
  unfold GrantIP in Eg. inv_res. done.
Qed.

#[export] Instance Runner_granter : EgressGranter Runner.
Proof.
  refine {| gr_allow := AllowEgress; gr_revoke := RevokeAll; gr_admits := runner_admits |}.
  - intros g sb e g' (ae & en & ip & port & al & Ha & Hs & Hp & Hg & Hgr & ->)%AllowEgress_Ret.
    eexists _, _, ip, port. rewrite lookup_insert_eq. split_and!; [done..|]. cbn. set_solver.
  - intros g sb e g' sb' e' (ae & en & ip & port & al & Ha & Hs & Hp & Hg & Hgr & ->)%AllowEgress_Ret.
    intros (ae' & en' & ip' & port' & Ha' & Hs' & Hp' & Hin).
    destruct (decide (sb' = sb)) as [->|].
    + eexists _, _, ip', port'. rewrite lookup_insert_eq. split_and!; [done..|]. cbn.
      simplify_eq. rewrite Hgr. by apply elem_of_union_r.
    + eexists ae', en', ip', port'. by rewrite lookup_insert_ne.
  - unfold RevokeAll. intros g sb g' e H (ae & en & ip & port & Ha & Hs & _ & Hin).
    destruct (g !! sb) as [ae0|] eqn:E0; [|simplify_eq; congruence].
    destruct (sup ae0) as [e0|]; [|done]. injection H as <-. rewrite lookup_insert_eq in Ha.
    simplify_eq. cbn in *. simplify_eq. cbn in Hin. set_solver.
  - unfold RevokeAll. intros g sb g' sb' e H Hne (ae & en & ip & port & Ha & Hs & Hp & Hin).
    destruct (g !! sb) as [ae0|] eqn:E0; [|simplify_eq; by exists ae, en, ip, port].
    destruct (sup ae0) as [e0|]; [|done]. injection H as <-. exists ae, en, ip, port.
    by rewrite lookup_insert_ne.
Defined.

Inductive cap_err : Type :=
  | CapInvalid (e : model_err) | CapAudit | CapWiden (e : runner_err) | ErrCapabilityGrantNotFound.

(** The [policy_granted] event: its detail is the rendering of these fields. *)
Record GrantEvent := mkGrantEvent {
  ge_SandboxID : string; ge_TaskID : string; ge_Capability : string; ge_Scope : string;
  ge_DestIP : string; ge_DestPort : Z
}.

Definition grantEvent (g : CapabilityGrant) : GrantEvent :=
  mkGrantEvent (cg_SandboxID g) (cg_TaskID g) (cg_Capability g) (cg_Scope g)
    (cg_ObservedDestIP g) (cg_ObservedDestPort g).

Section Service.
Context {G : Type} `{EgressGranter G}.

Record CapabilityService := mkService {
  events : list GrantEvent;
  live : gmap string (list CapabilityGrant);
  pending : gmap string (list CapabilityRequest);
  granter : G
}.

Definition live_of (s : CapabilityService) (sb : string) : list CapabilityGrant := default [] (live s !! sb).
Definition pending_of (s : CapabilityService) (sb : string) : list CapabilityRequest :=
  default [] (pending s !! sb).

Lemma live_of_insert ev lv pe g sb l sb' :
  live_of (mkService ev (<[sb := l]> lv) pe g) sb' =
  if decide (sb' = sb) then l else live_of (mkService ev lv pe g) sb'.
Proof.
  unfold live_of. cbn [live]. destruct (decide (sb' = sb)) as [->|].
  - by rewrite lookup_insert_eq.
  - by rewrite lookup_insert_ne.
Qed.

Lemma pending_of_insert ev lv pe g sb l :
  pending_of (mkService ev lv (<[sb := l]> pe) g) sb = l.
Proof. unfold pending_of. cbn [pending]. by rewrite lookup_insert_eq. Qed.

Lemma pending_of_insert_ne ev lv pe g sb l sb' :
  sb' <> sb -> pending_of (mkService ev lv (<[sb := l]> pe) g) sb' = pending_of (mkService ev lv pe g) sb'.
Proof. intros Hne. unfold pending_of. cbn [pending]. by rewrite lookup_insert_ne. Qed.

Lemma pending_of_delete ev lv pe g sb sb' :
  pending_of (mkService ev lv (delete sb pe) g) sb' =
  if decide (sb' = sb) then [] else pending_of (mkService ev lv pe g) sb'.
Proof.
  unfold pending_of. cbn [pending]. destruct (decide (sb' = sb)) as [->|].
  - by rewrite lookup_delete_eq.
  - by rewrite lookup_delete_ne.
Qed.

Lemma live_of_delete ev lv pe g sb sb' :
  live_of (mkService ev (delete sb lv) pe g) sb' =
  if decide (sb' = sb) then [] else live_of (mkService ev lv pe g) sb'.
Proof.
  unfold live_of. cbn [live]. destruct (decide (sb' = sb)) as [->|].
  - by rewrite lookup_delete_eq.
  - by rewrite lookup_delete_ne.
Qed.

Definition make_grant (req : CapabilityRequest) (now : time) : CapabilityGrant :=
  mkGrant (cr_SandboxID req) (cr_TaskID req) (cr_Capability req) (cr_ObservedDestIP req)
    (cr_ObservedDestPort req) GrantScopeSandboxLifetime now.

(** [Grant]; [audit_ok] is whether the audit append succeeds. *)
Definition Grant (s : CapabilityService) (req : CapabilityRequest) (now : time) (audit_ok : bool)
    : CapabilityService * outcome cap_err CapabilityGrant :=
  match CapabilityRequest_Validate req with
  | Err e => (s, Fail (CapInvalid e))
  | Ok _ =>
      let grant := make_grant req now in
      if negb audit_ok then (s, Fail CapAudit)
      else
        let s := mkService (events s ++ [grantEvent grant]) (live s) (pending s) (granter s) in
        let widened :=
          if String.eqb (cr_Capability req) CapabilityEgress
          then gr_allow (granter s) (cr_SandboxID req) (AllowlistEntry grant)
          else Ret (granter s) in
        match widened with
        | Panic => (s, Panic)
        | Fail e => (s, Fail (CapWiden e))
        | Ret g =>
            (mkService (events s)
               (<[cr_SandboxID req := live_of s (cr_SandboxID req) ++ [grant]]> (live s))
               (pending s) g, Ret grant)
        end
  end.

Definition RecordDenial (s : CapabilityService) (d : ObservedDenial) : CapabilityService :=
  match RequestFromObservedDenial d with
  | Err _ => s
  | Ok req =>
      let key := Request_Key req in
      let sb := cr_SandboxID req in
      if existsb (fun g => String.eqb (Grant_Key g) key) (live_of s sb) then s
      else if existsb (fun p => String.eqb (Request_Key p) key) (pending_of s sb) then s
      else mkService (events s) (live s) (<[sb := pending_of s sb ++ [req]]> (pending s)) (granter s)
  end.

Definition PendingRequests (s : CapabilityService) (sb : string) : list CapabilityRequest := pending_of s sb.
Definition LiveGrants (s : CapabilityService) (sb : string) : list CapabilityGrant := live_of s sb.

Definition removeRequest (reqs : list CapabilityRequest) (key : string) : list CapabilityRequest :=
  List.filter (fun r => negb (String.eqb (Request_Key r) key)) reqs.

Definition Approve (s : CapabilityService) (sb key : string) (now : time) (audit_ok : bool)
    : CapabilityService * outcome cap_err CapabilityGrant :=
  match find (fun r => String.eqb (Request_Key r) key) (pending_of s sb) with
  | None => (s, Fail ErrCapabilityGrantNotFound)
  | Some req =>
      match Grant s req now audit_ok with
      | (s, Ret g) =>
          let rest := removeRequest (pending_of s sb) key in
          (mkService (events s) (live s)
             (if (length rest =? 0)%nat then delete sb (pending s) else <[sb := rest]> (pending s))
             (granter s), Ret g)
      | r => r
      end
  end.

Definition Revoke (s : CapabilityService) (sb : string) : outcome runner_err CapabilityService :=
  match gr_revoke (granter s) sb with
  | Ret g => Ret (mkService (events s) (delete sb (live s)) (delete sb (pending s)) g)
  | Fail e => Fail e
  | Panic => Panic
  end.

(** [ReplayGrants]: the loop over the live grants. *)
Fixpoint replay (g : G) (sb : string) (gs : list CapabilityGrant) : outcome cap_err G :=
  match gs with
  | [] => Ret g
  | c :: gs =>
      if negb (String.eqb (cg_Capability c) CapabilityEgress) then replay g sb gs
      else match gr_allow g sb (AllowlistEntry c) with
           | Ret g => replay g sb gs
           | Fail e => Fail (CapWiden e)
           | Panic => Panic
           end
  end.

Definition ReplayGrants (s : CapabilityService) (sb : string) : outcome cap_err CapabilityService :=
  match replay (granter s) sb (LiveGrants s sb) with
  | Ret g => Ret (mkService (events s) (live s) (pending s) g)
  | Fail e => Fail e
  | Panic => Panic
  end.

(** ** Properties *)

(** Granting, branch by branch. A refused request or a failed audit
    changes nothing. Otherwise the event is on the record before the engine is
    asked; if the engine refuses, the record stands and nothing is live; if it
    accepts, exactly this grant, scoped to the sandbox's lifetime, joins the
    live grants and the engine admits its destination. *)
Theorem Grant_branches s req now audit_ok :
  let '(s', o) := Grant s req now audit_ok in
  let grant := make_grant req now in
  match o with
  | Ret g => g = grant /\ CapabilityRequest_Validate req = Ok tt /\ audit_ok = true /\
      events s' = events s ++ [grantEvent grant] /\
      live s' = <[cr_SandboxID req := live_of s (cr_SandboxID req) ++ [grant]]> (live s) /\
      pending s' = pending s /\
      (cr_Capability req = CapabilityEgress ->
       gr_admits (granter s') (cr_SandboxID req) (AllowlistEntry grant))
  | Fail (CapWiden _) | Panic =>
      events s' = events s ++ [grantEvent grant] /\ live s' = live s /\ pending s' = pending s /\
      granter s' = granter s /\ cr_Capability req = CapabilityEgress
  | Fail _ => s' = s /\ (audit_ok = false \/ CapabilityRequest_Validate req <> Ok tt)
  end.
Proof.
  unfold Grant. destruct (CapabilityRequest_Validate req) as [[]|e] eqn:Ev; [|split; [done|by right]].
  destruct audit_ok; cbn [negb]; [|split; [done|by left]].
  destruct (String.eqb_spec (cr_Capability req) CapabilityEgress) as [Hc|Hc]; cbn [granter].
  - destruct (gr_allow _ _ _) as [g|e|] eqn:Eg; [|done..]. split_and!; try done.
    intros _. cbn. by eapply gr_allow_admits.
  - split_and!; done.
Qed.

(** Recording a denial twice is recording it once: one prompt per
    destination. *)
Theorem RecordDenial_idempotent s d : RecordDenial (RecordDenial s d) d = RecordDenial s d.
Proof.
  unfold RecordDenial at 2 3. destruct (RequestFromObservedDenial d) as [req|] eqn:Er.
  2:{ unfold RecordDenial. by rewrite Er. }
  destruct (existsb _ (live_of s _)) eqn:El; [unfold RecordDenial; by rewrite Er, El|].
  destruct (existsb _ (pending_of s _)) eqn:Ep; [unfold RecordDenial; by rewrite Er, El, Ep|].
  unfold RecordDenial. rewrite Er. unfold live_of in *. cbn [live]. rewrite El.
  rewrite pending_of_insert, existsb_app. cbn. by rewrite String.eqb_refl, orb_true_r.
Qed.

(** ** Reachable states *)

Inductive cap_op : Type :=
  | CGrant (req : CapabilityRequest) (now : time) (audit_ok : bool)
  | CDenial (d : ObservedDenial)
  | CApprove (sb key : string) (now : time) (audit_ok : bool)
  | CRevoke (sb : string)
  | CReplay (sb : string).

(** A step ends in a new state unless it panics. *)
Definition cap_step (s : CapabilityService) (o : cap_op) : CapabilityService :=
  match o with
  | CGrant req now ok => fst (Grant s req now ok)
  | CDenial d => RecordDenial s d
  | CApprove sb key now ok => fst (Approve s sb key now ok)
  | CRevoke sb => match Revoke s sb with Ret s' => s' | _ => s end
  | CReplay sb => match ReplayGrants s sb with Ret s' => s' | _ => s end
  end.

Definition NewService (g : G) : CapabilityService := mkService [] ∅ ∅ g.

(** What holds of every reachable state. *)
Record cap_inv (s : CapabilityService) : Prop := {
  ci_audited sb c : c ∈ live_of s sb ->
    cg_SandboxID c = sb /\ grantEvent c ∈ events s /\ cg_Scope c = GrantScopeSandboxLifetime;
  ci_pending sb r : r ∈ pending_of s sb -> cr_SandboxID r = sb /\ CapabilityRequest_Validate r = Ok tt;
  ci_nodup sb : NoDup (Request_Key <$> pending_of s sb)
}.

Lemma NoDup_filter_keys (f : CapabilityRequest -> bool) l :
  NoDup (Request_Key <$> l) -> NoDup (Request_Key <$> List.filter f l).
Proof.
  induction l as [|r l IH]; cbn; [done|]. intros [Hn Hd]%NoDup_cons. destruct (f r); cbn; [|by apply IH].
  apply NoDup_cons. split; [|by apply IH]. intros (q & Hq & Hin)%list_elem_of_fmap.
  apply Hn, list_elem_of_fmap. exists q. split; [done|].
  apply list_elem_of_In, filter_In in Hin as [? _]. by apply list_elem_of_In.
Qed.

Lemma RequestFromObservedDenial_Ok d req :
  RequestFromObservedDenial d = Ok req -> CapabilityRequest_Validate req = Ok tt /\
    cr_SandboxID req = od_SandboxID d /\ cr_Capability req = CapabilityEgress.
Proof. unfold RequestFromObservedDenial. intros Hr. inv_res. done. Qed.

Lemma Grant_inv s req now ok : cap_inv s -> cap_inv (fst (Grant s req now ok)).
Proof.
  intros [Ha Hp Hn]. pose proof (Grant_branches s req now ok) as Hb.
  destruct (Grant s req now ok) as [s' o]. cbn [fst].
  destruct o as [g|e|]; [destruct Hb as (-> & _ & _ & He & Hl & Hpe & _)|destruct e|destruct Hb as (He & Hl & Hpe & _)].
  2,3,5: by destruct Hb as [-> _].
  2: destruct Hb as (He & Hl & Hpe & _).
  all: split; unfold pending_of, live_of in *; rewrite ?He, ?Hl, ?Hpe; auto.
  - intros sb c Hc. rewrite elem_of_app.
    destruct (decide (sb = cr_SandboxID req)) as [->|Hne].
    + rewrite lookup_insert_eq in Hc. cbn in Hc.
      apply elem_of_app in Hc as [Hc| ->%list_elem_of_singleton].
      * destruct (Ha _ _ Hc) as (? & ? & ?). tauto.
      * split_and!; try done. right. by apply list_elem_of_singleton.
    + rewrite lookup_insert_ne in Hc by done. destruct (Ha _ _ Hc) as (? & ? & ?). tauto.
  - intros sb c Hc. rewrite elem_of_app. destruct (Ha _ _ Hc) as (? & ? & ?). tauto.
  - intros sb c Hc. rewrite elem_of_app. destruct (Ha _ _ Hc) as (? & ? & ?). tauto.
Qed.

Lemma RecordDenial_inv s d : cap_inv s -> cap_inv (RecordDenial s d).
Proof.
  intros Hinv. unfold RecordDenial. destruct (RequestFromObservedDenial d) as [req|] eqn:Er; [|done].
  apply RequestFromObservedDenial_Ok in Er as (Hv & _ & _).
  destruct (existsb _ (live_of _ _)); [done|].
  destruct (existsb _ (pending_of _ _)) eqn:Ep; [done|]. apply Forall_existsb_false in Ep.
  destruct Hinv as [Ha Hp Hn]. split; [exact Ha| |].
  - intros sb r. destruct (decide (sb = cr_SandboxID req)) as [->|Hne].
    + rewrite pending_of_insert, elem_of_app, list_elem_of_singleton. intros [Hr | ->]; [by apply Hp|done].
    + rewrite pending_of_insert_ne by done. apply Hp.
  - intros sb. destruct (decide (sb = cr_SandboxID req)) as [->|Hne].
    + rewrite pending_of_insert, fmap_app. apply NoDup_app. split; [apply Hn|]. split.
      * intros k (r & -> & Hr)%list_elem_of_fmap Hk. cbn in Hk.
        apply list_elem_of_singleton in Hk. rewrite Forall_forall in Ep. specialize (Ep r Hr).
        by rewrite Hk, String.eqb_refl in Ep.
      * cbn. apply NoDup_singleton.
    + rewrite pending_of_insert_ne by done. apply Hn.
Qed.

Lemma Approve_inv s sb key now ok : cap_inv s -> cap_inv (fst (Approve s sb key now ok)).
Proof.
  intros Hinv. unfold Approve. destruct (find _ _) as [req|]; [|done].
  pose proof (Grant_inv s req now ok Hinv) as Hg.
  destruct (Grant s req now ok) as [s' [g|e|]]; cbn [fst] in *; [|done..].
  destruct Hg as [Ha Hp Hn]. split; [exact Ha| |]; intros sb'.
  - intros r. destruct (length _ =? 0)%nat.
    + rewrite pending_of_delete. destruct (decide _); [by intros ?%not_elem_of_nil|apply Hp].
    + destruct (decide (sb' = sb)) as [->|]; [|rewrite pending_of_insert_ne by done; apply Hp].
      rewrite pending_of_insert. intros [? _]%list_elem_of_In%filter_In. by apply Hp, list_elem_of_In.
  - destruct (length _ =? 0)%nat.
    + rewrite pending_of_delete. destruct (decide _); [constructor|apply Hn].
    + destruct (decide (sb' = sb)) as [->|]; [|rewrite pending_of_insert_ne by done; apply Hn].
      rewrite pending_of_insert. apply NoDup_filter_keys, Hn.
Qed.

Lemma cap_step_inv s o : cap_inv s -> cap_inv (cap_step s o).
Proof.
  intros Hinv. destruct o as [req now ok|d|sb key now ok|sb|sb]; cbn [cap_step].
  - by apply Grant_inv.
  - by apply RecordDenial_inv.
  - by apply Approve_inv.
  - unfold Revoke. destruct (gr_revoke _ _); [|done..]. destruct Hinv as [Ha Hp Hn]. split.
    + intros sb' c. rewrite live_of_delete. destruct (decide _); [by intros ?%not_elem_of_nil|apply Ha].
    + intros sb' r. rewrite pending_of_delete. destruct (decide _); [by intros ?%not_elem_of_nil|apply Hp].
    + intros sb'. rewrite pending_of_delete. destruct (decide _); [constructor|apply Hn].
  - unfold ReplayGrants. destruct (replay _ _ _); [|done..]. destruct Hinv as [Ha Hp Hn]. by split.
Qed.

(** C36. In every state the service reaches from an empty one, each live
    grant belongs to its sandbox, is scoped to its lifetime and has its event
    on the append-only record, and no sandbox has two pending requests for the
    same destination, each pending request being a valid one. *)
Theorem reachable_grants_audited g ops : cap_inv (fold_left cap_step ops (NewService g)).
Proof.
  assert (cap_inv (NewService g)) as H0.
  { split; unfold live_of, pending_of; cbn; intros; rewrite ?lookup_empty in *;
      try constructor; by apply not_elem_of_nil in H0. }
  revert H0. generalize (NewService g). induction ops as [|o ops IH]; intros s Hs; [done|].
  apply IH. by apply cap_step_inv.
Qed.

(** An approval consumes the pending request it approves; approving a
    key nothing is pending under finds nothing. *)
Theorem Approve_one_shot s sb key now ok :
  (Forall (fun r => Request_Key r <> key) (pending_of s sb) ->
   Approve s sb key now ok = (s, Fail ErrCapabilityGrantNotFound)) /\
  (forall s' g, Approve s sb key now ok = (s', Ret g) ->
   Forall (fun r => Request_Key r <> key) (pending_of s' sb) /\
   forall now' ok', snd (Approve s' sb key now' ok') = Fail ErrCapabilityGrantNotFound).
Proof.
  assert (Hnone : forall s now ok, Forall (fun r => Request_Key r <> key) (pending_of s sb) ->
    Approve s sb key now ok = (s, Fail ErrCapabilityGrantNotFound)).
  { clear. intros s now ok HF. unfold Approve. destruct (find _ _) as [r|] eqn:Ef; [|done].
    apply find_some in Ef as [Hr Hk%String.eqb_eq]. rewrite Forall_forall in HF.
    by destruct (HF r (proj2 (list_elem_of_In _ _) Hr)). }
  split; [apply Hnone|]. intros s' g Ha.
  assert (Forall (fun r => Request_Key r <> key) (pending_of s' sb)) as HF; [|split; [done|]].
  - unfold Approve in Ha. destruct (find _ _); [|done]. destruct (Grant s c now ok) as [s1 [g1|e|]]; [|done..].
    injection Ha as <- _. apply Forall_forall. intros r Hr. destruct (length _ =? 0)%nat.
    + rewrite pending_of_delete, decide_True in Hr by done. by apply not_elem_of_nil in Hr.
    + rewrite pending_of_insert in Hr. apply list_elem_of_In, filter_In in Hr as [_ Hr].
      by apply negb_true_iff, String.eqb_neq in Hr.
  - intros now' ok'. by rewrite Hnone.
Qed.

(** Teardown drops a sandbox's grants and pending requests, in the
    service and in the engine; other sandboxes keep theirs; the record stays. *)
Theorem Revoke_drops s sb s' :
  Revoke s sb = Ret s' ->
  LiveGrants s' sb = [] /\ PendingRequests s' sb = [] /\ events s' = events s /\
  (forall e, ~ gr_admits (granter s') sb e) /\
  (forall sb', sb' <> sb -> LiveGrants s' sb' = LiveGrants s sb' /\
     PendingRequests s' sb' = PendingRequests s sb' /\
     forall e, gr_admits (granter s) sb' e -> gr_admits (granter s') sb' e).
Proof.
  unfold Revoke. destruct (gr_revoke _ _) as [g|e|] eqn:E; [|done..]. intros [= <-].
  unfold LiveGrants, PendingRequests. rewrite live_of_delete, pending_of_delete, !decide_True by done.
  split_and!; try done.
  - intros e. by eapply gr_revoke_drops.
  - intros sb' Hne. rewrite live_of_delete, pending_of_delete, !decide_False by done.
    split_and!; try done. intros e. by eapply gr_revoke_keeps.
Qed.

Lemma replay_admits g sb gs g' :
  replay g sb gs = Ret g' ->
  (forall e, gr_admits g sb e -> gr_admits g' sb e) /\
  forall c, c ∈ gs -> cg_Capability c = CapabilityEgress -> gr_admits g' sb (AllowlistEntry c).
Proof.
  revert g. induction gs as [|c gs IH]; intros g; cbn.
  { intros [= <-]. split; [done|]. by intros c ?%not_elem_of_nil. }
  destruct (String.eqb_spec (cg_Capability c) CapabilityEgress) as [Hc|Hc]; cbn [negb].
  - destruct (gr_allow _ _ _) as [g1|e|] eqn:E; [|done..]. intros [Hk Ha]%IH. split.
    + intros e He. apply Hk. by eapply gr_allow_keeps.
    + intros c' [->|Hin]%elem_of_cons Hc'; [|by apply Ha]. by eapply Hk, gr_allow_admits.
  - intros [Hk Ha]%IH. split; [done|]. intros c' [->|Hin]%elem_of_cons Hc'; [done|by apply Ha].
Qed.

(** After a resume, replaying succeeds only with every live egress
    grant of the sandbox admitted again, however empty the rebuilt engine was;
    the record and the grants themselves are untouched. *)
Theorem ReplayGrants_restores s sb s' :
  ReplayGrants s sb = Ret s' ->
  (forall c, c ∈ LiveGrants s sb -> cg_Capability c = CapabilityEgress ->
     gr_admits (granter s') sb (AllowlistEntry c)) /\
  events s' = events s /\ live s' = live s /\ pending s' = pending s.
Proof.
  unfold ReplayGrants. destruct (replay _ _ _) as [g|e|] eqn:E; [|done..]. intros [= <-].
  split_and!; try done. cbn. by eapply replay_admits.
Qed.
End Service.
Arguments CapabilityService G : clear implicits.

(** ** With the runner as the engine *)

Definition sample_denial : ObservedDenial := mkDenial "01SB" "MGIT-1" (ip4 93 184 216 34) 443 "raw-ip".
Definition sample_service : CapabilityService Runner :=
  RecordDenial (NewService sample_runner) sample_denial.
Definition granted_service : CapabilityService Runner :=
  fst (Approve sample_service "01SB" "93.184.216.34:443" 7 true).

Lemma Approve_one_shot_witness :
  exists s' g, Approve sample_service "01SB" "93.184.216.34:443" 7 true = (s', Ret g) /\
    snd (Approve s' "01SB" "93.184.216.34:443" 8 true) = Fail ErrCapabilityGrantNotFound.
Proof.
  eexists _, _. split; [vm_compute; reflexivity|].
  refine (proj2 (proj2 (Approve_one_shot sample_service "01SB" "93.184.216.34:443" 7 true) _ _ _) 8 true).
  vm_compute. reflexivity.
Defined.

Lemma Revoke_drops_witness :
  LiveGrants granted_service "01SB" <> [] /\
  exists s', Revoke granted_service "01SB" = Ret s' /\ LiveGrants s' "01SB" = [].
Proof.
  split; [vm_compute; discriminate|]. eexists. split; [vm_compute; reflexivity|].
  refine (proj1 (Revoke_drops granted_service "01SB" _ _)). vm_compute. reflexivity.
Defined.

(** The sandbox is suspended and resumed: its stack is stopped and started afresh. *)
Definition resumed_service : CapabilityService Runner :=
  mkService (events granted_service) (live granted_service) (pending granted_service) sample_runner.

Lemma ReplayGrants_restores_witness :
  exists s', ReplayGrants resumed_service "01SB" = Ret s' /\
    runner_admits (granter s') "01SB" "93.184.216.34:443".
Proof.
  eexists. split; [vm_compute; reflexivity|].
  refine (proj1 (ReplayGrants_restores resumed_service "01SB" _ _)
    (make_grant (mkCapReq "01SB" "MGIT-1" CapabilityEgress "93.184.216.34" 443) 7) _ _).
  - vm_compute. reflexivity.
  - vm_compute. left.
  - reflexivity.
Defined.

(** Approving egress to an IPv6 destination never succeeds: whatever
    the runner's state, the grant is put on the append-only record and then
    refused by the runner, and nothing becomes live. *)
Theorem ipv6_grant_never_live (s : CapabilityService Runner) req now a z :
  CapabilityRequest_Validate req = Ok tt -> cr_Capability req = CapabilityEgress ->
  ParseAddr (cr_ObservedDestIP req) = Some (A6 a z) ->
  let '(s', o) := Grant s req now true in
  (exists e, o = Fail (CapWiden e)) /\ live s' = live s /\
  events s' = events s ++ [grantEvent (make_grant req now)].
Proof.
  intros Hv Hc Hp. unfold Grant. rewrite Hv, Hc. cbn [negb].
  change (String.eqb CapabilityEgress CapabilityEgress) with true. cbn iota.
  assert (0 <= cr_ObservedDestPort req) as Hport.
  { unfold CapabilityRequest_Validate, invalid_if in Hv. rewrite Hc in Hv.
    change (String.eqb CapabilityEgress CapabilityEgress) with true in Hv. cbn iota in Hv.
    inv_res. bool_to_prop. lia. }
  pose proof (parseGrantEntry_ipv6_refused _ _ _ _ Hp Hport) as Hr.
  change (gr_allow (granter (mkService (events s ++ [grantEvent (make_grant req now)]) (live s) (pending s) (granter s))))
    with (AllowEgress (granter s)).
  unfold AllowEgress at 1. change (AllowlistEntry (make_grant req now)) with
    (dest_key (cr_ObservedDestIP req) (cr_ObservedDestPort req)).
  destruct (parseGrantEntry _) as [|e]; [done|]. cbn. split_and!; [by exists e|done..].
Qed.

Lemma ipv6_grant_never_live_witness :
  let req := mkCapReq "01SB" "MGIT-1" CapabilityEgress "2606:4700::1" 443 in
  CapabilityRequest_Validate req = Ok tt /\
  live (fst (Grant sample_service req 7 true)) = live sample_service.
Proof.
  split; [vm_compute; reflexivity|].
  pose proof (ipv6_grant_never_live sample_service
    (mkCapReq "01SB" "MGIT-1" CapabilityEgress "2606:4700::1" 443) 7
    (groups_value [0x2606; 0x4700; 0; 0; 0; 0; 0; 1]) "" eq_refl eq_refl eq_refl) as Hw.
  destruct (Grant sample_service _ 7 true) as [s' o]. exact (proj1 (proj2 Hw)).
Defined.
