(* ===== verification/Ledger.v ===== *)
(** * The ledger of task commits

    [internal/store/index/task_commits.go] and [content_admission.go]: the
    append-only tables [task_commits] and [content_admissions] of the index,
    every statement that reads or writes them, and the transactions built of
    those. A transaction is a function on [Tables] that fails or returns the new
    tables; one that fails leaves the old ones ([Store.WriteTx] rolls back). The
    schema's own rules (AUTOINCREMENT ids, UNIQUE(task_id, commit_hash), the
    CHECK lists, the foreign key) are part of the inserts. *)
From Stdlib Require Import ZArith Lia Ascii String.
From stdpp Require Import sorting.
From S2P Require Import Prelude GoStrings.
Open Scope Z_scope.

Record CommitRecord := mkRecord {
  cr_ID : Z; cr_TaskID : string; cr_CommitHash : string; cr_ContentHash : string;
  cr_AgentID : string; cr_Position : Z; cr_CreatedAt : string; cr_SandboxID : option string }.
#[export] Instance CommitRecord_eq_dec : EqDecision CommitRecord.
Proof. solve_decision. Defined.

Record TaskCommitInsert := mkInsert {
  in_TaskID : string; in_CommitHash : string; in_ContentHash : string; in_AgentID : string;
  in_Position : Z; in_SandboxID : string; in_Origin : string; in_GuestContentHash : string }.

(** A row of [content_admissions]. *)
Record Admission := mkAdmission {
  ad_ID : Z; ad_TaskCommitID : Z; ad_TaskID : string; ad_CommitHash : string;
  ad_ContentHash : string; ad_Origin : string; ad_State : string;
  ad_GuestContentHash : string; ad_CreatedAt : string }.

(** The two tables, each with the last id AUTOINCREMENT gave out. *)
Record Tables := mkTables {
  t_commits : list CommitRecord; t_admissions : list Admission;
  t_commit_seq : Z; t_admission_seq : Z }.
Definition empty_tables : Tables := mkTables [] [] 0 0.

Definition OriginHost := "host".
Definition OriginLand := "land".
Definition AdmissionPending := "pending".
Definition AdmissionDelivered := "delivered".

Inductive ledger_err : Type :=
  | EUnique | ECheck | EForeignKey
  | EAmbiguous (row : CommitRecord)
  | ENoDelivered
  | EUnindexed (hash : string)
  | EUndelivered (row : CommitRecord)
  | EBindingMismatch (row : CommitRecord)
  | ETransition (id : Z).

(** ** Writing *)

(** [insertAdmission]. *)
Definition insertAdmission (r : CommitRecord) (origin state guestHash now : string) (T : Tables)
    : res ledger_err Tables :=
  _ ← err_if (negb (bool_decide (origin ∈ [OriginHost; OriginLand])
                    && bool_decide (state ∈ [AdmissionPending; AdmissionDelivered]))) ECheck;
  _ ← err_if (negb (existsb (fun c => cr_ID c =? cr_ID r) (t_commits T))) EForeignKey;
  let id := t_admission_seq T + 1 in
  Ok (mkTables (t_commits T)
        (t_admissions T ++ [mkAdmission id (cr_ID r) (cr_TaskID r) (cr_CommitHash r)
           (cr_ContentHash r) origin state guestHash now])
        (t_commit_seq T) id).

(** The row an insert stores: an empty sandbox id is NULL. *)
Definition insert_record (id : Z) (now : string) (i : TaskCommitInsert) : CommitRecord :=
  mkRecord id (in_TaskID i) (in_CommitHash i) (in_ContentHash i) (in_AgentID i) (in_Position i) now
    (if String.eqb (in_SandboxID i) "" then None else Some (in_SandboxID i)).

Definition insertTaskCommitTx (now : string) (i : TaskCommitInsert) (T : Tables)
    : res ledger_err Tables :=
  _ ← err_if (existsb (fun r => String.eqb (cr_TaskID r) (in_TaskID i)
                                && String.eqb (cr_CommitHash r) (in_CommitHash i)) (t_commits T)) EUnique;
  let id := t_commit_seq T + 1 in
  let r := insert_record id now i in
  let T := mkTables (t_commits T ++ [r]) (t_admissions T) id (t_admission_seq T) in
  if String.eqb (in_Origin i) "" then Ok T
  else
    let state := if String.eqb (in_Origin i) OriginHost then AdmissionDelivered
                 else AdmissionPending in
    insertAdmission r (in_Origin i) state (in_GuestContentHash i) now T.

Fixpoint insert_rows (now : string) (ins : list TaskCommitInsert) (T : Tables)
    : res ledger_err Tables :=
  match ins with
  | [] => Ok T
  | i :: ins => T ← insertTaskCommitTx now i T; insert_rows now ins T
  end.

Definition AppendTaskCommit (now : string) (i : TaskCommitInsert) (T : Tables)
    : res ledger_err Tables := insertTaskCommitTx now i T.
Definition AppendTaskCommits (now : string) (ins : list TaskCommitInsert) (T : Tables)
    : res ledger_err Tables :=
  match ins with [] => Ok T | _ => insert_rows now ins T end.
Definition AddCommitToTask (now taskID commitHash contentHash agentID : string) (position : Z)
    (T : Tables) : res ledger_err Tables :=
  AppendTaskCommit now (mkInsert taskID commitHash contentHash agentID position "" OriginHost "") T.

(** ** Reading *)

(** [ORDER BY position ASC], rows of one position in the order of the table. *)
Definition by_position (a b : CommitRecord) : Prop :=
  cr_Position a < cr_Position b \/ (cr_Position a = cr_Position b /\ cr_ID a <= cr_ID b).
#[export] Instance by_position_dec a b : Decision (by_position a b).
Proof. unfold by_position. apply _. Defined.
Definition by_id (a b : CommitRecord) : Prop := cr_ID a <= cr_ID b.
#[export] Instance by_id_dec a b : Decision (by_id a b).
Proof. unfold by_id. apply _. Defined.

(** SQL leaves the order of rows of one position open; here it is that of their ids. *)
Definition GetTaskCommits (taskID : string) (T : Tables) : list CommitRecord :=
  merge_sort by_position (filter (fun r => cr_TaskID r = taskID) (t_commits T)).
Definition GetUnsandboxedCommits (T : Tables) : list CommitRecord :=
  merge_sort by_id (filter (fun r => cr_SandboxID r = None) (t_commits T)).

(** One row with its latest admission, if it has one. *)
Record ContentRecord := mkContent {
  co_Row : CommitRecord; co_Origin : string; co_State : string; co_GuestContentHash : string }.

(** The sub-select's condition: same row, task, commit and content. *)
Definition admits_row (r : CommitRecord) (a : Admission) : bool :=
  (ad_TaskCommitID a =? cr_ID r) && String.eqb (ad_TaskID a) (cr_TaskID r)
  && String.eqb (ad_CommitHash a) (cr_CommitHash r)
  && String.eqb (ad_ContentHash a) (cr_ContentHash r).
(** [MAX(id)] of a list of admissions, [None] of none. *)
Fixpoint latest (l : list Admission) : option Admission :=
  match l with
  | [] => None
  | a :: l => match latest l with
              | Some b => Some (if ad_ID a <? ad_ID b then b else a)
              | None => Some a
              end
  end.
Definition content_of (T : Tables) (r : CommitRecord) : ContentRecord :=
  match latest (List.filter (admits_row r) (t_admissions T)) with
  | Some a => mkContent r (ad_Origin a) (ad_State a) (ad_GuestContentHash a)
  | None => mkContent r "" "" ""
  end.

Definition GetContentSnapshot (task : string) (T : Tables) : list ContentRecord :=
  map (content_of T) (GetTaskCommits task T).
Definition snapshot_of_commit (hash : string) (T : Tables) : list ContentRecord :=
  map (content_of T) (merge_sort by_id (filter (fun r => cr_CommitHash r = hash) (t_commits T))).

(** The known origins, as [RequireKnownContentOrigins] tests them. *)
Definition known (c : ContentRecord) : bool :=
  (String.eqb (co_Origin c) OriginHost && String.eqb (co_State c) AdmissionDelivered)
  || (String.eqb (co_Origin c) OriginLand
      && (String.eqb (co_State c) AdmissionPending || String.eqb (co_State c) AdmissionDelivered)).
Definition RequireKnownContentOrigins (l : list ContentRecord) : res ledger_err unit :=
  forM_ (fun c => err_if (negb (known c)) (EAmbiguous (co_Row c))) l.

Definition is_delivered (c : ContentRecord) : bool := String.eqb (co_State c) AdmissionDelivered.

Definition GetContentCommits (task : string) (T : Tables) : res ledger_err (list CommitRecord) :=
  let snapshot := GetContentSnapshot task T in
  _ ← RequireKnownContentOrigins snapshot;
  let result := map co_Row (List.filter is_delivered snapshot) in
  if (0 <? length snapshot)%nat && (length result =? 0)%nat then Err ENoDelivered else Ok result.

Definition RequireContentCommit (hash : string) (T : Tables) : res ledger_err unit :=
  let rows := snapshot_of_commit hash T in
  _ ← err_if (length rows =? 0)%nat (EUnindexed hash);
  _ ← RequireKnownContentOrigins rows;
  forM_ (fun c => err_if (negb (is_delivered c)) (EUndelivered (co_Row c))) rows.

(** ** Delivery *)

(** The row a delivery names, among the rows of its commit. *)
Definition delivery_row (rec : CommitRecord) (T : Tables) : option ContentRecord :=
  find (fun c => (cr_ID (co_Row c) =? cr_ID rec) && String.eqb (cr_TaskID (co_Row c)) (cr_TaskID rec)
                 && String.eqb (cr_ContentHash (co_Row c)) (cr_ContentHash rec))
       (snapshot_of_commit (cr_CommitHash rec) T).

Fixpoint RecordDelivered (now : string) (records : list CommitRecord) (T : Tables)
    : res ledger_err Tables :=
  match records with
  | [] => Ok T
  | rec :: records =>
    match delivery_row rec T with
    | None => Err (EBindingMismatch rec)
    | Some found =>
      _ ← RequireKnownContentOrigins [found];
      if is_delivered found then RecordDelivered now records T
      else if negb (String.eqb (co_Origin found) OriginLand)
              || negb (String.eqb (co_State found) AdmissionPending)
      then Err (ETransition (cr_ID rec))
      else
        T ← insertAdmission rec (co_Origin found) AdmissionDelivered
              (co_GuestContentHash found) now T;
        RecordDelivered now records T
    end
  end.

(** [LandAdmissions]: the commits with a land row, undelivered and delivered. *)
Definition LandAdmissions (T : Tables) : gset string * gset string :=
  let rows := List.filter (fun c => String.eqb (co_Origin c) OriginLand)
                (map (content_of T) (merge_sort by_id (t_commits T))) in
  let hashes f := list_to_set (map (fun c => cr_CommitHash (co_Row c)) (List.filter f rows)) in
  let undelivered := hashes (fun c => negb (is_delivered c)) in
  (undelivered, hashes is_delivered ∖ undelivered).

(** The reverse lookups. [LIMIT 1] without an order: the first row scanned. *)
Definition GetCommitProvenance (commitHash : string) (T : Tables) : option (string * string) :=
  r ← find (fun r => String.eqb (cr_CommitHash r) commitHash) (t_commits T);
  Some (cr_TaskID r, cr_ContentHash r).
Definition GetCommitTask (commitHash : string) (T : Tables) : option string :=
  fst <$> GetCommitProvenance commitHash T.

(** ** The abstract ledger

    What the two tables promise together: a list of rows that only grows, each
    with a status that only ever moves from [Pending] to [Delivered]. *)
Inductive status := Unknown | Host | Pending | Delivered.
#[export] Instance status_eq_dec : EqDecision status.
Proof. solve_decision. Defined.

Definition status_of (c : ContentRecord) : status :=
  if String.eqb (co_Origin c) OriginHost && String.eqb (co_State c) AdmissionDelivered then Host
  else if String.eqb (co_Origin c) OriginLand then
    if String.eqb (co_State c) AdmissionPending then Pending
    else if String.eqb (co_State c) AdmissionDelivered then Delivered else Unknown
  else Unknown.
Definition is_content (s : status) : bool := bool_decide (s = Host \/ s = Delivered).

Definition ALedger := (list (CommitRecord * status)).
Definition abs (T : Tables) : ALedger :=
  map (fun r => (r, status_of (content_of T r))) (t_commits T).

(** The status a row is born with, if its origin is one the ledger knows. *)
Definition birth (origin : string) : option status :=
  if String.eqb origin "" then Some Unknown
  else if String.eqb origin OriginHost then Some Host
  else if String.eqb origin OriginLand then Some Pending else None.

Fixpoint a_append (now : string) (ins : list TaskCommitInsert) (L : ALedger) : option ALedger :=
  match ins with
  | [] => Some L
  | i :: ins =>
    if existsb (fun e => String.eqb (cr_TaskID e.1) (in_TaskID i)
                         && String.eqb (cr_CommitHash e.1) (in_CommitHash i)) L then None
    else
      s ← birth (in_Origin i);
      a_append now ins (L ++ [(insert_record (Z.of_nat (length L) + 1) now i, s)])
  end.

(** A record that names a row: everything a delivery binds agrees. *)
Definition names (rec r : CommitRecord) : bool :=
  (cr_ID r =? cr_ID rec) && String.eqb (cr_TaskID r) (cr_TaskID rec)
  && String.eqb (cr_CommitHash r) (cr_CommitHash rec)
  && String.eqb (cr_ContentHash r) (cr_ContentHash rec).
Definition deliver1 (rec : CommitRecord) (e : CommitRecord * status) : CommitRecord * status :=
  if names rec e.1 && bool_decide (e.2 = Pending) then (e.1, Delivered) else e.
Fixpoint a_deliver (recs : list CommitRecord) (L : ALedger) : option ALedger :=
  match recs with
  | [] => Some L
  | rec :: recs =>
    if existsb (fun e => names rec e.1 && negb (bool_decide (e.2 = Unknown))) L
    then a_deliver recs (map (deliver1 rec) L) else None
  end.

(** A transaction of either writer, on the tables and on the abstract ledger;
    one that fails changes nothing. *)
Inductive tx := TxAppend (now : string) (ins : list TaskCommitInsert)
              | TxDeliver (now : string) (recs : list CommitRecord).
Definition commit (t : tx) (T : Tables) : Tables :=
  match (match t with TxAppend now ins => AppendTaskCommits now ins T
                    | TxDeliver now recs => RecordDelivered now recs T end)
  with Ok T' => T' | Err _ => T end.
Definition a_commit (t : tx) (L : ALedger) : ALedger :=
  default L (match t with TxAppend now ins => a_append now ins L
                        | TxDeliver _ recs => a_deliver recs L end).

(** ** The invariant *)
Record ledger_wf (T : Tables) : Prop := {
  wf_ids : map cr_ID (t_commits T) = map Z.of_nat (seq 1 (length (t_commits T)));
  wf_seq : t_commit_seq T = Z.of_nat (length (t_commits T));
  wf_unique : forall i j r r', t_commits T !! i = Some r -> t_commits T !! j = Some r' ->
    cr_TaskID r = cr_TaskID r' -> cr_CommitHash r = cr_CommitHash r' -> i = j;
  wf_adm_ids : Forall (fun a => ad_ID a <= t_admission_seq T) (t_admissions T);
  wf_adm_ref : Forall (fun a => exists r, r ∈ t_commits T /\ admits_row r a = true) (t_admissions T);
  wf_adm_vocab : Forall (fun a => (ad_Origin a, ad_State a) ∈
    [(OriginHost, AdmissionDelivered); (OriginLand, AdmissionPending);
     (OriginLand, AdmissionDelivered)]) (t_admissions T) }.

Lemma ledger_wf_empty : ledger_wf empty_tables.
Proof. by split; try constructor. Qed.

Lemma wf_lookup_id T i r : ledger_wf T -> t_commits T !! i = Some r -> cr_ID r = Z.of_nat i + 1.
Proof.
  intros W Hi. pose proof (f_equal (fun l => l !! i) (wf_ids _ W)) as H. cbn in H.
  rewrite !list_lookup_fmap, Hi in H. pose proof (lookup_lt_Some _ _ _ Hi) as Hlt.
  rewrite lookup_seq_lt in H by done. cbn in H. injection H as ->. lia.
Qed.
Lemma wf_id_inj T r r' : ledger_wf T -> r ∈ t_commits T -> r' ∈ t_commits T ->
  cr_ID r = cr_ID r' -> r = r'.
Proof.
  intros W [i Hi]%list_elem_of_lookup [j Hj]%list_elem_of_lookup He.
  pose proof (wf_lookup_id _ _ _ W Hi). pose proof (wf_lookup_id _ _ _ W Hj).
  assert (i = j) as -> by lia. congruence.
Qed.
Lemma wf_id_bound T r : ledger_wf T -> r ∈ t_commits T -> 1 <= cr_ID r <= t_commit_seq T.
Proof.
  intros W [i Hi]%list_elem_of_lookup. rewrite (wf_lookup_id _ _ _ W Hi), (wf_seq _ W).
  apply lookup_lt_Some in Hi. lia.
Qed.

(** ** Admissions *)

Lemma admits_row_true r a : admits_row r a = true <->
  ad_TaskCommitID a = cr_ID r /\ ad_TaskID a = cr_TaskID r /\
  ad_CommitHash a = cr_CommitHash r /\ ad_ContentHash a = cr_ContentHash r.
Proof. unfold admits_row. rewrite !andb_true_iff, Z.eqb_eq, !String.eqb_eq. tauto. Qed.
Lemma names_true rec r : names rec r = true <->
  cr_ID r = cr_ID rec /\ cr_TaskID r = cr_TaskID rec /\
  cr_CommitHash r = cr_CommitHash rec /\ cr_ContentHash r = cr_ContentHash rec.
Proof. unfold names. rewrite !andb_true_iff, Z.eqb_eq, !String.eqb_eq. tauto. Qed.

Lemma latest_snoc l a : Forall (fun b => ad_ID b < ad_ID a) l -> latest (l ++ [a]) = Some a.
Proof.
  induction 1 as [|b l Hb _ IH]; cbn; [done|]. rewrite IH.
  by rewrite (proj2 (Z.ltb_lt _ _) Hb).
Qed.
Lemma latest_elem l a : latest l = Some a -> a ∈ l.
Proof.
  revert a. induction l as [|b l IH]; intros a; cbn; [done|].
  destruct (latest l) as [c|]; intros [= <-]; [|by left]. case_match; [right; by apply IH|by left].
Qed.

(** The admission an insert appends. *)
Definition admission_of (r : CommitRecord) (origin state guest now : string) (T : Tables) : Admission :=
  mkAdmission (t_admission_seq T + 1) (cr_ID r) (cr_TaskID r) (cr_CommitHash r) (cr_ContentHash r)
    origin state guest now.

Lemma content_of_append T a commits n n' r :
  Forall (fun b => ad_ID b <= t_admission_seq T) (t_admissions T) ->
  ad_ID a = t_admission_seq T + 1 ->
  content_of (mkTables commits (t_admissions T ++ [a]) n n') r =
  if admits_row r a then mkContent r (ad_Origin a) (ad_State a) (ad_GuestContentHash a)
  else content_of T r.
Proof.
  intros HF Ha. unfold content_of. cbn [t_admissions]. rewrite List.filter_app. cbn [List.filter].
  destruct (admits_row r a); [|by rewrite app_nil_r].
  rewrite latest_snoc; [done|]. apply Forall_forall. intros b Hb.
  apply list_elem_of_In, filter_In in Hb as [Hb _]. apply list_elem_of_In in Hb.
  pose proof (proj1 (Forall_forall _ _) HF b Hb). cbn in *. lia.
Qed.

(** A row nothing refers to yet. *)
Lemma content_of_fresh T r : ledger_wf T -> t_commit_seq T < cr_ID r ->
  content_of T r = mkContent r "" "" "".
Proof.
  intros W Hr. unfold content_of. destruct (latest _) as [a|] eqn:Ha; [|done].
  apply latest_elem, list_elem_of_In, filter_In in Ha as [Hin Ha].
  apply list_elem_of_In in Hin. apply admits_row_true in Ha as [Hid _].
  destruct (proj1 (Forall_forall _ _) (wf_adm_ref _ W) a Hin) as (r' & Hr' & Ha').
  apply admits_row_true in Ha' as [Hid' _].
  pose proof (wf_id_bound _ _ W Hr'). lia.
Qed.

Lemma content_of_row T r : co_Row (content_of T r) = r.
Proof. unfold content_of. by destruct (latest _). Qed.

(** On well-formed tables [known] is having a status, and being delivered is
    being content. *)
Lemma content_of_vocab T r : ledger_wf T ->
  (co_Origin (content_of T r), co_State (content_of T r)) ∈
  [("", ""); (OriginHost, AdmissionDelivered); (OriginLand, AdmissionPending);
   (OriginLand, AdmissionDelivered)]%string.
Proof.
  intros W. unfold content_of. destruct (latest _) as [a|] eqn:Ha; cbn; [|by left].
  apply latest_elem, list_elem_of_In, filter_In in Ha as [Hin _]. apply list_elem_of_In in Hin.
  right. exact (proj1 (Forall_forall _ _) (wf_adm_vocab _ W) a Hin).
Qed.
Lemma content_of_status T r : ledger_wf T ->
  let c := content_of T r in
  known c = negb (bool_decide (status_of c = Unknown)) /\
  is_delivered c = is_content (status_of c) /\
  (String.eqb (co_Origin c) OriginLand && negb (is_delivered c)) = bool_decide (status_of c = Pending).
Proof.
  intros W c. pose proof (content_of_vocab T r W) as Hv. fold c in Hv.
  destruct c as [r0 o s g]. cbn [co_Origin co_State] in *.
  repeat (apply elem_of_cons in Hv as [[= -> ->]|Hv]; [by vm_compute|]). by apply not_elem_of_nil in Hv.
Qed.

Lemma abs_length T : length (abs T) = length (t_commits T).
Proof. apply length_map. Qed.
Lemma abs_elem T r s : (r, s) ∈ abs T <-> r ∈ t_commits T /\ s = status_of (content_of T r).
Proof.
  unfold abs. rewrite list_elem_of_fmap. split; [|intros [? ->]; by exists r].
  intros (? & [= -> ->] & ?). done.
Qed.

(** ** Each transaction refines its abstract step *)

Lemma existsb_abs (f : CommitRecord -> bool) T :
  existsb (fun e => f e.1) (abs T) = existsb f (t_commits T).
Proof. unfold abs. induction (t_commits T) as [|r l IH]; cbn; [done|]. by rewrite IH. Qed.

(** Adding a row without an admission. *)
Definition add_row (r : CommitRecord) (T : Tables) : Tables :=
  mkTables (t_commits T ++ [r]) (t_admissions T) (t_commit_seq T + 1) (t_admission_seq T).

Lemma wf_add_row T r : ledger_wf T -> cr_ID r = t_commit_seq T + 1 ->
  existsb (fun r' => String.eqb (cr_TaskID r') (cr_TaskID r)
                     && String.eqb (cr_CommitHash r') (cr_CommitHash r)) (t_commits T) = false ->
  ledger_wf (add_row r T) /\ abs (add_row r T) = abs T ++ [(r, Unknown)].
Proof.
  intros W Hid Hdup. split.
  - pose proof (wf_seq _ W) as Hs. split; cbn [add_row t_commits t_commit_seq t_admissions t_admission_seq].
    + rewrite map_app, length_app, seq_app, map_app, (wf_ids _ W). cbn. f_equal. f_equal. lia.
    + rewrite length_app, Hs. cbn. lia.
    + assert (forall i r0, t_commits T !! i = Some r0 -> cr_TaskID r0 = cr_TaskID r ->
        cr_CommitHash r0 = cr_CommitHash r -> False) as Hnew.
      { intros i r0 Hi Ht Hc. apply (proj1 (Forall_existsb_false _ _)) in Hdup.
        rewrite Forall_lookup in Hdup. specialize (Hdup i r0 Hi). cbn in Hdup.
        by rewrite Ht, Hc, !String.eqb_refl in Hdup. }
      intros i j r1 r2 H1 H2 Ht Hc.
      apply lookup_snoc_Some in H1 as [[? H1]|[-> <-]]; apply lookup_snoc_Some in H2 as [[? H2]|[-> <-]].
      * by eapply wf_unique.
      * destruct (Hnew i r1); done.
      * destruct (Hnew j r2); done.
      * done.
    + apply (wf_adm_ids _ W).
    + eapply Forall_impl; [apply (wf_adm_ref _ W)|]. intros a (r' & Hr & Ha). exists r'. set_solver.
    + apply (wf_adm_vocab _ W).
  - unfold abs at 1. cbn [add_row t_commits]. rewrite map_app. f_equal. cbn.
    change (content_of (add_row r T) r) with (content_of T r).
    rewrite (content_of_fresh _ _ W) by lia. done.
Qed.

(** Adding an admission of an existing row. *)
Lemma insertAdmission_spec r origin state guest now T T' : ledger_wf T -> r ∈ t_commits T ->
  (origin, state) ∈ [(OriginHost, AdmissionDelivered); (OriginLand, AdmissionPending);
     (OriginLand, AdmissionDelivered)] ->
  insertAdmission r origin state guest now T = Ok T' ->
  ledger_wf T' /\ t_commits T' = t_commits T /\
  forall r', r' ∈ t_commits T -> content_of T' r' =
    if decide (r' = r) then mkContent r origin state guest else content_of T r'.
Proof.
  intros W Hr Hv H. unfold insertAdmission in H. inv_res.
  assert (Forall (fun b => ad_ID b <= t_admission_seq T) (t_admissions T)) as Hids by apply W.
  split; [|split; [done|]].
  - destruct W. split; cbn [t_commits t_admissions t_admission_seq t_commit_seq]; try done.
    + apply Forall_app; split; [|repeat constructor; cbn; lia].
      eapply Forall_impl; [exact Hids|]. cbn. lia.
    + apply Forall_app; split; [done|]. apply Forall_singleton. exists r. split; [done|].
      by apply admits_row_true.
    + apply Forall_app; split; [done|]. by apply Forall_singleton.
  - intros r' Hr'. rewrite content_of_append by done.
    destruct (admits_row r' _) eqn:Ha.
    + apply admits_row_true in Ha as (Hid & _). cbn in Hid.
      rewrite decide_True by (by apply (wf_id_inj T)).
      by rewrite (wf_id_inj T r' r) by done.
    + rewrite decide_False; [done|]. intros ->.
      rewrite (proj2 (admits_row_true r _)) in Ha; done.
Qed.

Lemma insertAdmission_ok r origin state guest now T : r ∈ t_commits T ->
  origin ∈ [OriginHost; OriginLand] -> state ∈ [AdmissionPending; AdmissionDelivered] ->
  exists T', insertAdmission r origin state guest now T = Ok T'.
Proof.
  intros Hr Ho Hs. unfold insertAdmission.
  rewrite (bool_decide_eq_true_2 _ Ho), (bool_decide_eq_true_2 _ Hs). cbn [andb negb err_if mbind res_bind].
  rewrite (proj2 (existsb_true_elem _ _)); [by eexists|]. exists r. by rewrite Z.eqb_refl.
Qed.

(** Changing the status of one row. *)
Lemma abs_update T T' r s : ledger_wf T -> t_commits T' = t_commits T -> r ∈ t_commits T ->
  (forall r', r' ∈ t_commits T -> status_of (content_of T' r') =
     if decide (r' = r) then s else status_of (content_of T r')) ->
  abs T' = map (fun e => if decide (e.1 = r) then (e.1, s) else e) (abs T).
Proof.
  intros W Hc Hr Hs. unfold abs. rewrite Hc, map_map. apply map_ext_in. intros r' Hin.
  apply list_elem_of_In in Hin. cbn. rewrite (Hs _ Hin). by destruct (decide _).
Qed.

Lemma insert_refines now i T : ledger_wf T ->
  match insertTaskCommitTx now i T with
  | Ok T' => ledger_wf T' /\ a_append now [i] (abs T) = Some (abs T')
  | Err _ => a_append now [i] (abs T) = None
  end.
Proof.
  intros W. unfold insertTaskCommitTx. cbn [a_append].
  rewrite (existsb_abs (fun r => String.eqb (cr_TaskID r) (in_TaskID i)
                         && String.eqb (cr_CommitHash r) (in_CommitHash i))).
  destruct (existsb _ _) eqn:Hdup; cbn [err_if mbind res_bind]; [done|].
  set (r := insert_record _ _ _).
  destruct (wf_add_row T r W eq_refl Hdup) as [W1 A1].
  change (mkTables _ _ _ _) with (add_row r T).
  assert (insert_record (Z.of_nat (length (abs T)) + 1) now i = r) as Hr.
  { unfold r. by rewrite abs_length, (wf_seq _ W). }
  rewrite Hr. unfold birth.
  destruct (String.eqb_spec (in_Origin i) ""); [by rewrite A1|].
  assert (r ∈ t_commits (add_row r T)) as Hin by (cbn; set_solver).
  assert (forall st s, (in_Origin i, st) ∈ [(OriginHost, AdmissionDelivered);
     (OriginLand, AdmissionPending); (OriginLand, AdmissionDelivered)] ->
     status_of (mkContent r (in_Origin i) st (in_GuestContentHash i)) = s ->
     match insertAdmission r (in_Origin i) st (in_GuestContentHash i) now (add_row r T) with
     | Ok T' => ledger_wf T' /\ Some (abs T ++ [(r, s)]) = Some (abs T')
     | Err _ => False end) as Hadd.
  { intros st s Hv Hs.
    destruct (insertAdmission_ok r (in_Origin i) st (in_GuestContentHash i) now _ Hin) as [T' HT'];
      [clear -Hv; set_solver|clear -Hv; set_solver|].
    rewrite HT'. destruct (insertAdmission_spec _ _ _ _ _ _ _ W1 Hin Hv HT') as (W2 & Hc & Hco).
    split; [done|]. f_equal. rewrite (abs_update _ _ _ s W1 Hc Hin).
    - rewrite A1, map_app. f_equal; [|cbn; by rewrite decide_True].
      symmetry. etransitivity; [|apply map_id]. apply map_ext_in. intros [r' s'] Hr'%list_elem_of_In.
      apply abs_elem in Hr' as [Hr' _]. cbn. rewrite decide_False; [done|]. intros ->.
      pose proof (wf_id_bound _ _ W Hr'). cbn in *. lia.
    - intros r' Hr'. rewrite Hco by done. by destruct (decide _). }
  destruct (String.eqb_spec (in_Origin i) OriginHost) as [Hh|Hh].
  { cbn [mbind option_bind]. specialize (Hadd AdmissionDelivered Host). destruct (insertAdmission _ _ _ _ _ _);
      [|destruct Hadd]; rewrite ?Hh; [apply Hadd|..]; rewrite ?Hh; try done; set_solver. }
  destruct (String.eqb_spec (in_Origin i) OriginLand) as [Hl|Hl].
  { cbn [mbind option_bind]. specialize (Hadd AdmissionPending Pending). destruct (insertAdmission _ _ _ _ _ _);
      [|destruct Hadd]; rewrite ?Hl; [apply Hadd|..]; rewrite ?Hl; try done; set_solver. }
  cbn [mbind option_bind]. unfold insertAdmission.
  rewrite bool_decide_eq_false_2 by set_solver. done.
Qed.

Lemma a_append_cons now i ins L :
  a_append now (i :: ins) L = a_append now [i] L ≫= a_append now ins.
Proof. cbn. destruct (existsb _ _); [done|]. by destruct (birth _). Qed.

Lemma append_refines now ins T : ledger_wf T ->
  match AppendTaskCommits now ins T with
  | Ok T' => ledger_wf T' /\ a_append now ins (abs T) = Some (abs T')
  | Err _ => a_append now ins (abs T) = None
  end.
Proof.
  intros W. assert (match insert_rows now ins T with
    | Ok T' => ledger_wf T' /\ a_append now ins (abs T) = Some (abs T')
    | Err _ => a_append now ins (abs T) = None end) as H; [|by destruct ins].
  revert T W. induction ins as [|i ins IH]; intros T W; [done|].
  rewrite a_append_cons. cbn [insert_rows]. pose proof (insert_refines now i T W) as H1.
  destruct (insertTaskCommitTx now i T) as [T1|]; [|by rewrite H1].
  destruct H1 as [W1 ->]. exact (IH T1 W1).
Qed.

Lemma delivery_row_spec rec T :
  match delivery_row rec T with
  | Some found => exists r, r ∈ t_commits T /\ names rec r = true /\ found = content_of T r
  | None => forall r, r ∈ t_commits T -> names rec r = false
  end.
Proof.
  unfold delivery_row, snapshot_of_commit.
  assert (forall r, content_of T r ∈ map (content_of T)
    (merge_sort by_id (filter (fun r => cr_CommitHash r = cr_CommitHash rec) (t_commits T))) <->
    exists r', content_of T r' = content_of T r /\ r' ∈ t_commits T /\ cr_CommitHash r' = cr_CommitHash rec) as Hin.
  { intros r. rewrite list_elem_of_fmap. setoid_rewrite merge_sort_Permutation.
    setoid_rewrite list_elem_of_filter. naive_solver. }
  destruct (find _ _) as [c|] eqn:Hf.
  - apply find_some in Hf as [Hc Hn]. apply list_elem_of_In in Hc.
    apply list_elem_of_fmap in Hc as (r & -> & Hr). rewrite content_of_row in Hn.
    apply merge_sort_Permutation, list_elem_of_filter in Hr as [Hh Hr] || (rewrite merge_sort_Permutation in Hr;
      apply list_elem_of_filter in Hr as [Hh Hr]).
    exists r. split_and!; try done. apply names_true.
    rewrite !andb_true_iff, Z.eqb_eq, !String.eqb_eq in Hn. naive_solver.
  - intros r Hr. destruct (names rec r) eqn:Hn; [|done]. exfalso.
    apply names_true in Hn as (H1 & H2 & H3 & H4).
    assert (content_of T r ∈ map (content_of T)
      (merge_sort by_id (filter (fun r => cr_CommitHash r = cr_CommitHash rec) (t_commits T)))) as Hc.
    { apply Hin. by exists r. }
    apply list_elem_of_In in Hc. apply (find_none _ _ Hf) in Hc. rewrite content_of_row in Hc.
    by rewrite H1, H2, H4, Z.eqb_refl, !String.eqb_refl in Hc.
Qed.

Lemma names_unique rec r r' T : ledger_wf T -> r ∈ t_commits T -> r' ∈ t_commits T ->
  names rec r = true -> names rec r' = true -> r = r'.
Proof.
  intros W Hr Hr' [H _]%names_true [H' _]%names_true. apply (wf_id_inj T); congruence.
Qed.

Lemma deliver1_named rec T r : ledger_wf T -> r ∈ t_commits T -> names rec r = true ->
  map (deliver1 rec) (abs T) =
  if bool_decide (status_of (content_of T r) = Pending)
  then map (fun e => if decide (e.1 = r) then (e.1, Delivered) else e) (abs T) else abs T.
Proof.
  intros W Hr Hn. case_bool_decide as Hp.
  - apply map_ext_in. intros [r' s'] Hin%list_elem_of_In. apply abs_elem in Hin as [Hr' ->].
    unfold deliver1. cbn [fst snd]. destruct (decide (r' = r)) as [->|Hne].
    + by rewrite Hn, Hp.
    + destruct (names rec r') eqn:Hn'; [|done]. destruct Hne. by eapply names_unique.
  - etransitivity; [|apply map_id]. apply map_ext_in. intros [r' s'] Hin%list_elem_of_In.
    apply abs_elem in Hin as [Hr' ->]. unfold deliver1. cbn [fst snd].
    destruct (names rec r') eqn:Hn'; [|done]. rewrite (names_unique rec r' r T) by done.
    by rewrite bool_decide_eq_false_2.
Qed.

(** Whether a record names a row of a known status. *)
Lemma deliverable rec T r : ledger_wf T -> r ∈ t_commits T -> names rec r = true ->
  existsb (fun e => names rec e.1 && negb (bool_decide (e.2 = Unknown))) (abs T)
  = negb (bool_decide (status_of (content_of T r) = Unknown)).
Proof.
  intros W Hr Hn. apply eq_true_iff_eq. rewrite existsb_true_elem. split.
  - intros ([r' s'] & Hin & Hx). apply abs_elem in Hin as [Hr' ->]. cbn in Hx.
    apply andb_true_iff in Hx as [Hn' Hx]. by rewrite <- (names_unique rec r' r T).
  - intros Hx. exists (r, status_of (content_of T r)). rewrite abs_elem. cbn. by rewrite Hn, Hx.
Qed.

(** The admission a delivery appends is one of the row it names. *)
Lemma insertAdmission_names rec r origin state guest now T : names rec r = true ->
  insertAdmission rec origin state guest now T = insertAdmission r origin state guest now T.
Proof.
  intros (H1 & H2 & H3 & H4)%names_true. unfold insertAdmission. by rewrite H1, H2, H3, H4.
Qed.

Lemma status_pending c : status_of c = Pending ->
  co_Origin c = OriginLand /\ co_State c = AdmissionPending.
Proof.
  unfold status_of. destruct (_ && _); [done|]. destruct (String.eqb_spec (co_Origin c) OriginLand); [|done].
  destruct (String.eqb_spec (co_State c) AdmissionPending); [done|]. by destruct (String.eqb _ _).
Qed.

Lemma deliver_refines now recs T : ledger_wf T ->
  match RecordDelivered now recs T with
  | Ok T' => ledger_wf T' /\ a_deliver recs (abs T) = Some (abs T')
  | Err _ => a_deliver recs (abs T) = None
  end.
Proof.
  revert T. induction recs as [|rec recs IH]; intros T W; [done|]. cbn [RecordDelivered a_deliver].
  pose proof (delivery_row_spec rec T) as Hd. destruct (delivery_row rec T) as [found|].
  2: { destruct (existsb _ _) eqn:Hx; [|done]. apply existsb_true_elem in Hx as ([r s] & Hin & Hx).
       apply abs_elem in Hin as [Hr ->]. cbn in Hx. by rewrite (Hd r Hr) in Hx. }
  destruct Hd as (r & Hr & Hn & ->). rewrite (deliverable rec T r W Hr Hn).
  destruct (content_of_status T r W) as (Hk & Hdel & Hpen).
  unfold RequireKnownContentOrigins. cbn [forM_]. rewrite Hk.
  destruct (bool_decide (status_of (content_of T r) = Unknown)) eqn:Hu; cbn [negb err_if mbind res_bind];
    [done|].
  rewrite (deliver1_named rec T r W Hr Hn). destruct (is_delivered (content_of T r)) eqn:Hdv.
  { rewrite <- Hpen, andb_false_r. exact (IH T W). }
  cbn [negb] in Hpen. rewrite andb_true_r in Hpen.
  assert (status_of (content_of T r) = Pending) as Hp.
  { symmetry in Hdel. unfold is_content in Hdel. rewrite bool_decide_eq_false in Hu, Hdel.
    destruct (status_of _); naive_solver. }
  rewrite (bool_decide_eq_true_2 _ Hp) in *. destruct (status_pending _ Hp) as [Ho Hst].
  rewrite Ho, Hst, (insertAdmission_names rec r) by done. rewrite !String.eqb_refl. cbn [negb orb].
  destruct (insertAdmission_ok r OriginLand AdmissionDelivered (co_GuestContentHash (content_of T r)) now T Hr)
    as [T1 HT1]; [set_solver..|]. rewrite HT1. cbn [mbind res_bind].
  destruct (insertAdmission_spec r OriginLand AdmissionDelivered _ _ _ _ W Hr ltac:(set_solver) HT1) as (W1 & Hc & Hco).
  specialize (IH T1 W1). rewrite (abs_update T T1 r Delivered W Hc Hr) in IH; [exact IH|].
  intros r' Hr'. rewrite Hco by done. by destruct (decide _).
Qed.

(** ** The theorems *)

(** C10. The two tables implement the abstract ledger: whatever transactions run from
    an empty index, the rows and their statuses are those of the abstract
    ledger, each transaction succeeding exactly when the abstract step does and
    leaving everything as it was when it fails, and the tables stay well-formed. *)
Theorem ledger_refines txs :
  let T := fold_left (fun T t => commit t T) txs empty_tables in
  ledger_wf T /\ abs T = fold_left (fun L t => a_commit t L) txs [].
Proof.
  cbn zeta. change (@nil (CommitRecord * status)) with (abs empty_tables).
  generalize ledger_wf_empty. generalize empty_tables.
  induction txs as [|t txs IH]; intros T W; [done|]. cbn [fold_left].
  assert (ledger_wf (commit t T) /\ abs (commit t T) = a_commit t (abs T)) as [W' <-]; [|by apply IH].
  destruct t as [now ins|now recs]; unfold commit, a_commit.
  - pose proof (append_refines now ins T W) as H. destruct (AppendTaskCommits now ins T); [|by rewrite H].
    destruct H as [? ->]. done.
  - pose proof (deliver_refines now recs T W) as H. destruct (RecordDelivered now recs T); [|by rewrite H].
    destruct H as [? ->]. done.
Qed.

Definition run_txs (txs : list tx) : Tables := fold_left (fun T t => commit t T) txs empty_tables.

(** A row comes from an append that succeeded, and a delivered one from a
    delivery that named it. *)
Definition appended (txs : list tx) (o : string) (r : CommitRecord) : Prop :=
  exists now ins i, TxAppend now ins ∈ txs /\ i ∈ ins /\ in_Origin i = o /\
    cr_TaskID r = in_TaskID i /\ cr_CommitHash r = in_CommitHash i /\
    cr_ContentHash r = in_ContentHash i.
Definition delivered_by (txs : list tx) (r : CommitRecord) : Prop :=
  exists now recs rec, TxDeliver now recs ∈ txs /\ rec ∈ recs /\ names rec r = true.
Definition justified (txs : list tx) (e : CommitRecord * status) : Prop :=
  match e.2 with
  | Host => appended txs OriginHost e.1
  | Pending => appended txs OriginLand e.1
  | Delivered => appended txs OriginLand e.1 /\ delivered_by txs e.1
  | Unknown => True
  end.

Lemma a_append_justified now ins ins' L L' txs : a_append now ins L = Some L' ->
  TxAppend now ins' ∈ txs -> (forall i, i ∈ ins -> i ∈ ins') ->
  Forall (justified txs) L -> Forall (justified txs) L'.
Proof.
  intros H Htx. revert L H. induction ins as [|i ins IH]; intros L H Hsub HF; [by simplify_eq/=|].
  rewrite a_append_cons in H. apply bind_Some in H as (L1 & H1 & H).
  apply (IH L1 H); [set_solver|]. cbn in H1. destruct (existsb _ _); [done|].
  destruct (birth (in_Origin i)) as [s|] eqn:Hb; [|done]. injection H1 as <-.
  apply Forall_app. split; [done|]. apply Forall_singleton. unfold birth in Hb.
  destruct (String.eqb _ ""); [by injection Hb as <-|].
  destruct (String.eqb_spec (in_Origin i) OriginHost);
    [|destruct (String.eqb_spec (in_Origin i) OriginLand); [|done]]; injection Hb as <-;
    exists now, ins', i; (split_and!; try done); apply Hsub; by left.
Qed.

Lemma a_deliver_justified now recs recs' L L' txs : a_deliver recs L = Some L' ->
  TxDeliver now recs' ∈ txs -> (forall i, i ∈ recs -> i ∈ recs') ->
  Forall (justified txs) L -> Forall (justified txs) L'.
Proof.
  intros H Htx. revert L H. induction recs as [|rec recs IH]; intros L H Hsub HF; cbn in H;
    [by simplify_eq|]. destruct (existsb _ _); [|done]. apply (IH _ H); [set_solver|].
  apply Forall_map. eapply Forall_impl; [exact HF|]. intros [r s] Hj. unfold deliver1. cbn [fst snd].
  destruct (names rec r && bool_decide (s = Pending)) eqn:Hx; [|exact Hj].
  apply andb_true_iff in Hx as [Hn Hs]. apply bool_decide_eq_true in Hs as ->.
  split; [exact Hj|]. exists now, recs', rec. split_and!; [done|apply Hsub; by left|done].
Qed.

Lemma justified_mono txs t e : justified txs e -> justified (txs ++ [t]) e.
Proof.
  assert (forall x, x ∈ txs -> x ∈ txs ++ [t]) as Hx by set_solver.
  unfold justified, appended, delivered_by. destruct (e.2); naive_solver.
Qed.

Lemma ledger_justified txs : Forall (justified txs) (abs (run_txs txs)).
Proof.
  destruct (ledger_refines txs) as [_ Ha]. unfold run_txs. rewrite Ha. clear Ha.
  induction txs as [|t txs IH] using rev_ind; [constructor|]. rewrite fold_left_app. cbn [fold_left].
  assert (Forall (justified (txs ++ [t])) (fold_left (fun L t => a_commit t L) txs [])) as IH'.
  { eapply Forall_impl; [exact IH|]. intros e. apply justified_mono. }
  destruct t as [now ins|now recs]; unfold a_commit.
  - destruct (a_append _ _ _) as [L'|] eqn:H; [|exact IH'].
    refine (a_append_justified _ _ ins _ _ _ H _ _ IH'); [set_solver|done].
  - destruct (a_deliver _ _) as [L'|] eqn:H; [|exact IH'].
    refine (a_deliver_justified now _ recs _ _ _ H _ _ IH'); [set_solver|done].
Qed.

Lemma RequireKnown_Ok l : RequireKnownContentOrigins l = Ok tt <-> Forall (fun c => known c = true) l.
Proof.
  unfold RequireKnownContentOrigins. rewrite forM_Ok.
  split; intros HF; (eapply Forall_impl; [exact HF|]); intros c; cbn; rewrite err_if_Ok, negb_false_iff; done.
Qed.

(** The rows of a task in order, and those of them that are content. *)
Definition row_status (T : Tables) (r : CommitRecord) : status := status_of (content_of T r).

Lemma GetContentCommits_Ok task T l : ledger_wf T ->
  GetContentCommits task T = Ok l <->
  Forall (fun r => row_status T r <> Unknown) (GetTaskCommits task T) /\
  l = List.filter (fun r => is_content (row_status T r)) (GetTaskCommits task T) /\
  (l = [] -> GetTaskCommits task T = []).
Proof.
  intros W. unfold GetContentCommits, RequireKnownContentOrigins, GetContentSnapshot.
  rewrite seq_Ok, forM_Ok, Forall_map.
  assert (map co_Row (List.filter is_delivered (map (content_of T) (GetTaskCommits task T)))
    = List.filter (fun r => is_content (row_status T r)) (GetTaskCommits task T)) as ->.
  { induction (GetTaskCommits task T) as [|r rs IH]; [done|]. cbn [map List.filter].
    destruct (content_of_status T r W) as (_ & -> & _). fold (row_status T r).
    destruct (is_content _); cbn [map]; rewrite IH, ?content_of_row; done. }
  rewrite length_map.
  assert (forall r, err_if (negb (known (content_of T r))) (EAmbiguous (co_Row (content_of T r))) = Ok tt
    <-> row_status T r <> Unknown) as Hk.
  { intros r. rewrite err_if_Ok, negb_false_iff. destruct (content_of_status T r W) as (-> & _).
    rewrite negb_true_iff, bool_decide_eq_false. done. }
  setoid_rewrite Hk. set (f := List.filter _ _). split.
  - intros (HF & H). split; [done|]. destruct (_ && _) eqn:Hx; [done|]. injection H as <-.
    split; [done|]. intros He. rewrite He in Hx. cbn in Hx. rewrite andb_true_r in Hx.
    destruct (GetTaskCommits task T); done.
  - intros (HF & -> & Hn). split; [done|]. destruct f eqn:Hf; [by rewrite (Hn eq_refl)|].
    by rewrite andb_false_r.
Qed.

(** C22. Guest content stays out of every consumer until it was delivered. Whatever
    transactions ran, a commit the content boundary returns for a task was
    either recorded as host-authored, or landed and then named by a delivery;
    and if any row of the task has no known origin, nothing is returned. *)
Theorem content_needs_delivery txs task l :
  GetContentCommits task (run_txs txs) = Ok l ->
  (forall r, r ∈ l -> cr_TaskID r = task /\
     (appended txs OriginHost r \/ (appended txs OriginLand r /\ delivered_by txs r))) /\
  (forall r, r ∈ t_commits (run_txs txs) -> cr_TaskID r = task ->
     row_status (run_txs txs) r <> Unknown /\
     (row_status (run_txs txs) r = Pending <-> r ∉ l)).
Proof.
  intros H. destruct (ledger_refines txs) as [W _]. fold (run_txs txs) in W.
  apply GetContentCommits_Ok in H as (HF & -> & _); [|done].
  assert (forall r, r ∈ GetTaskCommits task (run_txs txs) <->
    cr_TaskID r = task /\ r ∈ t_commits (run_txs txs)) as Hrow.
  { intros r. unfold GetTaskCommits. rewrite merge_sort_Permutation, list_elem_of_filter. done. }
  assert (forall r, r ∈ List.filter (fun r => is_content (row_status (run_txs txs) r))
    (GetTaskCommits task (run_txs txs)) <->
    (cr_TaskID r = task /\ r ∈ t_commits (run_txs txs)) /\ is_content (row_status (run_txs txs) r) = true) as Hin.
  { intros r. rewrite <- Hrow, !list_elem_of_In, filter_In. done. }
  split.
  - intros r Hr. apply Hin in Hr as [[Ht Hr] Hc]. split; [done|].
    pose proof (proj1 (Forall_forall _ _) (ledger_justified txs) (r, row_status (run_txs txs) r)) as Hj.
    specialize (Hj ltac:(by apply abs_elem)). unfold justified in Hj. cbn [fst snd] in Hj.
    unfold is_content in Hc. apply bool_decide_eq_true in Hc as [Hs|Hs]; rewrite Hs in Hj; auto.
  - intros r Hr Ht. assert (row_status (run_txs txs) r <> Unknown) as Hu.
    { apply (proj1 (Forall_forall _ _) HF). by apply Hrow. }
    split; [done|]. rewrite Hin. unfold is_content. rewrite bool_decide_eq_true.
    destruct (row_status (run_txs txs) r) eqn:Hs; naive_solver.
Qed.

Lemma GetTaskCommits_perm t T : GetTaskCommits t T ≡ₚ filter (fun r => cr_TaskID r = t) (t_commits T).
Proof. apply merge_sort_Permutation. Qed.

(** ** What an append and a delivery leave alone *)

(** The rows an append stores, numbered from the next id. *)
Fixpoint number (n : Z) (now : string) (ins : list TaskCommitInsert) : list CommitRecord :=
  match ins with
  | [] => []
  | i :: ins => insert_record (n + 1) now i :: number (n + 1) now ins
  end.

Lemma insertAdmission_commits r o s g now T T' : insertAdmission r o s g now T = Ok T' ->
  t_commits T' = t_commits T /\ t_commit_seq T' = t_commit_seq T.
Proof. unfold insertAdmission. intros Hi. inv_res. done. Qed.

Lemma AppendTaskCommits_commits now ins T T' : AppendTaskCommits now ins T = Ok T' ->
  t_commits T' = t_commits T ++ number (t_commit_seq T) now ins.
Proof.
  intros H. assert (insert_rows now ins T = Ok T') as H' by (by destruct ins). clear H.
  revert T H'. induction ins as [|i ins IH]; intros T H; cbn [insert_rows number] in *.
  { injection H as <-. by rewrite app_nil_r. }
  apply bind_Ok in H as (T1 & H1 & H). apply IH in H as ->. unfold insertTaskCommitTx in H1.
  apply seq_Ok in H1 as [_ H1]. destruct (String.eqb _ "").
  - injection H1 as <-. cbn. by rewrite <- app_assoc.
  - apply insertAdmission_commits in H1 as [-> ->]. cbn. by rewrite <- app_assoc.
Qed.

Lemma RecordDelivered_commits now recs T T' : RecordDelivered now recs T = Ok T' ->
  t_commits T' = t_commits T.
Proof.
  revert T. induction recs as [|rec recs IH]; intros T; cbn [RecordDelivered]; [by intros [= <-]|].
  destruct (delivery_row rec T) as [c|]; [|done]. intros H. apply seq_Ok in H as [_ H].
  destruct (is_delivered c); [by apply IH|]. destruct (_ || _); [done|].
  apply bind_Ok in H as (T1 & H1 & H). apply insertAdmission_commits in H1 as [<- _]. by apply IH.
Qed.

(** A delivery delivers the pending rows it names and leaves every other status. *)
Lemma a_deliver_elem recs L L' r st : a_deliver recs L = Some L' -> (r, st) ∈ L ->
  exists st', (r, st') ∈ L' /\ (st <> Pending -> st' = st) /\
    (st' = st \/ st' = Delivered) /\
    ((exists rec, rec ∈ recs /\ names rec r = true) -> st' <> Pending).
Proof.
  revert L st. induction recs as [|rec recs IH]; intros L st H Hin; cbn [a_deliver] in H.
  { injection H as <-. exists st. split_and!; auto. intros (rec & ?%not_elem_of_nil & _). done. }
  destruct (existsb _ _); [|done].
  assert (deliver1 rec (r, st) ∈ map (deliver1 rec) L) as Hin'.
  { apply list_elem_of_fmap. by exists (r, st). }
  unfold deliver1 in Hin'. cbn [fst snd] in Hin'.
  destruct (names rec r && bool_decide (st = Pending)) eqn:Hx.
  - apply andb_true_iff in Hx as [Hn ->%bool_decide_eq_true].
    destruct (IH _ _ H Hin') as (st' & Hi & Hk & _ & _). rewrite (Hk ltac:(done)) in Hi.
    exists Delivered. split_and!; auto; done.
  - destruct (IH _ _ H Hin') as (st' & Hi & Hk & Hd & Hr). exists st'. split_and!; try done.
    intros (rec' & [->|Hrec]%elem_of_cons & Hn); [|apply Hr; by exists rec'].
    rewrite Hn in Hx. cbn in Hx. apply bool_decide_eq_false in Hx. by rewrite (Hk Hx).
Qed.

Lemma RecordDelivered_status now recs T T' r : ledger_wf T -> RecordDelivered now recs T = Ok T' ->
  r ∈ t_commits T ->
  ledger_wf T' /\ (row_status T r <> Pending -> row_status T' r = row_status T r) /\
  (row_status T' r = row_status T r \/ row_status T' r = Delivered) /\
  (r ∈ recs -> row_status T' r <> Pending).
Proof.
  intros W H Hr. pose proof (deliver_refines now recs T W) as Hd. rewrite H in Hd. destruct Hd as [W' Hd].
  destruct (a_deliver_elem recs (abs T) _ r (row_status T r) Hd) as (st & Hin & Hk & Hc & Hn);
    [by apply abs_elem|]. apply abs_elem in Hin as [_ ->].
  split_and!; [done..|]. intros Hrec. apply Hn. exists r. split; [done|]. by apply names_true.
Qed.

Lemma number_length n now ins : length (number n now ins) = length ins.
Proof. revert n. induction ins; intros n; cbn; auto. Qed.

Definition demo_land : TaskCommitInsert := mkInsert "MGIT-1" "c1" "h1" "agent" 0 "sb" OriginLand "".
Definition demo_row : CommitRecord := insert_record 1 "t0" demo_land.
Definition demo_txs : list tx := [TxAppend "t0" [demo_land]; TxDeliver "t1" [demo_row]].

Lemma content_needs_delivery_witness :
  GetContentCommits "MGIT-1" (run_txs (take 1 demo_txs)) = Err ENoDelivered /\
  GetContentCommits "MGIT-1" (run_txs demo_txs) = Ok [demo_row] /\
  (appended demo_txs OriginHost demo_row \/
     (appended demo_txs OriginLand demo_row /\ delivered_by demo_txs demo_row)).
Proof.
  assert (GetContentCommits "MGIT-1" (run_txs demo_txs) = Ok [demo_row]) as H by (vm_compute; reflexivity).
  split; [vm_compute; reflexivity|]. split; [exact H|].
  exact (proj2 (proj1 (content_needs_delivery demo_txs "MGIT-1" _ H) demo_row ltac:(left))).
Defined.
