(* ===== verification/LandWire.v ===== *)
(** * The land object-frame wire format

    [internal/landwire/landwire.go] (both ends), the host decoder
    [internal/sandboxd/land/protocol.go] with its ceilings, and the tree-path
    check of the same file. A stream of bytes is a [list ascii]; reading it is
    [io.ReadFull] on a [bytes.Reader]. *)
From Stdlib Require Import ZArith Lia Ascii String.
From S2P Require Import Prelude GoStrings.

Abbreviation bytes := (list ascii).

(** ** Big-endian words *)

Definition to_byte (z : Z) : ascii := ascii_of_N (Z.to_N (z mod 256)).
Definition byte_val (a : ascii) : Z := Z.of_N (N_of_ascii a).

(** [binary.BigEndian.PutUint32], [Uint32] and [PutUint64]. *)
Fixpoint put_be (n : nat) (z : Z) : bytes :=
  match n with
  | O => []
  | S n => to_byte (Z.shiftr z (8 * Z.of_nat n)) :: put_be n z
  end.
Definition be (bs : bytes) : Z := fold_left (fun acc a => acc * 256 + byte_val a)%Z bs 0%Z.
Definition PutUint32 : Z -> bytes := put_be 4.
Definition PutUint64 : Z -> bytes := put_be 8.

(** ** Frames *)

Definition ObjCommit : ascii := "C".
Definition ObjTree : ascii := "T".
Definition ObjBlob : ascii := "B".
Definition HeaderLen : nat := 5.

Definition ValidType (t : ascii) : bool :=
  Ascii.eqb t ObjCommit || Ascii.eqb t ObjTree || Ascii.eqb t ObjBlob.

Inductive wire_err : Type :=
  | EInvalidType (t : ascii)
  | EUnframable (len : Z)
  | EWrite.
#[export] Instance wire_err_eq_dec : EqDecision wire_err.
Proof. solve_decision. Defined.

(** An [io.Writer] is the state it writes to and its [Write] method, which may fail. *)
Definition WriteFrame {W} (Write : bytes -> W -> res wire_err W)
    (w : W) (typ : ascii) (payload : bytes) : res wire_err W :=
  if negb (ValidType typ) then Err (EInvalidType typ)
  else if (2^32 - 1 <? Z.of_nat (length payload))%Z
  then Err (EUnframable (Z.of_nat (length payload)))
  else
    w ← Write (typ :: PutUint32 (Z.of_nat (length payload))) w;
    if (0 <? length payload)%nat then Write payload w else Ok w.

(** A [bytes.Buffer]: writing appends and never fails. *)
Definition Buffer_Write (p : bytes) (w : bytes) : res wire_err bytes := Ok (w ++ p).

Record Object := mkObject { Type_ : ascii; Data : bytes }.
#[export] Instance Object_eq_dec : EqDecision Object.
Proof. solve_decision. Defined.

(** The guest's transport: one frame per object, in order. *)
Fixpoint WriteFrames {W} (Write : bytes -> W -> res wire_err W) (w : W) (objs : list Object)
    : res wire_err W :=
  match objs with
  | [] => Ok w
  | o :: objs => w ← WriteFrame Write w (Type_ o) (Data o); WriteFrames Write w objs
  end.

(** ** The host decoder *)

Record Limits := mkLimits {
  MaxObjectBytes : Z;
  MaxObjectsPerLand : Z;
  MaxTotalBytes : Z }.

Definition DefaultLimits : Limits := {|
  MaxObjectBytes := Z.shiftl 64 20;
  MaxObjectsPerLand := 100000;
  MaxTotalBytes := Z.shiftl 4 30 |}.

(** The rejections, all of them [model.ErrLandVerificationFailed]; [EFuel] is
    not one of the code's and is never returned ([DecodeObjects_total]). *)
Inductive decode_err : Type :=
  | ETruncatedHeader
  | EUnknownType (t : ascii)
  | EObjectTooBig (len : Z)
  | ETooManyObjects
  | ETotalTooBig
  | ETruncatedBody
  | EFuel.
#[export] Instance decode_err_eq_dec : EqDecision decode_err.
Proof. solve_decision. Defined.

(** [io.ReadFull(r, buf)] with [len(buf) = n] on a [bytes.Reader]. *)
Inductive read_full : Type :=
  | ReadOk (data rest : bytes)
  | ReadEOF
  | ReadUnexpectedEOF.
Definition ReadFull (r : bytes) (n : nat) : read_full :=
  if (n <=? length r)%nat then ReadOk (take n r) (drop n r)
  else match r with [] => ReadEOF | _ => ReadUnexpectedEOF end.

Fixpoint decode_loop (fuel : nat) (l : Limits) (r : bytes) (objs : list Object) (total : Z)
    : res decode_err (list Object) :=
  match fuel with
  | O => Err EFuel
  | S fuel =>
    match ReadFull r HeaderLen with
    | ReadEOF => Ok objs
    | ReadUnexpectedEOF => Err ETruncatedHeader
    | ReadOk hdr r =>
      let typ := hd zero hdr in
      let len := be (tail hdr) in
      if negb (ValidType typ) then Err (EUnknownType typ)
      else if (MaxObjectBytes l <? len)%Z then Err (EObjectTooBig len)
      else if (MaxObjectsPerLand l <? Z.of_nat (length objs) + 1)%Z then Err ETooManyObjects
      else
        let total := wrap64 (total + len) in
        if (MaxTotalBytes l <? total)%Z then Err ETotalTooBig
        else match ReadFull r (Z.to_nat len) with
             | ReadOk data r => decode_loop fuel l r (objs ++ [mkObject typ data]) total
             | ReadEOF | ReadUnexpectedEOF => Err ETruncatedBody
             end
    end
  end.

(** Every iteration consumes a header, so one more step than bytes is enough. *)
Definition DecodeObjects (l : Limits) (r : bytes) : res decode_err (list Object) :=
  decode_loop (S (length r)) l r [] 0%Z.

(** ** Tree paths *)

Inductive path_err : Type :=
  | EEmptyPath | ENulPath | EBackslashPath | EAbsPath | ENotCanonical | EEscapes.
#[export] Instance path_err_eq_dec : EqDecision path_err.
Proof. solve_decision. Defined.

Definition backslash : ascii := "\".

Definition ValidateTreePath (p : string) : res path_err unit :=
  if String.eqb p "" then Err EEmptyPath
  else if contains zero p then Err ENulPath
  else if contains backslash p then Err EBackslashPath
  else if is_abs p then Err EAbsPath
  else if negb (String.eqb (clean p) p) then Err ENotCanonical
  else forM_ (fun comp => err_if (String.eqb comp "..") EEscapes) (split slash p).

(** ** Big-endian words, decoded *)

Lemma byte_val_range a : (0 <= byte_val a < 256)%Z.
Proof. unfold byte_val. pose proof (N_ascii_bounded a). lia. Qed.

Lemma byte_val_to z : byte_val (to_byte z) = (z mod 256)%Z.
Proof.
  unfold byte_val, to_byte. rewrite N_ascii_embedding;
    pose proof (Z.mod_pos_bound z 256); lia.
Qed.

Lemma byte_of_val a : to_byte (byte_val a) = a.
Proof.
  unfold to_byte. rewrite Z.mod_small by apply byte_val_range.
  unfold byte_val. by rewrite N2Z.id, ascii_N_embedding.
Qed.

Lemma put_be_length n z : length (put_be n z) = n.
Proof. induction n; cbn; lia. Qed.

Lemma be_app bs acc :
  fold_left (fun acc a => acc * 256 + byte_val a)%Z bs acc
  = (acc * 256 ^ Z.of_nat (length bs) + be bs)%Z.
Proof.
  unfold be. revert acc. induction bs as [|a bs IH]; intros acc; [cbn; lia|].
  cbn [fold_left length]. rewrite IH, (IH (0 * 256 + byte_val a)%Z).
  rewrite Nat2Z.inj_succ, Z.pow_succ_r by lia. lia.
Qed.

Lemma be_cons a bs : be (a :: bs) = (byte_val a * 256 ^ Z.of_nat (length bs) + be bs)%Z.
Proof. unfold be at 1. cbn [fold_left]. rewrite be_app. lia. Qed.

Lemma be_range bs : (0 <= be bs < 256 ^ Z.of_nat (length bs))%Z.
Proof.
  induction bs as [|a bs IH]; [cbn; lia|]. rewrite be_cons.
  pose proof (byte_val_range a). cbn [length]. rewrite Nat2Z.inj_succ, Z.pow_succ_r by lia. nia.
Qed.

Lemma be_put_be n z : be (put_be n z) = (z mod 256 ^ Z.of_nat n)%Z.
Proof.
  induction n as [|n IH]; [cbn; by rewrite Z.mod_1_r|].
  cbn [put_be]. rewrite be_cons, put_be_length, IH, byte_val_to, Z.shiftr_div_pow2 by lia.
  rewrite Nat2Z.inj_succ, Z.pow_succ_r by lia.
  replace (2 ^ (8 * Z.of_nat n))%Z with (256 ^ Z.of_nat n)%Z
    by (rewrite Z.pow_mul_r by lia; done).
  rewrite (Z.mul_comm 256), Z.rem_mul_r by lia. lia.
Qed.

Lemma put_be_be bs : put_be (length bs) (be bs) = bs.
Proof.
  assert (forall n bs z, length bs = n -> (z mod 256 ^ Z.of_nat n = be bs)%Z -> put_be n z = bs)
    as H; [|apply H; [done|apply Z.mod_small, be_range]].
  clear. induction n as [|n IH]; intros [|a bs] z Hn Hz; try done.
  injection Hn as Hn. cbn [put_be]. rewrite be_cons, Hn in Hz.
  rewrite Nat2Z.inj_succ, Z.pow_succ_r, (Z.mul_comm 256), Z.rem_mul_r in Hz by lia.
  pose proof (be_range bs) as Hb. rewrite Hn in Hb.
  pose proof (Z.mod_pos_bound z (256 ^ Z.of_nat n)).
  assert (z mod 256 ^ Z.of_nat n = be bs /\ (z / 256 ^ Z.of_nat n) mod 256 = byte_val a)%Z
    as [Hz1 Hz2].
  { destruct (Z.div_mod_unique (256 ^ Z.of_nat n) ((z / 256 ^ Z.of_nat n) mod 256)
      (byte_val a) (z mod 256 ^ Z.of_nat n) (be bs)); [lia|lia|lia|done]. }
  f_equal; [|by apply IH].
  rewrite Z.shiftr_div_pow2, Z.pow_mul_r by lia. change (2 ^ 8)%Z with 256%Z.
  rewrite <- (byte_of_val a), <- Hz2. unfold to_byte. by rewrite Z.mod_mod.
Qed.

(** ** The wire format of a pool *)

Definition frame (o : Object) : bytes :=
  Type_ o :: PutUint32 (Z.of_nat (length (Data o))) ++ Data o.
Definition frames (objs : list Object) : bytes := concat (map frame objs).
Fixpoint pool_bytes (objs : list Object) : Z :=
  match objs with [] => 0 | o :: objs => Z.of_nat (length (Data o)) + pool_bytes objs end.

(** What one frame may carry: a known tag, a length the header can hold. *)
Definition framable (o : Object) : Prop :=
  ValidType (Type_ o) = true /\ (Z.of_nat (length (Data o)) < 2^32)%Z.
(** The three ceilings of [Limits]. *)
Definition object_within (l : Limits) (o : Object) : Prop :=
  framable o /\ (Z.of_nat (length (Data o)) <= MaxObjectBytes l)%Z.
Record within (l : Limits) (objs : list Object) : Prop := {
  w_objects : Forall (object_within l) objs;
  w_count : (Z.of_nat (length objs) <= MaxObjectsPerLand l)%Z;
  w_total : (pool_bytes objs <= MaxTotalBytes l)%Z }.
(** Ceilings the decoder can add up to without overflowing an [int64]; the
    defaults are, and so is any ceiling under eight exbibytes. *)
Definition sane (l : Limits) : Prop :=
  (0 <= MaxObjectsPerLand l)%Z /\ (0 <= MaxTotalBytes l <= 2^63 - 2^32)%Z.

Lemma pool_bytes_nonneg objs : (0 <= pool_bytes objs)%Z.
Proof. induction objs; cbn; lia. Qed.

Lemma frames_cons o objs : frames (o :: objs) = frame o ++ frames objs.
Proof. done. Qed.

Lemma ReadFull_app p r n : length p = n -> ReadFull (p ++ r) n = ReadOk p r.
Proof.
  intros <-. unfold ReadFull. rewrite length_app.
  destruct (Nat.leb_spec (length p) (length p + length r)); [|lia].
  by rewrite take_app_length, drop_app_length.
Qed.

Lemma ReadFull_Ok r n data rest :
  ReadFull r n = ReadOk data rest <-> r = data ++ rest /\ length data = n.
Proof.
  split; [|intros [-> H]; by apply ReadFull_app]. unfold ReadFull.
  destruct (Nat.leb_spec n (length r)); [|by destruct r].
  intros [= <- <-]. rewrite take_drop, length_take. split; [done|lia].
Qed.

Lemma ReadFull_EOF r n : ReadFull r n = ReadEOF <-> r = [] /\ (0 < n)%nat.
Proof.
  unfold ReadFull. destruct (Nat.leb_spec n (length r)).
  - split; [done|]. intros [-> ?]. cbn in *. lia.
  - destruct r; cbn in *; naive_solver lia.
Qed.

Lemma header_split typ hdr :
  length hdr = HeaderLen -> hd typ hdr :: PutUint32 (be (tail hdr)) = hdr /\
  (be (tail hdr) < 2^32)%Z.
Proof.
  destruct hdr as [|t hdr]; [done|]. intros [= Hl]. cbn [hd tail]. split.
  - f_equal. unfold PutUint32. rewrite <- Hl. apply put_be_be.
  - pose proof (be_range hdr) as Hr. rewrite Hl in Hr. apply Hr.
Qed.

(** A header the writer produced is read back. *)
Lemma header_read o : framable o ->
  be (PutUint32 (Z.of_nat (length (Data o)))) = Z.of_nat (length (Data o)).
Proof.
  intros [_ Hl]. unfold PutUint32. rewrite be_put_be. apply Z.mod_small.
  change (256 ^ Z.of_nat 4)%Z with (2^32)%Z. lia.
Qed.

Lemma decode_loop_sound fuel l r objs total out :
  (0 <= total)%Z -> (total <= MaxTotalBytes l <= 2^63 - 2^32)%Z ->
  (Z.of_nat (length objs) <= MaxObjectsPerLand l)%Z ->
  decode_loop fuel l r objs total = Ok out ->
  exists new, out = objs ++ new /\ r = frames new /\ Forall (object_within l) new /\
    (Z.of_nat (length out) <= MaxObjectsPerLand l)%Z /\
    (total + pool_bytes new <= MaxTotalBytes l)%Z.
Proof.
  revert r objs total. induction fuel as [|fuel IH]; intros r objs total H0 Ht Hc; [done|].
  cbn [decode_loop]. destruct (ReadFull r HeaderLen) as [hdr r'| |] eqn:Hh; [|..|done].
  2: { apply ReadFull_EOF in Hh as [-> _]. intros [= <-]. exists []. rewrite app_nil_r. cbn.
       repeat split; try done; try constructor; lia. }
  apply ReadFull_Ok in Hh as [-> Hhl]. destruct (header_split zero hdr Hhl) as [Hhdr Hb].
  set (typ := hd zero hdr) in *. set (len := be (tail hdr)) in *.
  assert (0 <= len)%Z as Hlen0 by (pose proof (be_range (tail hdr)); lia).
  destruct (ValidType typ) eqn:Htyp; [|done].
  destruct (Z.ltb_spec (MaxObjectBytes l) len); [done|].
  destruct (Z.ltb_spec (MaxObjectsPerLand l) (Z.of_nat (length objs) + 1)); [done|].
  rewrite wrap64_small by lia.
  destruct (Z.ltb_spec (MaxTotalBytes l) (total + len)); [done|].
  destruct (ReadFull r' (Z.to_nat len)) as [data r''| |] eqn:Hd; [|done..].
  apply ReadFull_Ok in Hd as [-> Hdl]. cbn [negb].
  intros Hok. apply IH in Hok as (new & -> & -> & HF & Hn & Htot);
    [|lia|lia|rewrite length_app; cbn; lia].
  rewrite <- app_assoc in *. cbn [app] in *.
  assert (Z.of_nat (length data) = len) as Hdz by lia.
  exists (mkObject typ data :: new). split; [done|]. split.
  { rewrite frames_cons. unfold frame. cbn [Type_ Data]. rewrite Hdz.
    by rewrite app_comm_cons, Hhdr, <- app_assoc. }
  repeat split; cbn; try lia; try done. constructor; [|done]. repeat split; cbn; try done; lia.
Qed.

Lemma decode_loop_complete fuel l new objs total :
  (length (frames new) < fuel)%nat -> (0 <= total)%Z -> (MaxTotalBytes l <= 2^63 - 2^32)%Z ->
  Forall (object_within l) new ->
  (Z.of_nat (length objs + length new) <= MaxObjectsPerLand l)%Z ->
  (total + pool_bytes new <= MaxTotalBytes l)%Z ->
  decode_loop fuel l (frames new) objs total = Ok (objs ++ new).
Proof.
  revert objs total fuel. induction new as [|o new IH]; intros objs total [|fuel] Hf H0 Hm HF Hc Ht;
    [lia| by rewrite app_nil_r|lia|].
  apply Forall_cons in HF as [[Ho Hsz] HF]. cbn in Ht, Hc.
  pose proof (pool_bytes_nonneg new). destruct (Ho) as [Hty Hlen].
  rewrite frames_cons in *. unfold frame in *.
  cbn [decode_loop]. cbn [app].
  rewrite <- app_assoc, app_comm_cons.
  rewrite ReadFull_app by (cbn [length]; unfold PutUint32; by rewrite put_be_length).
  cbn [hd tail]. rewrite header_read, Hty by done. cbn [negb].
  destruct (Z.ltb_spec (MaxObjectBytes l) (Z.of_nat (length (Data o)))); [lia|].
  destruct (Z.ltb_spec (MaxObjectsPerLand l) (Z.of_nat (length objs) + 1)); [lia|].
  rewrite wrap64_small by lia.
  destruct (Z.ltb_spec (MaxTotalBytes l) (total + Z.of_nat (length (Data o)))); [lia|].
  rewrite Nat2Z.id, ReadFull_app by done.
  replace (mkObject (Type_ o) (Data o)) with o by by destruct o.
  rewrite IH; [by rewrite <- app_assoc|..]; try done; try lia.
  - cbn in Hf. rewrite !length_app in Hf. lia.
  - rewrite length_app. cbn. lia.
Qed.

(** Fuel is never the reason of a rejection: every frame is at least a header. *)
Lemma decode_loop_fuel fuel l r objs total :
  (length r < fuel)%nat -> decode_loop fuel l r objs total <> Err EFuel.
Proof.
  revert r objs total. induction fuel as [|fuel IH]; intros r objs total Hf; [lia|].
  cbn [decode_loop]. destruct (ReadFull r HeaderLen) as [hdr r'| |] eqn:Hh; try done.
  apply ReadFull_Ok in Hh as [-> Hhl]. rewrite length_app, Hhl in Hf.
  repeat (case_match; try done). apply IH.
  match goal with H : ReadFull _ _ = ReadOk _ _ |- _ => apply ReadFull_Ok in H as [-> _] end.
  rewrite length_app in Hf. unfold HeaderLen in Hf. lia.
Qed.

Lemma decode_loop_types fuel l r objs total out :
  decode_loop fuel l r objs total = Ok out ->
  Forall (fun o => ValidType (Type_ o) = true) objs ->
  Forall (fun o => ValidType (Type_ o) = true) out.
Proof.
  revert r objs total. induction fuel as [|fuel IH]; intros r objs total; [done|].
  cbn [decode_loop]. destruct (ReadFull r HeaderLen) as [hdr r'| |]; [|by intros [= <-]|done].
  destruct (ValidType (hd zero hdr)) eqn:Ht; [|done].
  repeat (case_match; try done). intros Hok HF. eapply IH; [exact Hok|].
  apply Forall_app. split; [done|]. by repeat constructor.
Qed.

(** Only the three known tags come out of the decoder. *)
Lemma DecodeObjects_types l r objs : DecodeObjects l r = Ok objs ->
  Forall (fun o => ValidType (Type_ o) = true) objs.
Proof. intros H. eapply decode_loop_types; [exact H|constructor]. Qed.

Lemma frame_inj o o' r r' :
  framable o -> framable o' -> frame o ++ r = frame o' ++ r' -> o = o' /\ r = r'.
Proof.
  intros Ho Ho'. unfold frame. cbn [app]. rewrite <- !app_assoc. intros H.
  pose proof (f_equal (hd zero) H) as Ht. apply (f_equal (@tail ascii)) in H as Hr.
  cbn [hd tail] in Ht, Hr.
  apply app_inj_1 in Hr as [Hl Hr]; [|by unfold PutUint32; rewrite !put_be_length].
  apply (f_equal be) in Hl. rewrite !header_read in Hl by done.
  apply app_inj_1 in Hr as [Hd ->]; [|lia]. destruct o, o'; cbn in *; by subst.
Qed.

Lemma frames_inj objs objs' :
  Forall framable objs -> Forall framable objs' -> frames objs = frames objs' -> objs = objs'.
Proof.
  revert objs'. induction objs as [|o objs IH]; intros [|o' objs'] HF HF'; try done.
  rewrite !frames_cons. apply Forall_cons in HF as [Ho HF], HF' as [Ho' HF'].
  intros [-> Hr]%frame_inj; [|done..]. f_equal. by apply IH.
Qed.

Lemma WriteFrame_buffer w typ p w' :
  WriteFrame Buffer_Write w typ p = Ok w' <->
  framable (mkObject typ p) /\ w' = w ++ frame (mkObject typ p).
Proof.
  unfold WriteFrame, framable, Buffer_Write, frame. cbn [Type_ Data].
  destruct (ValidType typ); cbn [negb]; [|split; [done|by intros [[] _]]].
  destruct (Z.ltb_spec (2^32 - 1) (Z.of_nat (length p))) as [Hl|Hl].
  { split; [done|]. intros [[_ ?] _]. lia. }
  assert (forall x, Ok x = @Ok wire_err _ w' <->
    ((true = true /\ (Z.of_nat (length p) < 2^32)%Z) /\ w' = x)) as Heq.
  { intros x. split; [intros [= ->]; split; [split; [done|lia]|done]|by intros [_ ->]]. }
  cbn [mbind res_bind].
  destruct (Nat.ltb_spec 0 (length p)) as [Hp|Hp]; rewrite Heq.
  - by rewrite <- app_assoc, <- app_comm_cons.
  - destruct p as [|a p]; [|cbn in Hp; lia]. by rewrite app_nil_r.
Qed.

Lemma WriteFrames_buffer w objs w' :
  WriteFrames Buffer_Write w objs = Ok w' <-> Forall framable objs /\ w' = w ++ frames objs.
Proof.
  revert w. induction objs as [|o objs IH]; intros w; cbn [WriteFrames].
  - unfold frames. cbn. rewrite app_nil_r. split; [intros [= ->]; by split|by intros [_ ->]].
  - rewrite bind_Ok. setoid_rewrite IH. setoid_rewrite WriteFrame_buffer.
    rewrite Forall_cons, frames_cons. destruct o. split.
    + intros (w1 & [? ->] & ? & ->). by rewrite <- app_assoc.
    + intros [[? ?] ->]. eexists. split; [done|]. by rewrite <- app_assoc.
Qed.

(** C26. The decoder accepts exactly the pools in the wire format that are within
    the three FR-17.35 ceilings, and returns their objects unchanged: no
    accepted byte stream has a second reading, nothing partial is returned, and
    the loop always finishes. *)
Theorem DecodeObjects_exact l r objs :
  sane l ->
  (DecodeObjects l r = Ok objs <-> r = frames objs /\ within l objs) /\
  DecodeObjects l r <> Err EFuel.
Proof.
  intros [Hc Ht]. split; [|apply decode_loop_fuel; lia]. unfold DecodeObjects. split.
  - intros Hok. apply decode_loop_sound in Hok as (new & -> & -> & HF & Hn & Htot); [|cbn; lia..].
    cbn in *. done.
  - intros [-> [HF Hn Htot]]. rewrite decode_loop_complete; cbn; try done; lia.
Qed.

Definition tiny_limits : Limits := mkLimits 4 2 6.
Definition tiny_pool : list Object :=
  [mkObject ObjCommit ["h"%char; "i"%char]; mkObject ObjBlob []].

Lemma tiny_sane : sane tiny_limits. Proof. unfold sane, tiny_limits. cbn. lia. Qed.

Lemma DecodeObjects_exact_witness :
  DecodeObjects tiny_limits (frames tiny_pool) = Ok tiny_pool /\
  frames tiny_pool = frames tiny_pool /\ within tiny_limits tiny_pool.
Proof.
  assert (DecodeObjects tiny_limits (frames tiny_pool) = Ok tiny_pool) as H
    by (vm_compute; reflexivity).
  split; [exact H|].
  exact (proj1 (proj1 (DecodeObjects_exact tiny_limits (frames tiny_pool) tiny_pool tiny_sane)) H).
Defined.

(** C27. What the guest's writer emits, the host's decoder reads back: if
    [WriteFrame] accepted every object of a pool, decoding the stream returns
    that pool and nothing else, exactly when the pool is within the ceilings. *)
Theorem WriteFrames_DecodeObjects l objs r objs' :
  sane l -> WriteFrames Buffer_Write [] objs = Ok r ->
  (DecodeObjects l r = Ok objs' <-> objs' = objs /\ within l objs).
Proof.
  intros [Hc Ht] [HF ->]%WriteFrames_buffer. rewrite app_nil_l. unfold DecodeObjects. split.
  - intros Hok. apply decode_loop_sound in Hok as (new & -> & Hr & HF' & Hn & Htot); [|cbn; lia..].
    cbn in *. apply frames_inj in Hr as ->; [done|done|].
    eapply Forall_impl; [exact HF'|]. by intros o [? _].
  - intros [-> [HF' Hn Htot]]. rewrite decode_loop_complete; cbn; try done; lia.
Qed.

Lemma WriteFrames_DecodeObjects_witness :
  DecodeObjects tiny_limits (frames tiny_pool) = Ok tiny_pool <->
  tiny_pool = tiny_pool /\ within tiny_limits tiny_pool.
Proof.
  apply (WriteFrames_DecodeObjects tiny_limits tiny_pool (frames tiny_pool) tiny_pool);
    [apply tiny_sane | vm_compute; reflexivity].
Defined.

(** A declared length over the per-object cap is refused from the header
    alone: whatever the guest sends after it is never looked at. *)
Theorem DecodeObjects_header_cap l objs typ len rest :
  sane l -> within l objs -> ValidType typ = true ->
  (MaxObjectBytes l < len < 2^32)%Z -> (0 <= len)%Z ->
  DecodeObjects l (frames objs ++ typ :: PutUint32 len ++ rest) = Err (EObjectTooBig len).
Proof.
  intros [Hc Ht] [HF Hn Htot] Hty Hlen H0. unfold DecodeObjects.
  assert (forall objs acc total fuel,
    (length (frames objs) < fuel)%nat -> (0 <= total)%Z -> Forall (object_within l) objs ->
    (Z.of_nat (length acc + length objs) <= MaxObjectsPerLand l)%Z ->
    (total + pool_bytes objs <= MaxTotalBytes l)%Z ->
    decode_loop fuel l (frames objs ++ typ :: PutUint32 len ++ rest) acc total
      = Err (EObjectTooBig len)) as Hgen; [|apply Hgen; cbn; rewrite ?length_app; try done; lia].
  clear HF Hn Htot objs. induction objs as [|o objs IH]; intros acc total [|fuel] Hf Htot HF Hn Hs;
    try lia; cbn [decode_loop app].
  - change (frames []) with (@nil ascii). cbn [app].
    change (typ :: PutUint32 len ++ rest) with ((typ :: PutUint32 len) ++ rest).
    rewrite ReadFull_app by (cbn [length]; unfold PutUint32; by rewrite put_be_length).
    cbn [hd tail]. rewrite Hty. unfold PutUint32. rewrite be_put_be. cbn [negb].
    change (256 ^ Z.of_nat 4)%Z with (2^32)%Z. rewrite Z.mod_small by lia.
    destruct (Z.ltb_spec (MaxObjectBytes l) len); [done|lia].
  - apply Forall_cons in HF as [[Ho Hsz] HF]. cbn in Hs, Hn. destruct (Ho) as [Hot Hol].
    pose proof (pool_bytes_nonneg objs).
    rewrite frames_cons in *. unfold frame in *. cbn [app]. rewrite <- !app_assoc, app_comm_cons.
    rewrite ReadFull_app by (cbn [length]; unfold PutUint32; by rewrite put_be_length).
    cbn [hd tail]. rewrite header_read, Hot by done. cbn [negb].
    destruct (Z.ltb_spec (MaxObjectBytes l) (Z.of_nat (length (Data o)))); [lia|].
    destruct (Z.ltb_spec (MaxObjectsPerLand l) (Z.of_nat (length acc) + 1)); [lia|].
    rewrite wrap64_small by lia.
    destruct (Z.ltb_spec (MaxTotalBytes l) (total + Z.of_nat (length (Data o)))); [lia|].
    rewrite Nat2Z.id, ReadFull_app by done. apply IH; try done; try lia.
    + cbn in Hf. rewrite !length_app in Hf. lia.
    + rewrite length_app. cbn. lia.
Qed.

Lemma DecodeObjects_header_cap_witness :
  DecodeObjects tiny_limits (frames [mkObject ObjBlob []] ++ ObjTree :: PutUint32 5 ++ [])
  = Err (EObjectTooBig 5).
Proof.
  apply DecodeObjects_header_cap; [apply tiny_sane| |reflexivity|cbn; lia|lia].
  split; [|vm_compute; discriminate..].
  repeat constructor; vm_compute; congruence.
Defined.

(** ** Tree paths *)

(** A path [ValidateTreePath] accepts is relative and names a file inside the
    worktree by plain components: none is empty, "." or "..", and the path has
    no NUL and no backslash. The one exception is "." itself, which the check's
    comment lists among the refused forms. *)
Theorem ValidateTreePath_exact p :
  ValidateTreePath p = Ok tt <->
  p = "." \/
  (Forall (fun c => plain_comp c = true) (split slash p) /\
   contains zero p = false /\ contains backslash p = false).
Proof.
  unfold ValidateTreePath. destruct (String.eqb_spec p ""%string) as [->|Hne].
  { split; [done|]. intros [?|(HF & _)]; [done|]. cbn in HF.
    apply Forall_cons in HF as [HF _]. by vm_compute in HF. }
  destruct (decide (p = "."%string)) as [->|Hdot].
  { split; [by left|by vm_compute]. }
  destruct (contains zero p) eqn:Hz; [naive_solver|].
  destruct (contains backslash p) eqn:Hb; [naive_solver|].
  destruct (is_abs p) eqn:Ha.
  { split; [done|]. intros [?|(HF & _)]; [done|]. destruct p as [|a p]; [done|].
    unfold is_abs, has_prefix in Ha. cbn in Ha. case_match; [subst a|done].
    cbn in HF. destruct (split_cons slash p) as (q & qs & Hq). rewrite Hq in HF.
    apply Forall_cons in HF as [HF _]. by vm_compute in HF. }
  split.
  - intros H. destruct (String.eqb_spec (clean p) p) as [Hc|]; [|done]. cbn in H.
    rewrite forM_Ok in H. right. split; [|done].
    pose proof (clean_fixed_comps p Ha Hc Hdot) as Hk.
    rewrite Forall_forall in *. intros c Hin. apply plain_comp_true.
    specialize (H c Hin). apply err_if_Ok in H. apply String.eqb_neq in H.
    destruct (Hk c Hin). done.
  - intros [?|(HF & _)]; [done|]. rewrite clean_plain, String.eqb_refl by done. cbn.
    rewrite forM_Ok. eapply Forall_impl; [exact HF|]. intros c Hc.
    apply plain_comp_true in Hc as (_ & _ & Hc). apply err_if_Ok. by apply String.eqb_neq.
Qed.

Example tree_path_ex1 : ValidateTreePath "src/a.go" = Ok tt. Proof. reflexivity. Qed.
Example tree_path_ex2 : ValidateTreePath "src/../../etc/passwd" = Err ENotCanonical.
Proof. reflexivity. Qed.
Example tree_path_ex3 : ValidateTreePath "../x" = Err EEscapes. Proof. reflexivity. Qed.
