(* ===== verification/Sha256.v ===== *)
(** * SHA-256

    [crypto/sha256] and the [%x] of its sum, as [ComputeContentHash] uses them:
    FIPS 180-4 over 32-bit words, executable, checked against its test vectors.
    The theorems use it as an opaque function. *)
From Stdlib Require Import ZArith Lia Ascii String.
From S2P Require Import Prelude GoStrings LandWire.
Open Scope Z_scope.

Definition w32 (z : Z) : Z := z mod 2^32.
Definition rotr (n x : Z) : Z := Z.lor (Z.shiftr x n) (w32 (Z.shiftl x (32 - n))).
Definition ssig0 x := Z.lxor (Z.lxor (rotr 7 x) (rotr 18 x)) (Z.shiftr x 3).
Definition ssig1 x := Z.lxor (Z.lxor (rotr 17 x) (rotr 19 x)) (Z.shiftr x 10).
Definition bsig0 x := Z.lxor (Z.lxor (rotr 2 x) (rotr 13 x)) (rotr 22 x).
Definition bsig1 x := Z.lxor (Z.lxor (rotr 6 x) (rotr 11 x)) (rotr 25 x).
Definition choose x y z := Z.lxor (Z.land x y) (Z.land (Z.lxor x (2^32 - 1)) z).
Definition majority x y z := Z.lxor (Z.lxor (Z.land x y) (Z.land x z)) (Z.land y z).

(** The constants of FIPS 180-4, by their definition there: the first 32 bits of
    the fractional parts of the cube roots of the first 64 primes, and of the
    square roots of the first eight. *)
Definition is_prime (n : nat) : bool :=
  forallb (fun d => negb (Nat.eqb (Nat.modulo n d) 0)) (seq 2 (n - 2)).
Definition first_primes : list Z :=
  map Z.of_nat (List.filter is_prime (seq 2 310)).
(** The greatest [r] below [2^n] with [r^3 <= x]. *)
Fixpoint cube_root (n : nat) (r x : Z) : Z :=
  match n with
  | O => r
  | S n => let r' := r + 2 ^ Z.of_nat n in cube_root n (if r' * r' * r' <=? x then r' else r) x
  end.
Definition round_constants : list Z :=
  Eval vm_compute in map (fun q => w32 (cube_root 36 0 (q * 2^96))) first_primes.
Definition sha256_init : list Z :=
  Eval vm_compute in map (fun q => w32 (Z.sqrt (q * 2^64))) (take 8 first_primes).

(** The message schedule, newest word first. *)
Fixpoint schedule (n : nat) (ws : list Z) : list Z :=
  match n with
  | O => ws
  | S n =>
    let at_ i := nth i ws 0 in
    schedule n (w32 (ssig1 (at_ 1%nat) + at_ 6%nat + ssig0 (at_ 14%nat) + at_ 15%nat) :: ws)
  end.

Definition hash_round (st : list Z) (kw : Z * Z) : list Z :=
  match st with
  | [a; b; c; d; e; f; g; h] =>
    let t1 := w32 (h + bsig1 e + choose e f g + kw.1 + kw.2) in
    let t2 := w32 (bsig0 a + majority a b c) in
    [w32 (t1 + t2); a; b; c; w32 (d + t1); e; f; g]
  | _ => st
  end.

Definition compress (st : list Z) (ws : list Z) : list Z :=
  let out := fold_left hash_round (combine round_constants (rev (schedule 48 (rev ws)))) st in
  map (fun p => w32 (p.1 + p.2)) (combine st out).

Fixpoint words (n : nat) (bs : bytes) : list Z :=
  match n with O => [] | S n => be (take 4 bs) :: words n (drop 4 bs) end.
Fixpoint blocks (n : nat) (st : list Z) (bs : bytes) : list Z :=
  match n with O => st | S n => blocks n (compress st (words 16 (take 64 bs))) (drop 64 bs) end.

Definition sha256_pad (m : bytes) : bytes :=
  let n := Z.of_nat (length m) in
  m ++ to_byte 0x80 :: replicate (Z.to_nat ((55 - n) mod 64)) (to_byte 0) ++ PutUint64 (8 * n).

Definition sha256_words (m : bytes) : list Z :=
  let p := sha256_pad m in blocks (Nat.div (length p) 64) sha256_init p.

(** One hexadecimal digit, and a 32-bit word as eight of them. *)
Definition hex_digit (z : Z) : ascii :=
  ascii_of_N (Z.to_N (if z <? 10 then 48 + z else 87 + z)).
Fixpoint hex_word (n : nat) (z : Z) : string :=
  match n with
  | O => ""
  | S n => String (hex_digit (Z.shiftr z (4 * Z.of_nat n) mod 16)) (hex_word n z)
  end.

(** [fmt.Sprintf("%x", sha256.Sum256(m))]. *)
Definition sha256_hex (m : string) : string :=
  fold_right (fun w s => hex_word 8 w +:+ s) "" (sha256_words (list_ascii_of_string m)).
Arguments sha256_hex : simpl never.

Example sha256_abc :
  sha256_hex "abc" = "ba7816bf8f01cfea414140de5dae2223b00361a396177a9cb410ff61f20015ad".
Proof. vm_compute. reflexivity. Qed.
Example sha256_two_blocks :
  sha256_hex "abcdbcdecdefdefgefghfghighijhijkijkljklmklmnlmnomnopnopq"
  = "248d6a61d20638b8e5c026930c3e6039a33ce45964ff2167f6ecedd419db06c1".
Proof. vm_compute. reflexivity. Qed.

(** A sum is always 64 lowercase hexadecimal digits. *)
Lemma hex_word_length n z : String.length (hex_word n z) = n.
Proof. induction n; cbn; auto. Qed.

Lemma compress_length st ws : length st = 8%nat -> length (compress st ws) = 8%nat.
Proof.
  intros Hl. unfold compress. rewrite length_map, length_combine.
  assert (forall l s, length s = 8%nat -> length (fold_left hash_round l s) = 8%nat) as ->;
    [|by rewrite Hl|done].
  clear. induction l as [|kw l IH]; intros s Hs; [done|]. cbn [fold_left]. apply IH.
  do 8 (destruct s as [|? s]; [done|]). by destruct s.
Qed.

Lemma sha256_words_length m : length (sha256_words m) = 8%nat.
Proof.
  unfold sha256_words.
  assert (forall n st bs, length st = 8%nat -> length (blocks n st bs) = 8%nat) as H; [|by apply H].
  induction n as [|n IH]; intros st bs Hs; [done|]. cbn [blocks]. by apply IH, compress_length.
Qed.

Lemma sha256_hex_length m : String.length (sha256_hex m) = 64%nat.
Proof.
  unfold sha256_hex. pose proof (sha256_words_length (list_ascii_of_string m)) as Hl.
  remember (sha256_words _) as ws eqn:He. clear He.
  do 8 (destruct ws as [|? ws]; [done|]). destruct ws; [|done].
  cbn [fold_right]. rewrite !length_sapp, !hex_word_length. done.
Qed.
