(* ===== verification/ModelCommit.v ===== *)
(** * Commits and file diffs

    [internal/model/commit.go], [internal/model/filediff.go]: the commit record,
    the ADR-002 content hash with the JSON and the timestamp it is computed
    over, and the validations. [Commit.Metadata] (a [map[string]any] nothing
    modelled reads) is the one field left out. *)
From Stdlib Require Import ZArith Lia Ascii String.
From S2P Require Import Prelude GoStrings LandWire Sha256 TaskId SandboxModel.
Open Scope Z_scope.

(** ** File diffs *)

Definition DiffAdded := "added".
Definition DiffModified := "modified".
Definition DiffDeleted := "deleted".
Definition DiffRenamed := "renamed".
Definition validOperations : list string := [DiffAdded; DiffModified; DiffDeleted; DiffRenamed].

Definition FileModeRegular : Z := 0.
Definition FileModeExecutable : Z := 1.
Definition FileModeSymlink : Z := 2.

Record Hunk := mkHunk {
  LineStart : Z; LinesAdded : Z; LinesRemoved : Z; Content : string }.
Record DiffStatistics := mkStats { st_LinesAdded : Z; st_LinesRemoved : Z }.
Record FileDiff := mkFileDiff {
  fd_Path : string; Operation : string; OldHash : string; NewHash : string;
  Hunks : list Hunk; BinaryDiff : bool; fd_Mode : Z; OldMode : Z }.
#[export] Instance FileDiff_eq_dec : EqDecision FileDiff.
Proof. assert (EqDecision Hunk) by solve_decision. solve_decision. Defined.

(** The tree-derived diffs carry no hunks and no modes. *)
Definition tree_diff (path op old new : string) : FileDiff :=
  mkFileDiff path op old new [] false FileModeRegular FileModeRegular.

Inductive diff_err : Type := EDiffPath | EDiffOperation (op : string).
Definition FileDiff_Validate (d : FileDiff) : res diff_err unit :=
  _ ← err_if (String.eqb (fd_Path d) "") EDiffPath;
  err_if (negb (bool_decide (Operation d ∈ validOperations))) (EDiffOperation (Operation d)).

Definition Statistics (d : FileDiff) : DiffStatistics :=
  if BinaryDiff d then mkStats 0 0
  else fold_left (fun s h => mkStats (wrap64 (st_LinesAdded s + LinesAdded h))
                                     (wrap64 (st_LinesRemoved s + LinesRemoved h)))
                 (Hunks d) (mkStats 0 0).

(** ** JSON, as [encoding/json] writes a [[]FileDiff] *)

Definition hex4 (n : Z) : string := "\u" +:+ hex_word 4 n.

(** One ASCII byte of a string, with HTML escaping on, as [json.Marshal] has it. *)
Definition json_ascii (a : ascii) : string :=
  let c := byte_val a in
  if (c =? 34) || (c =? 92) then String backslash (String a "")
  else if c =? 8 then "\b" else if c =? 12 then "\f" else if c =? 10 then "\n"
  else if c =? 13 then "\r" else if c =? 9 then "\t"
  else if (c <? 32) || (c =? 60) || (c =? 62) || (c =? 38) then hex4 c
  else String a "".

(** U+2028 and U+2029 are escaped; other well-formed sequences are copied. *)
Definition json_rune3 (a b c : ascii) : string :=
  if (byte_val a =? 226) && (byte_val b =? 128) && ((byte_val c =? 168) || (byte_val c =? 169))
  then hex4 (8232 + (byte_val c - 168))
  else String a (String b (String c "")).

(** The contents of a string literal; each byte that starts no well-formed
    sequence becomes the escaped replacement character. *)
Fixpoint json_chars (s : string) : string :=
  match s with
  | "" => ""
  | String a r =>
      if byte_val a <? 128 then json_ascii a +:+ json_chars r
      else match r with
      | "" => "\ufffd"
      | String b r2 =>
          if utf8_2 a b then String a (String b (json_chars r2))
          else match r2 with
          | "" => "\ufffd" +:+ json_chars r
          | String c r3 =>
              if utf8_3 a b c then json_rune3 a b c +:+ json_chars r3
              else match r3 with
              | "" => "\ufffd" +:+ json_chars r
              | String d r4 =>
                  if utf8_4 a b c d
                  then String a (String b (String c (String d (json_chars r4))))
                  else "\ufffd" +:+ json_chars r
              end
          end
      end
  end.
Definition dquote : string := String "034" "".
Definition json_string (s : string) : string := dquote +:+ json_chars s +:+ dquote.
Definition json_bool (b : bool) : string := if b then "true" else "false".
Definition json_array (vs : list string) : string := "[" +:+ join "," vs +:+ "]".
Definition json_object (fs : list (string * string)) : string :=
  "{" +:+ join "," (map (fun f => dquote +:+ f.1 +:+ dquote +:+ ":" +:+ f.2) fs) +:+ "}".

Definition json_Hunk (h : Hunk) : string :=
  json_object [("line_start", itoa (LineStart h)); ("lines_added", itoa (LinesAdded h));
               ("lines_removed", itoa (LinesRemoved h)); ("content", json_string (Content h))].

(** The struct tags: every field but path and operation is [omitempty]. *)
Definition json_FileDiff (d : FileDiff) : string :=
  json_object
    ([("path", json_string (fd_Path d)); ("operation", json_string (Operation d))]
     ++ (if String.eqb (OldHash d) "" then [] else [("old_hash", json_string (OldHash d))])
     ++ (if String.eqb (NewHash d) "" then [] else [("new_hash", json_string (NewHash d))])
     ++ (match Hunks d with [] => [] | hs => [("hunks", json_array (map json_Hunk hs))] end)
     ++ (if BinaryDiff d then [("binary_diff", json_bool true)] else [])
     ++ (if fd_Mode d =? 0 then [] else [("mode", itoa (fd_Mode d))])
     ++ (if OldMode d =? 0 then [] else [("old_mode", itoa (OldMode d))])).

(** A Go slice is [None] when nil: [json.Marshal] tells it from an empty one. *)
Definition json_FileDiffs (ds : option (list FileDiff)) : string :=
  match ds with None => "null" | Some ds => json_array (map json_FileDiff ds) end.

(** ** Timestamps *)

(** The proleptic Gregorian date of a day counted from January 1, year 1. *)
Definition civil (days : Z) : Z * Z * Z :=
  let z := days + 306 in
  let era := z / 146097 in
  let doe := z mod 146097 in
  let yoe := (doe - doe / 1460 + doe / 36524 - doe / 146096) / 365 in
  let doy := doe - (365 * yoe + yoe / 4 - yoe / 100) in
  let mp := (5 * doy + 2) / 153 in
  let day := doy - (153 * mp + 2) / 5 + 1 in
  let month := if mp <? 10 then mp + 3 else mp - 9 in
  (yoe + era * 400 + (if month <=? 2 then 1 else 0), month, day).

(** Decimal digits padded with zeros to a width, the sign first. *)
Fixpoint zeros (n : nat) : string := match n with O => "" | S n => String "0" (zeros n) end.
Definition pad (w : nat) (z : Z) : string :=
  let s := itoa (Z.abs z) in
  (if z <? 0 then "-" else "") +:+ zeros (w - String.length s) +:+ s.

(** [t.UTC().Format("2006-01-02T15:04:05Z")]. *)
Definition format_utc (t : time) : string :=
  let secs := t / second_ns in
  let '(y, m, d) := civil (secs / 86400) in
  let s := secs mod 86400 in
  pad 4 y +:+ "-" +:+ pad 2 m +:+ "-" +:+ pad 2 d +:+ "T"
  +:+ pad 2 (s / 3600) +:+ ":" +:+ pad 2 (s / 60 mod 60) +:+ ":" +:+ pad 2 (s mod 60) +:+ "Z".

(** ** Commits *)

Definition CommitTypeNormal := "normal".
Definition CommitTypeRollback := "rollback".
Definition CommitTypeSquash := "squash".
Definition CommitTypeMerge := "merge".
Definition CommitTypeSystem := "system".
Definition shortIDLen : nat := 8.

Record Commit := mkCommit {
  CommitID : string; ContentHash : string; ParentID : string; TreeHash : string;
  c_TaskID : TaskID; AgentID : string; SessionID : string; Message : string;
  FileDiffs : option (list FileDiff); SquashedFrom : list string; CreatedAt : time;
  Signature : string; CommitType : string; CreatedBy : string; Branch : string }.

(** The bytes the content hash is taken over. *)
Definition content_preimage (c : Commit) : string :=
  Message c +:+ json_FileDiffs (FileDiffs c) +:+ String_ (c_TaskID c) +:+ ParentID c
  +:+ format_utc (CreatedAt c).
Definition ComputeContentHash (c : Commit) : string := sha256_hex (content_preimage c).
Arguments ComputeContentHash : simpl never.

Inductive commit_err : Type :=
  | ENoCommitID | ENoTaskID | ENoCreatedAt | ENoMessage.
Definition Commit_Validate (c : Commit) : res commit_err unit :=
  _ ← err_if (String.eqb (CommitID c) "") ENoCommitID;
  _ ← err_if (IsZero (c_TaskID c)) ENoTaskID;
  _ ← err_if (CreatedAt c =? 0) ENoCreatedAt;
  err_if (String.eqb (Message c) "") ENoMessage.

Definition ShortID (c : Commit) : string :=
  if (String.length (CommitID c) <? shortIDLen)%nat then CommitID c
  else String.substring 0 shortIDLen (CommitID c).
Definition Commit_String (c : Commit) : string :=
  ShortID c +:+ " [" +:+ String_ (c_TaskID c) +:+ "] " +:+ Message c.

Definition SyncAgentID := "mgit-sync".
(** [model.TaskBranchName]. *)
Definition TaskBranchName (taskID : string) : string := "task/" +:+ taskID.

(** The prose [t.Format] prints for a few instants, from Go's own examples. *)
Example format_ex0 : format_utc 0 = "0001-01-01T00:00:00Z". Proof. vm_compute. reflexivity. Qed.
Example format_ex1 : format_utc (63871337045 * second_ns) = "2025-01-01T14:04:05Z".
Proof. vm_compute. reflexivity. Qed.
Example json_ex :
  json_FileDiffs (Some [tree_diff "a<b" DiffAdded "" "e69d"])
  = "[{" +:+ dquote +:+ "path" +:+ dquote +:+ ":" +:+ dquote +:+ "a\u003cb" +:+ dquote +:+ ","
    +:+ dquote +:+ "operation" +:+ dquote +:+ ":" +:+ dquote +:+ "added" +:+ dquote +:+ ","
    +:+ dquote +:+ "new_hash" +:+ dquote +:+ ":" +:+ dquote +:+ "e69d" +:+ dquote +:+ "}]".
Proof. vm_compute. reflexivity. Qed.
Example format_leap : format_utc (63087465599 * second_ns) = "2000-02-29T23:59:59Z".
Proof. vm_compute. reflexivity. Qed.
Example format_century : format_utc (59931705600 * second_ns) = "1900-03-01T00:00:00Z".
Proof. vm_compute. reflexivity. Qed.

Definition with_diffs (c : Commit) (ds : option (list FileDiff)) : Commit :=
  mkCommit (CommitID c) (ContentHash c) (ParentID c) (TreeHash c) (c_TaskID c) (AgentID c)
    (SessionID c) (Message c) ds (SquashedFrom c) (CreatedAt c) (Signature c) (CommitType c)
    (CreatedBy c) (Branch c).

(** A byte no UTF-8 sequence contains. *)
Definition never_utf8 (a : ascii) : bool := (248 <=? byte_val a).

Lemma json_never_utf8 a s : never_utf8 a = true ->
  json_chars (String a s) = "\ufffd" +:+ json_chars s.
Proof.
  unfold never_utf8. intros Ha%Z.leb_le. unfold byte_val in Ha.
  assert (forall lo hi, (hi < 248)%N -> in_range lo hi a = false) as Hr.
  { intros lo hi Hhi. unfold in_range. apply andb_false_iff. right. apply N.leb_gt.
    lia. }
  cbn [json_chars]. unfold byte_val. destruct (Z.ltb_spec (Z.of_N (N_of_ascii a)) 128); [lia|].
  destruct s as [|b s]; [done|]. unfold utf8_2. rewrite Hr by lia. cbn [andb].
  destruct s as [|c s]; [done|]. unfold utf8_3. rewrite !Hr by lia.
  cbn [andb orb]. rewrite andb_false_r.
  destruct s as [|d s]; [done|]. unfold utf8_4. rewrite !Hr by lia.
  cbn [andb orb]. by rewrite andb_false_r.
Qed.

(** The content hash does not bind the file names it is computed over: two
    commits that differ only in one byte of one path, where that byte is never
    part of UTF-8, have the same content hash, and the land boundary accepts
    both paths. (The JSON both paths are hashed in has the replacement
    character in place of the byte.) *)
Theorem ContentHash_path_collision c a b s op old new :
  never_utf8 a = true -> never_utf8 b = true -> a <> b ->
  let c_ x := with_diffs c (Some [tree_diff (String x s) op old new]) in
  FileDiffs (c_ a) <> FileDiffs (c_ b) /\ ComputeContentHash (c_ a) = ComputeContentHash (c_ b) /\
  (ValidateTreePath (String a "") = Ok tt /\ ValidateTreePath (String b "") = Ok tt).
Proof.
  intros Ha Hb Hab c_. split; [|split].
  - subst c_. cbn. unfold tree_diff. by intros [=].
  - subst c_. unfold ComputeContentHash, content_preimage.
    cbn [Message FileDiffs with_diffs c_TaskID ParentID CreatedAt json_FileDiffs map].
    unfold json_FileDiff, tree_diff, json_string. cbn [fd_Path].
    by rewrite !json_never_utf8.
  - assert (forall x, never_utf8 x = true -> ValidateTreePath (String x "") = Ok tt) as Hx;
      [|split; by apply Hx].
    clear. intros [[] [] [] [] [] [] [] []] Hx; vm_compute in Hx; try discriminate Hx; reflexivity.
Qed.

Definition sample_commit : Commit :=
  mkCommit "" "" "" "" (mkTaskID "MGIT" "1") "agent" "" "[MGIT:MGIT-1] add" None []
    (63871337045 * second_ns) "" CommitTypeNormal "agent" "".

Lemma ContentHash_path_collision_witness :
  ComputeContentHash (with_diffs sample_commit (Some [tree_diff (String "254" ".go") DiffAdded "" "e69d"]))
  = ComputeContentHash (with_diffs sample_commit (Some [tree_diff (String "255" ".go") DiffAdded "" "e69d"])).
Proof.
  apply (ContentHash_path_collision sample_commit "254" "255" ".go" DiffAdded "" "e69d");
    [reflexivity|reflexivity|discriminate].
Defined.
