(* ===== verification/Attest.v ===== *)
(** * Host attestations

    [internal/sandboxd/attest/attest.go]: the length-prefixed signing payload,
    [Service.Attest] and [Service.Verify]. Ed25519 is the parameter
    [sign]/[verify_sig] of the section; what [Attest]'s round trip relies on is
    the one law of a signature scheme, that a signature made with a private key
    verifies under its public key. Nothing is assumed about forging. *)
From Stdlib Require Import ZArith Lia Ascii String.
From S2P Require Import Prelude GoStrings Regex TaskId LandWire SandboxModel.
Open Scope Z_scope.

(** Nanoseconds from the zero [Time] to the Unix epoch. *)
Definition unix_epoch : Z := 62135596800 * second_ns.
(** [t.UTC().UnixNano()]: an [int64]. *)
Definition UnixNano (t : time) : Z := wrap64 (t - unix_epoch).

Definition writeLengthPrefixed (buf : bytes) (field : string) : bytes :=
  buf ++ PutUint64 (Z.of_nat (String.length field)) ++ list_ascii_of_string field.

Definition signingPayload (a : Attestation) : bytes :=
  let buf := fold_left writeLengthPrefixed
    [at_SandboxID a; at_CommitHash a; at_ContentHash a; at_KeyID a] [] in
  let buf := buf ++ PutUint64 (UnixNano (at_IssuedAt a)) in
  if at_PayloadVersion a =? AttestPayloadWithBase
  then writeLengthPrefixed (buf ++ PutUint64 (at_PayloadVersion a)) (at_BaseDigest a)
  else buf.

Inductive attest_err : Type :=
  | ENilAttestation
  | EInvalidAttestation (e : model_err)
  | EUnsupportedAlg (alg : string)
  | EUnknownKey (id : string)
  | EBadSignature.
#[export] Instance attest_err_eq_dec : EqDecision attest_err.
Proof. solve_decision. Defined.

Section Service.
Context {PrivateKey PublicKey : Type}.
Context (sign : PrivateKey -> bytes -> bytes).
Context (verify_sig : PublicKey -> bytes -> bytes -> bool).

(** [attest.Service]; the clock is an argument of [Attest]. *)
Record Service := mkService {
  priv : PrivateKey;
  activeKey : string;
  knownPub : gmap string PublicKey }.

Definition set_signature (a : Attestation) (s : bytes) : Attestation :=
  mkAttestation (at_SandboxID a) (at_BaseDigest a) (at_PayloadVersion a) (at_CommitHash a)
    (at_ContentHash a) (at_Alg a) (at_KeyID a) s (at_IssuedAt a).

Definition Attest (s : Service) (now : time) (subj : AttestationSubject)
    : res attest_err Attestation :=
  let att := mkAttestation (sub_SandboxID subj) (sub_BaseDigest subj) AttestPayloadWithBase
    (sub_CommitHash subj) (sub_ContentHash subj) AlgEd25519 (activeKey s) [] now in
  let att := set_signature att (sign (priv s) (signingPayload att)) in
  _ ← res_map_err EInvalidAttestation (Attestation_Validate att);
  Ok att.

Definition Verify (s : Service) (att : option Attestation) : res attest_err unit :=
  match att with
  | None => Err ENilAttestation
  | Some att =>
    _ ← res_map_err EInvalidAttestation (Attestation_Validate att);
    _ ← err_if (negb (String.eqb (at_Alg att) AlgEd25519)) (EUnsupportedAlg (at_Alg att));
    match knownPub s !! at_KeyID att with
    | None => Err (EUnknownKey (at_KeyID att))
    | Some pub =>
      err_if (negb (verify_sig pub (signingPayload att) (at_HostSignature att))) EBadSignature
    end
  end.

(** [NewService]'s active key: the service knows the public half of its own key. *)
Context (public_of : PrivateKey -> PublicKey).
Definition well_keyed (s : Service) : Prop :=
  knownPub s !! activeKey s = Some (public_of (priv s)).
End Service.

Arguments Service : clear implicits.

(** ** The payload is injective *)

(** A string whose length fits the eight-byte prefix (every Go string does). *)
Definition fits (s : string) : Prop := Z.of_nat (String.length s) < 2^64.

Lemma list_ascii_inj s s' : list_ascii_of_string s = list_ascii_of_string s' -> s = s'.
Proof.
  intros H. rewrite <- (string_of_list_ascii_of_string s), H.
  apply string_of_list_ascii_of_string.
Qed.

Lemma list_ascii_length s : length (list_ascii_of_string s) = String.length s.
Proof. induction s; cbn; auto. Qed.

Lemma PutUint64_inj a b r r' :
  PutUint64 a ++ r = PutUint64 b ++ r' -> a mod 2^64 = b mod 2^64 /\ r = r'.
Proof.
  intros H. apply app_inj_1 in H as [H Hr]; [|by unfold PutUint64; rewrite !put_be_length].
  apply (f_equal be) in H. unfold PutUint64 in H. by rewrite !be_put_be in H.
Qed.

Definition lp (s : string) : bytes :=
  PutUint64 (Z.of_nat (String.length s)) ++ list_ascii_of_string s.

Lemma lp_inj s s' r r' : fits s -> fits s' -> lp s ++ r = lp s' ++ r' -> s = s' /\ r = r'.
Proof.
  unfold fits. intros Hs Hs' H. unfold lp in H. rewrite <- !app_assoc in H.
  apply PutUint64_inj in H as [Hl H]. rewrite !Z.mod_small in Hl by lia.
  apply app_inj_1 in H as [H ->]; [|rewrite !list_ascii_length; lia].
  split; [by apply list_ascii_inj|done].
Qed.

Lemma signingPayload_layout a :
  signingPayload a = lp (at_SandboxID a) ++ lp (at_CommitHash a) ++ lp (at_ContentHash a)
    ++ lp (at_KeyID a) ++ PutUint64 (UnixNano (at_IssuedAt a))
    ++ (if at_PayloadVersion a =? AttestPayloadWithBase
        then PutUint64 (at_PayloadVersion a) ++ lp (at_BaseDigest a) else []).
Proof.
  unfold signingPayload, writeLengthPrefixed, lp. cbn [fold_left app].
  destruct (at_PayloadVersion a =? AttestPayloadWithBase); by rewrite ?app_nil_r, <- ?app_assoc.
Qed.

Definition fields_fit (a : Attestation) : Prop :=
  fits (at_SandboxID a) /\ fits (at_CommitHash a) /\ fits (at_ContentHash a) /\
  fits (at_KeyID a) /\ fits (at_BaseDigest a).
(** The dates [UnixNano] represents: 1677 to 2262. *)
Definition unix_range (t : time) : Prop := -(2^63) <= t - unix_epoch < 2^63.

(** The layouts [Attestation.Validate] lets through. *)
Lemma Validate_layout a : Attestation_Validate a = Ok tt ->
  at_PayloadVersion a = AttestPayloadWithBase \/
  ((at_PayloadVersion a = 0 \/ at_PayloadVersion a = AttestPayloadOriginal) /\
   at_BaseDigest a = ""%string).
Proof.
  unfold Attestation_Validate, validatePayloadLayout, invalid_if. intros H. inv_res.
  match goal with H : (if _ then _ else _) = Ok _ |- _ => rename H into Hl end.
  destruct ((at_PayloadVersion a =? 0) || (at_PayloadVersion a =? AttestPayloadOriginal)) eqn:Hv.
  - apply err_if_Ok, negb_false_iff, String.eqb_eq in Hl. right. split; [|done].
    apply orb_true_iff in Hv as [Hv|Hv]; apply Z.eqb_eq in Hv; tauto.
  - apply err_if_Ok, negb_false_iff, Z.eqb_eq in Hl. by left.
Qed.

(** C31. The signature covers every claim: two attestations [Validate] accepts with
    the same signing payload are about the same sandbox, commit, content, key,
    instant and guest base, and were signed in the same layout. So a verified
    attestation cannot be re-cut into another claim by moving a field boundary,
    by stripping the base digest with its marker, or by adding one to a layout
    that does not sign it. *)
Theorem signingPayload_binds a b :
  Attestation_Validate a = Ok tt -> Attestation_Validate b = Ok tt ->
  fields_fit a -> fields_fit b -> unix_range (at_IssuedAt a) -> unix_range (at_IssuedAt b) ->
  signingPayload a = signingPayload b ->
  at_SandboxID a = at_SandboxID b /\ at_CommitHash a = at_CommitHash b /\
  at_ContentHash a = at_ContentHash b /\ at_KeyID a = at_KeyID b /\
  at_IssuedAt a = at_IssuedAt b /\ at_BaseDigest a = at_BaseDigest b /\
  (at_PayloadVersion a = AttestPayloadWithBase <-> at_PayloadVersion b = AttestPayloadWithBase).
Proof.
  intros Va%Validate_layout Vb%Validate_layout (?&?&?&?&?) (?&?&?&?&?) Ta Tb.
  rewrite !signingPayload_layout.
  intros [-> [-> [-> [-> [Ht Hl]%PutUint64_inj]%lp_inj]%lp_inj]%lp_inj]%lp_inj; try done.
  unfold unix_range, UnixNano in *. rewrite !wrap64_small in Ht by done.
  assert (at_IssuedAt a = at_IssuedAt b) as ->.
  { Z.to_euclidean_division_equations. lia. }
  repeat (split; [done|]).
  destruct (Z.eqb_spec (at_PayloadVersion a) AttestPayloadWithBase) as [Ea|Ea],
    (Z.eqb_spec (at_PayloadVersion b) AttestPayloadWithBase) as [Eb|Eb].
  - apply PutUint64_inj in Hl as [_ Hl].
    rewrite <- (app_nil_r (lp (at_BaseDigest a))), <- (app_nil_r (lp (at_BaseDigest b))) in Hl.
    by apply lp_inj in Hl as [-> _].
  - done.
  - done.
  - destruct Va as [?|[_ ->]], Vb as [?|[_ ->]]; try done.
Qed.

Definition sample_att (base : string) (v : Z) : Attestation :=
  mkAttestation "01JXSBA000000000000000000" base v
    "aaaaaaaaaaaaaaaaaaaaaaaaaaaaaaaaaaaaaaaa"
    "bbbbbbbbbbbbbbbbbbbbbbbbbbbbbbbbbbbbbbbbbbbbbbbbbbbbbbbbbbbbbbbb"
    AlgEd25519 "k1" ["s"%char] (unix_epoch + 5).

Lemma signingPayload_binds_witness :
  at_BaseDigest (sample_att "sha256:x" 2) = at_BaseDigest (sample_att "sha256:x" 2).
Proof.
  assert (fields_fit (sample_att "sha256:x" 2)) as Hf
    by (unfold fields_fit, fits; cbn; repeat split; lia).
  assert (unix_range (at_IssuedAt (sample_att "sha256:x" 2))) as Hr
    by (unfold unix_range, sample_att; cbn [at_IssuedAt]; lia).
  destruct (signingPayload_binds (sample_att "sha256:x" 2) (sample_att "sha256:x" 2))
    as (_ & _ & _ & _ & _ & H & _);
    [vm_compute; reflexivity|vm_compute; reflexivity|exact Hf|exact Hf|exact Hr|exact Hr
    |reflexivity|exact H].
Defined.

Section Issue.
Context {PrivateKey PublicKey : Type}.
Context (sign : PrivateKey -> bytes -> bytes).
Context (verify_sig : PublicKey -> bytes -> bytes -> bool).
Context (public_of : PrivateKey -> PublicKey).
Context (sign_verifies : forall k m, verify_sig (public_of k) m (sign k m) = true).

(** [Attest] either refuses its input or issues an attestation that its own
    [Verify] accepts and that names exactly the subject it was given, under the
    layout that signs the base digest; a mutilated signature is what [Verify]
    refuses with. *)
Theorem Attest_Verify s now subj att :
  well_keyed public_of s -> Attest sign s now subj = Ok att ->
  Verify verify_sig s (Some att) = Ok tt /\
  at_SandboxID att = sub_SandboxID subj /\ at_CommitHash att = sub_CommitHash subj /\
  at_ContentHash att = sub_ContentHash subj /\ at_BaseDigest att = sub_BaseDigest subj /\
  at_PayloadVersion att = AttestPayloadWithBase /\
  (forall sig, verify_sig (public_of (priv s)) (signingPayload att) sig = false -> sig <> [] ->
     Verify verify_sig s (Some (set_signature att sig)) = Err EBadSignature).
Proof.
  intros Hk Hatt. unfold Attest in Hatt.
  set (a0 := mkAttestation _ _ _ _ _ _ _ _ _) in Hatt.
  apply bind_Ok in Hatt as ([] & Hv & [= <-]).
  assert (forall x, signingPayload (set_signature a0 x) = signingPayload a0 /\
    at_Alg (set_signature a0 x) = AlgEd25519 /\ at_KeyID (set_signature a0 x) = activeKey s /\
    at_HostSignature (set_signature a0 x) = x) as Hset by done.
  split_and!; try done.
  - unfold Verify. rewrite Hv. cbn [mbind res_bind].
    destruct (Hset (sign (priv s) (signingPayload a0))) as (-> & -> & -> & ->).
    rewrite String.eqb_refl, Hk, sign_verifies. done.
  - intros sg Hsg Hne. unfold Verify.
    change (set_signature (set_signature a0 _) sg) with (set_signature a0 sg).
    assert (Attestation_Validate (set_signature a0 sg) = Ok tt) as ->.
    { apply res_map_err_Ok in Hv. unfold Attestation_Validate in *.
      rewrite !seq_Ok in *. destruct Hv as (?&?&?&?&?&?&?). repeat (split; try done).
      destruct sg; [done|done]. }
    cbn [mbind res_bind res_map_err].
    destruct (Hset sg) as (-> & -> & -> & ->). rewrite (proj1 (Hset _)) in Hsg.
    by rewrite String.eqb_refl, Hk, Hsg.
Qed.
End Issue.

(** A toy scheme for the witness: the "signature" is the payload itself. *)
Definition toy_sign (k : unit) (m : bytes) : bytes := m.
Definition toy_verify (k : unit) (m sg : bytes) : bool := bool_decide (m = sg).
Definition toy_service : Service unit unit := mkService tt "k1" {["k1" := tt]}.
Definition toy_subject : AttestationSubject :=
  mkSubject "sb" "aaaaaaaaaaaaaaaaaaaaaaaaaaaaaaaaaaaaaaaa"
    "bbbbbbbbbbbbbbbbbbbbbbbbbbbbbbbbbbbbbbbbbbbbbbbbbbbbbbbbbbbbbbbb" "sha256:x".

Lemma Attest_Verify_witness :
  exists att, Attest toy_sign toy_service (unix_epoch + 5) toy_subject = Ok att /\
  Verify toy_verify toy_service (Some att) = Ok tt.
Proof.
  eexists. split; [vm_compute; reflexivity|].
  refine (proj1 (Attest_Verify toy_sign toy_verify (fun _ => tt) _ toy_service (unix_epoch + 5)
    toy_subject _ _ _)).
  - intros k m. unfold toy_verify, toy_sign. by apply bool_decide_eq_true.
  - reflexivity.
  - vm_compute. reflexivity.
Defined.
