(* ===== verification/LandVerify.v ===== *)
(** * Verification at the land boundary

    [internal/sandboxd/land/verify.go], [treebind.go], [require.go] and
    [derive.go]'s [DeriveLandedCommit], with [store/git]'s mapping of a git
    commit object to a model commit. go-git is the class [GoGit]: the object
    hash, the commit decoder and the tree walk. *)
From Stdlib Require Import ZArith Lia Ascii String.
From S2P Require Import Prelude GoStrings Regex TaskId LandWire Sha256 SandboxModel ModelCommit Attest.
Open Scope Z_scope.

(** Every error of the land path. [is_verification_failed] tells the ones that
    wrap [model.ErrLandVerificationFailed]. *)
Inductive land_err : Type :=
  | EFrames (e : decode_err)
  | ETreePath (e : path_err)
  | ENilCommit | EDecodeCommit | EIdMismatch | EMetadata (field : string) | EContentHash
  | EDuplicateCommit (id : string) | EUnknownObject (t : ascii)
  | ETreeMissing (h : string) | EWalk | EBlobAbsent | EDiffMismatch
  | ERoots (n : nat) | EForked | EIntraBatchAbsent (id : string)
  | ENoObject (id : string) | ERequest (what : string)
  | ETaskMismatch (id : string)
  | EUnattestedCommit
  | EAttestationInvalid (e : attest_err) | EAttestationOther
  | ECommitNotFound (id : string)
  | EPeerBinding | ENoPulledPool | EBudget
  | EExternal (what : string) | EPolicyRead
  | EImport | EAppend | EFastForward | EAudit
  | EFuelChain.
#[export] Instance land_err_eq_dec : EqDecision land_err.
Proof. solve_decision. Defined.

(** The errors of the persister, after every commit of the batch was verified. *)
Definition persist_err (e : land_err) : bool :=
  match e with EImport | EAppend | EFastForward | EAudit => true | _ => false end.

Definition is_verification_failed (e : land_err) : bool :=
  match e with
  | ETaskMismatch _ | EUnattestedCommit | EAttestationInvalid _ | EAttestationOther
  | ECommitNotFound _ | EPeerBinding | ENoPulledPool | EBudget | EExternal _ | EPolicyRead
  | EImport | EAppend | EFastForward | EAudit | EFuelChain => false
  | _ => true
  end.

(** ** Git objects *)

Inductive ObjectType : Type := CommitObject | TreeObject | BlobObject.
#[export] Instance ObjectType_eq_dec : EqDecision ObjectType.
Proof. solve_decision. Defined.

Definition gitObjectType (t : ascii) : res land_err ObjectType :=
  if Ascii.eqb t ObjCommit then Ok CommitObject
  else if Ascii.eqb t ObjTree then Ok TreeObject
  else if Ascii.eqb t ObjBlob then Ok BlobObject
  else Err (EUnknownObject t).

(** What go-git decodes from a commit object ([object.Commit]). *)
Record GitCommit := mkGitCommit {
  g_Message : string; g_AuthorName : string; g_When : time;
  g_TreeHash : string; g_ParentHashes : list string }.

(** An entry the tree walk yields: its full path, its mode, its object. *)
Record TreeEntry := mkTreeEntry { te_Name : string; te_Mode : Z; te_Hash : string }.
Definition filemode_Dir : Z := 16384.

(** An object store: the type and content held under each hash. *)
Abbreviation Storage := (gmap string (ObjectType * bytes)).
(** A file set: path to blob hash. *)
Abbreviation FileSet := (gmap string string).

Definition emptyTreeHash := "4b825dc642cb6eb9a060e54bf8d69288fbee4904".
Definition ZeroHash := "0000000000000000000000000000000000000000".

(** [taskPrefixPattern]: [^\[MGIT:([^\]]+)\]]. *)
Definition taskIDFromMessage (message : string) : TaskID :=
  match cut_prefix "[MGIT:" message with
  | None => mkTaskID "" ""
  | Some rest =>
    let '(id, _, found) := cut "]" rest in
    if found && negb (String.eqb id "") then
      match ParseTaskID id with Ok tid => tid | Err _ => mkTaskID "" "" end
    else mkTaskID "" ""
  end.

Definition commitFromGitObject (hash : string) (obj : GitCommit) : Commit :=
  mkCommit hash "" (match g_ParentHashes obj with [] => "" | p :: _ => p end) (g_TreeHash obj)
    (taskIDFromMessage (g_Message obj)) (g_AuthorName obj) "" (g_Message obj) None [] (g_When obj)
    "" CommitTypeNormal (g_AuthorName obj) "".

(** The Go [case !ok], [case oldHash != newHash] of the two loops. *)
Definition landed_change (parent : FileSet) (e : string * string) : list FileDiff :=
  match parent !! e.1 with
  | None => [tree_diff e.1 DiffAdded "" e.2]
  | Some old => if String.eqb old e.2 then [] else [tree_diff e.1 DiffModified old e.2]
  end.
Definition parent_change (landed : FileSet) (e : string * string) : list FileDiff :=
  match landed !! e.1 with
  | None => [tree_diff e.1 DiffDeleted e.2 ""]
  | Some _ => []
  end.
Definition nil_slice {A} (l : list A) : option (list A) :=
  match l with [] => None | _ => Some l end.
Definition slice {A} (l : option (list A)) : list A := default [] l.

Definition diffFileSets (it : MapIter string) (parent landed : FileSet) : option (list FileDiff) :=
  nil_slice (flat_map (landed_change parent) (it landed) ++ flat_map (parent_change landed) (it parent)).

Definition diff_key (d : FileDiff) : string :=
  fd_Path d +:+ String zero (Operation d +:+ String zero (OldHash d +:+ String zero (NewHash d))).
(** [counts[key] += n] on a map whose absent entries read as zero. *)
Definition bump (n : Z) (counts : gmap string Z) (k : string) : gmap string Z :=
  <[k := default 0 (counts !! k) + n]> counts.
Definition diffsMatch (claimed recomputed : option (list FileDiff)) : bool :=
  if negb (length (slice claimed) =? length (slice recomputed))%nat then false
  else
    let counts := fold_left (bump 1) (map diff_key (slice recomputed)) ∅ in
    let counts := fold_left (bump (-1)) (map diff_key (slice claimed)) counts in
    forallb (fun kn => kn.2 =? 0) (map_to_list counts).

Definition metadataMismatch (derived want : Commit) : string :=
  if negb (String.eqb (Message derived) (Message want)) then "message"
  else if negb (String.eqb (TreeHash derived) (TreeHash want)) then "tree_hash"
  else if negb (String.eqb (ParentID derived) (ParentID want)) then "parent_id"
  else if negb (String.eqb (AgentID derived) (AgentID want)) then "agent_id"
  else if negb (CreatedAt derived =? CreatedAt want) then "created_at"
  else "".

Definition with_landed (c : Commit) (tid : TaskID) (ds : option (list FileDiff)) (h : string) : Commit :=
  mkCommit (CommitID c) h (ParentID c) (TreeHash c) tid (AgentID c) (SessionID c) (Message c) ds
    (SquashedFrom c) (CreatedAt c) (Signature c) (CommitType c) (CreatedBy c) (Branch c).

Definition EnforceRequireSandbox (requireSandbox : bool) (expectedSandboxID : string)
    (commit : option Commit) (att : option Attestation)
    (verify : option Attestation -> res attest_err unit) : res land_err (option string) :=
  if negb requireSandbox then Ok None
  else match commit with
  | None => Err ENilCommit
  | Some c =>
    match att with
    | None => Err EUnattestedCommit
    | Some a =>
      _ ← res_map_err EAttestationInvalid (verify att);
      if negb (String.eqb (at_CommitHash a) (CommitID c))
         || negb (String.eqb (at_ContentHash a) (ContentHash c)) then Err EAttestationOther
      else if negb (String.eqb (at_SandboxID a) expectedSandboxID) then Err EAttestationOther
      else Ok (Some (at_SandboxID a))
    end
  end.

(** The walk's loop: every entry's path is validated, directories are skipped. *)
Fixpoint collect_files (es : list TreeEntry) (files : FileSet) : res land_err FileSet :=
  match es with
  | [] => Ok files
  | e :: es =>
    _ ← res_map_err ETreePath (ValidateTreePath (te_Name e));
    if te_Mode e =? filemode_Dir then collect_files es files
    else collect_files es (<[te_Name e := te_Hash e]> files)
  end.

(** go-git, as the land path uses it: [plumbing.ComputeHash(t, data).String()],
    [object.Commit.Decode], and the walk of a stored tree ([object.GetTree] on
    [plumbing.NewHash] of the id, then [NewTreeWalker]): its entries in order
    and whether an error ended it, or [None] when there is no such tree. *)
Class GoGit := {
  ComputeHash : ObjectType -> bytes -> string;
  DecodeCommit : bytes -> option GitCommit;
  WalkTree : Storage -> string -> option (list TreeEntry * bool) }.
(** [entry.Hash.String()] is hexadecimal, and an object id is forty digits. *)
Class GoGitLaws (G : GoGit) : Prop := {
  hash_length : forall t d, String.length (ComputeHash t d) = 40%nat;
  walk_hex : forall st h es b e,
    WalkTree st h = Some (es, b) -> e ∈ es -> contains zero (te_Hash e) = false }.

Section Git.
Context `{G : GoGit}.

Definition CommitFromObjectData (data : bytes) : option Commit :=
  g ← DecodeCommit data; Some (commitFromGitObject (ComputeHash CommitObject data) g).

Definition VerifyBinding (objectData : bytes) (c : option Commit) : res land_err unit :=
  match c with
  | None => Err ENilCommit
  | Some c =>
    derived ← res_of_option EDecodeCommit (CommitFromObjectData objectData);
    _ ← err_if (negb (String.eqb (CommitID derived) (CommitID c))) EIdMismatch;
    let mismatch := metadataMismatch derived c in
    _ ← err_if (negb (String.eqb mismatch "")) (EMetadata mismatch);
    err_if (negb (String.eqb (ComputeContentHash c) (ContentHash c))) EContentHash
  end.

(** [VerifyCommit] with the importer's action on a host state. *)
Definition VerifyCommit {H} (Import : bytes -> Commit -> H -> res land_err H)
    (objectData : bytes) (c : option Commit) (h : H) : res land_err H :=
  _ ← VerifyBinding objectData c;
  match c with Some c => Import objectData c h | None => Err ENilCommit end.

Fixpoint CommitObjectsByID_loop (objs : list Object) (byID : gmap string bytes)
    : res land_err (gmap string bytes) :=
  match objs with
  | [] => Ok byID
  | obj :: objs =>
    if negb (Ascii.eqb (Type_ obj) ObjCommit) then CommitObjectsByID_loop objs byID
    else
      let id := ComputeHash CommitObject (Data obj) in
      match byID !! id with
      | Some _ => Err (EDuplicateCommit id)
      | None => CommitObjectsByID_loop objs (<[id := Data obj]> byID)
      end
  end.
Definition CommitObjectsByID (objs : list Object) : res land_err (gmap string bytes) :=
  CommitObjectsByID_loop objs ∅.

(** Objects are stored under the hash of their own bytes. *)
Fixpoint poolStorer_loop (objs : list Object) (st : Storage) : res land_err Storage :=
  match objs with
  | [] => Ok st
  | obj :: objs =>
    typ ← gitObjectType (Type_ obj);
    poolStorer_loop objs (<[ComputeHash typ (Data obj) := (typ, Data obj)]> st)
  end.
Definition poolStorer (objs : list Object) : res land_err Storage := poolStorer_loop objs ∅.

(** [st.EncodedObject(t, h)] finds an object. *)
Definition has_object (st : Storage) (t : ObjectType) (h : string) : bool :=
  match st !! h with Some (t', _) => bool_decide (t' = t) | None => false end.

Definition landedFileSet (st : Storage) (treeHash : string) : res land_err FileSet :=
  if String.eqb treeHash "" || String.eqb treeHash emptyTreeHash || String.eqb treeHash ZeroHash
  then Ok ∅
  else match WalkTree st treeHash with
  | None => Err (ETreeMissing treeHash)
  | Some (entries, failed) =>
    files ← collect_files entries ∅;
    if failed then Err EWalk else Ok files
  end.

Definition new_blob_present (st : Storage) (d : FileDiff) : bool :=
  String.eqb (NewHash d) "" || has_object st BlobObject (NewHash d).

Definition VerifyTreeBinding (it : MapIter string) (objects : list Object) (c : option Commit)
    (parentFiles : FileSet) : res land_err unit :=
  match c with
  | None => Err ENilCommit
  | Some c =>
    storer ← poolStorer objects;
    landedFiles ← landedFileSet storer (TreeHash c);
    let recomputed := diffFileSets it parentFiles landedFiles in
    _ ← forM_ (fun d => err_if (negb (new_blob_present storer d)) EBlobAbsent) (slice recomputed);
    err_if (negb (diffsMatch (FileDiffs c) recomputed)) EDiffMismatch
  end.

Definition DeriveLandedCommit (it : MapIter string) (objData : bytes) (pool : list Object)
    (taskID : TaskID) (parentFiles : FileSet) : res land_err Commit :=
  c ← res_of_option EDecodeCommit (CommitFromObjectData objData);
  storer ← poolStorer pool;
  landedFiles ← landedFileSet storer (TreeHash c);
  let c := with_landed c taskID (diffFileSets it parentFiles landedFiles) (ContentHash c) in
  Ok (with_landed c taskID (FileDiffs c) (ComputeContentHash c)).
End Git.

(** ** Diffs *)

Lemma slice_nil_slice {A} (l : list A) : slice (nil_slice l) = l.
Proof. by destruct l. Qed.

(** The two loops, one file set at a time: every change has the path of the
    entry it comes from. *)
Lemma landed_change_path parent e : map fd_Path (landed_change parent e) `sublist_of` [e.1].
Proof.
  unfold landed_change. destruct (parent !! e.1); [destruct (String.eqb _ _)|]; cbn;
    repeat constructor.
Qed.
Lemma parent_change_path landed e : map fd_Path (parent_change landed e) `sublist_of` [e.1].
Proof. unfold parent_change. destruct (landed !! e.1); cbn; repeat constructor. Qed.

Lemma flat_map_paths (f : string * string -> list FileDiff) l :
  (forall e, map fd_Path (f e) `sublist_of` [e.1]) ->
  map fd_Path (flat_map f l) `sublist_of` map fst l.
Proof.
  intros Hf. induction l as [|e l IH]; [constructor|]. cbn. rewrite map_app.
  change (e.1 :: map fst l) with ([e.1] ++ map fst l). by apply sublist_app.
Qed.


Lemma elem_of_flat_map {A B} (f : A -> list B) l b :
  b ∈ flat_map f l <-> exists a, a ∈ l /\ b ∈ f a.
Proof.
  rewrite list_elem_of_In, in_flat_map. setoid_rewrite <- list_elem_of_In. done.
Qed.

(** What a diff between two file sets lists. *)
Inductive change (parent landed : FileSet) : FileDiff -> Prop :=
  | ch_added p h : landed !! p = Some h -> parent !! p = None ->
      change parent landed (tree_diff p DiffAdded "" h)
  | ch_modified p old h : landed !! p = Some h -> parent !! p = Some old -> old <> h ->
      change parent landed (tree_diff p DiffModified old h)
  | ch_deleted p old : landed !! p = None -> parent !! p = Some old ->
      change parent landed (tree_diff p DiffDeleted old "").

Lemma diffFileSets_change it parent landed d :
  d ∈ slice (diffFileSets it parent landed) <-> change parent landed d.
Proof.
  unfold diffFileSets. rewrite slice_nil_slice, elem_of_app, !elem_of_flat_map. split.
  - intros [([p h] & He & Hd)|([p h] & He & Hd)]; apply elem_of_iter in He.
    + unfold landed_change in Hd. cbn in Hd. destruct (parent !! p) as [old|] eqn:Ep.
      * destruct (String.eqb_spec old h); [by apply not_elem_of_nil in Hd|].
        apply list_elem_of_singleton in Hd as ->. by constructor.
      * apply list_elem_of_singleton in Hd as ->. by constructor.
    + unfold parent_change in Hd. cbn in Hd. destruct (landed !! p) eqn:El;
        [by apply not_elem_of_nil in Hd|].
      apply list_elem_of_singleton in Hd as ->. by constructor.
  - destruct 1 as [p h Hl Hp|p old h Hl Hp Hne|p old Hl Hp].
    + left. exists (p, h). rewrite elem_of_iter. split; [done|]. unfold landed_change. cbn.
      rewrite Hp. by apply list_elem_of_singleton.
    + left. exists (p, h). rewrite elem_of_iter. split; [done|]. unfold landed_change. cbn.
      rewrite Hp. destruct (String.eqb_spec old h); [done|]. by apply list_elem_of_singleton.
    + right. exists (p, old). rewrite elem_of_iter. split; [done|]. unfold parent_change. cbn.
      rewrite Hl. by apply list_elem_of_singleton.
Qed.

Lemma diffFileSets_NoDup it parent landed :
  NoDup (map fd_Path (slice (diffFileSets it parent landed))).
Proof.
  unfold diffFileSets. rewrite slice_nil_slice, map_app. apply NoDup_app.
  assert (forall f m, (forall e, map fd_Path (f e) `sublist_of` [e.1]) ->
    NoDup (map fd_Path (flat_map f (it m)))) as Hnd.
  { intros f m Hf. eapply sublist_NoDup; [|by apply flat_map_paths]; apply iter_NoDup. }
  split; [apply Hnd, landed_change_path|]. split; [|apply Hnd, parent_change_path].
  intros p (d & -> & Hd)%list_elem_of_fmap (d' & Hp & Hd')%list_elem_of_fmap.
  apply elem_of_flat_map in Hd as ([q h] & Hq & Hd), Hd' as ([q' h'] & Hq' & Hd').
  apply elem_of_iter in Hq, Hq'. unfold landed_change, parent_change in *. cbn in Hd, Hd'.
  destruct (landed !! q') eqn:El; [by apply not_elem_of_nil in Hd'|].
  apply list_elem_of_singleton in Hd' as ->. cbn in Hp. subst q'.
  destruct (parent !! q); [case_match|];
    try (by apply not_elem_of_nil in Hd); apply list_elem_of_singleton in Hd as ->;
    cbn in El; congruence.
Qed.

(** A diff list as a patch of a file set. *)
Definition apply_diff (files : FileSet) (d : FileDiff) : FileSet :=
  if String.eqb (Operation d) DiffDeleted then delete (fd_Path d) files
  else <[fd_Path d := NewHash d]> files.
Definition apply_diffs (ds : list FileDiff) (files : FileSet) : FileSet :=
  fold_left apply_diff ds files.
Definition effect (d : FileDiff) : option string :=
  if String.eqb (Operation d) DiffDeleted then None else Some (NewHash d).

Lemma apply_diff_lookup files d p :
  apply_diff files d !! p = if decide (p = fd_Path d) then effect d else files !! p.
Proof.
  unfold apply_diff, effect. destruct (decide (p = fd_Path d)) as [->|Hne];
    destruct (String.eqb _ _).
  - apply lookup_delete_eq.
  - apply lookup_insert_eq.
  - by apply lookup_delete_ne.
  - by apply lookup_insert_ne.
Qed.

Lemma apply_diffs_other ds files p :
  p ∉ map fd_Path ds -> apply_diffs ds files !! p = files !! p.
Proof.
  revert files. induction ds as [|d ds IH]; intros files Hp; [done|]. cbn in Hp.
  apply not_elem_of_cons in Hp as [Hne Hp]. cbn. rewrite IH by done.
  rewrite apply_diff_lookup. by rewrite decide_False.
Qed.

Lemma apply_diffs_at ds files d :
  NoDup (map fd_Path ds) -> d ∈ ds -> apply_diffs ds files !! fd_Path d = effect d.
Proof.
  revert files. induction ds as [|d' ds IH]; intros files Hnd Hd; [by apply not_elem_of_nil in Hd|].
  cbn in Hnd. apply NoDup_cons in Hnd as [Hn Hnd].
  apply elem_of_cons in Hd as [-> |Hd]; cbn; [|by apply IH].
  rewrite apply_diffs_other by done. rewrite apply_diff_lookup. by rewrite decide_True.
Qed.

(** The diff is a patch from the parent's file set to the landed one. *)
Lemma diff_patches it parent landed :
  apply_diffs (slice (diffFileSets it parent landed)) parent = landed.
Proof.
  apply map_eq. intros p. set (ds := slice _).
  destruct (decide (p ∈ map fd_Path ds)) as [Hin|Hout].
  - apply list_elem_of_fmap in Hin as (d & -> & Hd).
    rewrite apply_diffs_at; [|apply diffFileSets_NoDup|done].
    apply diffFileSets_change in Hd. by destruct Hd as [p h Hl Hp|p old h Hl Hp|p old Hl Hp].
  - rewrite apply_diffs_other by done.
    assert (forall d, fd_Path d = p -> ~ change parent landed d) as Hno.
    { intros d <- Hd. apply Hout, list_elem_of_fmap. exists d. split; [done|].
      by apply diffFileSets_change. }
    destruct (landed !! p) as [h|] eqn:El, (parent !! p) as [old|] eqn:Ep; try done.
    + destruct (decide (old = h)) as [->|Hne]; [done|]. exfalso.
      eapply Hno; [|eapply ch_modified]; done.
    + exfalso. eapply Hno; [|eapply ch_added]; done.
    + exfalso. eapply Hno; [|eapply ch_deleted]; done.
Qed.

(** ** [diffsMatch] compares multisets of keys *)

Lemma bump_lookup n ks m k :
  default 0 (fold_left (bump n) ks m !! k)
  = default 0 (m !! k) + n * Z.of_nat (count_occ string_dec ks k).
Proof.
  revert m. induction ks as [|x ks IH]; intros m; cbn [fold_left count_occ]; [lia|].
  rewrite IH. unfold bump. destruct (string_dec x k) as [->|Hne].
  - rewrite lookup_insert_eq. unfold default at 1, id. rewrite Nat2Z.inj_succ. ring.
  - rewrite lookup_insert_ne by done. lia.
Qed.

Lemma diffsMatch_perm a b :
  diffsMatch a b = true <-> map diff_key (slice a) ≡ₚ map diff_key (slice b).
Proof.
  unfold diffsMatch.
  set (ka := map diff_key (slice a)). set (kb := map diff_key (slice b)).
  set (m := fold_left (bump (-1)) ka (fold_left (bump 1) kb ∅)).
  assert (forall k, default 0 (m !! k)
    = Z.of_nat (count_occ string_dec kb k) - Z.of_nat (count_occ string_dec ka k)) as Hm.
  { intros k. subst m. rewrite !bump_lookup, lookup_empty. cbn [default]. lia. }
  assert (forallb (fun kn : string * Z => kn.2 =? 0) (map_to_list m) = true <-> ka ≡ₚ kb) as Hf.
  { rewrite forallb_forall, (Permutation_count_occ string_dec). split.
    - intros Hz k. specialize (Hm k). destruct (m !! k) as [v|] eqn:Ek; cbn in Hm; [|lia].
      assert (v = 0); [|lia]. apply Z.eqb_eq. change v with (k, v).2. apply Hz.
      apply list_elem_of_In, elem_of_map_to_list. done.
    - intros Hc [k v] Hin%list_elem_of_In%elem_of_map_to_list. cbn.
      specialize (Hm k). rewrite Hin, Hc in Hm. cbn in Hm. apply Z.eqb_eq. lia. }
  destruct (Nat.eqb_spec (length (slice a)) (length (slice b))) as [Hl|Hl]; cbn [negb]; [done|].
  split; [done|]. intros Hp%Permutation_length. subst ka kb. by rewrite !length_map in Hp.
Qed.

(** The fields a key is made of, and no others. *)
Definition tree_part (d : FileDiff) : FileDiff :=
  tree_diff (fd_Path d) (Operation d) (OldHash d) (NewHash d).
Definition nul_free (d : FileDiff) : Prop :=
  Forall (fun s => contains zero s = false) [fd_Path d; Operation d; OldHash d; NewHash d].

Lemma diff_key_split d : nul_free d ->
  split zero (diff_key d) = [fd_Path d; Operation d; OldHash d; NewHash d].
Proof.
  intros HF. unfold diff_key. repeat (apply Forall_cons in HF as [? HF]).
  by rewrite !split_app, split_no_sep.
Qed.

(** A claimed diff can only match a NUL-free one by having its very fields:
    no choice of fields moves a separator. *)
Lemma diff_key_inj d d' : nul_free d' -> diff_key d = diff_key d' -> tree_part d = tree_part d'.
Proof.
  intros Hd' Hk.
  assert (nul_free d) as Hd.
  { assert (forall e, count zero (diff_key e) =
      count zero (fd_Path e) + count zero (Operation e) + count zero (OldHash e)
      + count zero (NewHash e) + 3)%nat as Hc.
    { intros e. unfold diff_key. rewrite !count_app. cbn [count]. rewrite !Ascii.eqb_refl.
      rewrite !count_app. cbn [count]. rewrite !Ascii.eqb_refl.
      rewrite !count_app. cbn [count]. rewrite !Ascii.eqb_refl. lia. }
    pose proof (Hc d) as H1. rewrite Hk, Hc in H1. unfold nul_free in *.
    repeat setoid_rewrite <- count_0 in Hd'. repeat (apply Forall_cons in Hd' as [? Hd']).
    repeat (apply Forall_cons; split; [apply count_0; lia|]). constructor. }
  apply (f_equal (split zero)) in Hk. rewrite !diff_key_split in Hk by done.
  injection Hk as H1 H2 H3 H4. unfold tree_part. by rewrite H1, H2, H3, H4.
Qed.

Lemma keys_perm_parts l l' : Forall nul_free l' ->
  map diff_key l ≡ₚ map diff_key l' -> map tree_part l ≡ₚ map tree_part l'.
Proof.
  intros HF Hp. symmetry in Hp. revert l Hp. induction HF as [|d' l' Hd' HF IH]; intros l Hp.
  - apply Permutation_nil in Hp. by destruct l.
  - cbn in Hp. assert (diff_key d' ∈ map diff_key l) as Hin.
    { rewrite <- Hp. constructor. }
    apply list_elem_of_fmap in Hin as (d & Hk & Hd). apply list_elem_of_split in Hd as (l1 & l2 & ->).
    rewrite map_app in *. cbn [map] in *. rewrite <- Hk in Hp.
    apply Permutation_cons_app_inv in Hp. rewrite <- map_app in Hp. apply IH in Hp.
    rewrite (diff_key_inj d d') by done. rewrite map_app in Hp.
    rewrite <- Permutation_middle. by constructor.
Qed.

Lemma apply_diffs_parts ds files : apply_diffs (map tree_part ds) files = apply_diffs ds files.
Proof. revert files. induction ds as [|d ds IH]; intros files; [done|]. cbn. apply IH. Qed.

Lemma map_tree_part_path ds : map fd_Path (map tree_part ds) = map fd_Path ds.
Proof. rewrite map_map. done. Qed.

(** With distinct paths, the order of a patch does not matter. *)
Lemma apply_diffs_perm ds ds' files :
  NoDup (map fd_Path ds) -> ds ≡ₚ ds' -> apply_diffs ds files = apply_diffs ds' files.
Proof.
  intros Hnd Hp. assert (NoDup (map fd_Path ds')) as Hnd' by (by rewrite <- Hp).
  apply map_eq. intros p. destruct (decide (p ∈ map fd_Path ds)) as [Hin|Hout].
  - apply list_elem_of_fmap in Hin as (d & -> & Hd).
    rewrite !apply_diffs_at; try done. by rewrite <- Hp.
  - rewrite !apply_diffs_other; try done. by rewrite <- Hp.
Qed.

(** The order a diff is listed in is Go's map order; its contents are not. *)
Lemma diffFileSets_perm it it' parent landed :
  slice (diffFileSets it parent landed) ≡ₚ slice (diffFileSets it' parent landed).
Proof.
  apply NoDup_Permutation.
  - apply (NoDup_fmap_1 fd_Path), diffFileSets_NoDup.
  - apply (NoDup_fmap_1 fd_Path), diffFileSets_NoDup.
  - intros d. by rewrite !diffFileSets_change.
Qed.

(** File sets whose paths and hashes hold no NUL: git allows none in a path,
    and a hash is forty hexadecimal digits. *)
Definition clean_files (m : FileSet) : Prop :=
  forall p h, m !! p = Some h -> contains zero p = false /\ contains zero h = false.

Lemma change_nul_free parent landed d :
  clean_files parent -> clean_files landed -> change parent landed d -> nul_free d.
Proof.
  intros Hp Hl Hd.
  destruct Hd as [p h E1 E2|p old h E1 E2 Hne|p old E1 E2]; unfold nul_free;
    repeat match goal with
    | H : landed !! _ = Some _ |- _ => apply Hl in H as [? ?]
    | H : parent !! _ = Some _ |- _ => apply Hp in H as [? ?]
    end; by repeat (apply Forall_cons; split).
Qed.

Lemma ValidateTreePath_no_nul p : ValidateTreePath p = Ok tt -> contains zero p = false.
Proof. unfold ValidateTreePath. destruct (String.eqb p ""); [done|]. by destruct (contains zero p). Qed.

(** The walk accepts a tree only if every path in it, directories included, is
    worktree-confined; the file set is then exactly the files it named. *)
Lemma collect_files_spec es files out :
  collect_files es files = Ok out ->
  Forall (fun e => ValidateTreePath (te_Name e) = Ok tt) es /\
  (forall p h, out !! p = Some h -> files !! p = Some h \/
     exists e, e ∈ es /\ te_Name e = p /\ te_Hash e = h /\ te_Mode e <> filemode_Dir).
Proof.
  revert files. induction es as [|e es IH]; intros files; cbn [collect_files].
  - intros [= <-]. split; [constructor|]. auto.
  - rewrite seq_Ok. intros [Hv Hrest]. apply res_map_err_Ok in Hv.
    assert (Forall (fun e => ValidateTreePath (te_Name e) = Ok tt) es /\
      (forall p h, out !! p = Some h -> files !! p = Some h \/
        exists e', e' ∈ e :: es /\ te_Name e' = p /\ te_Hash e' = h /\ te_Mode e' <> filemode_Dir))
      as [HF Ho]; [|split; [by constructor|exact Ho]].
    destruct (Z.eqb_spec (te_Mode e) filemode_Dir) as [Hd|Hd]; apply IH in Hrest as [HF Ho];
      (split; [done|]); intros p h Hp; apply Ho in Hp as [Hp|(e' & He' & ? & ? & ?)];
      try (right; exists e'; rewrite elem_of_cons; by auto); auto.
    destruct (decide (p = te_Name e)) as [->|Hne].
    + rewrite lookup_insert_eq in Hp. injection Hp as <-. right. exists e.
      rewrite elem_of_cons. auto.
    + rewrite lookup_insert_ne in Hp by done. auto.
Qed.

Section Proofs.
Context `{G : GoGit} {L : GoGitLaws G}.

Lemma landedFileSet_clean st h files : landedFileSet st h = Ok files ->
  clean_files files /\ forall p x, files !! p = Some x -> ValidateTreePath p = Ok tt.
Proof.
  unfold landedFileSet. destruct (_ || _).
  { intros [= <-]. split; intros p x Hp; by rewrite lookup_empty in Hp. }
  destruct (WalkTree st h) as [[es failed]|] eqn:Hw; [|done].
  rewrite bind_Ok. intros (out & Hc & Hf). destruct failed; [done|]. injection Hf as <-.
  apply collect_files_spec in Hc as [HF Ho].
  assert (forall p x, out !! p = Some x -> ValidateTreePath p = Ok tt /\ contains zero x = false) as H.
  { intros p x Hp. apply Ho in Hp as [Hp|(e & He & <- & <- & _)]; [by rewrite lookup_empty in Hp|].
    rewrite Forall_forall in HF. split; [by apply HF|]. by eapply walk_hex. }
  split; [|intros p x Hp; by apply (H p x)].
  intros p x Hp. destruct (H p x Hp) as [Hv ?]. split; [by apply ValidateTreePath_no_nul|done].
Qed.

Lemma VerifyTreeBinding_Ok it pool c parentFiles :
  VerifyTreeBinding it pool (Some c) parentFiles = Ok tt <->
  exists st files, poolStorer pool = Ok st /\ landedFileSet st (TreeHash c) = Ok files /\
    Forall (fun d => new_blob_present st d = true) (slice (diffFileSets it parentFiles files)) /\
    map diff_key (slice (FileDiffs c)) ≡ₚ map diff_key (slice (diffFileSets it parentFiles files)).
Proof.
  unfold VerifyTreeBinding. rewrite bind_Ok. setoid_rewrite bind_Ok.
  setoid_rewrite seq_Ok. setoid_rewrite forM_Ok. setoid_rewrite err_if_Ok.
  setoid_rewrite negb_false_iff. setoid_rewrite diffsMatch_perm. naive_solver.
Qed.

(** C24. SEC-06: a commit the tree binding accepts has an honest diff. Its claimed
    file diffs, applied to the parent's files, give exactly the files of the
    tree that landed, with one diff per path and in whatever order Go walked
    its maps; every path is confined to the worktree, and every added or
    modified file's blob is in the pool. *)
Theorem VerifyTreeBinding_patch it pool c parentFiles :
  clean_files parentFiles ->
  VerifyTreeBinding it pool (Some c) parentFiles = Ok tt ->
  exists st files, poolStorer pool = Ok st /\ landedFileSet st (TreeHash c) = Ok files /\
    apply_diffs (slice (FileDiffs c)) parentFiles = files /\
    NoDup (map fd_Path (slice (FileDiffs c))) /\
    (forall p h, files !! p = Some h -> ValidateTreePath p = Ok tt /\
       (parentFiles !! p = Some h \/ h = ""%string \/ has_object st BlobObject h = true)).
Proof.
  intros Hpc. rewrite VerifyTreeBinding_Ok. intros (st & files & Hst & Hfs & Hblob & Hkeys).
  destruct (landedFileSet_clean _ _ _ Hfs) as [Hfc Hval].
  apply keys_perm_parts in Hkeys.
  2: { apply Forall_forall. intros d Hd%diffFileSets_change. by apply (change_nul_free parentFiles files). }
  pose proof (diffFileSets_NoDup it parentFiles files) as Hnd.
  rewrite <- map_tree_part_path, <- Hkeys, map_tree_part_path in Hnd.
  exists st, files. split_and!; try done.
  - rewrite <- apply_diffs_parts. erewrite apply_diffs_perm; [|by rewrite map_tree_part_path|done].
    rewrite apply_diffs_parts. apply diff_patches.
  - intros p h Hp. split; [by eapply Hval|].
    destruct (parentFiles !! p) as [old|] eqn:Ep.
    + destruct (decide (old = h)) as [->|Hne]; [by left|]. right.
      rewrite Forall_forall in Hblob.
      specialize (Hblob (tree_diff p DiffModified old h)). unfold new_blob_present in Hblob.
      rewrite orb_true_iff, String.eqb_eq in Hblob. apply Hblob.
      apply diffFileSets_change. by constructor.
    + right. rewrite Forall_forall in Hblob.
      specialize (Hblob (tree_diff p DiffAdded "" h)). unfold new_blob_present in Hblob.
      rewrite orb_true_iff, String.eqb_eq in Hblob. apply Hblob.
      apply diffFileSets_change. by constructor.
Qed.

Lemma metadataMismatch_none a b : metadataMismatch a b = ""%string <->
  Message a = Message b /\ TreeHash a = TreeHash b /\ ParentID a = ParentID b /\
  AgentID a = AgentID b /\ CreatedAt a = CreatedAt b.
Proof.
  unfold metadataMismatch.
  destruct (String.eqb_spec (Message a) (Message b)), (String.eqb_spec (TreeHash a) (TreeHash b)),
    (String.eqb_spec (ParentID a) (ParentID b)), (String.eqb_spec (AgentID a) (AgentID b)),
    (Z.eqb_spec (CreatedAt a) (CreatedAt b)); cbn; split; (tauto || done).
Qed.

(** SEC-06, the three bindings of [VerifyBinding], exactly: a claim is accepted
    if and only if its id is the git hash of the very bytes, each audit field is
    the one those bytes carry, and its content hash is the recomputed one. *)
Theorem VerifyBinding_exact data c :
  VerifyBinding data (Some c) = Ok tt <->
  exists g, DecodeCommit data = Some g /\ CommitID c = ComputeHash CommitObject data /\
    Message c = g_Message g /\ TreeHash c = g_TreeHash g /\
    ParentID c = default ""%string (head (g_ParentHashes g)) /\
    AgentID c = g_AuthorName g /\ CreatedAt c = g_When g /\
    ContentHash c = ComputeContentHash c.
Proof.
  unfold VerifyBinding, CommitFromObjectData. rewrite bind_Ok. setoid_rewrite seq_Ok.
  setoid_rewrite seq_Ok. setoid_rewrite err_if_Ok. setoid_rewrite negb_false_iff.
  setoid_rewrite String.eqb_eq. setoid_rewrite metadataMismatch_none.
  setoid_rewrite res_of_option_Ok. split.
  - intros (d & Hd & Hid & Hm & Hh). destruct (DecodeCommit data) as [g|] eqn:Hg; [|done].
    injection Hd as <-. exists g. destruct Hm as (? & ? & Hp & ? & ?). split_and!; try done.
    rewrite <- Hp. cbn. by destruct (g_ParentHashes g).
  - intros (g & Hg & Hid & ? & ? & Hp & ? & ? & ?). rewrite Hg. eexists. split; [done|].
    cbn. rewrite Hp. split_and!; try done. by destruct (g_ParentHashes g).
Qed.

(** The importer runs only on a commit that passed: no bytes are imported, and
    the host is unchanged, when any binding fails. *)
Theorem VerifyCommit_guards {H} (Import : bytes -> Commit -> H -> res land_err H) data c h h' :
  VerifyCommit Import data c h = Ok h' ->
  exists c', c = Some c' /\ VerifyBinding data c = Ok tt /\ Import data c' h = Ok h'.
Proof. unfold VerifyCommit. rewrite seq_Ok. intros [Hv Hi]. destruct c; [eauto|done]. Qed.

(** C25. What derivation computes, and that re-verifying it can only fail for a blob
    that is missing from the pool: the orchestrator's checks accept every
    derived commit, whatever order Go ranged over its maps in either pass, as
    soon as the blobs of its new files are there. *)
Theorem DeriveLandedCommit_verifies it data pool tid parentFiles c :
  DeriveLandedCommit it data pool tid parentFiles = Ok c ->
  VerifyBinding data (Some c) = Ok tt /\ c_TaskID c = tid /\
  exists st files, poolStorer pool = Ok st /\ landedFileSet st (TreeHash c) = Ok files /\
    FileDiffs c = diffFileSets it parentFiles files /\
    forall it', VerifyTreeBinding it' pool (Some c) parentFiles =
      if decide (Forall (fun d => new_blob_present st d = true)
                   (slice (diffFileSets it' parentFiles files)))
      then Ok tt else Err EBlobAbsent.
Proof.
  unfold DeriveLandedCommit. rewrite bind_Ok. intros (c0 & Hc0 & Hrest).
  apply bind_Ok in Hrest as (st & Hst & Hrest). apply bind_Ok in Hrest as (files & Hf & [= Hc]).
  apply res_of_option_Ok in Hc0.
  assert (TreeHash c = TreeHash c0) as Ht by (by subst c).
  split.
  { apply VerifyBinding_exact. unfold CommitFromObjectData in Hc0.
    destruct (DecodeCommit data) as [g|] eqn:Hg; [|done]. injection Hc0 as <-. exists g.
    subst c. cbn. split_and!; try done. by destruct (g_ParentHashes g). }
  split; [by subst c|]. exists st, files. rewrite Ht. split_and!; try done; [by subst c|].
  intros it'. unfold VerifyTreeBinding. rewrite Hst, Ht. cbn [mbind res_bind]. rewrite Hf.
  cbn [mbind res_bind].
  assert (diffsMatch (FileDiffs c) (diffFileSets it' parentFiles files) = true) as ->.
  { apply diffsMatch_perm. subst c. cbn [FileDiffs with_landed].
    by rewrite (diffFileSets_perm it it'). }
  generalize (slice (diffFileSets it' parentFiles files)). induction l as [|d l IH]; [done|].
  cbn [forM_]. destruct (new_blob_present st d) eqn:Hd; cbn [negb err_if mbind res_bind].
  - etransitivity; [exact IH|]. destruct (decide (Forall _ l)) as [HF|HF], (decide (Forall _ (d :: l))) as [HF'|HF'];
      try done; exfalso; [apply HF'; by constructor|apply HF; by inversion HF'].
  - rewrite decide_False; [done|]. inversion 1. congruence.
Qed.

(** Two trees that differ only in file modes. *)
Definition same_but_modes (e e' : TreeEntry) : Prop :=
  te_Name e = te_Name e' /\ te_Hash e = te_Hash e' /\
  (te_Mode e =? filemode_Dir) = (te_Mode e' =? filemode_Dir).

Lemma collect_files_modes es es' files :
  Forall2 same_but_modes es es' -> collect_files es files = collect_files es' files.
Proof.
  intros HF. revert files. induction HF as [|e e' es es' (Hn & Hh & Hm) HF IH]; intros files; [done|].
  cbn [collect_files]. rewrite Hn, Hm, Hh. destruct (ValidateTreePath _); [|done].
  cbn. by case_match; rewrite IH.
Qed.

Lemma diffFileSets_same it files : diffFileSets it files files = None.
Proof.
  destruct (slice (diffFileSets it files files)) as [|d ds] eqn:E.
  - unfold diffFileSets, nil_slice in *. by destruct (_ ++ _).
  - assert (d ∈ slice (diffFileSets it files files)) as Hd by (rewrite E; constructor).
    apply diffFileSets_change in Hd. destruct Hd; congruence.
Qed.

(** A mode change is invisible to the land boundary: when a landed tree differs
    from the parent's only in the modes of its files (a regular file turned
    executable, or into a symbolic link to its old contents), the commit is
    derived with no file diff at all and passes every check. *)
Theorem mode_change_invisible it data pool tid st es es' parentFiles c :
  poolStorer pool = Ok st -> Forall2 same_but_modes es es' ->
  collect_files es ∅ = Ok parentFiles ->
  (forall c0, CommitFromObjectData data = Some c0 ->
     WalkTree st (TreeHash c0) = Some (es', false) /\
     TreeHash c0 ∉ [""%string; emptyTreeHash; ZeroHash]) ->
  DeriveLandedCommit it data pool tid parentFiles = Ok c ->
  FileDiffs c = None /\ VerifyBinding data (Some c) = Ok tt /\
  forall it', VerifyTreeBinding it' pool (Some c) parentFiles = Ok tt.
Proof.
  intros Hst HF Hes Htree Hd.
  assert (exists c0, CommitFromObjectData data = Some c0 /\ TreeHash c = TreeHash c0) as (c0 & Hc0 & Ht).
  { unfold DeriveLandedCommit in Hd. apply bind_Ok in Hd as (c0 & Hc0 & Hd).
    apply bind_Ok in Hd as (? & _ & Hd). apply bind_Ok in Hd as (? & _ & [= <-]).
    apply res_of_option_Ok in Hc0. by exists c0. }
  apply Htree in Hc0 as [Hw Hne].
  apply DeriveLandedCommit_verifies in Hd as (Hb & _ & st' & files & Hst' & Hf & Hds & Hv).
  rewrite Hst in Hst'. injection Hst' as <-. rewrite Ht in Hf.
  assert (files = parentFiles) as ->.
  { unfold landedFileSet in Hf. rewrite Hw in Hf.
    apply not_elem_of_cons in Hne as [N1 Hne]. apply not_elem_of_cons in Hne as [N2 Hne].
    apply not_elem_of_cons in Hne as [N3 _].
    apply String.eqb_neq in N1, N2, N3. rewrite N1, N2, N3 in Hf.
    cbn in Hf. rewrite <- (collect_files_modes _ _ _ HF), Hes in Hf. by injection Hf. }
  rewrite diffFileSets_same in Hds. split_and!; [done|done|].
  intros it'. rewrite Hv, diffFileSets_same. by rewrite decide_True by constructor.
Qed.
End Proofs.

(** Every outcome of the require_sandbox gate. Under the policy a commit lands
    with provenance exactly when it carries an attestation that verifies, that
    was issued for this commit's two hashes and for the sandbox the land is
    bound to, and the provenance is that sandbox; without the policy it lands
    unsandboxed. *)
Theorem EnforceRequireSandbox_exact req expected commit att verify :
  (EnforceRequireSandbox req expected commit att verify = Ok None <-> req = false) /\
  (forall sid, EnforceRequireSandbox req expected commit att verify = Ok (Some sid) <->
     req = true /\ sid = expected /\ exists c a, commit = Some c /\ att = Some a /\
       verify att = Ok tt /\ at_CommitHash a = CommitID c /\
       at_ContentHash a = ContentHash c /\ at_SandboxID a = expected).
Proof.
  unfold EnforceRequireSandbox. destruct req; cbn [negb]; [|naive_solver].
  destruct commit as [c|]; [|naive_solver]. destruct att as [a|]; [|naive_solver].
  destruct (verify (Some a)) as [[]|e] eqn:Hv; cbn [res_map_err mbind res_bind]; [|naive_solver].
  destruct (String.eqb_spec (at_CommitHash a) (CommitID c)),
    (String.eqb_spec (at_ContentHash a) (ContentHash c)),
    (String.eqb_spec (at_SandboxID a) expected); cbn [negb orb]; naive_solver.
Qed.

(** ** A small object format for the witnesses

    Ids are forty digits of SHA-256; a commit is four lines (tree, parent,
    author, message) and a tree one line per file (mode, name, blob). *)
Module Toy.
Definition newline : ascii := "010".
Definition tag (t : ObjectType) : string :=
  match t with CommitObject => "commit" | TreeObject => "tree" | BlobObject => "blob" end.
Definition hash (t : ObjectType) (d : bytes) : string :=
  String.substring 0 40 (sha256_hex (tag t +:+ String newline (string_of_list_ascii d))).
Definition decode (d : bytes) : option GitCommit :=
  match split newline (string_of_list_ascii d) with
  | [tree; parent; author; msg] =>
    Some (mkGitCommit msg author (63871337045 * second_ns) tree
            (if String.eqb parent "" then [] else [parent]))
  | _ => None
  end.
Definition entry (line : string) : option TreeEntry :=
  match split " " line with
  | [mode; name; h] =>
    if contains zero h then None
    else Some (mkTreeEntry name (if String.eqb mode "dir" then filemode_Dir
                                       else if String.eqb mode "link" then 40960 else 33188) h)
  | _ => None
  end.
Definition walk (st : Storage) (h : string) : option (list TreeEntry * bool) :=
  match st !! h with
  | Some (TreeObject, d) => Some (omap entry (split newline (string_of_list_ascii d)), false)
  | _ => None
  end.
#[export] Instance gogit : GoGit := {|
  ComputeHash := hash; DecodeCommit := decode; WalkTree := walk |}.

Lemma length_take_string n s : String.length (String.substring 0 n s) = Nat.min n (String.length s).
Proof. revert n. induction s as [|a s IH]; intros [|n]; cbn; auto. Qed.

#[export] Instance laws : GoGitLaws gogit.
Proof.
  constructor.
  { intros t d. cbn. unfold hash. by rewrite length_take_string, sha256_hex_length. }
  intros st h es b e. cbn. unfold walk.
  destruct (st !! h) as [[[] d]|]; try done. intros [= <- <-] He.
  apply list_elem_of_omap in He as (line & _ & He). unfold entry in He.
  destruct (split " " line) as [|m [|n [|x [|? ?]]]]; try done.
  destruct (contains zero x) eqn:Hx; [done|]. by injection He as <-.
Qed.

Definition lines (ls : list string) : bytes := list_ascii_of_string (join newline ls).
Definition blob (s : string) : Object := mkObject ObjBlob (list_ascii_of_string s).
Definition tree (ls : list string) : Object := mkObject ObjTree (lines ls).
Definition id (o : Object) : string :=
  match gitObjectType (Type_ o) with Ok t => hash t (Data o) | Err _ => "" end.
Definition commit (tree parent author msg : string) : Object :=
  mkObject ObjCommit (lines [tree; parent; author; msg]).
Definition file (name : string) (b : Object) : string := "file " +:+ name +:+ " " +:+ id b.

Definition tid : TaskID := mkTaskID "MGIT" "1".
Definition blob_a := blob "package a".
Definition tree_1 := tree [file "a.go" blob_a].
Definition commit_1 := commit (id tree_1) "" "agent" "[MGIT:MGIT-1] add a".
Definition pool_1 : list Object := [commit_1; tree_1; blob_a].
End Toy.

Import Toy.

(** The commit derived from the first toy pool, computed. *)
Definition derived_1 : Commit :=
  match DeriveLandedCommit key_order (Data commit_1) pool_1 tid ∅ with
  | Ok c => c | Err _ => sample_commit end.

Lemma VerifyTreeBinding_patch_witness :
  VerifyTreeBinding key_order pool_1 (Some derived_1) ∅ = Ok tt /\
  exists st files, poolStorer pool_1 = Ok st /\ landedFileSet st (TreeHash derived_1) = Ok files /\
    apply_diffs (slice (FileDiffs derived_1)) ∅ = files.
Proof.
  assert (VerifyTreeBinding key_order pool_1 (Some derived_1) ∅ = Ok tt) as H
    by (vm_compute; reflexivity).
  split; [exact H|].
  destruct (VerifyTreeBinding_patch key_order pool_1 derived_1 ∅) as (st & files & H1 & H2 & H3 & _);
    [intros p h Hp; by rewrite lookup_empty in Hp|exact H|].
  exists st, files. exact (conj H1 (conj H2 H3)).
Defined.

Lemma VerifyCommit_guards_witness :
  VerifyCommit (fun d c (h : list string) => Ok (CommitID c :: h)) (Data commit_1) (Some derived_1) []
    = Ok [CommitID derived_1] /\ VerifyBinding (Data commit_1) (Some derived_1) = Ok tt.
Proof.
  assert (VerifyCommit (fun d c (h : list string) => Ok (CommitID c :: h))
    (Data commit_1) (Some derived_1) [] = Ok [CommitID derived_1]) as H by (vm_compute; reflexivity).
  split; [exact H|].
  destruct (VerifyCommit_guards _ _ _ _ _ H) as (c' & _ & Hv & _). exact Hv.
Defined.

Lemma DeriveLandedCommit_verifies_witness :
  VerifyBinding (Data commit_1) (Some derived_1) = Ok tt /\ c_TaskID derived_1 = tid.
Proof.
  assert (DeriveLandedCommit key_order (Data commit_1) pool_1 tid ∅ = Ok derived_1) as H
    by (vm_compute; reflexivity).
  destruct (DeriveLandedCommit_verifies _ _ _ _ _ _ H) as (H1 & H2 & _). exact (conj H1 H2).
Defined.

(** The second commit makes a.go a symbolic link to its old contents. *)
Definition tree_2 := tree ["link a.go " +:+ id blob_a].
Definition commit_2 := commit (id tree_2) (id commit_1) "agent" "[MGIT:MGIT-1] relink".
Definition pool_2 : list Object := [commit_2; tree_2; blob_a].
Definition derived_2 : Commit :=
  match DeriveLandedCommit key_order (Data commit_2) pool_2 tid {["a.go" := id blob_a]} with
  | Ok c => c | Err _ => sample_commit end.

Definition store_2 : Storage := match poolStorer pool_2 with Ok st => st | Err _ => ∅ end.

Lemma mode_change_invisible_witness : FileDiffs derived_2 = None.
Proof.
  assert (DeriveLandedCommit key_order (Data commit_2) pool_2 tid {["a.go" := id blob_a]}
    = Ok derived_2) as H by (vm_compute; reflexivity).
  assert (is_ok (poolStorer pool_2) = true) as Hok by (vm_compute; reflexivity).
  assert (poolStorer pool_2 = Ok store_2) as Hst
    by (unfold store_2; revert Hok; destruct (poolStorer pool_2); [reflexivity|discriminate]).
  assert (WalkTree store_2 (id tree_2) = Some ([mkTreeEntry "a.go" 40960 (id blob_a)], false))
    as Hw by (vm_compute; reflexivity).
  assert (collect_files [mkTreeEntry "a.go" 33188 (id blob_a)] ∅ = Ok {["a.go" := id blob_a]})
    as Hc by (vm_compute; reflexivity).
  assert (CommitFromObjectData (Data commit_2)
    = Some (commitFromGitObject (id commit_2) (mkGitCommit "[MGIT:MGIT-1] relink" "agent"
              (63871337045 * second_ns) (id tree_2) [id commit_1]))) as Hd
    by (vm_compute; reflexivity).
  refine (proj1 (mode_change_invisible key_order (Data commit_2) pool_2 tid store_2
    [mkTreeEntry "a.go" 33188 (id blob_a)] [mkTreeEntry "a.go" 40960 (id blob_a)] _ _
    Hst _ Hc _ H)).
  - constructor; [|constructor]. unfold same_but_modes. cbn [te_Name te_Hash te_Mode].
    exact (conj eq_refl (conj eq_refl eq_refl)).
  - intros c0 Hc0. rewrite Hd in Hc0. injection Hc0 as <-. split; [exact Hw|].
    rewrite !not_elem_of_cons. split_and!; [vm_compute; discriminate..|apply not_elem_of_nil].
Defined.
