(* ===== verification/DiskTree.v ===== *)
(** * A directory tree on disk

    Directories, files and symbolic links under one root, with the system calls
    the host makes on them ([os.Lstat], [os.Remove], [os.MkdirAll], the creation
    and the overwriting of a file). A path is the list of its components, and an
    operation on it goes through its parents, one of which may be a link that
    leads out of the tree; what happens outside is a log of the operations
    attempted there. What a file holds is the parameter [C]. *)
From Stdlib Require Import ZArith Lia Ascii String.
From S2P Require Import Prelude GoStrings.

(** ** The disk *)

Abbreviation Path := (list string).
Definition comps (p : string) : Path := split slash (clean p).

Inductive Node (C : Type) : Type := NDir | NFile (c : C) | NLink (target : string).
Arguments NDir {C}.
Arguments NFile {C}.
Arguments NLink {C}.
#[export] Instance Node_eq_dec {C} `{EqDecision C} : EqDecision (Node C).
Proof. solve_decision. Defined.

(** What the code did beneath a link it followed: the link's text, the path
    below it, and the operation. *)
Inductive out_op (C : Type) : Type :=
  | OutMkdir (link : string) (rest : Path)
  | OutRemove (link : string) (rest : Path)
  | OutCreate (link : string) (rest : Path) (n : Node C).
Arguments OutMkdir {C}.
Arguments OutRemove {C}.
Arguments OutCreate {C}.

(** The worktree under its root, which is a directory. *)
Record Disk (C : Type) := mkDisk { d_nodes : gmap Path (Node C); d_outside : list (out_op C) }.
Arguments mkDisk {C}.
Arguments d_nodes {C}.
Arguments d_outside {C}.

(** The host around the worktree: whether a link's text names a directory, what
    lies below it, and which operations the operating system lets succeed. *)
Record HostFS (C : Type) := mkHost {
  h_isdir : string -> bool;
  h_node : string -> Path -> option (Node C);
  h_out_ok : out_op C -> bool;
  h_write_ok : Path -> bool }.
Arguments mkHost {C}.
Arguments h_isdir {C}.
Arguments h_node {C}.
Arguments h_out_ok {C}.
Arguments h_write_ok {C}.

(** The proper prefixes of a path, shortest first, each with what follows it. *)
Fixpoint dirs (pre cs : Path) : list (Path * Path) :=
  match cs with
  | [] | [_] => []
  | c :: cs => (pre ++ [c], cs) :: dirs (pre ++ [c]) cs
  end.

Section Operations.
Context {C : Type}.

(** Where an operation on a path takes place. *)
Inductive place : Type := Inside | NoParent | ParentNotDir | Through (link : string) (rest : Path).
Fixpoint locate (nodes : gmap Path (Node C)) (ds : list (Path * Path)) : place :=
  match ds with
  | [] => Inside
  | (d, rest) :: ds =>
    match nodes !! d with
    | Some NDir => locate nodes ds
    | None => NoParent
    | Some (NFile _) => ParentNotDir
    | Some (NLink t) => Through t rest
    end
  end.

Inductive stat : Type := Present (n : Node C) | NotExist | StatErr.
Definition stat_of (o : option (Node C)) : stat :=
  match o with Some n => Present n | None => NotExist end.
(** [os.Lstat]. *)
Definition Lstat (H : HostFS C) (d : Disk C) (p : Path) : stat :=
  match locate (d_nodes d) (dirs [] p) with
  | Inside => stat_of (d_nodes d !! p)
  | NoParent => NotExist
  | ParentNotDir => StatErr
  | Through t rest => stat_of (h_node H t rest)
  end.

Definition has_children (nodes : gmap Path (Node C)) (p : Path) : bool :=
  existsb (fun e => bool_decide (p `prefix_of` e.1 /\ e.1 <> p)) (map_to_list nodes).

(** [os.Remove], an absent path not being an error. *)
Definition Remove (H : HostFS C) (p : Path) (d : Disk C) : option (Disk C) :=
  match locate (d_nodes d) (dirs [] p) with
  | Inside =>
    match d_nodes d !! p with
    | None => Some d
    | Some NDir => if has_children (d_nodes d) p then None
                   else Some (mkDisk (delete p (d_nodes d)) (d_outside d))
    | Some _ => Some (mkDisk (delete p (d_nodes d)) (d_outside d))
    end
  | NoParent => Some d
  | ParentNotDir => None
  | Through t rest =>
    match h_node H t rest with
    | None => Some d
    | Some _ => if h_out_ok H (OutRemove t rest)
                then Some (mkDisk (d_nodes d) (d_outside d ++ [OutRemove t rest])) else None
    end
  end.

(** [os.MkdirAll] of the directory a path lies in. *)
Fixpoint MkdirAll (H : HostFS C) (ds : list (Path * Path)) (d : Disk C) : option (Disk C) :=
  match ds with
  | [] => Some d
  | (p, rest) :: ds =>
    match d_nodes d !! p with
    | Some NDir => MkdirAll H ds d
    | None => MkdirAll H ds (mkDisk (<[p := NDir]> (d_nodes d)) (d_outside d))
    | Some (NFile _) => None
    | Some (NLink t) =>
      if h_isdir H t then
        match ds with
        | [] => Some d
        | _ => if h_out_ok H (OutMkdir t (removelast rest))
               then Some (mkDisk (d_nodes d) (d_outside d ++ [OutMkdir t (removelast rest)])) else None
        end
      else None
    end
  end.

(** Creating a node at a path just removed: [os.Symlink], [os.WriteFile]. *)
Definition Create (H : HostFS C) (p : Path) (n : Node C) (d : Disk C) : option (Disk C) :=
  match locate (d_nodes d) (dirs [] p) with
  | Inside => if h_write_ok H p then Some (mkDisk (<[p := n]> (d_nodes d)) (d_outside d)) else None
  | Through t rest =>
    if h_out_ok H (OutCreate t rest n)
    then Some (mkDisk (d_nodes d) (d_outside d ++ [OutCreate t rest n])) else None
  | _ => None
  end.

(** ** Paths and parents *)

(** [a] is a directory the path [p] lies under. *)
Definition above (a p : Path) : Prop := a <> [] /\ exists r, r <> [] /\ p = a ++ r.

Lemma elem_dirs pre cs d r :
  (d, r) ∈ dirs pre cs <-> exists c, d = pre ++ c /\ c <> [] /\ r <> [] /\ cs = c ++ r.
Proof.
  revert pre. induction cs as [|c cs IH]; intros pre; cbn [dirs].
  { split; [by intros ?%not_elem_of_nil|]. intros (c & _ & Hc & _ & He). by destruct c. }
  destruct cs as [|c' cs].
  { split; [by intros ?%not_elem_of_nil|]. intros (x & _ & Hx & Hr & He).
    destruct x as [|? [|]]; [done| |]; destruct r; simplify_eq/=. }
  rewrite elem_of_cons, IH. split.
  - intros [[= -> ->]|(x & -> & Hx & Hr & He)]; [by exists [c]|].
    exists (c :: x). rewrite <- app_assoc. split_and!; try done. cbn. by rewrite He.
  - intros (x & -> & Hx & Hr & He). destruct x as [|y x]; [done|]. injection He as <- He.
    destruct x as [|z x]; [left; cbn in He; by rewrite He|right].
    exists (z :: x). by rewrite <- app_assoc.
Qed.
Lemma dirs_cons pre x cs : cs <> [] -> dirs pre (x :: cs) = (pre ++ [x], cs) :: dirs (pre ++ [x]) cs.
Proof. by destruct cs. Qed.
Lemma above_dirs a p : above a p <-> exists r, (a, r) ∈ dirs [] p.
Proof.
  unfold above. setoid_rewrite elem_dirs. cbn. split.
  - intros (Ha & r & Hr & ->). exists r, a. done.
  - intros (r & c & -> & ? & ? & ->). split; [done|]. by exists r.
Qed.
Lemma above_irrefl p : ~ above p p.
Proof. intros (_ & r & Hr & He). rewrite <- (app_nil_r p) in He at 1. by simplify_list_eq. Qed.
Lemma above_trans a b p : above a b -> above b p -> above a p.
Proof.
  intros (Ha & r & Hr & ->) (_ & r' & Hr' & ->). split; [done|]. exists (r ++ r').
  rewrite <- app_assoc. split; [|done]. by destruct r.
Qed.

(** A disk as the operating system keeps it: what is there has its parents. *)
Definition disk_wf (nodes : gmap Path (Node C)) : Prop :=
  forall p n a, nodes !! p = Some n -> above a p -> nodes !! a = Some NDir.
(** No operation on [p] leaves the worktree. *)
Definition no_link_above (nodes : gmap Path (Node C)) (p : Path) : Prop :=
  forall a t, above a p -> nodes !! a <> Some (NLink t).

Lemma locate_inside nodes ds :
  locate nodes ds = Inside <-> Forall (fun e => nodes !! e.1 = Some NDir) ds.
Proof.
  induction ds as [|[a r] ds IH]; cbn; [done|]. rewrite Forall_cons, <- IH. cbn.
  destruct (nodes !! a) as [[| |]|]; naive_solver.
Qed.
Lemma locate_through nodes ds t r : locate nodes ds = Through t r ->
  exists a, (a, r) ∈ ds /\ nodes !! a = Some (NLink t).
Proof.
  induction ds as [|[a r'] ds IH]; cbn; [done|]. destruct (nodes !! a) as [[| |t']|] eqn:Ha; try done.
  - intros (b & Hb & Hn)%IH. exists b. split; [by right|done].
  - intros [= -> ->]. exists a. split; [by left|done].
Qed.
Lemma locate_cases nodes p : no_link_above nodes p ->
  (locate nodes (dirs [] p) = Inside /\ forall a, above a p -> nodes !! a = Some NDir) \/
  locate nodes (dirs [] p) = NoParent \/ locate nodes (dirs [] p) = ParentNotDir.
Proof.
  intros Hl. destruct (locate nodes (dirs [] p)) eqn:Hp; auto.
  - left. split; [done|]. apply locate_inside in Hp. intros a [r Hr]%above_dirs.
    exact (proj1 (Forall_forall _ _) Hp _ Hr).
  - apply locate_through in Hp as (a & Ha & Hn). destruct (Hl a link); [|done].
    apply above_dirs. by eexists.
Qed.
Lemma locate_present nodes p n : disk_wf nodes -> nodes !! p = Some n ->
  locate nodes (dirs [] p) = Inside.
Proof.
  intros W Hn. apply locate_inside, Forall_forall. intros [a r] Hin. apply (W p n); [done|].
  apply above_dirs. by eexists.
Qed.

(** ** What an operation inside the worktree changes *)

(** Outside [S] the disk is as it was, except for directories made where there
    was nothing; nothing happened outside the worktree. *)
Definition nodes_but (S : Path -> Prop) (d d' : Disk C) : Prop :=
  forall q, ~ S q -> d_nodes d' !! q = d_nodes d !! q \/
                     (d_nodes d !! q = None /\ d_nodes d' !! q = Some NDir).
Definition same_but (S : Path -> Prop) (d d' : Disk C) : Prop :=
  d_outside d' = d_outside d /\ nodes_but S d d'.

Lemma same_but_refl S d : same_but S d d.
Proof. split; [done|]. by left. Qed.
Lemma same_but_trans (S S' : Path -> Prop) d1 d2 d3 : same_but S d1 d2 -> same_but S' d2 d3 ->
  same_but (fun q => S q \/ S' q) d1 d3.
Proof.
  intros [Ho1 H1] [Ho2 H2]. split; [congruence|]. intros q Hq.
  destruct (H1 q) as [E1|[E1 E1']], (H2 q) as [E2|[E2 E2']]; try tauto;
    first [left; congruence|right; split; congruence].
Qed.
Lemma same_but_mono (S S' : Path -> Prop) d d' : (forall q, S q -> S' q) -> same_but S d d' ->
  same_but S' d d'.
Proof. intros HS [Ho H]. split; [done|]. intros q Hq. apply H. auto. Qed.
Lemma same_but_trans1 S d1 d2 d3 : same_but S d1 d2 -> same_but S d2 d3 -> same_but S d1 d3.
Proof. intros H1 H2. refine (same_but_mono _ _ _ _ _ (same_but_trans _ _ _ _ _ H1 H2)). tauto. Qed.
#[local] Hint Resolve same_but_refl : core.

Lemma MkdirAll_inside H ds d d' :
  (forall a r t, (a, r) ∈ ds -> d_nodes d !! a <> Some (NLink t)) -> MkdirAll H ds d = Some d' ->
  d_outside d' = d_outside d /\
  (forall q, d_nodes d' !! q = d_nodes d !! q \/
     (d_nodes d !! q = None /\ d_nodes d' !! q = Some NDir /\ exists r, (q, r) ∈ ds)) /\
  (forall a r, (a, r) ∈ ds -> d_nodes d' !! a = Some NDir).
Proof.
  revert d. induction ds as [|[a r] ds IH]; intros d Hl; cbn [MkdirAll].
  { intros [= <-]. split_and!; auto. intros ? ? ?%not_elem_of_nil. done. }
  assert (forall a0 r0 t, (a0, r0) ∈ ds -> d_nodes d !! a0 <> Some (NLink t)) as Hl'.
  { intros a0 r0 t Hin. apply (Hl a0 r0). by right. }
  destruct (d_nodes d !! a) as [[| |t]|] eqn:Ha; [|done| |].
  - intros (Ho & Hq & Hd)%IH; [|done]. split_and!; [done| |].
    + intros q. destruct (Hq q) as [?|(? & ? & x & ?)]; [by left|right].
      split_and!; [done..|]. exists x. by right.
    + intros b x [[= -> ->]|Hin]%elem_of_cons; [|by eapply Hd].
      destruct (Hq a) as [->|(Hn & _)]; [done|congruence].
  - destruct (Hl a r t); [by left|done].
  - intros (Ho & Hq & Hd)%IH; cbn [d_nodes d_outside] in *; [split_and!; [done| |]|].
    + intros q. destruct (decide (q = a)) as [->|Hne].
      * right. split; [done|]. split; [|exists r; by left].
        destruct (Hq a) as [->|(Hn & _)]; [by rewrite lookup_insert_eq|].
        by rewrite lookup_insert_eq in Hn.
      * destruct (Hq q) as [->|(Hn & ? & x & ?)]; rewrite lookup_insert_ne in * by done; [by left|].
        right. split_and!; [done..|]. exists x. by right.
    + intros b x [[= -> ->]|Hin]%elem_of_cons; [|by eapply Hd].
      destruct (Hq a) as [->|(Hn & _)]; [by rewrite lookup_insert_eq|].
      by rewrite lookup_insert_eq in Hn.
    + intros b x t Hin. destruct (decide (b = a)) as [->|Hne]; [by rewrite lookup_insert_eq|].
      rewrite lookup_insert_ne by done. by eapply Hl'.
Qed.

Lemma MkdirAll_dirs H p d d' : disk_wf (d_nodes d) -> no_link_above (d_nodes d) p ->
  MkdirAll H (dirs [] p) d = Some d' ->
  disk_wf (d_nodes d') /\ same_but (fun _ => False) d d' /\
  (forall q, d_nodes d' !! q = d_nodes d !! q \/ above q p) /\
  (forall a, above a p -> d_nodes d' !! a = Some NDir).
Proof.
  intros W Hl Hm. apply MkdirAll_inside in Hm as (Ho & Hq & Hd).
  2: { intros a r t Hin. apply Hl, above_dirs. by eexists. }
  assert (forall a, above a p -> d_nodes d' !! a = Some NDir) as Hd'.
  { intros a [r Hr]%above_dirs. by eapply Hd. }
  split_and!; [|split; [done|]|intros q|exact Hd'].
  - intros q n a Hn Ha. destruct (Hq q) as [He|(_ & _ & x & Hx)].
    + rewrite He in Hn. pose proof (W q n a Hn Ha) as Hw. destruct (Hq a) as [->|(Hx & _)]; congruence.
    + apply Hd'. eapply above_trans; [exact Ha|]. apply above_dirs. by eexists.
  - intros q _. destruct (Hq q) as [?|(? & ? & _)]; auto.
  - destruct (Hq q) as [?|(? & ? & x & ?)]; [by left|right]. apply above_dirs. by eexists.
Qed.

Lemma has_children_false nodes p q n : has_children nodes p = false -> nodes !! q = Some n ->
  ~ above p q.
Proof.
  unfold has_children. intros Hc Hq (Hp & r & Hr & ->).
  apply (proj1 (Forall_existsb_false _ _)) in Hc.
  apply elem_of_map_to_list in Hq. pose proof (proj1 (Forall_forall _ _) Hc _ Hq) as Hx. cbn in Hx.
  apply bool_decide_eq_false in Hx. apply Hx. split; [by exists r|].
  intros He. rewrite <- (app_nil_r p) in He at 2. by simplify_list_eq.
Qed.

Lemma Remove_inside H p d d' : disk_wf (d_nodes d) -> no_link_above (d_nodes d) p ->
  Remove H p d = Some d' ->
  disk_wf (d_nodes d') /\ same_but (eq p) d d' /\ d_nodes d' !! p = None /\
  (forall q, q <> p -> d_nodes d' !! q = d_nodes d !! q).
Proof.
  intros W Hl. unfold Remove.
  assert (d_nodes d !! p = None -> Some d = Some d' -> disk_wf (d_nodes d') /\
    same_but (eq p) d d' /\ d_nodes d' !! p = None /\
    (forall q, q <> p -> d_nodes d' !! q = d_nodes d !! q)) as Hnone by (by intros ? [= <-]).
  assert ((forall q n, d_nodes d !! q = Some n -> ~ above p q) ->
    Some (mkDisk (delete p (d_nodes d)) (d_outside d)) = Some d' -> disk_wf (d_nodes d') /\
    same_but (eq p) d d' /\ d_nodes d' !! p = None /\
    (forall q, q <> p -> d_nodes d' !! q = d_nodes d !! q)) as Hdel.
  { intros Hc [= <-]. cbn [d_nodes d_outside]. split_and!.
    - intros q n a Hq Ha. apply lookup_delete_Some in Hq as [Hne Hq].
      rewrite lookup_delete_ne; [by eapply W|]. intros ->. by eapply Hc.
    - split; [done|]. intros q Hne. left. cbn. by rewrite lookup_delete_ne.
    - apply lookup_delete_eq.
    - intros q Hne. by rewrite lookup_delete_ne. }
  destruct (locate_cases _ _ Hl) as [[Hx _]|[Hx|Hx]]; rewrite Hx; [|intros Hs; apply Hnone; [|exact Hs]|done].
  - destruct (d_nodes d !! p) as [n|] eqn:Hp; [|by apply Hnone].
    assert (n <> NDir -> forall q m, d_nodes d !! q = Some m -> ~ above p q) as Hleaf.
    { intros Hn q m Hq Ha. pose proof (W _ _ _ Hq Ha). congruence. }
    destruct n; [|by apply Hdel, Hleaf..].
    destruct (has_children _ _) eqn:Hc; [done|]. apply Hdel. intros q m Hq.
    by eapply has_children_false.
  - destruct (d_nodes d !! p) as [n|] eqn:Hp; [|done]. exfalso.
    pose proof (locate_present _ _ _ W Hp). congruence.
Qed.

Lemma Create_inside H p n d d' : disk_wf (d_nodes d) -> no_link_above (d_nodes d) p ->
  d_nodes d !! p <> Some NDir -> Create H p n d = Some d' ->
  disk_wf (d_nodes d') /\ d_outside d' = d_outside d /\ d_nodes d' = <[p := n]> (d_nodes d).
Proof.
  intros W Hl Hp. unfold Create.
  destruct (locate_cases _ _ Hl) as [[-> Hd]|[->| ->]]; [|done|done].
  destruct (h_write_ok H p); [|done]. intros [= <-]. cbn [d_nodes d_outside]. split_and!; [|done|done].
  intros q m a Hq Ha. apply lookup_insert_Some in Hq as [[-> ->]|[Hne Hq]].
  - rewrite lookup_insert_ne; [by apply Hd|]. intros ->. by eapply above_irrefl.
  - pose proof (W _ _ _ Hq Ha) as Hw. rewrite lookup_insert_ne; [done|]. intros ->. congruence.
Qed.

(** Wherever an operation lands, links included, nothing else inside the
    worktree changes. *)
Lemma nodes_but_refl S d : nodes_but S d d.
Proof. left. done. Qed.
Lemma nodes_but_trans S d1 d2 d3 : nodes_but S d1 d2 -> nodes_but S d2 d3 -> nodes_but S d1 d3.
Proof.
  intros H1 H2 q Hq. destruct (H1 q Hq) as [E1|[E1 E1']], (H2 q Hq) as [E2|[E2 E2']];
    first [left; congruence|right; split; congruence].
Qed.
Lemma nodes_but_mono (S S' : Path -> Prop) d d' : (forall q, S q -> S' q) -> nodes_but S d d' -> nodes_but S' d d'.
Proof. intros HS H q Hq. apply H. auto. Qed.
Lemma nodes_but_present S d d' q n : nodes_but S d d' -> ~ S q -> d_nodes d !! q = Some n ->
  d_nodes d' !! q = Some n.
Proof. intros H Hq Hn. destruct (H q Hq) as [->|[? _]]; [done|congruence]. Qed.
Lemma nodes_but_insert d p n o : nodes_but (eq p) d (mkDisk (<[p := n]> (d_nodes d)) o).
Proof. intros q Hq. left. cbn. by rewrite lookup_insert_ne. Qed.
Lemma nodes_but_delete d p o : nodes_but (eq p) d (mkDisk (delete p (d_nodes d)) o).
Proof. intros q Hq. left. cbn. by rewrite lookup_delete_ne. Qed.
Lemma nodes_but_outside S d o : nodes_but S d (mkDisk (d_nodes d) o).
Proof. left. done. Qed.
#[local] Hint Resolve nodes_but_refl nodes_but_insert nodes_but_delete nodes_but_outside : core.

Lemma MkdirAll_nodes S H ds d d' : MkdirAll H ds d = Some d' -> nodes_but S d d'.
Proof.
  revert d. induction ds as [|[p r] ds IH]; intros d; cbn [MkdirAll]; [by intros [= <-]|].
  destruct (d_nodes d !! p) as [[| |t]|] eqn:Hp; [apply IH|done| |].
  - destruct (h_isdir H t); [|done]. destruct ds; [by intros [= <-]|].
    destruct (h_out_ok _ _); [|done]. by intros [= <-].
  - intros Hm%IH. refine (nodes_but_trans _ _ _ _ _ Hm). intros q _. cbn.
    destruct (decide (q = p)) as [->|Hne]; [right|left]; by rewrite ?lookup_insert_eq, ?lookup_insert_ne.
Qed.
Lemma Remove_nodes H p d d' : Remove H p d = Some d' -> nodes_but (eq p) d d'.
Proof.
  unfold Remove. intros Hr. repeat case_match; simplify_eq; auto.
Qed.
Lemma Create_nodes H p n d d' : Create H p n d = Some d' -> nodes_but (eq p) d d'.
Proof. unfold Create. intros Hr. repeat case_match; simplify_eq; auto. Qed.

(** Where a directory leads to the path, the operations stay inside. *)
Lemma MkdirAll_made H ds (d : Disk C) : Forall (fun e => d_nodes d !! e.1 = Some NDir) ds -> MkdirAll H ds d = Some d.
Proof. induction 1 as [|[a r] ds Ha HF IH]; cbn in *; [done|]. by rewrite Ha. Qed.
Lemma dirs_made (d : Disk C) p : (forall a, above a p -> d_nodes d !! a = Some NDir) ->
  Forall (fun e => d_nodes d !! e.1 = Some NDir) (dirs [] p).
Proof. intros Hd. apply Forall_forall. intros [a r] Hin. apply Hd, above_dirs. by eexists. Qed.
(** Where a link leads to the path, they go through it. *)
Lemma locate_link (nodes : gmap Path (Node C)) pre c r t : c <> [] -> r <> [] ->
  (forall b x, b <> [] -> x <> [] -> c = b ++ x -> nodes !! (pre ++ b) = Some NDir) ->
  nodes !! (pre ++ c) = Some (NLink t) -> locate nodes (dirs pre (c ++ r)) = Through t r.
Proof.
  revert pre. induction c as [|x c IH]; intros pre Hc Hr Hd Ht; [done|].
  change ((x :: c) ++ r) with (x :: (c ++ r)). rewrite dirs_cons by (by destruct c, r).
  cbn [locate]. destruct c as [|z c].
  - by rewrite Ht.
  - rewrite (Hd [x] (z :: c)) by done. apply IH; [done..| |by rewrite <- app_assoc].
    intros b w Hb Hw He. rewrite <- app_assoc. apply (Hd (x :: b) w); [done..|]. cbn. by rewrite He.
Qed.
(** A file in the way of a path. *)
Lemma locate_file (nodes : gmap Path (Node C)) pre c r f : c <> [] -> r <> [] ->
  (forall b x, b <> [] -> x <> [] -> c = b ++ x -> nodes !! (pre ++ b) = Some NDir) ->
  nodes !! (pre ++ c) = Some (NFile f) -> locate nodes (dirs pre (c ++ r)) = ParentNotDir.
Proof.
  revert pre. induction c as [|x c IH]; intros pre Hc Hr Hd Ht; [done|].
  change ((x :: c) ++ r) with (x :: (c ++ r)). rewrite dirs_cons by (by destruct c, r).
  cbn [locate]. destruct c as [|z c].
  - by rewrite Ht.
  - rewrite (Hd [x] (z :: c)) by done. apply IH; [done..| |by rewrite <- app_assoc].
    intros b w Hb Hw He. rewrite <- app_assoc. apply (Hd (x :: b) w); [done..|]. cbn. by rewrite He.
Qed.
Lemma MkdirAll_link H (d : Disk C) pre c r t : c <> [] -> r <> [] ->
  (forall b x, b <> [] -> x <> [] -> c = b ++ x -> d_nodes d !! (pre ++ b) = Some NDir) ->
  d_nodes d !! (pre ++ c) = Some (NLink t) -> h_isdir H t = true -> (forall o, h_out_ok H o = true) ->
  exists o, MkdirAll H (dirs pre (c ++ r)) d = Some (mkDisk (d_nodes d) (d_outside d ++ o)).
Proof.
  intros Hc Hr Hd Ht Hi Ho. revert pre Hc Hd Ht. induction c as [|x c IH]; intros pre Hc Hd Ht; [done|].
  change ((x :: c) ++ r) with (x :: (c ++ r)). rewrite dirs_cons by (by destruct c, r).
  cbn [MkdirAll]. destruct c as [|z c].
  - rewrite Ht, Hi. destruct (dirs _ _); [exists []; rewrite app_nil_r; by destruct d|]. rewrite Ho. by eexists.
  - rewrite (Hd [x] (z :: c)) by done. apply IH; [done| |by rewrite <- app_assoc].
    intros b w Hb Hw He. rewrite <- app_assoc. apply (Hd (x :: b) w); [done..|]. cbn. by rewrite He.
Qed.
(** A directory that holds something is not removed. *)
Lemma Remove_full H p c n (d : Disk C) : (forall a, above a p -> d_nodes d !! a = Some NDir) ->
  d_nodes d !! p = Some NDir -> above p c -> d_nodes d !! c = Some n -> Remove H p d = None.
Proof.
  intros Hd Hp Hc Hn. unfold Remove. rewrite (proj2 (locate_inside _ _)), Hp by (by apply dirs_made).
  destruct (has_children _ _) eqn:Hh; [done|]. exfalso. by eapply has_children_false.
Qed.
(** No directory is made beneath a file. *)
Lemma MkdirAll_file H p (d : Disk C) a c : no_link_above (d_nodes d) p -> above a p ->
  d_nodes d !! a = Some (NFile c) -> MkdirAll H (dirs [] p) d = None.
Proof.
  intros Hl Ha Hf. destruct (MkdirAll _ _ d) as [d'|] eqn:Hm; [exfalso|done].
  pose proof (nodes_but_present _ _ _ a _ (MkdirAll_nodes (fun _ => False) _ _ _ _ Hm) (fun x => x) Hf) as Hf'.
  apply MkdirAll_inside in Hm as (_ & _ & Hd).
  - apply above_dirs in Ha as [r Hr]. specialize (Hd a r Hr). congruence.
  - intros b r t Hin. apply Hl, above_dirs. by eexists.
Qed.

Lemma no_link_same_but S d d' p : same_but S d d' -> no_link_above (d_nodes d) p ->
  (forall a, above a p -> ~ S a) -> no_link_above (d_nodes d') p.
Proof.
  intros [_ Hs] Hl HS a t Ha. destruct (Hs a (HS a Ha)) as [->|[_ ->]]; [by apply Hl|done].
Qed.

(** [disk_wf], decided. *)
Definition disk_checked `{EqDecision C} (nodes : gmap Path (Node C)) : bool :=
  bool_decide (map_Forall (fun p _ => Forall (fun e : Path * Path => nodes !! e.1 = Some (@NDir C)) (dirs [] p)) nodes).
Lemma disk_checked_wf `{EqDecision C} nodes : disk_checked nodes = true -> disk_wf nodes.
Proof.
  intros Hc%bool_decide_eq_true p n a Hp [r Hr]%above_dirs.
  exact (proj1 (Forall_forall _ _) (Hc p n Hp) _ Hr).
Qed.
End Operations.
