(* ===== verification/SyncPlan.v ===== *)
(** * What a worktree sync may do

    internal/sandboxd/worktreesync/plan.go and verify.go: the comparison of three
    views of a worktree (what the host last delivered, what it has now, what the
    guest has) that says which paths are written, which are removed and which
    block the sync, and the read-back of a plan against the guest's tree. Go's
    map order is an argument of each range. *)

From Stdlib Require Import ZArith Lia Ascii String.
From S2P Require Import Prelude GoStrings.

Open Scope string_scope.
Open Scope Z_scope.

(** ** Data *)
Record Entry := mkEntry { Hash : string; Mode : Z }.
#[export] Instance Entry_eq_dec : EqDecision Entry.
Proof. solve_decision. Defined.
Abbreviation Manifest := (gmap string Entry).

Inductive Reason := ReasonModifiedInGuest | ReasonCreatedInGuest.
#[export] Instance Reason_eq_dec : EqDecision Reason.
Proof. solve_decision. Defined.
Record Conflict := mkConflict { cf_Path : string; cf_Reason : Reason; cf_HostAbsent : bool }.
#[export] Instance Conflict_eq_dec : EqDecision Conflict.
Proof. solve_decision. Defined.

Record Plan := mkPlan {
  pl_Update : list string; pl_Delete : list string; pl_Conflicts : list Conflict; pl_forced : bool }.

Definition storePrefix : string := ".mgit/".
Definition storeRoot : string := ".mgit".
Definition skipPath (path : string) : bool :=
  String.eqb path storeRoot || has_prefix storePrefix path || String.eqb path ".git" || has_prefix ".git/" path.

(** ** Plans *)
Definition Empty (p : Plan) : bool :=
  bool_decide (pl_Update p = []) && bool_decide (pl_Delete p = []) && bool_decide (pl_Conflicts p = []).
Definition Blocked (p : Plan) : bool := negb (pl_forced p) && negb (bool_decide (pl_Conflicts p = [])).
Definition Overridden (p : Plan) : list string := if pl_forced p then cf_Path <$> pl_Conflicts p else [].

Definition force_one (p : Plan) (c : Conflict) : Plan :=
  if cf_HostAbsent c
  then mkPlan (pl_Update p) (pl_Delete p ++ [cf_Path c])%list (pl_Conflicts p) (pl_forced p)
  else mkPlan (pl_Update p ++ [cf_Path c])%list (pl_Delete p) (pl_Conflicts p) (pl_forced p).
Definition Forced (p : Plan) : Plan :=
  let out := fold_left force_one (pl_Conflicts p) (mkPlan (pl_Update p) (pl_Delete p) (pl_Conflicts p) true) in
  mkPlan (sort_by id (pl_Update out)) (sort_by id (pl_Delete out)) (pl_Conflicts out) true.

Definition add_update (path : string) (p : Plan) : Plan :=
  mkPlan (pl_Update p ++ [path])%list (pl_Delete p) (pl_Conflicts p) (pl_forced p).
Definition add_delete (path : string) (p : Plan) : Plan :=
  mkPlan (pl_Update p) (pl_Delete p ++ [path])%list (pl_Conflicts p) (pl_forced p).
Definition add_conflict (c : Conflict) (p : Plan) : Plan :=
  mkPlan (pl_Update p) (pl_Delete p) (pl_Conflicts p ++ [c])%list (pl_forced p).

(** One turn of the loop over the host's paths, and of [appendDeletes]. *)
Definition compute_one (delivered guest : Manifest) (p : Plan) (e : string * Entry) : Plan :=
  let '(path, hostEntry) := e in
  if skipPath path then p
  else if bool_decide (delivered !! path = Some hostEntry) then p
  else match delivered !! path, guest !! path with
  | None, Some _ => add_conflict (mkConflict path ReasonCreatedInGuest false) p
  | Some deliveredEntry, Some guestEntry =>
    if bool_decide (guestEntry <> deliveredEntry)
    then add_conflict (mkConflict path ReasonModifiedInGuest false) p else add_update path p
  | _, None => add_update path p
  end.
Definition delete_one (host guest : Manifest) (p : Plan) (e : string * Entry) : Plan :=
  let '(path, deliveredEntry) := e in
  if skipPath path then p
  else if bool_decide (is_Some (host !! path)) then p
  else match guest !! path with
  | None => p
  | Some guestEntry =>
    if bool_decide (guestEntry <> deliveredEntry)
    then add_conflict (mkConflict path ReasonModifiedInGuest true) p else add_delete path p
  end.
Definition appendDeletes (it : MapIter Entry) (delivered host guest : Manifest) (p : Plan) : Plan :=
  fold_left (delete_one host guest) (it delivered) p.
Definition Compute (it it' : MapIter Entry) (delivered host guest : Manifest) : Plan :=
  let p := fold_left (compute_one delivered guest) (it host) (mkPlan [] [] [] false) in
  let p := appendDeletes it' delivered host guest p in
  mkPlan (sort_by id (pl_Update p)) (sort_by id (pl_Delete p)) (sort_by cf_Path (pl_Conflicts p)) (pl_forced p).

(** ** Reading a plan back *)
Inductive Undelivered := UAbsent (path : string) | UStale (path : string) | UMode (path : string) (got want : Z)
  | UPresent (path : string).
Definition update_missing (intended actual : Manifest) (path : string) : option Undelivered :=
  match intended !! path with
  | None => None
  | Some want =>
    match actual !! path with
    | None => Some (UAbsent path)
    | Some got =>
      if negb (String.eqb (Hash got) (Hash want)) then Some (UStale path)
      else if negb (Mode got =? Mode want) then Some (UMode path (Mode got) (Mode want)) else None
    end
  end.
Definition delete_missing (actual : Manifest) (path : string) : option Undelivered :=
  if bool_decide (is_Some (actual !! path)) then Some (UPresent path) else None.
(** The refused operations; Go sorts their renderings. *)
Definition VerifyDelivery (p : Plan) (intended actual : Manifest) : res (list Undelivered) unit :=
  match (omap (update_missing intended actual) (pl_Update p) ++ omap (delete_missing actual) (pl_Delete p))%list with
  | [] => Ok tt
  | missing => Err missing
  end.

Definition deliveredEntries (host : Manifest) (updated : list string) : Manifest :=
  list_to_map (omap (fun path => e ← host !! path; Some (path, e)) updated).

(** ** The policy, path by path *)
Inductive action := Keep | Deliver | Drop | Clash (r : Reason) (hostAbsent : bool).
#[export] Instance action_eq_dec : EqDecision action.
Proof. solve_decision. Defined.
(** The collision policy as the code has it, path by path: of one path, what was
    delivered, what the host has and what the guest has. A path missing in the
    guest never collides, a delivered one that the guest deleted included. *)
Definition verdict (delivered host guest : option Entry) : action :=
  match delivered, host, guest with
  | None, None, _ => Keep
  | None, Some _, None => Deliver
  | None, Some _, Some _ => Clash ReasonCreatedInGuest false
  | Some d, Some h, g =>
    if decide (d = h) then Keep
    else match g with
         | Some g => if decide (g = d) then Deliver else Clash ReasonModifiedInGuest false
         | None => Deliver
         end
  | Some d, None, Some g => if decide (g = d) then Drop else Clash ReasonModifiedInGuest true
  | Some _, None, None => Keep
  end.

(** ** The classification *)
Definition apply_action (p : Plan) (x : string * action) : Plan :=
  match x.2 with
  | Keep => p
  | Deliver => add_update x.1 p
  | Drop => add_delete x.1 p
  | Clash r b => add_conflict (mkConflict x.1 r b) p
  end.
Definition delivers (x : string * action) : option string := if x.2 is Deliver then Some x.1 else None.
Definition drops (x : string * action) : option string := if x.2 is Drop then Some x.1 else None.
Definition clashes (x : string * action) : option Conflict :=
  if x.2 is Clash r b then Some (mkConflict x.1 r b) else None.

Lemma fold_actions l p : fold_left apply_action l p =
  mkPlan (pl_Update p ++ omap delivers l)%list (pl_Delete p ++ omap drops l)%list
    (pl_Conflicts p ++ omap clashes l)%list (pl_forced p).
Proof.
  revert p. induction l as [|[path a] l IH]; intros p; cbn [fold_left].
  - destruct p. cbn. by rewrite !app_nil_r.
  - rewrite IH. unfold apply_action. by destruct a; cbn; rewrite <- ?app_assoc.
Qed.

Section Policy.
Context (delivered host guest : Manifest).

(** What the policy says of a path of the three trees. *)
Definition policy (path : string) : action :=
  if skipPath path then Keep else verdict (delivered !! path) (host !! path) (guest !! path).

Definition host_action (e : string * Entry) : string * action := (e.1, policy e.1).
Definition gone_action (e : string * Entry) : string * action :=
  (e.1, if decide (is_Some (host !! e.1)) then Keep else policy e.1).

Lemma compute_one_action p path h : host !! path = Some h ->
  compute_one delivered guest p (path, h) = apply_action p (host_action (path, h)).
Proof.
  intros Hh. unfold compute_one, host_action, policy, apply_action, verdict. cbn [fst snd]. rewrite Hh.
  destruct (skipPath path); [done|].
  destruct (delivered !! path) as [d|], (guest !! path) as [g|]; repeat case_bool_decide; repeat case_decide;
    simplify_eq; done.
Qed.
Lemma delete_one_action p path d : delivered !! path = Some d ->
  delete_one host guest p (path, d) = apply_action p (gone_action (path, d)).
Proof.
  intros Hd. unfold delete_one, gone_action, policy, apply_action, verdict. cbn [fst snd]. rewrite Hd.
  destruct (skipPath path); [by case_decide|]. destruct (host !! path) as [h|] eqn:Hh.
  - by rewrite bool_decide_eq_true_2, decide_True by eauto.
  - rewrite bool_decide_eq_false_2, decide_False by (by intros [? ?]).
    destruct (guest !! path) as [g|]; [|done]. by case_bool_decide; case_decide.
Qed.
Lemma fold_left_ext {P X} (f g : P -> X -> P) l p : (forall x p, x ∈ l -> f p x = g p x) ->
  fold_left f l p = fold_left g l p.
Proof.
  revert p. induction l as [|x l IH]; intros p H; cbn; [done|].
  rewrite H by left. apply IH. intros. apply H. by right.
Qed.
Lemma fold_left_fmap {P X Y} (f : P -> Y -> P) (g : X -> Y) l p :
  fold_left (fun p x => f p (g x)) l p = fold_left f (g <$> l) p.
Proof. revert p. induction l; intros; cbn; auto. Qed.

(** Everything the two loops do, in the order they do it. *)
Definition actions (it it' : MapIter Entry) : list (string * action) :=
  (host_action <$> it host) ++ (gone_action <$> it' delivered).

Lemma Compute_actions it it' : Compute it it' delivered host guest =
  let l := actions it it' in
  mkPlan (sort_by id (omap delivers l)) (sort_by id (omap drops l)) (sort_by cf_Path (omap clashes l)) false.
Proof.
  set (p0 := mkPlan [] [] [] false).
  assert (forall p, fold_left (compute_one delivered guest) (it host) p = fold_left apply_action (host_action <$> it host) p) as H1.
  { intros p. rewrite <- fold_left_fmap. apply fold_left_ext. intros [path h] q Hin%elem_of_iter.
    by apply compute_one_action. }
  assert (forall p, appendDeletes it' delivered host guest p = fold_left apply_action (gone_action <$> it' delivered) p) as H2.
  { intros p. rewrite <- fold_left_fmap. apply fold_left_ext. intros [path d] q Hin%elem_of_iter.
    by apply delete_one_action. }
  unfold Compute. rewrite H1, H2, <- fold_left_app. fold (actions it it'). by rewrite fold_actions.
Qed.

Lemma policy_absent path : delivered !! path = None -> host !! path = None -> policy path = Keep.
Proof. intros Hd Hh. unfold policy. rewrite Hd, Hh. by destruct (skipPath path). Qed.

Lemma elem_of_actions it it' path a : a <> Keep -> (path, a) ∈ actions it it' <-> policy path = a.
Proof.
  intros Ha. unfold actions. rewrite elem_of_app, !list_elem_of_fmap. split.
  - intros [([q e] & [= -> ->] & _)|([q e] & Hx & _)]; [done|]. unfold gone_action in Hx. cbn in Hx. case_decide; naive_solver.
  - intros <-. destruct (host !! path) as [h|] eqn:Hh.
    + left. exists (path, h). by rewrite elem_of_iter.
    + right. destruct (delivered !! path) as [d|] eqn:Hd; [|by rewrite policy_absent in Ha].
      exists (path, d). rewrite elem_of_iter. split; [|done]. unfold gone_action. cbn.
      rewrite decide_False; [done|]. rewrite Hh. by intros [? ?].
Qed.

Definition busy (l : list (string * action)) : list (string * action) := filter (fun x => x.2 <> Keep) l.
Lemma NoDup_omap_busy {X} (f : string * action -> option X) (key : X -> string) l :
  (forall x y, f x = Some y -> key y = x.1 /\ x.2 <> Keep) -> NoDup (busy l).*1 -> NoDup (key <$> omap f l).
Proof.
  intros Hf. unfold busy. induction l as [|x l IH]; [done|]. rewrite filter_cons. cbn.
  destruct (f x) as [y|] eqn:Hx.
  - destruct (Hf _ _ Hx) as [Hy Hb]. rewrite decide_True by done. cbn. rewrite !NoDup_cons.
    intros [Hni Hnd]. split; [|by apply IH]. rewrite Hy. intros (z & Hz & (v & Hv & Hfv)%list_elem_of_omap)%list_elem_of_fmap.
    destruct (Hf _ _ Hfv) as [Hk Hb']. apply Hni. apply list_elem_of_fmap. exists v.
    rewrite list_elem_of_filter. split_and!; [congruence|done|done].
  - case_decide; [|done]. cbn. intros [_ ?]%NoDup_cons. by apply IH.
Qed.

Lemma busy_sublist l : (busy l).*1 `sublist_of` l.*1.
Proof.
  unfold busy. induction l as [|x l IH]; [done|]. rewrite filter_cons. cbn. case_decide; cbn; by constructor.
Qed.
Lemma busy_host (it : MapIter Entry) path : path ∈ (busy (host_action <$> it host)).*1 -> is_Some (host !! path).
Proof.
  unfold busy. intros (x & -> & Hx)%list_elem_of_fmap. apply list_elem_of_filter in Hx as [_ Hx].
  apply list_elem_of_fmap in Hx as ([q h] & -> & Hin). apply elem_of_iter in Hin. by eexists.
Qed.
Lemma busy_gone (it' : MapIter Entry) path : path ∈ (busy (gone_action <$> it' delivered)).*1 -> host !! path = None.
Proof.
  unfold busy. intros (x & -> & Hx)%list_elem_of_fmap. apply list_elem_of_filter in Hx as [Hb Hx].
  apply list_elem_of_fmap in Hx as ([q d] & -> & _). unfold gone_action in *. cbn in *.
  case_decide as Hh; [done|]. by apply eq_None_not_Some.
Qed.
Lemma busy_nodup (it it' : MapIter Entry) : NoDup (busy (actions it it')).*1.
Proof.
  unfold actions, busy. rewrite filter_app, fmap_app, NoDup_app. split_and!.
  - eapply sublist_NoDup; [|apply busy_sublist]. rewrite <- list_fmap_compose. apply (iter_NoDup it host).
  - intros path [h Hh]%busy_host Hg%busy_gone. congruence.
  - eapply sublist_NoDup; [|apply busy_sublist]. rewrite <- list_fmap_compose. apply (iter_NoDup it' delivered).
Qed.

Lemma elem_of_omap_actions {X} (f : string * action -> option X) (it it' : MapIter Entry) y :
  (forall x y, f x = Some y -> x.2 <> Keep) ->
  y ∈ omap f (actions it it') <-> exists path, policy path <> Keep /\ f (path, policy path) = Some y.
Proof.
  intros Hf. rewrite list_elem_of_omap. split.
  - intros ([path a] & Hin & Hy). pose proof (Hf _ _ Hy) as Ha. cbn in Ha.
    apply elem_of_actions in Hin; [|done]. exists path. by rewrite Hin.
  - intros (path & Ha & Hy). exists (path, policy path). split; [|done]. by apply elem_of_actions.
Qed.
Lemma delivers_path x y : delivers x = Some y -> id y = x.1 /\ x.2 <> Keep.
Proof. destruct x as [p []]; cbn; naive_solver. Qed.
Lemma drops_path x y : drops x = Some y -> id y = x.1 /\ x.2 <> Keep.
Proof. destruct x as [p []]; cbn; naive_solver. Qed.
Lemma clashes_path x y : clashes x = Some y -> cf_Path y = x.1 /\ x.2 <> Keep.
Proof. destruct x as [p []]; cbn; naive_solver. Qed.

(** A list of paths, or of conflicts, by path and each once. *)
Definition listed {X} (key : X -> string) (l : list X) : Prop :=
  StronglySorted (by_key key) l /\ NoDup (key <$> l).
Lemma listed_omap {X} (f : string * action -> option X) (key : X -> string) (it it' : MapIter Entry) :
  (forall x y, f x = Some y -> key y = x.1 /\ x.2 <> Keep) -> listed key (sort_by key (omap f (actions it it'))).
Proof.
  intros Hf. split; [apply sort_by_sorted|]. rewrite sort_by_perm. apply NoDup_omap_busy; [done|apply busy_nodup].
Qed.
Lemma listed_unique {X} (key : X -> string) l l' : listed key l -> listed key l' -> (forall x, x ∈ l <-> x ∈ l') -> l = l'.
Proof.
  intros [Hs Hn] [Hs' Hn'] Hel.
  assert (l ≡ₚ l') as Hp by (apply NoDup_Permutation; [by eapply NoDup_fmap_1|by eapply NoDup_fmap_1|done]).
  apply (StronglySorted_unique_strong (by_key key)); [|done..].
  intros x y Hx Hy Hxy Hyx. apply Hel in Hy. assert (key x = key y) as Hk by (by apply (anti_symm String.le)).
  apply list_elem_of_lookup in Hx as [i Hi], Hy as [j Hj].
  assert (i = j) as ->; [|congruence].
  eapply (NoDup_lookup (key <$> l)); [done|rewrite list_lookup_fmap, Hi; reflexivity|]. by rewrite list_lookup_fmap, Hj, Hk.
Qed.

(** The computed plan is the policy, whatever order the maps were ranged in. *)
Record plan_of (P : Plan) : Prop := {
  po_update path : path ∈ pl_Update P <-> policy path = Deliver;
  po_delete path : path ∈ pl_Delete P <-> policy path = Drop;
  po_conflict c : c ∈ pl_Conflicts P <-> policy (cf_Path c) = Clash (cf_Reason c) (cf_HostAbsent c);
  po_listed : listed id (pl_Update P) /\ listed id (pl_Delete P) /\ listed cf_Path (pl_Conflicts P);
  po_forced : pl_forced P = false }.
Lemma plan_of_unique P P' : plan_of P -> plan_of P' -> P = P'.
Proof.
  intros [U D C (L1 & L2 & L3) F] [U' D' C' (L1' & L2' & L3') F']. destruct P, P'; cbn in *. f_equal; [| | |congruence].
  - apply (listed_unique id); [done|done|]. intros. by rewrite U, U'.
  - apply (listed_unique id); [done|done|]. intros. by rewrite D, D'.
  - apply (listed_unique cf_Path); [done|done|]. intros. by rewrite C, C'.
Qed.
Lemma Compute_plan_of it it' : plan_of (Compute it it' delivered host guest).
Proof.
  rewrite Compute_actions. cbv zeta. split; cbn [pl_Update pl_Delete pl_Conflicts pl_forced].
  - intros path. rewrite elem_of_sort_by, elem_of_omap_actions by apply delivers_path. unfold delivers. cbn.
    split; [intros (q & _ & Hq)|intros Hp; exists path; by rewrite Hp]. by destruct (policy q) eqn:?; simplify_eq.
  - intros path. rewrite elem_of_sort_by, elem_of_omap_actions by apply drops_path. unfold drops. cbn.
    split; [intros (q & _ & Hq)|intros Hp; exists path; by rewrite Hp]. by destruct (policy q) eqn:?; simplify_eq.
  - intros [path r b]. rewrite elem_of_sort_by, elem_of_omap_actions by apply clashes_path. unfold clashes. cbn.
    split; [intros (q & _ & Hq)|intros Hp; exists path; by rewrite Hp]. by destruct (policy q) eqn:?; simplify_eq.
  - split_and!; apply listed_omap; [apply delivers_path|apply drops_path|apply clashes_path].
  - done.
Qed.
End Policy.

(** ** The policy as a three-way merge *)

(** The design's rule (ADR-011): a host change is carried over when the guest
    still has what was delivered, and is a conflict when the guest changed the
    path as well. *)
Definition three_way (delivered host guest : option Entry) : action :=
  if decide (host = delivered) then Keep
  else if decide (guest = delivered) then match host with Some _ => Deliver | None => Drop end
  else Clash (match delivered with Some _ => ReasonModifiedInGuest | None => ReasonCreatedInGuest end)
         (match host with Some _ => false | None => true end).
(** The exception: the guest deleted a path that was delivered. What the host
    changed there is delivered again, and what it deleted too is left alone. *)
Definition guest_deleted (delivered guest : option Entry) : bool :=
  match delivered, guest with Some _, None => true | _, _ => false end.
Definition redelivered (delivered host : option Entry) : action :=
  match host with Some _ => if decide (host = delivered) then Keep else Deliver | None => Keep end.

Lemma verdict_three_way d h g :
  verdict d h g = if guest_deleted d g then redelivered d h else three_way d h g.
Proof.
  unfold verdict, three_way, guest_deleted, redelivered.
  destruct d as [d|], h as [h|], g as [g|]; repeat case_decide; naive_solver.
Qed.

(** C11. A plan is the three-way merge of the trees, a deletion by the guest
    apart. In whatever order Go ranges over the maps, [Compute] gives the same
    plan, each list by path and each path once. Of the paths in scope that the
    guest did not delete, the host's change is delivered, or the path removed,
    exactly when the guest has there what was delivered, and it is a conflict
    otherwise; a path that the guest deleted is no conflict, as the design has it,
    when the host changed it: it is delivered again, and left alone when the host
    deleted it too. A path the host did not change, a path only the guest has and
    the two stores are never in it. *)
Theorem Compute_three_way it it' delivered host guest :
  plan_of delivered host guest (Compute it it' delivered host guest) /\
  (forall path, policy delivered host guest path =
     if skipPath path then Keep
     else if guest_deleted (delivered !! path) (guest !! path) then redelivered (delivered !! path) (host !! path)
     else three_way (delivered !! path) (host !! path) (guest !! path)) /\
  (forall path, host !! path = delivered !! path -> policy delivered host guest path = Keep) /\
  forall it2 it2', Compute it2 it2' delivered host guest = Compute it it' delivered host guest.
Proof.
  split_and!; [apply Compute_plan_of| | |].
  - intros path. unfold policy. by rewrite verdict_three_way.
  - intros path Hh. unfold policy, verdict. rewrite Hh. destruct (skipPath path); [done|].
    destruct (delivered !! path); [by rewrite decide_True|done].
  - intros it2 it2'. by eapply plan_of_unique; apply Compute_plan_of.
Qed.

(** ** A forced plan *)
Lemma fold_force cs p : fold_left force_one cs p =
  mkPlan (pl_Update p ++ omap (fun c => if cf_HostAbsent c then None else Some (cf_Path c)) cs)%list
    (pl_Delete p ++ omap (fun c => if cf_HostAbsent c then Some (cf_Path c) else None) cs)%list
    (pl_Conflicts p) (pl_forced p).
Proof.
  revert p. induction cs as [|c cs IH]; intros p; cbn [fold_left].
  - destruct p. cbn. by rewrite !app_nil_r.
  - rewrite IH. unfold force_one. by destruct (cf_HostAbsent c) eqn:Hc; cbn; rewrite Hc, <- ?app_assoc.
Qed.
Lemma Forced_run p : Forced p =
  mkPlan (sort_by id (pl_Update p ++ omap (fun c => if cf_HostAbsent c then None else Some (cf_Path c)) (pl_Conflicts p)))
    (sort_by id (pl_Delete p ++ omap (fun c => if cf_HostAbsent c then Some (cf_Path c) else None) (pl_Conflicts p)))
    (pl_Conflicts p) true.
Proof. unfold Forced. by rewrite fold_force. Qed.

(** What a sync writes and removes. *)
Definition written (force : bool) (a : action) : bool :=
  match a with Deliver => true | Clash _ false => force | _ => false end.
Definition removed (force : bool) (a : action) : bool :=
  match a with Drop => true | Clash _ true => force | _ => false end.
Definition chosen (force : bool) (p : Plan) : Plan := if force then Forced p else p.

Lemma written_policy force delivered host guest path : written force (policy delivered host guest path) = true ->
  is_Some (host !! path).
Proof.
  unfold policy, verdict. destruct (skipPath path); [done|].
  destruct (delivered !! path), (host !! path), (guest !! path); repeat case_decide; done.
Qed.
Lemma removed_policy force delivered host guest path : removed force (policy delivered host guest path) = true ->
  host !! path = None /\ is_Some (guest !! path).
Proof.
  unfold policy, verdict. destruct (skipPath path); [done|].
  destruct (delivered !! path), (host !! path), (guest !! path); repeat case_decide; done.
Qed.

Lemma chosen_spec force delivered host guest P : plan_of delivered host guest P ->
  (forall path, path ∈ pl_Update (chosen force P) <-> written force (policy delivered host guest path) = true) /\
  (forall path, path ∈ pl_Delete (chosen force P) <-> removed force (policy delivered host guest path) = true) /\
  pl_Conflicts (chosen force P) = pl_Conflicts P /\ pl_forced (chosen force P) = force.
Proof.
  intros [U D C _ F]. destruct force; unfold chosen; [rewrite Forced_run|].
  - cbn [pl_Update pl_Delete pl_Conflicts pl_forced]. split_and!; [| |done|done]; intros path;
      rewrite elem_of_sort_by, elem_of_app, list_elem_of_omap.
    + rewrite U. split.
      * intros [->|([q r []] & Hc%C & Hq)]; [done|done|]. cbn in *. injection Hq as ->. by rewrite Hc.
      * unfold written. destruct (policy _ _ _ path) as [| | |r []] eqn:Hp; try done; [by left|right].
        exists (mkConflict path r false). by rewrite C.
    + rewrite D. split.
      * intros [->|([q r []] & Hc%C & Hq)]; [done| |done]. cbn in *. injection Hq as ->. by rewrite Hc.
      * unfold removed. destruct (policy _ _ _ path) as [| | |r []] eqn:Hp; try done; [by left|right].
        exists (mkConflict path r true). by rewrite C.
  - split_and!; [| |done|done]; intros path; [rewrite U|rewrite D]; destruct (policy _ _ _ path) as [| | |? []]; done.
Qed.

(** ** The read-back *)
Lemma omap_nil_iff {X Y} (f : X -> option Y) l : omap f l = [] <-> forall x, x ∈ l -> f x = None.
Proof.
  induction l as [|x l IH]; cbn.
  - split; [intros _ y Hy; by apply not_elem_of_nil in Hy|done].
  - destruct (f x) eqn:Hx.
    + split; [done|]. intros H. rewrite H in Hx by left. done.
    + rewrite IH. split; [intros H y [->|Hy]%elem_of_cons; auto|intros H y Hy; apply H; by right].
Qed.
Lemma app_nil_iff {X} (l l' : list X) : (l ++ l')%list = [] <-> l = [] /\ l' = [].
Proof. destruct l; cbn; naive_solver. Qed.
Lemma VerifyDelivery_exact p intended actual : VerifyDelivery p intended actual = Ok tt <->
  (forall path e, path ∈ pl_Update p -> intended !! path = Some e -> actual !! path = Some e) /\
  (forall path, path ∈ pl_Delete p -> actual !! path = None).
Proof.
  unfold VerifyDelivery.
  assert ((omap (update_missing intended actual) (pl_Update p) ++ omap (delete_missing actual) (pl_Delete p) = [])%list <->
    (forall path e, path ∈ pl_Update p -> intended !! path = Some e -> actual !! path = Some e) /\
    (forall path, path ∈ pl_Delete p -> actual !! path = None)) as <-.
  2: { by destruct (omap _ _ ++ omap _ _)%list. }
  rewrite app_nil_iff, !omap_nil_iff. f_equiv.
  - split; intros H path.
    + intros e Hin He. specialize (H path Hin). unfold update_missing in H. rewrite He in H.
      destruct (actual !! path) as [[h m]|]; [|done]. destruct e as [h' m']. cbn in H.
      destruct (String.eqb_spec h h') as [->|]; [|done]. destruct (Z.eqb_spec m m') as [Hm|]; [by rewrite Hm|done].
    + intros Hin. unfold update_missing. destruct (intended !! path) as [e|] eqn:He; [|done].
      rewrite (H _ _ Hin He), String.eqb_refl, Z.eqb_refl. done.
  - split; intros H path Hin; specialize (H path Hin); unfold delete_missing in *.
    + case_bool_decide as Hs; [done|]. by apply eq_None_not_Some.
    + by rewrite H, bool_decide_eq_false_2 by (by intros [? ?]).
Qed.
