(* ===== verification/WorktreeSync.v ===== *)
(** * Synchronizing a worktree into a running sandbox

    internal/sandboxd/worktreesync/syncer.go and tree.go over [SyncPlan]: the
    manifests of the trees, the writes and removals in the guest's tree, the
    read-back and the delivery baseline. The guest's tree is a directory of the
    host that the guest may change as it likes, links included; [DiskTree] is its
    model. The freshly staged candidate is an argument: staging is not modelled. *)

From Stdlib Require Import ZArith Lia Ascii String.
From S2P Require Import Prelude GoStrings SandboxModel Sha256 DiskTree SyncPlan.

Open Scope string_scope.
Open Scope Z_scope.

(** ** Trees *)

(** A file is its bytes and its permission bits. *)
Definition file : Type := (string * Z).
Abbreviation Node := (DiskTree.Node file).
Abbreviation Disk := (DiskTree.Disk file).
Abbreviation HostFS := (DiskTree.HostFS file).
Abbreviation Tree := (gmap Path Node).

Inductive sync_err :=
  | EStaging | EReadTree | EReadBaseline | EConflicts (cs : list Conflict) | EUnsafePath (path : string)
  | EDeliver (path : string) | ERemove (path : string) | EUndelivered (missing : list Undelivered) | ESaveBaseline.

(** What the operating system answers during one sync: the mode it reports for a
    link, what it can read, and the writes that fail halfway, with what they left. *)
Record Env := mkEnv {
  e_linkMode : Z; e_readable : Path -> bool; e_fault : Path -> option file;
  e_staged : option Tree; e_loads : bool; e_saves : bool;
  e_range : MapIter Entry; e_range' : MapIter Entry }.

Definition rel_of (p : Path) : string := join slash p.

(** [entryFor]: a link by its text. *)
Definition entryFor (linkMode : Z) (n : Node) : option Entry :=
  match n with
  | NDir => None
  | NFile (data, perm) => Some (mkEntry (sha256_hex data) perm)
  | NLink target => Some (mkEntry (sha256_hex ("symlink:" +:+ target)) linkMode)
  end.
Definition walked (t : Tree) : list (Path * Node) :=
  filter (fun x => skipPath (rel_of x.1) = false) (map_to_list t).
Definition BuildManifest (linkMode : Z) (readable : Path -> bool) (t : Tree) : res sync_err Manifest :=
  if existsb (fun x => negb (readable x.1)) (walked t) then Err EReadTree
  else Ok (list_to_map (omap (fun x => e ← entryFor linkMode x.2; Some (rel_of x.1, e)) (walked t))).

(** Where a path of a plan lies; the tree itself, which no manifest lists, is [[]]. *)
Definition safeJoin (rel : string) : res sync_err Path :=
  if is_abs rel then Err (EUnsafePath rel)
  else let c := clean rel in
  if String.eqb c ".." || has_prefix "../" c then Err (EUnsafePath rel)
  else Ok (if String.eqb c "." then [] else split slash c).

(** ** Writing one path *)
Abbreviation run := (bool * Disk)%type.

Definition clearNonRegular (H : HostFS) (dst : Path) (d : Disk) : option Disk :=
  match Lstat H d dst with
  | NotExist => Some d
  | StatErr => None
  | Present (NFile _) => Some d
  | Present _ => Remove H dst d
  end.

Definition deliverLink (H : HostFS) (target : string) (dst : Path) (d : Disk) : run :=
  match Remove H dst d with
  | None => (false, d)
  | Some d =>
    match Create H dst (NLink target) d with None => (false, d) | Some d => (true, d) end
  end.

(** The file is opened, written and given its mode. *)
Definition write_file (e : Env) (H : HostFS) (c : file) (dst : Path) (d : Disk) : run :=
  match e_fault e dst with
  | Some part => (false, match Create H dst (NFile part) d with Some d => d | None => d end)
  | None => match Create H dst (NFile c) d with None => (false, d) | Some d => (true, d) end
  end.

(** Staged directories have mode 0750; copying one fails on the read. *)
Definition copyInto (e : Env) (H : HostFS) (src : Node) (dst : Path) (d : Disk) : run :=
  match MkdirAll H (dirs [] dst) d with
  | None => (false, d)
  | Some d =>
    match src with
    | NLink target => deliverLink H target dst d
    | NFile c =>
      match clearNonRegular H dst d with None => (false, d) | Some d => write_file e H c dst d end
    | NDir =>
      match clearNonRegular H dst d with
      | None => (false, d)
      | Some d => (false, match Create H dst (NFile ("", 488)) d with Some d => d | None => d end)
      end
    end
  end.

(** [emptyRegularFile], then the removal of the name. *)
Definition emptyRegularFile (H : HostFS) (dst : Path) (d : Disk) : option Disk :=
  match Lstat H d dst with
  | NotExist => Some d
  | StatErr => None
  | Present (NFile (_, perm)) => Create H dst (NFile ("", perm)) d
  | Present _ => Some d
  end.
Definition removeForGuest (H : HostFS) (dst : Path) (d : Disk) : run :=
  match emptyRegularFile H dst d with
  | None => (false, d)
  | Some d => match Remove H dst d with None => (false, d) | Some d => (true, d) end
  end.

(** ** Applying a plan *)
Fixpoint apply_updates (e : Env) (H : HostFS) (staged : Tree) (l : list string) (d : Disk)
    : res sync_err unit * Disk :=
  match l with
  | [] => (Ok tt, d)
  | rel :: l =>
    match safeJoin rel with
    | Err x => (Err x, d)
    | Ok p =>
      match staged !! p with
      | None => (Err (EDeliver rel), d)
      | Some n =>
        let '(ok, d) := copyInto e H n p d in
        if ok : bool then apply_updates e H staged l d else (Err (EDeliver rel), d)
      end
    end
  end.
Fixpoint apply_deletes (H : HostFS) (l : list string) (d : Disk) : res sync_err unit * Disk :=
  match l with
  | [] => (Ok tt, d)
  | rel :: l =>
    match safeJoin rel with
    | Err x => (Err x, d)
    | Ok p =>
      let '(ok, d) := removeForGuest H p d in
      if ok : bool then apply_deletes H l d else (Err (ERemove rel), d)
    end
  end.
Definition Apply (e : Env) (H : HostFS) (staged : Tree) (p : Plan) (d : Disk) : res sync_err unit * Disk :=
  if Blocked p then (Err (EConflicts (pl_Conflicts p)), d)
  else match apply_updates e H staged (pl_Update p) d with
  | (Err x, d) => (Err x, d)
  | (Ok _, d) => apply_deletes H (pl_Delete p) d
  end.

(** ** The baseline *)
Inductive Baseline := NoBaseline | Corrupt | Saved (m : Manifest).
(** A manifest written as JSON and read back: keys in order, the last of equal
    keys kept. *)
Definition reread (m : Manifest) : Manifest :=
  fold_left (fun acc x => <[json_text x.1 := x.2]> acc) (sort_by fst (map_to_list m)) ∅.
Definition LoadManifest (e : Env) (b : Baseline) : res sync_err Manifest :=
  if negb (e_loads e) then Err EReadBaseline
  else match b with NoBaseline => Ok ∅ | Corrupt => Err EReadBaseline | Saved m => Ok (reread m) end.

(** ** A sync *)
Record SyncState := mkSync { ss_guest : Disk; ss_baseline : Baseline }.
Record Request := mkRequest { Force : bool; DryRun : bool }.
Record Result := mkResult {
  r_Updated : list string; r_Entries : Manifest; r_Deleted : list string; r_Overridden : list string;
  r_Skipped : bool; r_DryRun : bool; r_Conflicts : list Conflict; r_Blocked : bool }.
(** [Result.Changed]. *)
Definition Changed (r : Result) : bool := negb (bool_decide (r_Updated r = [])) || negb (bool_decide (r_Deleted r = [])).
Definition SortedPaths (l : list string) : list string := sort_by id l.
Definition classify (p : Plan) (dryRun : bool) : Result :=
  mkResult (pl_Update p) ∅ (pl_Delete p) (Overridden p) false dryRun (pl_Conflicts p) (Blocked p).
Definition skipped (dryRun : bool) : Result := mkResult [] ∅ [] [] true dryRun [] false.

(** [views]: the three trees the policy compares. *)
Definition views (e : Env) (staged : Tree) (st : SyncState) : res sync_err (Manifest * Manifest * Manifest) :=
  host ← BuildManifest (e_linkMode e) (fun _ => true) staged;
  delivered ← LoadManifest e (ss_baseline st);
  guest ← BuildManifest (e_linkMode e) (e_readable e) (d_nodes (ss_guest st));
  mret (host, delivered, guest).

(** After the apply: the guest's tree is read back, and only then does the
    baseline move. *)
Definition confirm (e : Env) (p : Plan) (host : Manifest) (d : Disk) (b : Baseline) : res sync_err Result * SyncState :=
  match (landed ← BuildManifest (e_linkMode e) (e_readable e) (d_nodes d);
         res_map_err EUndelivered (VerifyDelivery p host landed)) with
  | Err x => (Err x, mkSync d b)
  | Ok _ =>
    if e_saves e then
      let r := classify p false in
      (Ok (mkResult (r_Updated r) (deliveredEntries host (pl_Update p)) (r_Deleted r) (r_Overridden r)
             (r_Skipped r) (r_DryRun r) (r_Conflicts r) (r_Blocked r)), mkSync d (Saved host))
    else (Err ESaveBaseline, mkSync d b)
  end.

Definition Sync (e : Env) (H : HostFS) (req : Request) (st : SyncState) : res sync_err Result * SyncState :=
  match e_staged e with
  | None => (Err EStaging, st)
  | Some staged =>
    match views e staged st with
    | Err x => (Err x, st)
    | Ok (host, delivered, guest) =>
      let p := Compute (e_range e) (e_range' e) delivered host guest in
      if Empty p then (Ok (skipped (DryRun req)), st)
      else
        let p := chosen (Force req) p in
        if DryRun req then (Ok (classify p true), st)
        else if Blocked p then (Err (EConflicts (pl_Conflicts p)), st)
        else match Apply e H staged p (ss_guest st) with
        | (Err x, d) => (Err x, mkSync d (ss_baseline st))
        | (Ok _, d) => confirm e p host d (ss_baseline st)
        end
    end
  end.

(** [RecordDelivery]: the baseline of a launch. *)
Definition RecordDelivery (e : Env) (staged : Tree) (st : SyncState) : res sync_err unit * SyncState :=
  match BuildManifest (e_linkMode e) (fun _ => true) staged with
  | Err x => (Err x, st)
  | Ok m => if e_saves e then (Ok tt, mkSync (ss_guest st) (Saved m)) else (Err ESaveBaseline, st)
  end.


(** ** The names of a tree *)

(** What a directory walk can name. *)
Definition name_ok (p : Path) : Prop :=
  p <> [] /\ Forall (fun c => plain_comp c = true /\ contains slash c = false) p.
Definition names_ok (t : Tree) : Prop := forall p n, t !! p = Some n -> n <> NDir -> name_ok p.

Lemma split_rel p : name_ok p -> split slash (rel_of p) = p.
Proof.
  intros [Hne Hp]. apply split_join; [done|]. by eapply Forall_impl; [exact Hp|intros c []].
Qed.
Lemma rel_split path : rel_of (split slash path) = path.
Proof. apply join_split. Qed.
Lemma rel_inj p q : name_ok p -> name_ok q -> rel_of p = rel_of q -> p = q.
Proof. intros Hp Hq He. by rewrite <- (split_rel p), He, split_rel. Qed.
Lemma name_first p c cs : name_ok p -> split slash (rel_of p) = c :: cs -> plain_comp c = true.
Proof. intros Hp Hs. rewrite split_rel in Hs by done. subst p. destruct Hp as [_ Hp]. apply Forall_cons in Hp as [[? _] _]. done. Qed.

Lemma safeJoin_rel p : name_ok p -> safeJoin (rel_of p) = Ok p.
Proof.
  intros Hp. pose proof (split_rel p Hp) as Hs. unfold safeJoin.
  assert (is_abs (rel_of p) = false) as Ha.
  { destruct (is_abs _) eqn:Ha; [exfalso|done]. apply has_prefix_app in Ha as [s Hr].
    assert (plain_comp "" = true); [|done]. eapply (name_first p); [done|]. by rewrite Hr. }
  rewrite Ha, clean_plain; [|done|].
  2: { rewrite Hs. destruct Hp as [_ Hp]. by eapply Forall_impl; [exact Hp|intros c []]. }
  cbv zeta. destruct (String.eqb_spec (rel_of p) "..") as [Hr|_].
  { assert (plain_comp ".." = true); [|done]. eapply (name_first p); [done|]. by rewrite Hr. }
  destruct (has_prefix "../" (rel_of p)) eqn:Hu.
  { apply has_prefix_app in Hu as [s Hr]. assert (plain_comp ".." = true); [|done].
    eapply (name_first p); [done|]. by rewrite Hr. }
  destruct (String.eqb_spec (rel_of p) ".") as [Hr|_]; [|cbn; by rewrite Hs].
  assert (plain_comp "." = true); [|done]. eapply (name_first p); [done|]. by rewrite Hr.
Qed.

(** ** Manifests *)

(** What a manifest says of a path. *)
Definition manifest_at (linkMode : Z) (t : Tree) (path : string) : option Entry :=
  if skipPath path then None else t !! split slash path ≫= entryFor linkMode.

Lemma entryFor_node lm n e : entryFor lm n = Some e -> n <> NDir.
Proof. by destruct n. Qed.
Lemma manifest_at_node lm t path e : names_ok t -> manifest_at lm t path = Some e ->
  skipPath path = false /\ exists n, t !! split slash path = Some n /\ entryFor lm n = Some e /\ name_ok (split slash path).
Proof.
  intros Hn. unfold manifest_at. destruct (skipPath path); [done|].
  intros (n & Ht & He)%bind_Some. split; [done|]. exists n. split_and!; [done..|].
  apply (Hn _ n); [done|by eapply entryFor_node].
Qed.

Lemma BuildManifest_Ok lm readable t m : names_ok t -> BuildManifest lm readable t = Ok m ->
  forall path, m !! path = manifest_at lm t path.
Proof.
  intros Hn. unfold BuildManifest. destruct (existsb _ _); [done|]. intros [= <-] path.
  set (l := omap _ _).
  assert (forall path e, (path, e) ∈ l <-> manifest_at lm t path = Some e) as Hl.
  { intros q e. unfold l, walked. rewrite list_elem_of_omap. unfold manifest_at. split.
    - intros ([p n] & Hx & He). apply list_elem_of_filter in Hx as [Hs Hp%elem_of_map_to_list]. cbn in *.
      apply bind_Some in He as (e' & He & [= <- <-]). rewrite Hs.
      rewrite split_rel, Hp by (apply (Hn _ n); [done|by eapply entryFor_node]). done.
    - destruct (skipPath q) eqn:Hs; [done|]. intros (n & Hp & He)%bind_Some. exists (split slash q, n).
      cbn. rewrite He, rel_split. split; [|done]. apply list_elem_of_filter. cbn. rewrite rel_split. split; [done|].
      by apply elem_of_map_to_list. }
  destruct (manifest_at lm t path) as [e|] eqn:He.
  - apply elem_of_list_to_map_1'; [|by apply Hl]. intros e' He'%Hl. congruence.
  - apply not_elem_of_list_to_map_1. intros ([q e] & -> & Hq%Hl)%list_elem_of_fmap. cbn in He. congruence.
Qed.

(** ** Writing and removing one path *)
Ltac run_cases := repeat (case_match; simplify_eq; try done).

Lemma clearNonRegular_nodes H p d d' : clearNonRegular H p d = Some d' -> nodes_but (eq p) d d'.
Proof.
  unfold clearNonRegular. intros Hc. run_cases; try apply nodes_but_refl; by eapply Remove_nodes.
Qed.
Lemma write_file_nodes e H c p d b d' : write_file e H c p d = (b, d') -> nodes_but (eq p) d d'.
Proof.
  unfold write_file. intros Hc. run_cases; try apply nodes_but_refl; by eapply Create_nodes.
Qed.
Lemma deliverLink_nodes H t p d b d' : deliverLink H t p d = (b, d') -> nodes_but (eq p) d d'.
Proof.
  unfold deliverLink. intros Hc. run_cases; try apply nodes_but_refl;
    try (eapply nodes_but_trans; [by eapply Remove_nodes|by eapply Create_nodes]); by eapply Remove_nodes.
Qed.
Lemma copyInto_nodes e H n p d b d' : copyInto e H n p d = (b, d') -> nodes_but (eq p) d d'.
Proof.
  unfold copyInto. destruct (MkdirAll _ _ _) as [d1|] eqn:Hm; [|intros [= <- <-]; apply nodes_but_refl].
  apply (MkdirAll_nodes (eq p)) in Hm. intros Hc. refine (nodes_but_trans _ _ _ _ Hm _). destruct n as [|c|t].
  - destruct (clearNonRegular _ _ _) as [d2|] eqn:H2; [|simplify_eq; apply nodes_but_refl].
    apply clearNonRegular_nodes in H2. injection Hc as _ <-.
    destruct (Create _ _ _ _) as [d3|] eqn:H3; [|done]. eapply nodes_but_trans; [done|by eapply Create_nodes].
  - destruct (clearNonRegular _ _ _) as [d2|] eqn:H2; [|simplify_eq; apply nodes_but_refl].
    apply clearNonRegular_nodes in H2. eapply nodes_but_trans; [done|by eapply write_file_nodes].
  - by eapply deliverLink_nodes.
Qed.

Lemma Lstat_inside (H : HostFS) (d : Disk) p : disk_wf (d_nodes d) -> no_link_above (d_nodes d) p ->
  Lstat H d p = stat_of (d_nodes d !! p) \/ (Lstat H d p = StatErr /\ d_nodes d !! p = None).
Proof.
  intros W Hl. unfold Lstat. assert (locate (d_nodes d) (dirs [] p) <> Inside -> d_nodes d !! p = None) as Hn.
  { intros Hi. apply eq_None_not_Some. intros [n Hp]. by apply Hi, (locate_present _ _ n). }
  destruct (locate_cases _ _ Hl) as [[-> _]|[Hx|Hx]]; [by left|left|right]; rewrite Hx in *; rewrite Hn by done; done.
Qed.

(** An operation on [p] that stays inside the tree. *)
Definition inside (p : Path) (d d' : Disk) : Prop :=
  disk_wf (d_nodes d') /\ same_but (eq p) d d' /\ no_link_above (d_nodes d') p.
Lemma inside_refl p (d : Disk) : disk_wf (d_nodes d) -> no_link_above (d_nodes d) p -> inside p d d.
Proof. intros W Hl. split_and!; [done|apply same_but_refl|done]. Qed.
Lemma inside_trans p d1 d2 d3 : inside p d1 d2 -> inside p d2 d3 -> inside p d1 d3.
Proof. intros (_ & S1 & _) (W & S2 & Hl). split_and!; [done|by eapply same_but_trans1|done]. Qed.
Lemma inside_intro p d d' : disk_wf (d_nodes d') -> same_but (eq p) d d' -> no_link_above (d_nodes d) p -> inside p d d'.
Proof.
  intros W S Hl. split_and!; [done|done|]. eapply no_link_same_but; [done|done|].
  intros a Ha ->. by eapply above_irrefl.
Qed.

Lemma Remove_in H p (d d' : Disk) : disk_wf (d_nodes d) -> no_link_above (d_nodes d) p -> Remove H p d = Some d' ->
  inside p d d' /\ d_nodes d' !! p = None.
Proof. intros W Hl (W' & S & Hn & _)%Remove_inside; [|done..]. split; [by apply inside_intro|done]. Qed.
Lemma Create_in H p n (d d' : Disk) : disk_wf (d_nodes d) -> no_link_above (d_nodes d) p -> d_nodes d !! p <> Some NDir ->
  Create H p n d = Some d' -> inside p d d' /\ d_nodes d' !! p = Some n.
Proof.
  intros W Hl Hp (W' & Ho & Hn)%Create_inside; [|done..]. split; [|by rewrite Hn, lookup_insert_eq].
  apply inside_intro; [done| |done]. split; [done|]. intros q Hq. left. rewrite Hn. by rewrite lookup_insert_ne.
Qed.
Lemma clearNonRegular_in H p d d' : disk_wf (d_nodes d) -> no_link_above (d_nodes d) p ->
  clearNonRegular H p d = Some d' -> inside p d d' /\ d_nodes d' !! p <> Some NDir.
Proof.
  intros W Hl. unfold clearNonRegular. destruct (Lstat_inside H d p W Hl) as [Hs|[Hs Hn]]; rewrite Hs; [|done].
  destruct (d_nodes d !! p) as [[| |]|] eqn:Hp; cbn [stat_of].
  2,4: intros [= <-]; split; [by apply inside_refl|congruence].
  all: intros [Hi Hn]%Remove_in; [|done..]; split; [done|congruence].
Qed.

Lemma copyInto_in e H n p d d' : disk_wf (d_nodes d) -> no_link_above (d_nodes d) p -> n <> NDir ->
  copyInto e H n p d = (true, d') -> inside p d d' /\ d_nodes d' !! p = Some n.
Proof.
  intros W Hl Hne. unfold copyInto. destruct (MkdirAll _ _ _) as [d1|] eqn:Hm; [|done].
  apply MkdirAll_dirs in Hm as (W1 & S1 & _ & Hd1); [|done..].
  assert (inside p d d1) as I1. { apply inside_intro; [done| |done]. by eapply same_but_mono; [|exact S1]. }
  assert (no_link_above (d_nodes d1) p) as Hl1 by apply I1. destruct n as [|c|t]; [done| |].
  - destruct (clearNonRegular _ _ _) as [d2|] eqn:H2; [|done].
    apply clearNonRegular_in in H2 as [I2 Hp2]; [|done..]. unfold write_file.
    destruct (e_fault e p); [done|]. destruct (Create _ _ _ _) as [d3|] eqn:H3; [|done]. intros [= <-].
    apply Create_in in H3 as [I3 Hp3]; [|apply I2|apply I2|done]. split; [|done].
    eapply inside_trans; [exact I1|]. by eapply inside_trans.
  - unfold deliverLink. destruct (Remove _ _ _) as [d2|] eqn:H2; [|done].
    apply Remove_in in H2 as [I2 Hp2]; [|done..].
    destruct (Create _ _ _ _) as [d3|] eqn:H3; [|done]. intros [= <-].
    apply Create_in in H3 as [I3 Hp3]; [|apply I2|apply I2|congruence]. split; [|done].
    eapply inside_trans; [exact I1|]. by eapply inside_trans.
Qed.

Lemma removeForGuest_in H p d d' : disk_wf (d_nodes d) -> no_link_above (d_nodes d) p ->
  removeForGuest H p d = (true, d') -> inside p d d' /\ d_nodes d' !! p = None.
Proof.
  intros W Hl. unfold removeForGuest. destruct (emptyRegularFile _ _ _) as [d1|] eqn:H1; [|done].
  destruct (Remove _ _ _) as [d2|] eqn:H2; [|done]. intros [= <-].
  assert (inside p d d1) as I1.
  { revert H1. unfold emptyRegularFile. destruct (Lstat_inside H d p W Hl) as [Hs|[Hs Hn]]; rewrite Hs; [|done].
    destruct (d_nodes d !! p) as [[|[data perm]|]|] eqn:Hp; cbn [stat_of].
    2: intros [Hi _]%Create_in; [done|done|done|congruence].
    all: intros [= <-]; by apply inside_refl. }
  apply Remove_in in H2 as [I2 Hn]; [|apply I1..]. split; [by eapply inside_trans|done].
Qed.

(** ** Applying a plan inside the tree *)

(** The places a list of paths names. *)
Definition places (l : list string) (q : Path) : Prop := exists path, path ∈ l /\ q = split slash path.
Lemma places_cons rel l q : places (rel :: l) q <-> split slash rel = q \/ places l q.
Proof. unfold places. setoid_rewrite elem_of_cons. naive_solver. Qed.

Lemma inside_cons rel l d1 d2 d3 : same_but (eq (split slash rel)) d1 d2 -> same_but (places l) d2 d3 ->
  same_but (C := file) (places (rel :: l)) d1 d3.
Proof.
  intros S1 S2. eapply same_but_mono; [|exact (same_but_trans _ _ _ _ _ S1 S2)].
  intros q [?|?]; apply places_cons; auto.
Qed.

(** A path the staged tree has a file or link at. *)
Definition staged_at (staged : Tree) (rel : string) : Prop :=
  exists n, staged !! split slash rel = Some n /\ n <> NDir.

Section Staged.
Context (e : Env) (H : HostFS) (staged : Tree) (Hs : names_ok staged) (Ws : disk_wf staged).

Lemma staged_name rel : staged_at staged rel -> name_ok (split slash rel).
Proof. intros (n & Hn & Hd). by eapply Hs. Qed.
Lemma staged_apart rel rel' : staged_at staged rel -> staged_at staged rel' -> ~ above (split slash rel) (split slash rel').
Proof. intros (n & Hn & Hd) (n' & Hn' & _) Ha. pose proof (Ws _ _ _ Hn' Ha). congruence. Qed.
Lemma join_staged rel : staged_at staged rel -> safeJoin rel = Ok (split slash rel).
Proof. intros Hr%staged_name. by rewrite <- (safeJoin_rel _ Hr), rel_split. Qed.

Lemma apply_updates_in l d d' : disk_wf (d_nodes d) ->
  (forall rel, rel ∈ l -> staged_at staged rel /\ no_link_above (d_nodes d) (split slash rel)) ->
  apply_updates e H staged l d = (Ok tt, d') -> disk_wf (d_nodes d') /\ same_but (places l) d d'.
Proof.
  revert d. induction l as [|rel l IH]; intros d W Hl; cbn [apply_updates].
  { intros [= <-]. split; [done|apply same_but_refl]. }
  destruct (Hl rel) as [Hr Hn]; [by left|]. rewrite join_staged by done.
  destruct Hr as (n & Hp & Hd). rewrite Hp.
  destruct (copyInto _ _ _ _ _) as [[] d1] eqn:Hc; [|done]. apply copyInto_in in Hc as [(W1 & S1 & _) _]; [|done..].
  intros (W' & S')%IH; [split; [done|by eapply inside_cons]|done|].
  intros rel' Hin. destruct (Hl rel') as [Hr' Hn']; [by right|]. split; [done|].
  eapply no_link_same_but; [done|done|]. intros a Ha <-. eapply (staged_apart rel rel'); [by exists n|done|done].
Qed.
End Staged.

Lemma apply_deletes_in H l d d' : disk_wf (d_nodes d) ->
  (forall rel, rel ∈ l -> name_ok (split slash rel) /\ no_link_above (d_nodes d) (split slash rel)) ->
  apply_deletes H l d = (Ok tt, d') -> disk_wf (d_nodes d') /\ same_but (places l) d d'.
Proof.
  revert d. induction l as [|rel l IH]; intros d W Hl; cbn [apply_deletes].
  { intros [= <-]. split; [done|apply same_but_refl]. }
  destruct (Hl rel) as [Hr Hn]; [by left|]. rewrite <- (rel_split rel) at 1. rewrite safeJoin_rel by done.
  destruct (removeForGuest _ _ _) as [[] d1] eqn:Hc; [|done]. apply removeForGuest_in in Hc as [(W1 & S1 & _) Hp]; [|done..].
  intros (W' & S')%IH; [split; [done|by eapply inside_cons]|done|].
  intros rel' Hin. destruct (Hl rel') as [Hr' Hn']; [by right|]. split; [done|].
  intros a t Ha. destruct (decide (a = split slash rel)) as [->|Hne]; [congruence|].
  destruct S1 as [_ S1]. destruct (S1 a) as [->|[_ ->]]; [congruence|by apply Hn'|done].
Qed.

Lemma Apply_in e H staged p d d' : names_ok staged -> disk_wf staged -> disk_wf (d_nodes d) ->
  (forall rel, rel ∈ pl_Update p -> staged_at staged rel /\ no_link_above (d_nodes d) (split slash rel)) ->
  (forall rel, rel ∈ pl_Delete p -> rel ∉ pl_Update p /\ name_ok (split slash rel) /\
     is_Some (d_nodes d !! split slash rel)) ->
  Apply e H staged p d = (Ok tt, d') ->
  disk_wf (d_nodes d') /\ same_but (fun q => places (pl_Update p) q \/ places (pl_Delete p) q) d d'.
Proof.
  intros Hs Ws W Hu Hd. unfold Apply. destruct (Blocked p); [done|].
  destruct (apply_updates _ _ _ _ _) as [[[]|] d1] eqn:H1; [|done]. intros H2.
  apply apply_updates_in in H1 as [W1 S1]; [|done..].
  apply apply_deletes_in in H2 as [W2 S2]; [|done|].
  - split; [done|]. by eapply same_but_trans.
  - intros rel Hrel. destruct (Hd rel Hrel) as (Hni & Hok & n & Hn). split; [done|].
    assert (d_nodes d1 !! split slash rel = Some n) as Hn1.
    { eapply nodes_but_present; [apply S1| |done]. intros (path & Hin & He). apply Hni.
      apply (f_equal (join slash)) in He. rewrite !join_split in He. by rewrite He. }
    intros a t Ha. pose proof (W1 _ _ _ Hn1 Ha). congruence.
Qed.
