(* ===== verification/SyncResults.v ===== *)
(** * What a worktree sync does

    The theorems on [WorktreeSync.Sync]: what a sync that succeeds delivers, what
    a dry run foretells, when a sync is the last one needed, and the three trees
    on which it goes wrong; runs on small trees at the end. *)

From Stdlib Require Import ZArith Lia Ascii String.
From S2P Require Import Prelude GoStrings SandboxModel DiskTree SyncPlan WorktreeSync.

Open Scope string_scope.
Open Scope Z_scope.
Open Scope list_scope.

(** ** What a sync delivers *)

(** What the guest has at a path after a sync. *)
Definition landing (force : bool) (delivered host guest : Manifest) (path : string) : option Entry :=
  let a := policy delivered host guest path in
  if written force a then host !! path else if removed force a then None else guest !! path.
Definition touched (force : bool) (delivered host guest : Manifest) (path : string) : bool :=
  let a := policy delivered host guest path in written force a || removed force a.

(** The two trees of a sync, as the operating system keeps them. *)
Record trees_ok (staged guest : Tree) : Prop := {
  ts_staged : names_ok staged; ts_staged_wf : disk_wf staged;
  ts_guest : names_ok guest; ts_guest_wf : disk_wf guest }.

(** A sync that applied something. *)
Definition applied (r : Result) : bool := negb (r_DryRun r) && negb (r_Skipped r).
Lemma views_Ok e staged st host delivered guest : trees_ok staged (d_nodes (ss_guest st)) ->
  views e staged st = Ok (host, delivered, guest) ->
  (forall path, host !! path = manifest_at (e_linkMode e) staged path) /\
  (forall path, guest !! path = manifest_at (e_linkMode e) (d_nodes (ss_guest st)) path) /\
  LoadManifest e (ss_baseline st) = Ok delivered.
Proof.
  intros [Ns _ Ng _] Hv. unfold views in Hv. inv_res. cbv [mret res_ret] in Hv. simplify_eq.
  split_and!; [| |done]; by eapply BuildManifest_Ok.
Qed.
Lemma Sync_applied e H req st r st' : Sync e H req st = (Ok r, st') -> applied r = true ->
  exists staged host delivered guest d, e_staged e = Some staged /\ views e staged st = Ok (host, delivered, guest) /\
    let p := chosen (Force req) (Compute (e_range e) (e_range' e) delivered host guest) in
    DryRun req = false /\ Apply e H staged p (ss_guest st) = (Ok tt, d) /\
    confirm e p host d (ss_baseline st) = (Ok r, st').
Proof.
  unfold Sync. destruct (e_staged e) as [staged|]; [|done].
  destruct (views e staged st) as [[[host delivered] guest]|] eqn:Hv; [|done]. cbv zeta.
  destruct (Empty _); [intros [= <- <-]; unfold applied, skipped; cbn; by rewrite andb_false_r|].
  destruct (DryRun req) eqn:Hd; [intros [= <- <-]; done|].
  destruct (Blocked _); [done|]. destruct (Apply _ _ _ _ _) as [[[]|] d] eqn:Ha; [|done].
  intros Hc _. by exists staged, host, delivered, guest, d.
Qed.
Lemma confirm_Ok e p host d b r st' : confirm e p host d b = (Ok r, st') -> st' = mkSync d (Saved host) /\
  r_Updated r = pl_Update p /\ r_Deleted r = pl_Delete p /\
  exists landed, BuildManifest (e_linkMode e) (e_readable e) (d_nodes d) = Ok landed /\
    VerifyDelivery p host landed = Ok tt.
Proof.
  unfold confirm. destruct (BuildManifest _ _ _) as [landed|] eqn:Hl; cbn; [|done].
  destruct (VerifyDelivery _ _ _) as [[]|] eqn:Hd; cbn; [|done].
  destruct (e_saves e); [|done]. intros [= <- <-]. cbn. split_and!; [done..|]. by exists landed.
Qed.

Lemma names_ok_but (S : Path -> Prop) d d' : names_ok (d_nodes d) -> same_but S d d' ->
  (forall q, S q -> name_ok q) -> (forall q, S q \/ ~ S q) -> names_ok (d_nodes d').
Proof.
  intros Hn [_ Hs] Hok Hdec q n Hq Hd. destruct (Hdec q) as [HS|HS]; [by apply Hok|].
  destruct (Hs q HS) as [He|[_ He]]; [rewrite He in Hq; by apply (Hn _ n)|congruence].
Qed.
Lemma manifest_at_same lm (d d' : Disk) path :
  d_nodes d' !! split slash path = d_nodes d !! split slash path \/
  (d_nodes d !! split slash path = None /\ d_nodes d' !! split slash path = Some NDir) ->
  manifest_at lm (d_nodes d') path = manifest_at lm (d_nodes d) path.
Proof. unfold manifest_at. intros [->|[-> ->]]; done. Qed.

(** The facts of a sync that applied its plan in a tree without links in the
    way. *)
Lemma applied_run e H req st r st' staged host delivered guest d :
  trees_ok staged (d_nodes (ss_guest st)) ->
  (forall p, is_Some (staged !! p) -> no_link_above (d_nodes (ss_guest st)) p) ->
  views e staged st = Ok (host, delivered, guest) ->
  let p := chosen (Force req) (Compute (e_range e) (e_range' e) delivered host guest) in
  Apply e H staged p (ss_guest st) = (Ok tt, d) -> confirm e p host d (ss_baseline st) = (Ok r, st') ->
  (forall path, path ∈ pl_Update p <-> written (Force req) (policy delivered host guest path) = true) /\
  (forall path, path ∈ pl_Delete p <-> removed (Force req) (policy delivered host guest path) = true) /\
  trees_ok staged (d_nodes d) /\
  same_but (fun q => places (pl_Update p) q \/ places (pl_Delete p) q) (ss_guest st) d.
Proof.
  intros T Hl Hv p Ha Hc. destruct (views_Ok _ _ _ _ _ _ T Hv) as (Hh & Hg & _). destruct T as [Ns Ws Ng Wg].
  destruct (chosen_spec (Force req) delivered host guest _ (Compute_plan_of _ _ _ (e_range e) (e_range' e))) as (Hu & Hd & _ & _).
  fold p in Hu, Hd. split_and!; [exact Hu|exact Hd| |].
  all: assert (forall rel, rel ∈ pl_Update p -> staged_at staged rel) as Hsu by
    (intros rel [h Hr]%Hu%written_policy; rewrite Hh in Hr; apply manifest_at_node in Hr as (_ & n & Hn & He & _); [|done];
     exists n; split; [done|by eapply entryFor_node]).
  all: assert (forall rel, rel ∈ pl_Delete p -> rel ∉ pl_Update p /\ name_ok (split slash rel) /\
      is_Some (d_nodes (ss_guest st) !! split slash rel)) as Hsd by
    (intros rel Hin; apply Hd in Hin as [Hn [g Hr]]%removed_policy; split;
     [intros [h Hr']%Hu%written_policy; congruence|];
     rewrite Hg in Hr; apply manifest_at_node in Hr as (_ & n & Hx & _ & ?); [|done]; split; [done|by exists n]).
  all: apply Apply_in in Ha as [W S]; [|done|done|done| |exact Hsd];
    [|intros rel Hin; split; [by apply Hsu|]; apply Hl; destruct (Hsu rel Hin) as (n & ? & _); by exists n].
  - split; [done|done| |done]. eapply names_ok_but; [exact Ng|exact S| |].
    + intros q [(rel & Hin & ->)|(rel & Hin & ->)]; [by eapply staged_name, Hsu|by apply Hsd].
    + intros q. assert (forall l, places l q \/ ~ places l q) as Hdec.
      { intros l. unfold places. destruct (decide (rel_of q ∈ l /\ split slash (rel_of q) = q)) as [[? Hq]|Hn].
        - left. by exists (rel_of q).
        - right. intros (rel & Hin & ->). rewrite rel_split in Hn. tauto. }
      destruct (Hdec (pl_Update p)), (Hdec (pl_Delete p)); tauto.
  - exact S.
Qed.

(** C12. A sync delivers the merge and nothing else. When a sync that applied its
    plan returns, and the guest had put no link above a path of the staged tree,
    the guest's tree holds at every path what the three-way policy says (the
    host's file where the plan writes it, nothing where it removes one, the
    guest's own otherwise); every node of the tree outside the planned paths is
    as the guest had it, save directories made where there was nothing; nothing
    outside the tree was touched; the baseline is the host's manifest; and the
    result lists the paths written and removed. *)
Theorem Sync_delivers e H req st r st' staged :
  e_staged e = Some staged -> trees_ok staged (d_nodes (ss_guest st)) ->
  (forall p, is_Some (staged !! p) -> no_link_above (d_nodes (ss_guest st)) p) ->
  Sync e H req st = (Ok r, st') -> applied r = true ->
  exists host delivered guest, views e staged st = Ok (host, delivered, guest) /\
    (forall path, manifest_at (e_linkMode e) (d_nodes (ss_guest st')) path =
       landing (Force req) delivered host guest path) /\
    same_but (fun q => touched (Force req) delivered host guest (rel_of q) = true) (ss_guest st) (ss_guest st') /\
    trees_ok staged (d_nodes (ss_guest st')) /\ ss_baseline st' = Saved host /\
    (forall path, path ∈ r_Updated r <-> written (Force req) (policy delivered host guest path) = true) /\
    (forall path, path ∈ r_Deleted r <-> removed (Force req) (policy delivered host guest path) = true).
Proof.
  intros He T Hl Hs Hr. destruct (Sync_applied _ _ _ _ _ _ Hs Hr) as (t & host & delivered & guest & d & Ht & Hv & _ & Ha & Hc).
  rewrite He in Ht. injection Ht as <-. exists host, delivered, guest. split; [done|].
  destruct (applied_run _ _ _ _ _ _ _ _ _ _ _ T Hl Hv Ha Hc) as (Hu & Hd & T' & S).
  destruct (views_Ok _ _ _ _ _ _ T Hv) as (_ & Hg & _).
  apply confirm_Ok in Hc as (-> & Hru & Hrd & landed & Hb & [Vu Vd]%VerifyDelivery_exact). cbn [ss_guest ss_baseline].
  pose proof (BuildManifest_Ok _ _ _ _ (ts_guest _ _ T') Hb) as Hm.
  split_and!; [| |done|done|by setoid_rewrite Hru|by setoid_rewrite Hrd].
  - intros path. unfold landing. destruct (written _ _) eqn:Hw; [|destruct (removed _ _) eqn:Hx].
    + destruct (written_policy _ _ _ _ _ Hw) as [h Hh]. rewrite <- Hm, Hh. apply Vu; [by apply Hu|done].
    + rewrite <- Hm. by apply Vd, Hd.
    + rewrite Hg. apply manifest_at_same. destruct S as [_ S]. apply S.
      intros [(rel & Hin & Hq)|(rel & Hin & Hq)]; apply (f_equal (join slash)) in Hq; rewrite !join_split in Hq; subst rel;
        [apply Hu in Hin|apply Hd in Hin]; congruence.
  - eapply same_but_mono; [|exact S]. intros q [(rel & Hin & ->)|(rel & Hin & ->)]; rewrite rel_split; unfold touched.
    + apply Hu in Hin. by rewrite Hin.
    + apply Hd in Hin. by rewrite Hin, orb_true_r.
Qed.

(** ** Dry runs *)
Definition is_conflicts (x : sync_err) : bool := if x is EConflicts _ then true else false.

Lemma apply_updates_err e H staged l d x d' : apply_updates e H staged l d = (Err x, d') -> is_conflicts x = false.
Proof.
  revert d. induction l as [|rel l IH]; intros d; cbn [apply_updates]; [done|].
  destruct (safeJoin rel) eqn:Hj; [|intros [= <- <-]; revert Hj; unfold safeJoin; cbv zeta; by repeat case_match; intros; simplify_eq].
  destruct (staged !! _); [|by intros [= <- <-]]. destruct (copyInto _ _ _ _ _) as [[] d1]; [apply IH|by intros [= <- <-]].
Qed.
Lemma apply_deletes_err H l d x d' : apply_deletes H l d = (Err x, d') -> is_conflicts x = false.
Proof.
  revert d. induction l as [|rel l IH]; intros d; cbn [apply_deletes]; [done|].
  destruct (safeJoin rel) eqn:Hj; [|intros [= <- <-]; revert Hj; unfold safeJoin; cbv zeta; by repeat case_match; intros; simplify_eq].
  destruct (removeForGuest _ _ _) as [[] d1]; [apply IH|by intros [= <- <-]].
Qed.
Lemma Apply_err e H staged p d x d' : Blocked p = false -> Apply e H staged p d = (Err x, d') -> is_conflicts x = false.
Proof.
  intros Hb. unfold Apply. rewrite Hb. destruct (apply_updates _ _ _ _ _) as [[[]|] d1] eqn:H1; [apply apply_deletes_err|].
  intros [= <- <-]. by eapply apply_updates_err.
Qed.
Lemma confirm_err e p host d b x st' : confirm e p host d b = (Err x, st') -> is_conflicts x = false /\ ss_baseline st' = b.
Proof.
  unfold confirm, BuildManifest. destruct (existsb _ _); cbn; [by intros [= <- <-]|].
  destruct (VerifyDelivery _ _ _) as [[]|]; cbn; [|by intros [= <- <-]]. destruct (e_saves e); [done|by intros [= <- <-]].
Qed.

(** C32. A dry run changes nothing and says what the sync would do. It fails
    exactly as the sync fails before it writes; otherwise it lists the paths the
    sync, if it succeeds, writes, removes and overrides, and says blocked exactly
    when the sync is refused for conflicts, naming the same ones and leaving
    everything as it was; and no sync that fails, at whatever point, moves the
    delivery baseline. *)
Theorem dry_run_predicts e H force st :
  let '(o, s) := Sync e H (mkRequest force true) st in
  let '(o', s') := Sync e H (mkRequest force false) st in
  s = st /\
  match o, o' with
  | Err x, _ => o' = Err x /\ s' = st
  | Ok r, Ok r' => r_DryRun r = true /\ r_DryRun r' = false /\ r_Skipped r = r_Skipped r' /\
      r_Updated r = r_Updated r' /\ r_Deleted r = r_Deleted r' /\ r_Overridden r = r_Overridden r' /\
      r_Blocked r = false
  | Ok r, Err x =>
      (r_Blocked r = true <-> is_conflicts x = true) /\
      (r_Blocked r = true -> x = EConflicts (r_Conflicts r) /\ s' = st) /\
      ss_baseline s' = ss_baseline st
  end.
Proof.
  unfold Sync. destruct (e_staged e) as [staged|]; [|done].
  destruct (views e staged st) as [[[host delivered] guest]|]; [|done]. cbv zeta. cbn [Force DryRun].
  destruct (Empty _); [done|]. set (p := chosen force _). destruct (Blocked p) eqn:Hb.
  { split; [done|]. cbn. rewrite Hb. by split_and!. }
  destruct (Apply _ _ _ _ _) as [[[]|x] d] eqn:Ha.
  - destruct (confirm _ _ _ _ _) as [[r'|x] s'] eqn:Hc; (split; [done|]).
    + unfold confirm in Hc. destruct (_ ≫= _); [|done]. destruct (e_saves e); [|done]. injection Hc as <- _. done.
    + apply confirm_err in Hc as [Hx Hs]. cbn. rewrite Hb. rewrite Hx. by split_and!.
  - apply Apply_err in Ha; [|done]. split; [done|]. cbn. rewrite Hb. rewrite Ha. by split_and!.
Qed.

(** ** The baseline as JSON keeps it *)
Lemma reread_eq m :
  reread m = list_to_map (rev ((fun x => (json_text x.1, x.2)) <$> sort_by fst (map_to_list m))).
Proof.
  unfold reread. set (l := sort_by _ _).
  assert (forall acc : Manifest, fold_left (fun acc x => <[json_text x.1:=x.2]> acc) l acc =
    list_to_map (rev ((fun x => (json_text x.1, x.2)) <$> l)) ∪ acc) as Hl.
  { induction l as [|[k v] l IH]; intros acc; cbn [fold_left fmap list_fmap rev]; [by rewrite list_to_map_nil, (left_id_L ∅ (∪))|].
    rewrite IH, list_to_map_app. cbn. rewrite insert_empty, <- (assoc_L (∪)), <- insert_union_singleton_l. done. }
  rewrite Hl, (right_id_L ∅ (∪)). done.
Qed.
(** A key is read back only as well-formed text. *)
Lemma json_text_idem s : json_text (json_text s) = json_text s.
Proof. by apply sub_invalid_idem. Qed.
Lemma reread_misspelt m path : json_text path <> path -> reread m !! path = None.
Proof.
  intros Hp. rewrite reread_eq. apply not_elem_of_list_to_map_1.
  intros ([k v] & -> & Hin)%list_elem_of_fmap. rewrite <- Permutation_rev in Hin.
  apply list_elem_of_fmap in Hin as (x & [= -> ->] & _). apply Hp, json_text_idem.
Qed.
Lemma reread_text m : (forall path, is_Some (m !! path) -> json_text path = path) -> reread m = m.
Proof.
  intros Hm. rewrite reread_eq.
  assert ((fun x => (json_text x.1, x.2)) <$> sort_by fst (map_to_list m) = sort_by fst (map_to_list m)) as ->.
  { rewrite <- (list_fmap_id (sort_by fst (map_to_list m))) at 2. apply list_fmap_ext. intros i [k v] Hx. cbn.
    apply list_elem_of_lookup_2, elem_of_sort_by, elem_of_map_to_list in Hx. by rewrite Hm by eauto. }
  assert (rev (sort_by fst (map_to_list m)) ≡ₚ map_to_list m) as Hp by (by rewrite <- Permutation_rev, sort_by_perm).
  rewrite (list_to_map_proper _ (map_to_list m)); [apply list_to_map_to_list| |exact Hp].
  rewrite Hp. apply NoDup_fst_map_to_list.
Qed.

Lemma plan_empty delivered host guest p : plan_of delivered host guest p ->
  (forall path, policy delivered host guest path = Keep) -> Empty p = true.
Proof.
  intros [U D C _ _] Hk. unfold Empty. rewrite !andb_true_iff, !bool_decide_eq_true.
  split_and!; apply elem_of_nil_inv; intros x Hx;
    first [apply U in Hx|apply D in Hx|apply C in Hx]; by rewrite Hk in Hx.
Qed.
Lemma host_path lm readable t m path : BuildManifest lm readable t = Ok m -> is_Some (m !! path) ->
  exists p n, t !! p = Some n /\ n <> NDir /\ path = rel_of p.
Proof.
  unfold BuildManifest, walked. destruct (existsb _ _); [done|]. intros [= <-] [e He%elem_of_list_to_map_2].
  apply list_elem_of_omap in He as ([p n] & Hx & Hy). apply list_elem_of_filter in Hx as [_ Hx%elem_of_map_to_list].
  apply bind_Some in Hy as (e' & Hn & [= <- <-]). exists p, n. split_and!; [done| |done]. by eapply entryFor_node.
Qed.

(** C33. A sync settles. Once a sync has applied its plan, every sync of the same
    staged tree does nothing at all, whatever the guest has done to its tree
    since and whether forced or not, provided the names in the staged tree are
    well-formed UTF-8 ([misspelt_never_settles] has the opposite without it), links
    are treated the same, and the two trees and the baseline can be read. *)
Theorem sync_settles e H req st r st' e2 H2 req2 st2 guest staged :
  Sync e H req st = (Ok r, st') -> applied r = true -> e_staged e = Some staged ->
  (forall p n, staged !! p = Some n -> n <> NDir -> json_text (rel_of p) = rel_of p) ->
  e_staged e2 = Some staged -> e_linkMode e2 = e_linkMode e -> e_loads e2 = true ->
  ss_baseline st2 = ss_baseline st' ->
  BuildManifest (e_linkMode e2) (e_readable e2) (d_nodes (ss_guest st2)) = Ok guest ->
  Sync e2 H2 req2 st2 = (Ok (skipped (DryRun req2)), st2).
Proof.
  intros Hs Hr He Hj He2 Hlm Hld Hb Hg.
  destruct (Sync_applied _ _ _ _ _ _ Hs Hr) as (t & host & delivered & g & d & Ht & Hv & _ & _ & Hc).
  rewrite He in Ht. injection Ht as <-. apply confirm_Ok in Hc as (-> & _). cbn in Hb.
  assert (BuildManifest (e_linkMode e) (fun _ => true) staged = Ok host) as Hh.
  { unfold views in Hv. inv_res. cbv [mret res_ret] in Hv. simplify_eq. done. }
  unfold Sync, views, LoadManifest. rewrite He2, Hlm, Hh, Hb, Hld. cbn. rewrite <- Hlm, Hg. cbn.
  rewrite reread_text. 2: { intros path Hp. eapply host_path in Hp as (p & n & Hp & Hd & ->); [|done]. by eapply Hj. }
  destruct (Compute_three_way (e_range e2) (e_range' e2) host host guest) as (Hp & _ & Hk & _).
  rewrite (plan_empty _ _ _ _ Hp); [done|]. intros path. by apply Hk.
Qed.

(** A file whose name is not UTF-8 can be synced once. The baseline comes
    back from its JSON without the name, so while the worktree and the guest both
    have a file there every sync that is not forced is refused for a conflict
    naming it, and changes nothing, whatever baseline was saved; a forced one
    that succeeds leaves a baseline of that kind. *)
Theorem misspelt_never_settles e H st staged m p n g guest :
  e_staged e = Some staged -> trees_ok staged (d_nodes (ss_guest st)) -> ss_baseline st = Saved m -> e_loads e = true ->
  staged !! p = Some n -> n <> NDir -> d_nodes (ss_guest st) !! p = Some g -> g <> NDir ->
  skipPath (rel_of p) = false -> json_text (rel_of p) <> rel_of p ->
  BuildManifest (e_linkMode e) (e_readable e) (d_nodes (ss_guest st)) = Ok guest ->
  (exists cs, Sync e H (mkRequest false false) st = (Err (EConflicts cs), st) /\
     mkConflict (rel_of p) ReasonCreatedInGuest false ∈ cs) /\
  forall r st', Sync e H (mkRequest true false) st = (Ok r, st') -> applied r = true ->
    exists m', ss_baseline st' = Saved m'.
Proof.
  intros He T Hb Hld Hp Hn Hg Hgn Hsk Hj Hgb. split.
  2: { intros r st' Hs Hr. destruct (Sync_applied _ _ _ _ _ _ Hs Hr) as (? & host & ? & ? & ? & _ & _ & _ & _ & Hc).
    apply confirm_Ok in Hc as (-> & _). by exists host. }
  assert (BuildManifest (e_linkMode e) (fun _ => true) staged = Ok (list_to_map (omap (fun x => e' ← entryFor (e_linkMode e) x.2; Some (rel_of x.1, e')) (walked staged)))) as Hh.
  { unfold BuildManifest. by rewrite (proj2 (Forall_existsb_false _ _)) by (by apply Forall_true). }
  set (host := list_to_map _) in Hh.
  assert (views e staged st = Ok (host, reread m, guest)) as Hv.
  { unfold views, LoadManifest. rewrite Hh, Hb, Hld. cbn. by rewrite Hgb. }
  destruct (views_Ok _ _ _ _ _ _ T Hv) as (Hhm & Hgm & _).
  assert (forall t lm x, names_ok t -> t !! p = Some x -> x <> NDir -> is_Some (manifest_at lm t (rel_of p))) as Hat.
  { intros t lm x Hok Hx Hd. unfold manifest_at. rewrite Hsk, split_rel by (by eapply Hok). rewrite Hx. cbn.
    destruct x as [|[]|]; [done|by eexists|by eexists]. }
  assert (policy (reread m) host guest (rel_of p) = Clash ReasonCreatedInGuest false) as Hpol.
  { unfold policy, verdict. rewrite Hsk, reread_misspelt by done.
    destruct (host !! rel_of p) eqn:E1; [destruct (guest !! rel_of p) eqn:E2; [done|]|]; exfalso.
    - rewrite Hgm in E2. destruct (Hat _ (e_linkMode e) _ (ts_guest _ _ T) Hg Hgn) as [? ?]. congruence.
    - rewrite Hhm in E1. destruct (Hat _ (e_linkMode e) _ (ts_staged _ _ T) Hp Hn) as [? ?]. congruence. }
  pose proof (Compute_plan_of (reread m) host guest (e_range e) (e_range' e)) as HP.
  set (P := Compute _ _ _ _ _) in HP.
  assert (mkConflict (rel_of p) ReasonCreatedInGuest false ∈ pl_Conflicts P) as Hin by (by apply (po_conflict _ _ _ _ HP)).
  exists (pl_Conflicts P). split; [|done]. unfold Sync. rewrite He, Hv. cbv zeta. cbn [Force DryRun chosen]. fold P.
  assert (pl_Conflicts P <> []) as Hne by (intros Hx; rewrite Hx in Hin; by apply not_elem_of_nil in Hin).
  assert (Empty P = false) as ->.
  { unfold Empty. rewrite !andb_false_iff, !bool_decide_eq_false. by right. }
  unfold Blocked. rewrite (po_forced _ _ _ _ HP), bool_decide_eq_false_2 by done. done.
Qed.

(** ** A directory the guest replaced by a link *)
Section Link.
Context (e : Env) (H : HostFS) (d : Disk) (a r : Path) (t : string).
Hypothesis Hr : r <> [].
Hypothesis Wd : disk_wf (d_nodes d).
Hypothesis Ha : a <> [] /\ d_nodes d !! a = Some (NLink t).
Hypothesis Hdir : h_isdir H t = true.
Hypothesis Hok : forall o, h_out_ok H o = true.

Lemma link_dirs (b x : Path) : b <> [] -> x <> [] -> a = b ++ x -> d_nodes d !! b = Some NDir.
Proof. intros Hb Hx ->. destruct Ha as [_ Hn]. apply (Wd _ _ _ Hn). split; [done|]. by exists x. Qed.
Lemma link_through o : locate (d_nodes (mkDisk (d_nodes d) o)) (dirs [] (a ++ r)) = Through t r.
Proof. apply locate_link; [apply Ha|done|apply link_dirs|apply Ha]. Qed.
Lemma link_create o n : Create H (a ++ r) n (mkDisk (d_nodes d) o) = Some (mkDisk (d_nodes d) (o ++ [OutCreate t r n])).
Proof. unfold Create. by rewrite link_through, Hok. Qed.
Lemma link_remove o : exists o', Remove H (a ++ r) (mkDisk (d_nodes d) o) = Some (mkDisk (d_nodes d) (o ++ o')).
Proof.
  unfold Remove. rewrite link_through. destruct (h_node H t r); [rewrite Hok; by eexists|].
  exists []. by rewrite app_nil_r.
Qed.

Lemma copyInto_escapes n : n <> NDir -> e_fault e (a ++ r) = None ->
  exists o, copyInto e H n (a ++ r) d = (true, mkDisk (d_nodes d) (d_outside d ++ o)) /\ OutCreate t r n ∈ o.
Proof.
  intros Hn Hf. unfold copyInto.
  destruct (MkdirAll_link H d [] a r t) as [o1 ->]; [apply Ha|done|apply link_dirs|apply Ha|done|done|].
  assert (exists o2, match n with NLink _ => Remove H (a ++ r) | _ => clearNonRegular H (a ++ r) end
    (mkDisk (d_nodes d) (d_outside d ++ o1)) = Some (mkDisk (d_nodes d) ((d_outside d ++ o1) ++ o2))) as [o2 H2].
  { destruct (link_remove (d_outside d ++ o1)) as [o2 H2]. destruct n as [|c|x]; [done| |by exists o2].
    unfold clearNonRegular, Lstat. rewrite link_through. destruct (h_node H t r) as [[]|]; cbn; [by exists o2| |by exists o2|];
      exists []; by rewrite app_nil_r. }
  exists (o1 ++ o2 ++ [OutCreate t r n]). destruct n as [|c|x]; [done| |]; rewrite ?H2.
  - unfold write_file. rewrite Hf, link_create, <- !app_assoc. split; [done|]. rewrite !elem_of_app. right. right. by left.
  - unfold deliverLink. rewrite H2, link_create, <- !app_assoc. split; [done|]. rewrite !elem_of_app. right. right. by left.
Qed.
End Link.

(** A sync can write outside the guest's tree. When the guest has put a
    link to a directory in place of a directory, and the one change of the host
    is a file beneath it, the sync creates that file through the link, wherever
    on the host it leads; nothing in the tree changes, and only the read-back,
    which does not find the file, makes the sync fail, the write done. *)
Theorem sync_escapes e H st staged host delivered guest path a r t n :
  e_staged e = Some staged -> trees_ok staged (d_nodes (ss_guest st)) ->
  views e staged st = Ok (host, delivered, guest) ->
  Compute (e_range e) (e_range' e) delivered host guest = mkPlan [path] [] [] false ->
  split slash path = a ++ r -> a <> [] -> r <> [] -> d_nodes (ss_guest st) !! a = Some (NLink t) ->
  staged !! (a ++ r) = Some n -> n <> NDir -> e_fault e (a ++ r) = None ->
  h_isdir H t = true -> (forall o, h_out_ok H o = true) ->
  exists d, Sync e H (mkRequest false false) st = (Err (EUndelivered [UAbsent path]), mkSync d (ss_baseline st)) /\
    OutCreate t r n ∈ d_outside d /\ d_nodes d = d_nodes (ss_guest st).
Proof.
  intros He T Hv Hp Hpath Ha Hr Hl Hn Hnd Hf Hdir Hok.
  destruct (copyInto_escapes e H (ss_guest st) a r t Hr (ts_guest_wf _ _ T) (conj Ha Hl) Hdir Hok n Hnd Hf) as (o & Hc & Ho).
  destruct (views_Ok _ _ _ _ _ _ T Hv) as (Hh & Hg & _).
  assert (name_ok (split slash path)) as Hname by (rewrite Hpath; by eapply (ts_staged _ _ T)).
  assert (BuildManifest (e_linkMode e) (e_readable e) (d_nodes (ss_guest st)) = Ok guest) as Hb.
  { unfold views in Hv. inv_res. cbv [mret res_ret] in Hv. simplify_eq. done. }
  assert (guest !! path = None) as Hgn.
  { rewrite Hg. destruct (manifest_at _ _ _) as [x|] eqn:Hx; [exfalso|done].
    apply manifest_at_node in Hx as (_ & m & Hm & _ & _); [|apply T]. rewrite Hpath in Hm.
    assert (above a (a ++ r)) as Hab by (split; [done|by exists r]).
    pose proof (ts_guest_wf _ _ T _ _ _ Hm Hab) as Hw. congruence. }
  assert (is_Some (host !! path)) as [h Hhp].
  { assert (path ∈ pl_Update (Compute (e_range e) (e_range' e) delivered host guest)) as Hin by (rewrite Hp; by left).
    apply (po_update _ _ _ _ (Compute_plan_of _ _ _ _ _)) in Hin. apply (written_policy false delivered host guest).
    by rewrite Hin. }
  exists (mkDisk (d_nodes (ss_guest st)) (d_outside (ss_guest st) ++ o)).
  split_and!; [|cbn; apply elem_of_app; by right|done].
  unfold Sync. rewrite He, Hv, Hp. cbn [Empty Force DryRun chosen Apply Blocked]. unfold Apply. cbn.
  assert (safeJoin path = Ok (a ++ r)) as -> by (by rewrite <- Hpath, <- (safeJoin_rel _ Hname), rel_split).
  rewrite Hn, Hc. unfold confirm. cbn [d_nodes]. rewrite Hb. cbn.
  unfold VerifyDelivery, update_missing. cbn. by rewrite Hhp, Hgn.
Qed.

(** ** A directory the host replaced by a file *)

(** The guest's tree cannot take a file at [p]: it has a directory there that
    holds something, or a file where a directory above it should be. *)
Definition obstructed (nodes : Tree) (p : Path) : Prop :=
  (nodes !! p = None \/ nodes !! p = Some NDir) /\
  ((nodes !! p = Some NDir /\ (exists c x, above p c /\ nodes !! c = Some x) /\
      forall a, above a p -> nodes !! a = Some NDir) \/
   (no_link_above nodes p /\ exists a f, above a p /\ nodes !! a = Some (NFile f))).

Lemma obstructed_but (S : Path -> Prop) d d' p : nodes_but S d d' -> ~ S p ->
  (forall q, S q -> ~ above q p /\ ~ above p q) -> obstructed (d_nodes d) p -> obstructed (d_nodes d') p.
Proof.
  intros Hb Hp HS [Hn Ho]. split.
  { destruct (Hb p Hp) as [->|[_ ->]]; [done|by right]. }
  destruct Ho as [(Hd & (c & x & Hc & Hx) & Ha)|(Hl & a & f & Ha & Hf)]; [left|right].
  - split_and!; [by eapply nodes_but_present| |].
    + exists c, x. split; [done|]. eapply nodes_but_present; [done| |done]. intros Hs. by apply HS in Hs as [_ ?].
    + intros a Hab. eapply nodes_but_present; [done| |by apply Ha]. intros Hs. by apply HS in Hs as [? _].
  - split.
    + intros b t Hb'. destruct (Hb b) as [->|[_ ->]]; [intros Hs; by apply HS in Hs as [? _]|by apply Hl|done].
    + exists a, f. split; [done|]. eapply nodes_but_present; [done| |done]. intros Hs. by apply HS in Hs as [? _].
Qed.
Lemma copyInto_obstructed e H n p d : n <> NDir -> obstructed (d_nodes d) p ->
  exists d', copyInto e H n p d = (false, d') /\ nodes_but (fun _ => False) d d'.
Proof.
  intros Hn [_ [(Hd & (c & x & Hc & Hx) & Ha)|(Hl & a & f & Ha & Hf)]]; unfold copyInto.
  - rewrite MkdirAll_made by (by apply dirs_made). exists d. split; [|apply nodes_but_refl].
    pose proof (Remove_full H p c x d Ha Hd Hc Hx) as Hr. destruct n as [| |]; [done| |].
    + unfold clearNonRegular, Lstat. rewrite (proj2 (locate_inside _ _)) by (by apply dirs_made). rewrite Hd. cbn.
      by rewrite Hr.
    + unfold deliverLink. by rewrite Hr.
  - exists d. rewrite (MkdirAll_file H p d a f) by done. split; [done|apply nodes_but_refl].
Qed.

Section Obstructed.
Context (staged : Tree) (p : Path) (n : Node).
Hypothesis Hs : names_ok staged.
Hypothesis Ws : disk_wf staged.
Hypothesis Hp : staged !! p = Some n /\ n <> NDir.

(** The other files of the staged tree. *)
Definition elsewhere (q : Path) : Prop := q <> p /\ staged_at staged (rel_of q) /\ name_ok q.

Lemma elsewhere_apart q : elsewhere q -> ~ above q p /\ ~ above p q.
Proof.
  intros (_ & (m & Hm & Hd) & Hq). rewrite split_rel in Hm by done. destruct Hp as [Hn Hnd].
  split; intros Ha; [pose proof (Ws _ _ _ Hn Ha)|pose proof (Ws _ _ _ Hm Ha)]; congruence.
Qed.
Lemma obstructed_elsewhere d d' : nodes_but elsewhere d d' -> obstructed (d_nodes d) p -> obstructed (d_nodes d') p.
Proof. intros Hb. apply (obstructed_but _ _ _ _ Hb); [by intros [? _]|apply elsewhere_apart]. Qed.

Lemma apply_updates_obstructed e H l d o d' : (forall rel, rel ∈ l -> staged_at staged rel) ->
  obstructed (d_nodes d) p -> apply_updates e H staged l d = (o, d') ->
  nodes_but elsewhere d d' /\ (rel_of p ∈ l -> is_ok o = false).
Proof.
  revert d. induction l as [|rel l IH]; intros d Hl Ho; cbn [apply_updates].
  { intros [= <- <-]. split; [apply nodes_but_refl|]. by intros ?%not_elem_of_nil. }
  assert (staged_at staged rel) as Hr by (apply Hl; by left). rewrite (join_staged _ Hs) by done.
  pose proof (staged_name _ Hs _ Hr) as Hname. pose proof Hr as (m & Hm & Hd). rewrite Hm.
  destruct (decide (split slash rel = p)) as [He|Hne].
  - rewrite He. destruct (copyInto_obstructed e H m p d Hd Ho) as (d1 & Hc & Hb). rewrite Hc. intros [= <- <-].
    split; [|done]. by eapply nodes_but_mono; [|exact Hb].
  - destruct (copyInto _ _ _ _ _) as [b d1] eqn:Hc. apply copyInto_nodes in Hc as Hb.
    assert (nodes_but elsewhere d d1) as Hb1.
    { eapply nodes_but_mono; [|exact Hb]. intros q <-. split_and!; [done| |done]. rewrite rel_split. by exists m. }
    destruct b; [|intros [= <- <-]; split; [done|done]].
    intros Ha. destruct (IH d1) as [Hb2 Hx]; [intros; apply Hl; by right|by eapply obstructed_elsewhere|exact Ha|].
    split; [by eapply nodes_but_trans|]. intros [Heq|Hin]%elem_of_cons; [|by apply Hx].
    exfalso. apply Hne. rewrite <- Heq. apply split_rel. by apply (Hs _ n); apply Hp.
Qed.
Lemma elsewhere_names d d' : names_ok (d_nodes d) -> nodes_but elsewhere d d' -> names_ok (d_nodes d').
Proof.
  intros Hn Hb q m Hq Hd. destruct (decide (d_nodes d !! q = Some m)) as [He|Hne]; [by eapply Hn|].
  destruct (decide (q = p)) as [->|Hqp]; [apply (Hs _ n); apply Hp|].
  destruct (staged !! q) as [x|] eqn:Hx; [destruct (decide (x = NDir)) as [->|Hx']|].
  2: by eapply Hs.
  all: destruct (Hb q) as [He|[_ He]]; [|congruence..].
  all: intros (_ & (y & Hy & Hyd) & Hname); rewrite split_rel in Hy by done; congruence.
Qed.
End Obstructed.

(** Syncs one after another. *)
Fixpoint run_syncs (l : list (Env * HostFS * Request)) (st : SyncState) : list (res sync_err Result) * SyncState :=
  match l with
  | [] => ([], st)
  | (e, H, req) :: l =>
    let '(o, st) := Sync e H req st in let '(os, st) := run_syncs l st in (o :: os, st)
  end.
(** The baseline is not the one of the staged tree at [path]. *)
Definition outdated (lm : Z) (staged : Tree) (b : Baseline) (path : string) : Prop :=
  match b with
  | NoBaseline | Corrupt => True
  | Saved m => reread m !! path <> manifest_at lm staged path
  end.

Lemma sync_obstructed e H req st staged p n : names_ok staged -> disk_wf staged -> names_ok (d_nodes (ss_guest st)) ->
  staged !! p = Some n -> n <> NDir -> skipPath (rel_of p) = false -> obstructed (d_nodes (ss_guest st)) p ->
  outdated (e_linkMode e) staged (ss_baseline st) (rel_of p) -> e_staged e = Some staged -> DryRun req = false ->
  exists x d, Sync e H req st = (Err x, mkSync d (ss_baseline st)) /\ names_ok (d_nodes d) /\ obstructed (d_nodes d) p.
Proof.
  intros Hs Ws Hg Hp Hn Hsk Ho Hb He Hreq.
  assert (forall x : sync_err, exists x' d, ((Err x, st) : res sync_err Result * SyncState) = (Err x', mkSync d (ss_baseline st)) /\
    names_ok (d_nodes d) /\ obstructed (d_nodes d) p) as Hsame by (intros x; exists x, (ss_guest st); by destruct st).
  unfold Sync. rewrite He. destruct (views e staged st) as [[[host delivered] guest]|] eqn:Hv; [|apply Hsame]. cbv zeta.
  unfold views in Hv. inv_res. cbv [mret res_ret] in Hv. simplify_eq.
  pose proof (BuildManifest_Ok _ _ _ _ Hs Hr (rel_of p)) as Hhp.
  pose proof (BuildManifest_Ok _ _ _ _ Hg Hr1 (rel_of p)) as Hgp.
  assert (name_ok p) as Hname by (by eapply Hs).
  assert (is_Some (host !! rel_of p)) as [h Hh].
  { rewrite Hhp. unfold manifest_at. rewrite Hsk, split_rel, Hp by done. by destruct n as [|[]|]; [|eexists..]. }
  assert (guest !! rel_of p = None) as Hgn.
  { rewrite Hgp. unfold manifest_at. rewrite Hsk, split_rel by done. destruct Ho as [[->| ->] _]; done. }
  assert (delivered !! rel_of p <> host !! rel_of p) as Hd.
  { revert Hr0. unfold LoadManifest. destruct (e_loads e); [|done]. destruct (ss_baseline st) as [| |m]; cbn; [|done|].
    - intros [= <-]. rewrite Hh. by rewrite lookup_empty.
    - intros [= <-]. by rewrite Hhp. }
  assert (policy delivered host guest (rel_of p) = Deliver) as Hpol.
  { unfold policy, verdict. rewrite Hsk, Hgn, Hh. rewrite Hh in Hd. destruct (delivered !! rel_of p); [|done].
    rewrite decide_False; [done|congruence]. }
  pose proof (Compute_plan_of delivered host guest (e_range e) (e_range' e)) as HP. set (P := Compute _ _ _ _ _) in *.
  assert (rel_of p ∈ pl_Update P) as Hin by (by apply (po_update _ _ _ _ HP)).
  assert (Empty P = false) as ->.
  { unfold Empty. rewrite !andb_false_iff, !bool_decide_eq_false. left. left. intros Hx. rewrite Hx in Hin.
    by apply not_elem_of_nil in Hin. }
  rewrite Hreq. destruct (Blocked _) eqn:HB; [apply Hsame|]. unfold Apply. rewrite HB.
  destruct (chosen_spec (Force req) delivered host guest P HP) as (Hu & _ & _ & _).
  assert (forall rel, rel ∈ pl_Update (chosen (Force req) P) -> staged_at staged rel) as Hst.
  { intros rel [x Hx]%Hu%written_policy. rewrite (BuildManifest_Ok _ _ _ _ Hs Hr) in Hx.
    apply manifest_at_node in Hx as (_ & m & Hm & Hme & _); [|done]. exists m. split; [done|by eapply entryFor_node]. }
  destruct (apply_updates _ _ _ _ _) as [o d] eqn:Ha.
  apply (apply_updates_obstructed staged p n) in Ha as [Hbut Hfail]; [|done..].
  destruct o as [[]|x]; [discriminate Hfail; apply Hu; by rewrite Hpol|].
  exists x, d. split_and!; [done| |].
  - by apply (elsewhere_names staged p n Hs (conj Hp Hn) _ _ Hg Hbut).
  - by apply (obstructed_elsewhere staged p n Ws (conj Hp Hn) _ _ Hbut).
Qed.

(** A directory the host turned into a file, or a file it turned into a
    directory, stops every later sync. The updates of a plan are applied before
    its removals, so while the guest still has below the path what was delivered
    there (or a file where the directory should be) the write fails before what
    is in its way is removed; the sync fails, and so does every sync after it,
    forced or not, and the baseline never moves. *)
Theorem replaced_directory_stuck staged p n lm l st :
  names_ok staged -> disk_wf staged -> names_ok (d_nodes (ss_guest st)) -> staged !! p = Some n -> n <> NDir ->
  skipPath (rel_of p) = false -> obstructed (d_nodes (ss_guest st)) p -> outdated lm staged (ss_baseline st) (rel_of p) ->
  Forall (fun x => e_staged x.1.1 = Some staged /\ e_linkMode x.1.1 = lm /\ DryRun x.2 = false) l ->
  Forall (fun o => is_ok o = false) (run_syncs l st).1 /\ ss_baseline (run_syncs l st).2 = ss_baseline st /\
  obstructed (d_nodes (ss_guest (run_syncs l st).2)) p.
Proof.
  intros Hs Ws Hg Hp Hn Hsk Ho Hb Hl. revert st Hg Ho Hb.
  induction Hl as [|[[e H] req] l (He & Hlm & Hreq) _ IH]; intros st Hg Ho Hb; [done|]. cbn in He, Hlm, Hreq.
  subst lm. cbn [run_syncs].
  destruct (sync_obstructed e H req st staged p n) as (x & d & Hx & Hg' & Ho'); [done..|]. rewrite Hx.
  specialize (IH (mkSync d (ss_baseline st)) Hg' Ho' Hb). destruct (run_syncs l _) as [os st'].
  destruct IH as (Hos & Hbs & Hob). split_and!; [by constructor|done|done].
Qed.

(** ** Runs on small trees *)

(** The hypotheses on a tree, decided. *)
Definition names_checked (t : Tree) : bool :=
  bool_decide (map_Forall (fun p n => n <> NDir -> p <> [] /\
    Forall (fun c => plain_comp c = true /\ contains slash c = false) p) t).
Lemma names_checked_ok t : names_checked t = true -> names_ok t.
Proof. intros Hc%bool_decide_eq_true p n Hp Hn. exact (Hc p n Hp Hn). Qed.
Definition links_checked (t : Tree) : bool := forallb (fun x => if x.2 is NLink _ then false else true) (map_to_list t).
Lemma links_checked_ok t p : links_checked t = true -> no_link_above t p.
Proof.
  unfold links_checked. rewrite forallb_forall. intros Hc a x _ Ha. apply elem_of_map_to_list, list_elem_of_In in Ha.
  by apply Hc in Ha.
Qed.
Definition trees_checked (staged guest : Tree) : bool :=
  names_checked staged && disk_checked staged && names_checked guest && disk_checked guest.
Lemma trees_checked_ok staged guest : trees_checked staged guest = true -> trees_ok staged guest.
Proof.
  unfold trees_checked. rewrite !andb_true_iff. intros [[[Hs Ws] Hg] Wg].
  split; [by apply names_checked_ok|by apply disk_checked_wf|by apply names_checked_ok|by apply disk_checked_wf].
Qed.
Definition value {E A} (o : res E A) (a : A) : A := match o with Ok a => a | Err _ => a end.
Lemma value_ok {E A} (o : res E A) a : is_ok o = true -> o = Ok (value o a).
Proof. by destruct o. Qed.

Module SyncToy.
Definition host : HostFS := mkHost (fun _ => true) (fun _ _ => None) (fun _ => true) (fun _ => true).
Definition env (staged : Tree) : Env :=
  mkEnv 134218239 (fun _ => true) (fun _ => None) (Some staged) true true key_order key_order.
Definition text (s : string) : Node := NFile (s, 420).
Definition manifest (t : Tree) : Manifest := value (BuildManifest 134218239 (fun _ => true) t) ∅.
Definition state (delivered guest : Tree) : SyncState := mkSync (mkDisk guest []) (Saved (manifest delivered)).

Lemma manifest_eq t : BuildManifest 134218239 (fun _ => true) t = Ok (manifest t).
Proof. apply value_ok. unfold BuildManifest. by rewrite (proj2 (Forall_existsb_false _ _)) by (by apply Forall_true). Qed.
Lemma views_eq staged delivered guest : views (env staged) staged (state delivered guest) =
  Ok (manifest staged, reread (manifest delivered), manifest guest).
Proof. unfold views, LoadManifest, env, state. cbn. by rewrite !manifest_eq. Qed.

(** The host changed [a]; the guest wrote [b]. *)
Definition old : Tree := {[ ["a"] := text "1" ]}.
Definition new : Tree := {[ ["a"] := text "2" ]}.
Definition work : Tree := <[["b"] := text "3"]> old.
Definition ask : Request := mkRequest false false.
Definition run := Sync (env new) host ask (state old work).
Definition result : Result := value run.1 (skipped false).
Lemma run_eq : run = (Ok result, run.2).
Proof.
  unfold result. rewrite <- value_ok by (vm_compute; reflexivity). by destruct run.
Qed.
Lemma result_applied : applied result = true.
Proof. vm_compute. reflexivity. Qed.
End SyncToy.

Lemma Sync_delivers_witness :
  exists h d g, views (SyncToy.env SyncToy.new) SyncToy.new (SyncToy.state SyncToy.old SyncToy.work) = Ok (h, d, g) /\
    (forall path, manifest_at 134218239 (d_nodes (ss_guest SyncToy.run.2)) path = landing false d h g path) /\
    ss_baseline SyncToy.run.2 = Saved h.
Proof.
  destruct (Sync_delivers (SyncToy.env SyncToy.new) SyncToy.host SyncToy.ask (SyncToy.state SyncToy.old SyncToy.work)
    SyncToy.result SyncToy.run.2 SyncToy.new) as (h & d & g & Hv & Hl & _ & _ & Hb & _).
  - reflexivity.
  - apply trees_checked_ok. vm_compute. reflexivity.
  - intros p _. apply links_checked_ok. vm_compute. reflexivity.
  - exact SyncToy.run_eq.
  - exact SyncToy.result_applied.
  - exists h, d, g. split_and!; [exact Hv|exact Hl|exact Hb].
Defined.

Lemma sync_settles_witness :
  Sync (SyncToy.env SyncToy.new) SyncToy.host SyncToy.ask SyncToy.run.2 = (Ok (skipped false), SyncToy.run.2).
Proof.
  apply (sync_settles (SyncToy.env SyncToy.new) SyncToy.host SyncToy.ask (SyncToy.state SyncToy.old SyncToy.work)
    SyncToy.result SyncToy.run.2 (SyncToy.env SyncToy.new) SyncToy.host SyncToy.ask SyncToy.run.2
    (SyncToy.manifest (d_nodes (ss_guest SyncToy.run.2))) SyncToy.new).
  - exact SyncToy.run_eq.
  - exact SyncToy.result_applied.
  - reflexivity.
  - intros p n Hp _. unfold SyncToy.new in Hp. apply lookup_singleton_Some in Hp as [<- _]. vm_compute. reflexivity.
  - reflexivity.
  - reflexivity.
  - reflexivity.
  - reflexivity.
  - apply SyncToy.manifest_eq.
Defined.

(** A name that is not UTF-8, delivered at the launch. *)
Lemma misspelt_never_settles_witness :
  let t : Tree := {[ [String "255" ""] := SyncToy.text "1" ]} in
  exists cs, Sync (SyncToy.env t) SyncToy.host SyncToy.ask (SyncToy.state t t) =
    (Err (EConflicts cs), SyncToy.state t t).
Proof.
  intros t.
  destruct (misspelt_never_settles (SyncToy.env t) SyncToy.host (SyncToy.state t t) t (SyncToy.manifest t)
    [String "255" ""] (SyncToy.text "1") (SyncToy.text "1") (SyncToy.manifest t)) as [(cs & Hs & _) _].
  - reflexivity.
  - apply trees_checked_ok. vm_compute. reflexivity.
  - reflexivity.
  - reflexivity.
  - reflexivity.
  - discriminate.
  - reflexivity.
  - discriminate.
  - reflexivity.
  - vm_compute. discriminate.
  - apply SyncToy.manifest_eq.
  - by exists cs.
Defined.

(** The guest replaced the directory [d] by a link to /etc; the host changed
    the file below it. *)
Lemma sync_escapes_witness :
  let guest : Tree := {[ ["d"] := NLink "/etc" ]} in
  let staged : Tree := <[["d"; "f"] := SyncToy.text "2"]> {[ ["d"] := NDir ]} in
  let st := SyncToy.state ∅ guest in
  exists d : Disk, Sync (SyncToy.env staged) SyncToy.host SyncToy.ask st =
      (Err (EUndelivered [UAbsent "d/f"]), mkSync d (ss_baseline st)) /\
    OutCreate "/etc" ["f"] (SyncToy.text "2") ∈ d_outside d.
Proof.
  intros guest staged st.
  destruct (sync_escapes (SyncToy.env staged) SyncToy.host st staged (SyncToy.manifest staged)
    (reread (SyncToy.manifest ∅)) (SyncToy.manifest guest) "d/f" ["d"] ["f"] "/etc" (SyncToy.text "2")) as (d & Hs & Ho & _).
  - reflexivity.
  - apply trees_checked_ok. vm_compute. reflexivity.
  - apply SyncToy.views_eq.
  - vm_compute. reflexivity.
  - reflexivity.
  - discriminate.
  - discriminate.
  - reflexivity.
  - reflexivity.
  - discriminate.
  - reflexivity.
  - reflexivity.
  - reflexivity.
  - exists d. split; [exact Hs|exact Ho].
Defined.

(** The host replaced the directory [d], whose one file the guest still has as
    it was delivered, by a file. *)
Lemma replaced_directory_stuck_witness :
  let delivered : Tree := <[["d"; "f"] := SyncToy.text "1"]> {[ ["d"] := NDir ]} in
  let staged : Tree := {[ ["d"] := SyncToy.text "2" ]} in
  let st := SyncToy.state delivered delivered in
  Forall (fun o => is_ok o = false) (run_syncs
    [(SyncToy.env staged, SyncToy.host, SyncToy.ask); (SyncToy.env staged, SyncToy.host, mkRequest true false)] st).1.
Proof.
  intros delivered staged st.
  assert (trees_ok staged delivered) as [Hs Ws Hg _] by (apply trees_checked_ok; vm_compute; reflexivity).
  destruct (replaced_directory_stuck staged ["d"] (SyncToy.text "2") 134218239
    [(SyncToy.env staged, SyncToy.host, SyncToy.ask); (SyncToy.env staged, SyncToy.host, mkRequest true false)] st)
    as [Hf _]; [done|done|done|reflexivity|discriminate|reflexivity| | | |exact Hf].
  - split; [by right|left]. split_and!; [reflexivity| |].
    + exists ["d"; "f"], (SyncToy.text "1"). split; [split; [done|by exists ["f"]]|reflexivity].
    + intros a [Ha (r & Hr & He)]. exfalso. destruct a as [|x [|y a]]; [done| |discriminate].
      by destruct r.
  - vm_compute. discriminate.
  - by repeat constructor.
Defined.
