(* ===== verification/Projection.v ===== *)
(** * Publishing a landed tip into the native worktree

    [internal/store/git/merge_delivered.go], with what it calls of [worktree.go],
    [worktree_fs.go] and [plumbing.go]: the fast-forward of a task branch to a
    commit a sandbox produced, together with the host's working files, and the
    read-back that must succeed before the rows count as delivered.

    The disk is modelled down to directories and symbolic links, because the
    code's promise is about what it may overwrite: a path is the list of its
    components, and an operation on it goes through its parents, one of which
    may be a link that leads out of the worktree. What happens outside is a log
    of the operations attempted there. *)
From Stdlib Require Import ZArith Lia Ascii String.
From S2P Require Import Prelude GoStrings DiskTree LandWire LandVerify.
Open Scope Z_scope.

Definition filemode_Regular : Z := 33188.
Definition filemode_Executable : Z := 33261.
Definition filemode_Symlink : Z := 40960.

(** ** The disk *)

(** A file of a worktree: its bytes, and whether it is executable. *)
Definition content : Type := (bytes * bool).
Abbreviation Node := (DiskTree.Node content).
Abbreviation Disk := (DiskTree.Disk content).
Abbreviation HostFS := (DiskTree.HostFS content).

(** ** Errors *)
Inductive proj_err : Type :=
  | EBranchNotFound | EAncestry | EDivergence (hostTip guestBase : string) | ENotBound | EHistory
  | EReadTree | EStagingRead
  | EConflict (path : string) (target : option (Z * string))
  | EBadLink (path : string) | EBlob | ERelPath (path : string)
  | EReadFile (path : string) | EMkdir (path : string) | EReplace (path : string)
  | EWriteFile (path : string) | ERemoveFile (path : string) | ERefMoved
  | EReadBackHead | EReadBackStaging | EReadBackFile (path : string) | EReadBackMismatch (path : string).

(** ** Trees and working files *)

Record blobEntry := mkEntry { be_hash : string; be_mode : Z }.
#[export] Instance blobEntry_eq_dec : EqDecision blobEntry.
Proof. solve_decision. Defined.
Abbreviation Files := (gmap string blobEntry).

Definition excludedNames : list string := [".mgit"; ".git"].
Definition isExcludedPath (rel : string) : bool :=
  existsb (fun part => bool_decide (part ∈ excludedNames)) (split slash rel).
Definition validateRelPath (rel : string) : res proj_err unit :=
  _ ← err_if (String.eqb rel "") (ERelPath rel);
  let c := clean rel in
  _ ← err_if (is_abs rel || has_prefix "../" c || String.eqb c "..") (ERelPath rel);
  err_if (isExcludedPath c) (ERelPath rel).

Section Git.
Context `{G : GoGit}.

Definition flattenTree (walk : list TreeEntry * bool) : res proj_err Files :=
  _ ← err_if walk.2 EReadTree;
  Ok (fold_left (fun out e =>
        if te_Mode e =? filemode_Dir then out
        else <[te_Name e := mkEntry (te_Hash e) (te_Mode e)]> out) walk.1 ∅).

(** The files of a stored commit: its object, its tree, the tree flattened. *)
Definition commitFiles (objects : Storage) (hash : string) : res proj_err Files :=
  match objects !! hash with
  | Some (CommitObject, data) =>
    c ← res_of_option EReadTree (DecodeCommit data);
    walk ← res_of_option EReadTree (WalkTree objects (g_TreeHash c));
    flattenTree walk
  | _ => Err EReadTree
  end.

Definition blobContent (objects : Storage) (hash : string) : res proj_err bytes :=
  match objects !! hash with Some (BlobObject, data) => Ok data | _ => Err EBlob end.

(** [workingFileContent]: absence is told apart from every other failure. *)
Inductive working : Type := WRead (data : bytes) (mode : Z) | WAbsent | WFail (e : proj_err).
Definition workingFileContent (H : HostFS) (d : Disk) (rel : string) : working :=
  match validateRelPath rel with
  | Err e => WFail e
  | Ok _ =>
    match Lstat H d (comps rel) with
    | NotExist => WAbsent
    | StatErr | Present NDir => WFail (EReadFile rel)
    | Present (NLink t) => WRead (list_ascii_of_string t) filemode_Symlink
    | Present (NFile (data, x)) => WRead data (if x then filemode_Executable else filemode_Regular)
    end
  end.
(** The entry a working file would be committed as. *)
Definition working_entry (data : bytes) (mode : Z) : blobEntry :=
  mkEntry (ComputeHash BlobObject data) mode.

(** [projectionParents]: the first parent that is there and is not a directory. *)
Fixpoint parents_conflict (nodes : gmap Path Node) (ds : list (Path * Path)) : option Path :=
  match ds with
  | [] => None
  | (d, _) :: ds =>
    match nodes !! d with
    | None => None
    | Some NDir => parents_conflict nodes ds
    | Some _ => Some d
    end
  end.
Definition projectionParents (d : Disk) (path : string) : option string :=
  join slash <$> parents_conflict (d_nodes d) (dirs [] (comps path)).

Definition projectionConflict (objects : Storage) (path : string) (target : Files) : proj_err :=
  match target !! path with
  | None => EConflict path None
  | Some e =>
    if be_mode e =? filemode_Symlink then
      match blobContent objects (be_hash e) with
      | Err x => x
      | Ok data =>
        if (4096 <? length data)%nat || existsb (Ascii.eqb zero) data then EBadLink path
        else EConflict path (Some (be_mode e, string_of_list_ascii data))
      end
    else EConflict path (Some (be_mode e, ""%string))
  end.

(** ** Materializing a commit *)

(** What an entry is written as. *)
Definition node_of (mode : Z) (data : bytes) : Node :=
  if mode =? filemode_Symlink then NLink (string_of_list_ascii data)
  else NFile (data, mode =? filemode_Executable).

Abbreviation run := (res proj_err unit * Disk)%type.
Definition step (e : proj_err) (d : Disk) (o : option Disk) (k : Disk -> run) : run :=
  match o with Some d' => k d' | None => (Err e, d) end.

Definition writeEntryToDir (H : HostFS) (objects : Storage) (rel : string) (entry : blobEntry)
    (d : Disk) : run :=
  match (_ ← validateRelPath rel; blobContent objects (be_hash entry)) with
  | Err e => (Err e, d)
  | Ok data =>
    step (EMkdir rel) d (MkdirAll H (dirs [] (comps rel)) d) (fun d =>
    step (EReplace rel) d (Remove H (comps rel) d) (fun d =>
    step (EWriteFile rel) d (Create H (comps rel) (node_of (be_mode entry) data) d) (fun d =>
    (Ok tt, d))))
  end.

Fixpoint write_all (H : HostFS) (objects : Storage) (l : list (string * blobEntry)) (d : Disk) : run :=
  match l with
  | [] => (Ok tt, d)
  | (path, entry) :: l =>
    match writeEntryToDir H objects path entry d with
    | (Ok _, d) => write_all H objects l d
    | r => r
    end
  end.
Fixpoint remove_all (H : HostFS) (target : Files) (l : list (string * blobEntry)) (d : Disk) : run :=
  match l with
  | [] => (Ok tt, d)
  | (path, _) :: l =>
    match target !! path with
    | Some _ => remove_all H target l d
    | None => step (ERemoveFile path) d (Remove H (comps path) d) (remove_all H target l)
    end
  end.

(** The order of each [range] over a map, one per loop. *)
Record Orders := mkOrders {
  o_paths : MapIter bool; o_validate : MapIter blobEntry; o_write : MapIter blobEntry;
  o_remove : MapIter blobEntry; o_readback : MapIter blobEntry }.

Definition materializeCommit (H : HostFS) (O : Orders) (objects : Storage) (commitHash : string)
    (currentHead : Files) (d : Disk) : run :=
  match (target ← commitFiles objects commitHash;
         _ ← forM_ (fun e => validateRelPath e.1) (o_validate O target); Ok target) with
  | Err e => (Err e, d)
  | Ok target =>
    match write_all H objects (o_write O target) d with
    | (Ok _, d) => remove_all H target (o_remove O currentHead) d
    | r => r
    end
  end.

(** ** FastForwardDelivered *)

(** The task-scoped view of the repository: its references, the branch the view
    is bound to, its disk, and the staged paths, if they can be read. *)
Record Repo := mkRepo {
  rp_refs : gmap string string; rp_bound : string; rp_disk : Disk; rp_staged : option (list string) }.
Definition set_disk (d : Disk) (r : Repo) : Repo := mkRepo (rp_refs r) (rp_bound r) d (rp_staged r).
Definition set_refs (m : gmap string string) (r : Repo) : Repo :=
  mkRepo m (rp_bound r) (rp_disk r) (rp_staged r).

(** What the commit graph answers: go-git's ancestor test and merge base. *)
Record History := mkHistory {
  is_ancestor : string -> string -> option bool; merge_base : string -> string -> option string }.

Definition headFiles (objects : Storage) (r : Repo) : res proj_err Files :=
  head ← res_of_option EReadTree (rp_refs r !! rp_bound r);
  commitFiles objects head.

Definition check_history (h : History) (cur targetHash : string) : res proj_err unit :=
  if String.eqb cur targetHash then Ok tt
  else
    ok ← res_of_option EAncestry (is_ancestor h cur targetHash);
    if (ok : bool) then Ok tt
    else base ← res_of_option EHistory (merge_base h cur targetHash); Err (EDivergence cur base).

(** One turn of the loop over the paths of either tree. *)
Definition preflight (H : HostFS) (objects : Storage) (d : Disk) (old target : Files) (path : string)
    : res proj_err unit :=
  _ ← validateRelPath path;
  match projectionParents d path with
  | Some parent => Err (projectionConflict objects parent target)
  | None =>
    match workingFileContent H d path with
    | WAbsent =>
      match old !! path, target !! path with
      | Some _, Some _ => Err (projectionConflict objects path target)
      | _, _ => Ok tt
      end
    | WFail e => Err e
    | WRead content mode =>
      let actual := working_entry content mode in
      if bool_decide (old !! path = Some actual) || bool_decide (target !! path = Some actual)
      then Ok tt else Err (projectionConflict objects path target)
    end
  end.

(** The set of paths of either tree, as the [map[string]bool] the code builds. *)
Definition both_paths (old target : Files) : gmap string bool :=
  union_with (fun _ _ => Some true) ((fun _ => true) <$> old) ((fun _ => true) <$> target).

Definition plan (H : HostFS) (O : Orders) (h : History) (objects : Storage) (branch targetHash : string)
    (r : Repo) : res proj_err (string * Files) :=
  cur ← res_of_option EBranchNotFound (rp_refs r !! branch);
  _ ← check_history h cur targetHash;
  _ ← res_of_option EReadTree (rp_refs r !! rp_bound r);
  _ ← err_if (negb (String.eqb (rp_bound r) branch)) ENotBound;
  old ← headFiles objects r;
  target ← commitFiles objects targetHash;
  staged ← res_of_option EStagingRead (rp_staged r);
  _ ← (match staged with [] => Ok tt | p :: _ => Err (projectionConflict objects p target) end);
  _ ← forM_ (fun e => preflight H objects (rp_disk r) old target e.1) (o_paths O (both_paths old target));
  Ok (cur, old).

(** The caller holds the process lock of the repository, so nothing moves the
    branch between the two readings of it. *)
Definition FastForwardDelivered (H : HostFS) (O : Orders) (h : History) (objects : Storage)
    (branch targetHash : string) (r : Repo) : res proj_err unit * Repo :=
  match plan H O h objects branch targetHash r with
  | Err e => (Err e, r)
  | Ok (cur, old) =>
    match materializeCommit H O objects targetHash old (rp_disk r) with
    | (Err e, d) => (Err e, set_disk d r)
    | (Ok _, d) =>
      (* the reference moves only if it still holds the value read first *)
      if bool_decide (rp_refs r !! branch = Some cur)
      then (Ok tt, set_refs (<[branch := targetHash]> (rp_refs r)) (set_disk d r))
      else (Err ERefMoved, set_disk d r)
    end
  end.

(** ** VerifyDelivered *)
Definition read_back (H : HostFS) (d : Disk) (e : string * blobEntry) : res proj_err unit :=
  match projectionParents d e.1 with
  | Some p => Err (EConflict p None)
  | None =>
    match workingFileContent H d e.1 with
    | WRead data mode => err_if (negb (bool_decide (working_entry data mode = e.2))) (EReadBackMismatch e.1)
    | _ => Err (EReadBackFile e.1)
    end
  end.
Definition VerifyDelivered (H : HostFS) (O : Orders) (objects : Storage) (tip : string) (r : Repo)
    : res proj_err unit :=
  head ← res_of_option EReadTree (rp_refs r !! rp_bound r);
  _ ← err_if (negb (String.eqb head tip)) EReadBackHead;
  staged ← res_of_option EStagingRead (rp_staged r);
  _ ← err_if (0 <? length staged)%nat EReadBackStaging;
  files ← headFiles objects r;
  forM_ (read_back H (rp_disk r)) (o_readback O files).
End Git.

#[local] Hint Resolve same_but_refl : core.

Section Write.
Context `{G : GoGit}.

(** Writing one entry of a tree, no parent of whose path is a link. *)
Lemma writeEntry_inside H objects rel e d r d' :
  disk_wf (d_nodes d) -> no_link_above (d_nodes d) (comps rel) ->
  writeEntryToDir H objects rel e d = (r, d') ->
  disk_wf (d_nodes d') /\ same_but (eq (comps rel)) d d' /\
  (forall n, d_nodes d' !! comps rel = Some n -> d_nodes d !! comps rel = Some n \/
     exists data, blobContent objects (be_hash e) = Ok data /\ n = node_of (be_mode e) data) /\
  (r = Ok tt -> validateRelPath rel = Ok tt /\ exists data,
     blobContent objects (be_hash e) = Ok data /\
     d_nodes d' !! comps rel = Some (node_of (be_mode e) data)).
Proof.
  intros W Hl. unfold writeEntryToDir.
  assert (forall x, (Err x, d) = (r, d') -> disk_wf (d_nodes d') /\ same_but (eq (comps rel)) d d' /\
    (forall n, d_nodes d' !! comps rel = Some n -> d_nodes d !! comps rel = Some n \/
     exists data, blobContent objects (be_hash e) = Ok data /\ n = node_of (be_mode e) data) /\
    (r = Ok tt -> validateRelPath rel = Ok tt /\ exists data, blobContent objects (be_hash e) = Ok data /\
     d_nodes d' !! comps rel = Some (node_of (be_mode e) data))) as Hstop.
  { intros x [= <- <-]. split_and!; auto; done. }
  destruct (_ ← _; _) as [data|x] eqn:Hd; [|apply Hstop]. apply seq_Ok in Hd as [Hv Hd].
  unfold step. destruct (MkdirAll _ _ _) as [d1|] eqn:H1; [|apply Hstop].
  apply MkdirAll_dirs in H1 as (W1 & S1 & Hc1 & _); [|done..].
  assert (d_nodes d1 !! comps rel = d_nodes d !! comps rel) as Hsame.
  { destruct (Hc1 (comps rel)) as [|[]%above_irrefl]; done. }
  pose proof (no_link_same_but _ _ _ _ S1 Hl ltac:(auto)) as Hl1.
  assert (same_but (eq (comps rel)) d d1) as S1' by (eapply same_but_mono; [|exact S1]; done).
  destruct (Remove _ _ _) as [d2|] eqn:H2.
  2: { intros [= <- <-]. split_and!; [done..|intros n Hn; left; congruence|done]. }
  apply Remove_inside in H2 as (W2 & S2 & Hn2 & Ho2); [|done..].
  assert (no_link_above (d_nodes d2) (comps rel)) as Hl2.
  { eapply no_link_same_but; [exact S2|done|]. intros a Ha <-. by eapply above_irrefl. }
  assert (same_but (eq (comps rel)) d d2) as S2'.
  { by eapply same_but_trans1. }
  destruct (Create _ _ _ _) as [d3|] eqn:H3.
  2: { intros [= <- <-]. split_and!; [done..|intros n Hn; congruence|done]. }
  apply Create_inside in H3 as (W3 & Ho3 & Hn3); [|done|done|congruence].
  intros [= <- <-]. rewrite Hn3, lookup_insert_eq. split_and!; [by rewrite <- Hn3| |..].
  - eapply same_but_trans1; [exact S2'|]. split; [done|]. intros q Hq. left. rewrite Hn3.
    by rewrite lookup_insert_ne.
  - intros n [= <-]. right. by exists data.
  - intros _. split; [done|]. by exists data.
Qed.
End Write.

(** ** Two trees side by side *)

Definition tracked (old target : Files) (p : string) : Prop :=
  is_Some (old !! p) \/ is_Some (target !! p).
(** No path of either tree lies below a link of the new one. A host tree and a
    commit of it always are so; a commit a guest made need not be. *)
Definition links_apart (old target : Files) : Prop :=
  forall p q e, target !! p = Some e -> be_mode e = filemode_Symlink -> tracked old target q ->
    ~ above (comps p) (comps q).
Definition clean_paths (old target : Files) : Prop :=
  forall p, tracked old target p -> clean p = p.

Lemma comps_inj p q : clean p = p -> clean q = q -> comps p = comps q -> p = q.
Proof.
  unfold comps. intros -> ->. intros H. apply (f_equal (join slash)) in H. by rewrite !join_split in H.
Qed.

Section Trees.
Context `{G : GoGit} (H : HostFS) (objects : Storage) (old target : Files).
Hypothesis Hclean : clean_paths old target.
Hypothesis Hapart : links_apart old target.

(** No tracked path has a link above it. *)
Definition no_links (d : Disk) : Prop :=
  forall p, tracked old target p -> no_link_above (d_nodes d) (comps p).
Definition written (d : Disk) (p : string) (e : blobEntry) : Prop :=
  exists data, blobContent objects (be_hash e) = Ok data /\
    d_nodes d !! comps p = Some (node_of (be_mode e) data).
Definition among (l : list (string * blobEntry)) (q : Path) : Prop :=
  exists p, p ∈ l.*1 /\ q = comps p.

Lemma node_of_link mode data t : node_of mode data = NLink t -> mode = filemode_Symlink.
Proof. unfold node_of. destruct (Z.eqb_spec mode filemode_Symlink); done. Qed.

Lemma write_no_links p e d r d' : target !! p = Some e -> disk_wf (d_nodes d) -> no_links d ->
  writeEntryToDir H objects p e d = (r, d') -> no_links d'.
Proof.
  intros He W Hl Hw q Hq a t Ha Hn.
  assert (tracked old target p) as Hp by (right; by eexists).
  destruct (writeEntry_inside _ _ _ _ _ _ _ W (Hl p Hp) Hw) as (_ & Hs & Hcase & _).
  destruct (decide (a = comps p)) as [->|Hne].
  - destruct (Hcase _ Hn) as [Hold|(data & _ & Hx)]; [by apply (Hl q Hq (comps p) t)|].
    symmetry in Hx. apply node_of_link in Hx. by apply (Hapart p q e He Hx Hq).
  - destruct Hs as [_ Hs]. destruct (Hs a (not_eq_sym Hne)) as [E|[_ E]]; rewrite E in Hn;
      [by apply (Hl q Hq a t)|done].
Qed.

Lemma write_all_spec l d r d' :
  (forall p e, (p, e) ∈ l -> target !! p = Some e) -> disk_wf (d_nodes d) -> no_links d ->
  write_all H objects l d = (r, d') ->
  disk_wf (d_nodes d') /\ no_links d' /\ same_but (among l) d d' /\
  (r = Ok tt -> NoDup l.*1 -> forall p e, (p, e) ∈ l -> written d' p e).
Proof.
  revert d. induction l as [|[p e] l IH]; intros d Hin W Hl; cbn [write_all].
  { intros [= <- <-]. split_and!; auto. intros _ _ p e Hx. by apply not_elem_of_nil in Hx. }
  assert (target !! p = Some e) as He by (apply Hin; by left).
  destruct (writeEntryToDir H objects p e d) as [r1 d1] eqn:Hw.
  pose proof (write_no_links _ _ _ _ _ He W Hl Hw) as Hl1.
  destruct (writeEntry_inside _ _ _ _ _ _ _ W (Hl p ltac:(right; by eexists)) Hw)
    as (W1 & S1 & _ & Hok1).
  assert (same_but (among ((p, e) :: l)) d d1) as S1'.
  { eapply same_but_mono; [|exact S1]. intros q <-. exists p. split; [by left|done]. }
  destruct r1 as [[]|x]; [|by intros [= <- <-]; split_and!].
  intros Hr. apply IH in Hr as (W2 & Hl2 & S2 & Hok2); [|intros; apply Hin; by right|done|done].
  assert (same_but (among ((p, e) :: l)) d1 d') as S2'.
  { eapply same_but_mono; [|exact S2]. intros q (p' & Hp' & ->). exists p'. split; [by right|done]. }
  split_and!; [done|done|by eapply same_but_trans1|].
  intros -> Hnd q e' [[= -> ->]|Hq]%elem_of_cons; cbn in Hnd; apply NoDup_cons in Hnd as [Hp Hnd].
  - destruct (Hok1 eq_refl) as (_ & data & Hb & Hn). exists data. split; [done|].
    destruct S2 as [_ S2]. destruct (S2 (comps p)) as [->|[E _]]; [|done|congruence].
    intros (p' & Hp' & Hc). apply comps_inj in Hc as ->; [done|apply Hclean; right; by eexists|].
    apply Hclean. apply list_elem_of_fmap in Hp' as ([p0 e0] & -> & Hx). right.
    exists e0. apply Hin. by right.
  - by apply Hok2.
Qed.

Definition removed (l : list (string * blobEntry)) (q : Path) : Prop :=
  exists p, p ∈ l.*1 /\ target !! p = None /\ q = comps p.

Lemma remove_all_spec l d r d' :
  (forall p, p ∈ l.*1 -> is_Some (old !! p)) -> disk_wf (d_nodes d) -> no_links d ->
  remove_all H target l d = (r, d') ->
  disk_wf (d_nodes d') /\ d_outside d' = d_outside d /\
  (forall q, ~ removed l q -> d_nodes d' !! q = d_nodes d !! q) /\
  (r = Ok tt -> forall q, removed l q -> d_nodes d' !! q = None).
Proof.
  revert d. induction l as [|[p e] l IH]; intros d Hin W Hl; cbn [remove_all].
  { intros [= <- <-]. split_and!; auto. intros _ q (p & Hx & _). by apply not_elem_of_nil in Hx. }
  assert (forall p', p' ∈ l.*1 -> is_Some (old !! p')) as Hin' by (intros; apply Hin; by right).
  assert (forall q, removed l q -> removed ((p, e) :: l) q) as Hmono.
  { intros q (p' & ? & ? & ->). exists p'. split; [by right|done]. }
  assert (forall q, removed ((p, e) :: l) q -> removed l q \/ (q = comps p /\ target !! p = None)) as Hinv.
  { intros q (p' & [->|?]%elem_of_cons & ? & ->); [by right|left; by exists p']. }
  destruct (target !! p) as [e'|] eqn:Ht.
  { intros (W' & Ho & S' & Hok)%IH; [|done..]. split_and!; [done|done|auto|].
    intros -> q [Hq|[_ ?]]%Hinv; [by apply Hok|congruence]. }
  unfold step. destruct (Remove H (comps p) d) as [d1|] eqn:Hr.
  2: { intros [= <- <-]. by split_and!. }
  apply Remove_inside in Hr as (W1 & [O1 _] & Hn1 & Ho1); [|done|apply Hl; left; apply Hin; by left].
  assert (no_links d1) as Hl1.
  { intros q Hq a t Ha Hn. destruct (decide (a = comps p)) as [->|Hne]; [congruence|].
    rewrite Ho1 in Hn by done. by apply (Hl q Hq a t). }
  intros (W2 & O2 & S2 & Hok)%IH; [|done..].
  assert (removed ((p, e) :: l) (comps p)) as Hp by (exists p; split; [by left|done]).
  split_and!; [done|congruence|intros q Hq|intros -> q Hq].
  - rewrite S2 by auto. apply Ho1. intros ->. done.
  - apply Hinv in Hq as [Hq|[-> _]]; [by apply Hok|].
    destruct (decide (p ∈ l.*1)); [apply Hok; [done|by exists p]|]. rewrite S2; [done|].
    intros (p' & Hp' & _ & Hc). apply comps_inj in Hc as ->; [done|..]; apply Hclean; left; auto.
    apply Hin. by left.
Qed.
End Trees.

(** ** What the preflight establishes *)

Lemma parents_conflict_none nodes p : disk_wf nodes ->
  parents_conflict nodes (dirs [] p) = None -> no_link_above nodes p.
Proof.
  intros W Hc a t [r Hr]%above_dirs Ha.
  assert (forall b, above b a -> nodes !! b = Some NDir) as Hup by (intros b Hb; by eapply W).
  clear W. revert Hc Hr. generalize (@nil string) as pre. induction p as [|c p IH]; intros pre Hc Hr;
    cbn [dirs] in *; [by apply not_elem_of_nil in Hr|].
  destruct p as [|c' p]; [by apply not_elem_of_nil in Hr|].
  cbn [parents_conflict] in Hc. apply elem_of_cons in Hr as [[= -> ->]|Hr]; [by rewrite Ha in Hc|].
  rewrite Hup in Hc; [by eapply IH|].
  apply elem_dirs in Hr as (x & -> & Hx & _). split; [by destruct pre|]. by exists x.
Qed.

Section Forward.
Context `{G : GoGit} (H : HostFS) (O : Orders) (h : History) (objects : Storage).

Lemma Lstat_absent d p : disk_wf (d_nodes d) -> no_link_above (d_nodes d) p ->
  Lstat H d p = stat_of (d_nodes d !! p) \/ (Lstat H d p = StatErr /\ d_nodes d !! p = None).
Proof.
  intros W Hl. unfold Lstat. destruct (d_nodes d !! p) as [n|] eqn:Hp.
  - rewrite (locate_present _ _ _ W Hp). by left.
  - destruct (locate_cases _ _ Hl) as [[-> _]|[->| ->]]; rewrite ?Hp; auto.
Qed.

(** A host entry the code lets the projection replace. *)
Definition expendable (d : Disk) (old target : Files) (p : string) : Prop :=
  d_nodes d !! comps p = None \/
  exists data mode, workingFileContent H d p = WRead data mode /\
    (old !! p = Some (working_entry data mode) \/ target !! p = Some (working_entry data mode)).

Lemma preflight_ok d old target p : disk_wf (d_nodes d) ->
  preflight H objects d old target p = Ok tt ->
  validateRelPath p = Ok tt /\ no_link_above (d_nodes d) (comps p) /\ expendable d old target p.
Proof.
  intros W Hp. unfold preflight in Hp. apply seq_Ok in Hp as [Hv Hp]. split; [done|].
  unfold projectionParents in Hp. destruct (parents_conflict _ _) eqn:Hc; [done|]. cbn in Hp.
  apply parents_conflict_none in Hc; [|done]. split; [done|]. unfold expendable.
  destruct (workingFileContent H d p) as [data mode| |e] eqn:Hw; [right|left|done].
  - exists data, mode. split; [done|]. destruct (_ || _) eqn:Hx; [|done].
    apply orb_true_iff in Hx as [Hx|Hx]; apply bool_decide_eq_true in Hx; auto.
  - unfold workingFileContent in Hw. rewrite Hv in Hw.
    destruct (Lstat_absent d (comps p) W Hc) as [Hs|[Hs ?]]; rewrite Hs in Hw; [|done].
    destruct (d_nodes d !! comps p) as [[|[]|]|]; done.
Qed.

Lemma both_paths_tracked old target p : is_Some (both_paths old target !! p) <-> tracked old target p.
Proof.
  unfold both_paths, tracked. rewrite lookup_union_with, !lookup_fmap.
  destruct (old !! p), (target !! p); cbn; rewrite ?is_Some_alt; naive_solver.
Qed.

Lemma plan_Ok branch tip r cur old : disk_wf (d_nodes (rp_disk r)) ->
  plan H O h objects branch tip r = Ok (cur, old) ->
  rp_refs r !! branch = Some cur /\ rp_bound r = branch /\ headFiles objects r = Ok old /\
  rp_staged r = Some [] /\ exists target, commitFiles objects tip = Ok target /\
    forall p, tracked old target p -> validateRelPath p = Ok tt /\
      no_link_above (d_nodes (rp_disk r)) (comps p) /\ expendable (rp_disk r) old target p.
Proof.
  intros W Hp. unfold plan in Hp. apply bind_Ok in Hp as (cur' & Hcur & Hp).
  apply seq_Ok in Hp as [_ Hp]. apply bind_Ok in Hp as (hd & _ & Hp).
  apply seq_Ok in Hp as [Hb Hp]. apply bind_Ok in Hp as (old' & Hold & Hp).
  apply bind_Ok in Hp as (target & Ht & Hp). apply bind_Ok in Hp as (staged & Hs & Hp).
  apply seq_Ok in Hp as [Hs' Hp]. apply seq_Ok in Hp as [Hf [= <- <-]].
  apply res_of_option_Ok in Hcur, Hs. apply err_if_Ok, negb_false_iff, String.eqb_eq in Hb.
  destruct staged; [|done]. split_and!; try done. exists target. split; [done|].
  intros p [b Hb']%both_paths_tracked. apply forM_Ok in Hf.
  refine (preflight_ok _ _ _ _ W (proj1 (Forall_forall _ _) Hf (p, b) _)).
  rewrite iter_perm. by apply elem_of_map_to_list.
Qed.

Lemma materialize_spec old target tip d r d' :
  clean_paths old target -> links_apart old target -> commitFiles objects tip = Ok target ->
  disk_wf (d_nodes d) -> (forall p, tracked old target p -> no_link_above (d_nodes d) (comps p)) ->
  materializeCommit H O objects tip old d = (r, d') ->
  disk_wf (d_nodes d') /\ same_but (fun q => exists p, tracked old target p /\ q = comps p) d d' /\
  (r = Ok tt -> (forall p e, target !! p = Some e -> written objects d' p e) /\
     (forall p, is_Some (old !! p) -> target !! p = None -> d_nodes d' !! comps p = None)).
Proof.
  intros Hc Ha Ht W Hl. unfold materializeCommit. rewrite Ht. cbn [mbind res_bind].
  destruct (forM_ _ _) as [[]|x]; cbn [mbind res_bind].
  2: { intros [= <- <-]. split_and!; [done|apply same_but_refl|done]. }
  assert (forall p e, (p, e) ∈ o_write O target -> target !! p = Some e) as Hin.
  { intros p e Hx. rewrite iter_perm in Hx. by apply elem_of_map_to_list. }
  assert (forall p, p ∈ (o_remove O old).*1 -> is_Some (old !! p)) as Hin'.
  { intros p ([p' e] & -> & Hx)%list_elem_of_fmap. rewrite iter_perm in Hx.
    exists e. by apply elem_of_map_to_list. }
  destruct (write_all H objects (o_write O target) d) as [r1 d1] eqn:Hw.
  apply (write_all_spec H objects old target Hc Ha) in Hw as (W1 & Hl1 & S1 & Hok1); [|done..].
  assert (same_but (fun q => exists p, tracked old target p /\ q = comps p) d d1) as S1'.
  { eapply same_but_mono; [|exact S1]. intros q (p & ([p' e] & -> & Hx)%list_elem_of_fmap & ->).
    exists p'. split; [right; exists e; by apply Hin|done]. }
  destruct r1 as [[]|x]; [|by intros [= <- <-]; split_and!].
  intros Hr. apply (remove_all_spec H old target Hc) in Hr as (W2 & Ho2 & S2 & Hok2); [|done..].
  split_and!; [done| |].
  - eapply same_but_trans1; [exact S1'|]. split; [done|]. intros q Hq. left. apply S2.
    intros (p & Hp & _ & ->). apply Hq. exists p. split; [left; by apply Hin'|done].
  - intros ->. split.
    + intros p e He. destruct (Hok1 eq_refl) with (p := p) (e := e) as (data & Hb & Hn).
      * rewrite iter_perm. apply NoDup_fst_map_to_list.
      * rewrite iter_perm. by apply elem_of_map_to_list.
      * exists data. split; [done|]. rewrite S2; [done|]. intros (p' & Hp' & Hn' & Hx).
        apply comps_inj in Hx as <-; [congruence|..]; apply Hc; [by right; eexists|left; by apply Hin'].
    + intros p [e He] Hn. apply (Hok2 eq_refl). exists p. split_and!; [|done|done].
      apply list_elem_of_fmap. exists (p, e). split; [done|]. rewrite iter_perm.
      by apply elem_of_map_to_list.
Qed.
End Forward.

(** ** The theorems *)
Section Theorems.
Context `{G : GoGit} (H : HostFS) (O : Orders) (h : History) (objects : Storage).

(** [FastForwardDelivered], taken apart: stopped by its plan with nothing done,
    or run on a plan that holds. *)
Lemma forward_stages branch tip r res r' :
  disk_wf (d_nodes (rp_disk r)) -> FastForwardDelivered H O h objects branch tip r = (res, r') ->
  (r' = r /\ res <> Ok tt) \/
  exists cur old target rm d, plan H O h objects branch tip r = Ok (cur, old) /\
    commitFiles objects tip = Ok target /\
    materializeCommit H O objects tip old (rp_disk r) = (rm, d) /\
    ((exists x, rm = Err x /\ res = Err x /\ r' = set_disk d r) \/
     (rm = Ok tt /\ res = Ok tt /\
      r' = set_refs (<[branch := tip]> (rp_refs r)) (set_disk d r))).
Proof.
  intros W. unfold FastForwardDelivered. destruct (plan _ _ _ _ _ _ _) as [[cur old]|x] eqn:Hp.
  2: { intros [= <- <-]. by left. }
  destruct (plan_Ok _ _ _ _ _ _ _ _ _ W Hp) as (Hcur & _ & _ & _ & target & Ht & _).
  destruct (materializeCommit _ _ _ _ _ _) as [rm d] eqn:Hm. rewrite bool_decide_eq_true_2 by done.
  intros Hr. right. exists cur, old, target, rm, d. split_and!; try done.
  destruct rm as [[]|x]; injection Hr as <- <-; [by right|left; by exists x].
Qed.

(** C5. The host's own work is never lost where no link of the new tree is in the
    way. Whatever a projection returns, the branch is where it was unless the
    projection succeeded, and the staging area always is. And where both trees
    can be read, their paths are in clean form, and no path of either lies below a
    link of the new one ([links_apart]; without it [projection_follows_link] has a
    projection remove a file outside), nothing outside the worktree was touched,
    and every place on the disk that changed held nothing, or held exactly the
    version the branch was at or the version the landed commit has. *)
Theorem projection_keeps_host_work branch tip r res r' : disk_wf (d_nodes (rp_disk r)) ->
  FastForwardDelivered H O h objects branch tip r = (res, r') ->
  (res <> Ok tt -> rp_refs r' = rp_refs r) /\ rp_staged r' = rp_staged r /\
  forall old target, headFiles objects r = Ok old -> commitFiles objects tip = Ok target ->
    clean_paths old target -> links_apart old target ->
    d_outside (rp_disk r') = d_outside (rp_disk r) /\
    forall q, d_nodes (rp_disk r') !! q <> d_nodes (rp_disk r) !! q ->
      d_nodes (rp_disk r) !! q = None \/
      exists p data mode, q = comps p /\ workingFileContent H (rp_disk r) p = WRead data mode /\
        (old !! p = Some (working_entry data mode) \/ target !! p = Some (working_entry data mode)).
Proof.
  intros W Hf. destruct (forward_stages _ _ _ _ _ W Hf)
    as [[-> _]|(cur & old' & target' & rm & d & Hp & Ht' & Hm & Hr)]; [by split_and!|].
  split; [by destruct Hr as [(x & -> & -> & ->)|(-> & -> & ->)]|].
  split; [by destruct Hr as [(x & -> & -> & ->)|(-> & -> & ->)]|]. intros old target Hold Ht Hc Ha.
  rewrite Ht in Ht'. injection Ht' as <-.
  destruct (plan_Ok _ _ _ _ _ _ _ _ _ W Hp) as (_ & _ & Hold' & _ & target' & Ht' & Hpre).
  rewrite Hold in Hold'. injection Hold' as <-. rewrite Ht in Ht'. injection Ht' as <-.
  destruct (materialize_spec H O objects old target tip _ _ _ Hc Ha Ht W
    (fun p Hp => proj1 (proj2 (Hpre p Hp))) Hm) as (_ & [Ho Hs] & _).
  assert (forall q, d_nodes d !! q <> d_nodes (rp_disk r) !! q ->
    d_nodes (rp_disk r) !! q = None \/
    exists p data mode, q = comps p /\ workingFileContent H (rp_disk r) p = WRead data mode /\
      (old !! p = Some (working_entry data mode) \/ target !! p = Some (working_entry data mode))) as Hq.
  { intros q Hne. destruct (d_nodes (rp_disk r) !! q) as [n|] eqn:Hn; [right|by left].
    assert (~ ~ exists p, tracked old target p /\ q = comps p) as Hex.
    { intros Hno. destruct (Hs q Hno) as [?|[? _]]; congruence. }
    assert (exists p, tracked old target p /\ q = comps p) as (p & Hp' & ->).
    { assert (Decision (exists p, tracked old target p /\ q = comps p)) as D.
      { destruct (decide (Exists (fun e => q = comps e.1) (map_to_list (both_paths old target)))) as [E|E].
        - left. apply Exists_exists in E as ([p b] & Hin & ->). exists p. split; [|done].
          apply both_paths_tracked. exists b. by apply elem_of_map_to_list.
        - right. intros (p & [b Hb]%both_paths_tracked & ->). apply E, Exists_exists.
          exists (p, b). split; [by apply elem_of_map_to_list|done]. }
      by destruct D. }
    destruct (Hpre p Hp') as (_ & _ & [Hnone|(data & mode & Hw & He)]); [congruence|].
    by exists p, data, mode. }
  destruct Hr as [(x & -> & -> & ->)|(-> & -> & ->)]; exact (conj Ho Hq).
Qed.

(** The mode a working file reads back with. *)
Definition readback_mode (mode : Z) : Z :=
  if mode =? filemode_Symlink then filemode_Symlink
  else if mode =? filemode_Executable then filemode_Executable else filemode_Regular.

Lemma working_written d p e data : disk_wf (d_nodes d) -> validateRelPath p = Ok tt ->
  d_nodes d !! comps p = Some (node_of (be_mode e) data) ->
  projectionParents d p = None /\ workingFileContent H d p = WRead data (readback_mode (be_mode e)).
Proof.
  intros W Hv Hn. split.
  - unfold projectionParents. assert (parents_conflict (d_nodes d) (dirs [] (comps p)) = None) as ->; [|done].
    assert (Forall (fun e => d_nodes d !! e.1 = Some NDir) (dirs [] (comps p))) as HF.
    { apply locate_inside. by eapply locate_present. }
    induction HF as [|[a x] l Hx _ IH]; [done|]. cbn in *. by rewrite Hx.
  - unfold workingFileContent, Lstat. rewrite Hv, (locate_present _ _ _ W Hn), Hn. unfold node_of, readback_mode.
    cbn [stat_of]. destruct (be_mode e =? filemode_Symlink); [by rewrite list_ascii_of_string_of_list_ascii|].
    by destruct (be_mode e =? filemode_Executable).
Qed.

(** C23. Publication, exactly. A projection that succeeds has moved the branch to the
    tip, left every file of the tip's tree on the disk with its bytes, and
    removed every file the old tip had and the new one has not. And the read-back
    that must follow accepts the result if and only if each entry of the tree is
    a regular file, an executable or a link: a commit with any other git mode is
    published, and then never counts as delivered. *)
Theorem projection_read_back branch tip r r' old target :
  headFiles objects r = Ok old -> commitFiles objects tip = Ok target ->
  clean_paths old target -> links_apart old target -> disk_wf (d_nodes (rp_disk r)) ->
  (forall k data, objects !! k = Some (BlobObject, data) -> ComputeHash BlobObject data = k) ->
  FastForwardDelivered H O h objects branch tip r = (Ok tt, r') ->
  rp_refs r' = <[branch := tip]> (rp_refs r) /\
  (forall p e, target !! p = Some e -> exists data,
     objects !! be_hash e = Some (BlobObject, data) /\
     workingFileContent H (rp_disk r') p = WRead data (readback_mode (be_mode e))) /\
  (forall p, is_Some (old !! p) -> target !! p = None -> d_nodes (rp_disk r') !! comps p = None) /\
  (VerifyDelivered H O objects tip r' = Ok tt <->
   forall p e, target !! p = Some e -> be_mode e ∈ [filemode_Regular; filemode_Executable; filemode_Symlink]).
Proof.
  intros Hold Ht Hc Ha W Hstore Hf.
  destruct (forward_stages _ _ _ _ _ W Hf)
    as [[_ ?]|(cur & old' & target' & rm & d & Hp & Ht' & Hm & Hr)]; [done|].
  destruct Hr as [(x & _ & ? & _)|(-> & _ & ->)]; [done|].
  rewrite Ht in Ht'. injection Ht' as <-.
  destruct (plan_Ok _ _ _ _ _ _ _ _ _ W Hp) as (_ & Hb & Hold' & Hst & target' & Ht' & Hpre).
  rewrite Hold in Hold'. injection Hold' as <-. rewrite Ht in Ht'. injection Ht' as <-.
  destruct (materialize_spec H O objects old target tip _ _ _ Hc Ha Ht W
    (fun p Hp => proj1 (proj2 (Hpre p Hp))) Hm) as (W' & _ & Hok). destruct (Hok eq_refl) as [Hw Hrm].
  assert (forall p e, target !! p = Some e -> exists data, objects !! be_hash e = Some (BlobObject, data) /\
    projectionParents d p = None /\ workingFileContent H d p = WRead data (readback_mode (be_mode e))) as Hread.
  { intros p e He. destruct (Hw p e He) as (data & Hd & Hn). exists data.
    unfold blobContent in Hd. destruct (objects !! be_hash e) as [[[] data']|]; try done.
    injection Hd as ->. split; [done|]. apply working_written; [done| |done].
    apply Hpre. right. by eexists. }
  cbn [rp_refs rp_disk set_refs set_disk]. split_and!; [done| |done|].
  { intros p e He. destruct (Hread p e He) as (data & ? & _ & ?). by exists data. }
  unfold VerifyDelivered, headFiles. cbn [rp_refs rp_bound rp_disk rp_staged set_refs set_disk].
  rewrite Hb, lookup_insert_eq, Hst. cbn [res_of_option mbind res_bind]. rewrite String.eqb_refl, Ht.
  cbn [negb err_if mbind res_bind length Nat.ltb Nat.leb]. rewrite forM_Ok.
  assert (forall p e, target !! p = Some e ->
    read_back H d (p, e) = Ok tt <-> be_mode e ∈ [filemode_Regular; filemode_Executable; filemode_Symlink]) as Hone.
  { intros p e He. destruct (Hread p e He) as (data & Hd & Hpp & Hwf). unfold read_back. cbn [fst snd].
    rewrite Hpp, Hwf, err_if_Ok, negb_false_iff, bool_decide_eq_true. unfold working_entry.
    rewrite (Hstore _ _ Hd). destruct e as [eh em]. cbn [be_hash be_mode]. unfold readback_mode.
    rewrite !elem_of_cons. destruct (Z.eqb_spec em filemode_Symlink) as [->|];
      [|destruct (Z.eqb_spec em filemode_Executable) as [->|]].
    - naive_solver.
    - naive_solver.
    - split; [intros [= <-]; by left|]. intros [->|[?|[?|?%not_elem_of_nil]]]; done. }
  rewrite Forall_forall. split.
  - intros HF p e He. apply (Hone p e He), HF. rewrite iter_perm. by apply elem_of_map_to_list.
  - intros Hall [p e] Hin. rewrite iter_perm in Hin. apply elem_of_map_to_list in Hin.
    by apply (proj2 (Hone p e Hin)), (Hall p e Hin).
Qed.

Lemma iter_singleton {A} (it : MapIter A) k (a : A) : it {[k := a]} = [(k, a)].
Proof.
  pose proof (iter_perm it {[k := a]}) as Hp. rewrite map_to_list_singleton in Hp.
  by apply Permutation_singleton_r in Hp.
Qed.

(** C39. The code's own preflight does not keep it inside the worktree: it checks
    every parent before it writes anything, and then writes links. When the host
    has removed a tracked directory and the landed commit has a link in its
    place, every check passes, the link is created, and the deletion pass, which
    removes the directory's old files by path, goes through the new link: the
    projection succeeds having removed a file of the guest's choosing outside the
    worktree. *)
Theorem projection_follows_link branch cur tip r dir rest p e e0 text n :
  rp_refs r !! branch = Some cur -> rp_bound r = branch -> rp_staged r = Some [] ->
  (cur = tip \/ is_ancestor h cur tip = Some true) ->
  commitFiles objects cur = Ok {[p := e0]} -> commitFiles objects tip = Ok {[dir := e]} ->
  validateRelPath p = Ok tt -> validateRelPath dir = Ok tt ->
  comps dir = [dir] -> comps p = dir :: rest -> rest <> [] ->
  be_mode e = filemode_Symlink -> objects !! be_hash e = Some (BlobObject, text) ->
  d_nodes (rp_disk r) = ∅ ->
  let link := string_of_list_ascii text in
  h_node H link rest = Some n -> h_out_ok H (OutRemove link rest) = true -> h_write_ok H [dir] = true ->
  exists r', FastForwardDelivered H O h objects branch tip r = (Ok tt, r') /\
    d_outside (rp_disk r') = d_outside (rp_disk r) ++ [OutRemove link rest].
Proof.
  intros Hcur Hb Hst Hanc Hold Ht Hvp Hvd Hd Hp Hrest Hm Hblob Hnodes link Hn Hok Hwr.
  assert (p <> dir) as Hne.
  { intros ->. rewrite Hd in Hp. injection Hp as <-. done. }
  assert (forall q, validateRelPath q = Ok tt ->
    ({[p := e0]} : Files) !! q = None \/ ({[dir := e]} : Files) !! q = None ->
    preflight H objects (rp_disk r) {[p := e0]} {[dir := e]} q = Ok tt) as Hpre.
  { intros q Hv Hq. unfold preflight, projectionParents. rewrite Hv, Hnodes. cbn [mbind res_bind].
    assert (forall ds, parents_conflict ∅ ds = None) as ->.
    { intros [|[a x] ds]; [done|]. cbn. by rewrite lookup_empty. }
    cbn [fmap option_fmap option_map]. unfold workingFileContent, Lstat. rewrite Hv, Hnodes.
    assert (stat_of (@None Node) = match locate ∅ (dirs [] (comps q)) with
      | Inside => stat_of ((∅ : gmap Path Node) !! comps q) | NoParent => NotExist
      | ParentNotDir => StatErr | Through t x => stat_of (h_node H t x) end) as <-.
    { destruct (dirs [] (comps q)) as [|[a x] ds]; cbn; by rewrite lookup_empty. }
    cbn [stat_of]. destruct Hq as [-> | ->]; [done|]. by destruct (({[p := e0]} : Files) !! q). }
  unfold FastForwardDelivered.
  assert (plan H O h objects branch tip r = Ok (cur, {[p := e0]})) as ->.
  { unfold plan, headFiles. rewrite Hb, Hcur, Hst. cbn [res_of_option mbind res_bind].
    assert (check_history h cur tip = Ok tt) as ->.
    { unfold check_history. destruct (String.eqb_spec cur tip); [done|].
      destruct Hanc as [?|Ha]; [done|]. by rewrite Ha. }
    cbn [mbind res_bind]. rewrite String.eqb_refl. cbn [negb err_if mbind res_bind].
    rewrite Hold, Ht. cbn [mbind res_bind].
    rewrite (proj2 (forM_Ok _ _ tt)); [done|]. apply Forall_forall. intros [q b] Hin.
    rewrite iter_perm in Hin. apply elem_of_map_to_list in Hin. cbn [fst].
    assert (tracked {[p := e0]} {[dir := e]} q) as Hq by (apply both_paths_tracked; by exists b).
    destruct (decide (q = p)) as [->|Hqp].
    { apply Hpre; [done|]. right. by apply lookup_singleton_ne. }
    assert (q = dir) as ->.
    { destruct Hq as [[x Hx]|[x Hx]]; apply lookup_singleton_Some in Hx as [? _]; congruence. }
    apply Hpre; [done|]. left. by apply lookup_singleton_ne. }
  unfold materializeCommit. rewrite Ht. cbn [mbind res_bind].
  rewrite (iter_singleton (o_validate O)). cbn [forM_ fst]. rewrite Hvd. cbn [mbind res_bind].
  rewrite (iter_singleton (o_write O)), (iter_singleton (o_remove O)). cbn [write_all remove_all].
  unfold writeEntryToDir, blobContent. rewrite Hvd, Hblob, Hd. cbn [mbind res_bind dirs MkdirAll step].
  unfold Remove at 1. cbn [locate dirs]. rewrite Hnodes, lookup_empty. cbn [step].
  unfold Create. cbn [locate dirs]. rewrite Hwr. cbn [step]. rewrite lookup_singleton_ne by done.
  rewrite Hp. destruct rest as [|c rest]; [done|]. unfold Remove. cbn [dirs locate app d_nodes].
  rewrite Hnodes, lookup_insert_eq. unfold node_of. rewrite Hm, Z.eqb_refl. cbn [locate].
  fold link. rewrite Hn, Hok. cbn [step remove_all d_outside].
  rewrite bool_decide_eq_true_2 by done. eexists. split; [done|]. done.
Qed.
End Theorems.

(** ** Witnesses on the toy format *)
Import Toy.

Definition ok_or {E A} (d : A) (m : res E A) : A := match m with Ok a => a | Err _ => d end.
Lemma ok_or_Ok {E A} d (m : res E A) : is_ok m = true -> m = Ok (ok_or d m).
Proof. by destruct m. Qed.

Definition paths_checked (old target : Files) : bool :=
  bool_decide (map_Forall (fun p _ => clean p = p) old) &&
  bool_decide (map_Forall (fun p e => clean p = p /\ be_mode e <> filemode_Symlink) target).
Lemma paths_checked_ok old target : paths_checked old target = true ->
  clean_paths old target /\ links_apart old target.
Proof.
  intros [Ho%bool_decide_eq_true Ht%bool_decide_eq_true]%andb_true_iff. split.
  - intros p [[e He]|[e He]]; [by apply (Ho p e)|by apply (Ht p e)].
  - intros p q e He Hm. destruct (Ht p e He) as [_ ?]. done.
Qed.
Definition store_checked (objects : Storage) : bool :=
  bool_decide (map_Forall (fun k x => x.1 = BlobObject -> Toy.hash BlobObject x.2 = k) objects).
Lemma store_checked_ok objects : store_checked objects = true ->
  forall k data, objects !! k = Some (BlobObject, data) -> ComputeHash BlobObject data = k.
Proof. intros Hc%bool_decide_eq_true k data Hk. by apply (Hc k (BlobObject, data)). Qed.

Definition blob_note := blob "package a // edited in the sandbox".
Definition tree_3 := tree [file "a.go" blob_note; file "docs/b.md" blob_a].
Definition commit_3 := commit (id tree_3) (id commit_1) "agent" "[MGIT:MGIT-1] edit".
Definition native_store : Storage :=
  ok_or ∅ (poolStorer [commit_1; tree_1; blob_a; commit_3; tree_3; blob_note]).
Definition native_branch := "task/MGIT-1".
(** The host's worktree: the tracked file, and one mgit does not know. *)
Definition native_repo : Repo :=
  mkRepo {[native_branch := id commit_1]} native_branch
    (mkDisk {[["a.go"] := NFile (Data blob_a, false); ["notes.txt"] := NFile ([], false)]} []) (Some []).
Definition other := "/home/user/other".
Definition native_host : HostFS := mkHost (String.eqb other)
  (fun t rest => if String.eqb t other && bool_decide (rest = ["config"]) then Some (NFile ([], false)) else None)
  (fun _ => true) (fun _ => true).
Definition native_orders : Orders :=
  mkOrders key_order reverse_order key_order reverse_order key_order.
Definition native_history : History := mkHistory (fun _ _ => Some true) (fun _ _ => None).
Definition old_files : Files := ok_or ∅ (headFiles native_store native_repo).
Definition new_files : Files := ok_or ∅ (commitFiles native_store (id commit_3)).
Definition projected : Repo :=
  (FastForwardDelivered native_host native_orders native_history native_store native_branch
     (id commit_3) native_repo).2.

Lemma old_files_ok : headFiles native_store native_repo = Ok old_files.
Proof. apply ok_or_Ok. vm_compute. reflexivity. Qed.
Lemma new_files_ok : commitFiles native_store (id commit_3) = Ok new_files.
Proof. apply ok_or_Ok. vm_compute. reflexivity. Qed.
Lemma trees_ok : clean_paths old_files new_files /\ links_apart old_files new_files.
Proof. apply paths_checked_ok. vm_compute. reflexivity. Qed.
Lemma native_wf : disk_wf (d_nodes (rp_disk native_repo)).
Proof. apply disk_checked_wf. vm_compute. reflexivity. Qed.
Lemma projected_ok : FastForwardDelivered native_host native_orders native_history native_store
  native_branch (id commit_3) native_repo = (Ok tt, projected).
Proof.
  assert (is_ok (FastForwardDelivered native_host native_orders native_history native_store
    native_branch (id commit_3) native_repo).1 = true) as Hok by (vm_compute; reflexivity).
  unfold projected. destruct (FastForwardDelivered _ _ _ _ _ _ _) as [[[]|] r']; [reflexivity|discriminate].
Qed.

Lemma projection_keeps_host_work_witness :
  d_nodes (rp_disk projected) !! ["notes.txt"] = Some (NFile ([], false)) /\
  d_outside (rp_disk projected) = [].
Proof.
  split; [vm_compute; reflexivity|].
  destruct (projection_keeps_host_work native_host native_orders native_history native_store
    native_branch (id commit_3) native_repo (Ok tt) projected native_wf projected_ok) as (_ & _ & Hk).
  exact (proj1 (Hk old_files new_files old_files_ok new_files_ok (proj1 trees_ok) (proj2 trees_ok))).
Defined.

Lemma projection_read_back_witness :
  is_ok (VerifyDelivered native_host native_orders native_store (id commit_3) projected) = true /\
  rp_refs projected = <[native_branch := id commit_3]> (rp_refs native_repo).
Proof.
  split; [vm_compute; reflexivity|].
  exact (proj1 (projection_read_back native_host native_orders native_history native_store
    native_branch (id commit_3) native_repo projected old_files new_files old_files_ok new_files_ok
    (proj1 trees_ok) (proj2 trees_ok) native_wf
    (store_checked_ok native_store ltac:(vm_compute; reflexivity)) projected_ok)).
Defined.

(** The host's branch tracks cache/config, whose directory the host has removed;
    the sandbox lands a link named cache. *)
Definition blob_link := blob other.
Definition tree_4 := tree [file "cache/config" blob_a].
Definition commit_4 := commit (id tree_4) "" "host" "[MGIT:MGIT-1] base".
Definition tree_5 := tree ["link cache " +:+ id blob_link].
Definition commit_5 := commit (id tree_5) (id commit_4) "agent" "[MGIT:MGIT-1] link".
Definition link_store : Storage :=
  ok_or ∅ (poolStorer [commit_4; tree_4; blob_a; commit_5; tree_5; blob_link]).
Definition link_repo : Repo :=
  mkRepo {[native_branch := id commit_4]} native_branch (mkDisk ∅ []) (Some []).

Lemma singleton_files (m : res proj_err Files) k e :
  (match m with Ok f => bool_decide (map_to_list f = [(k, e)]) | Err _ => false end) = true ->
  m = Ok {[k := e]}.
Proof.
  destruct m as [f|]; [|done]. intros Hb%bool_decide_eq_true. f_equal.
  by rewrite <- (list_to_map_to_list f), Hb.
Qed.

Lemma projection_follows_link_witness :
  exists r', FastForwardDelivered native_host native_orders native_history link_store native_branch
    (id commit_5) link_repo = (Ok tt, r') /\
    d_outside (rp_disk r') = [OutRemove other ["config"]].
Proof.
  refine (projection_follows_link native_host native_orders native_history link_store native_branch
    (id commit_4) (id commit_5) link_repo "cache" ["config"] "cache/config"
    (mkEntry (id blob_link) filemode_Symlink) (mkEntry (id blob_a) filemode_Regular)
    (Data blob_link) (NFile ([], false)) _ eq_refl eq_refl (or_intror eq_refl) _ _ eq_refl eq_refl
    eq_refl eq_refl _ eq_refl _ eq_refl _ eq_refl eq_refl).
  - apply lookup_singleton_eq.
  - apply singleton_files. vm_compute. reflexivity.
  - apply singleton_files. vm_compute. reflexivity.
  - discriminate.
  - vm_compute. reflexivity.
  - vm_compute. reflexivity.
Defined.
