(* ===== verification/GitTree.v ===== *)
(** * Writing trees and commits to the git store

    [internal/store/git/plumbing.go], with [replaceInTree] and [fileDirClash] of
    [staging_directory.go]: a flat set of files written as nested tree objects,
    a commit object over one, and the moves of a branch. go-git's encoders are
    the class [GitWriter]; what the store reads back of what it wrote is the
    theorem [write_read_tree], which the verbs over the store rely on. *)

From Stdlib Require Import ZArith Lia Ascii String.
From S2P Require Import Prelude GoStrings LandWire LandVerify DiskTree Projection.

Open Scope Z_scope.
Open Scope list_scope.

(** ** go-git's writers *)

(** What a commit object is written from: author and committer are one. *)
Record commitParams := mkParams {
  cp_tree : string; cp_parents : list string; cp_message : string;
  cp_name : string; cp_email : string; cp_when : time }.

(** [object.Tree.Encode] and [object.Commit.Encode] into the store, [None] when
    the encoder or the store refuses, and the names the tree walk accepts. *)
Class GitWriter := {
  EncodeTree : list TreeEntry -> option bytes;
  EncodeCommit : commitParams -> option bytes;
  valid_component : string -> bool }.

(** An object store holds each object under its own hash. *)
Definition addressed `{G : GoGit} (st : Storage) : Prop :=
  forall h t d, st !! h = Some (t, d) -> ComputeHash t d = h.

(** The recursive walk of a tree object's entries: each entry, a directory
    followed by what is below it under its name. *)
Definition under (dir : string) (e : TreeEntry) : TreeEntry :=
  mkTreeEntry (dir +:+ String slash (te_Name e)) (te_Mode e) (te_Hash e).
Inductive walks `{W : GitWriter} (st : Storage) : list TreeEntry -> list TreeEntry -> Prop :=
  | walks_nil : walks st [] []
  | walks_file e es out :
      te_Mode e <> filemode_Dir -> valid_component (te_Name e) = true -> te_Name e ∉ map te_Name es ->
      walks st es out -> walks st (e :: es) (e :: out)
  | walks_dir e es d sub out1 out :
      te_Mode e = filemode_Dir -> valid_component (te_Name e) = true -> te_Name e ∉ map te_Name es ->
      st !! te_Hash e = Some (TreeObject, d) -> EncodeTree sub = Some d -> walks st sub out1 ->
      walks st es out -> walks st (e :: es) (e :: map (under (te_Name e)) out1 ++ out).

(** The store is content addressed, no object hashes to the zero hash, and the objects are
    immutable: a walk that ended
    well goes the same way in a store that has more objects. A commit reads back with the tree and the
    parents it was written with, and a tree whose entries are well named reads
    back entry by entry. *)
Class GitWriterLaws (G : GoGit) (W : GitWriter) : Prop := {
  hash_inj : forall t d t' d', ComputeHash t d = ComputeHash t' d' -> t = t' /\ d = d';
  hash_nonzero : forall t d, ComputeHash t d <> ZeroHash;
  decode_commit : forall p d, EncodeCommit p = Some d -> exists g,
    DecodeCommit d = Some g /\ g_TreeHash g = cp_tree p /\ g_ParentHashes g = cp_parents p;
  walk_mono : forall st st' h es, st ⊆ st' -> addressed st' ->
    WalkTree st h = Some (es, false) -> WalkTree st' h = Some (es, false);
  walk_tree : forall st h d es out, addressed st -> st !! h = Some (TreeObject, d) ->
    EncodeTree es = Some d -> walks st es out -> WalkTree st h = Some (out, false) }.

(** ** Writing *)
Inductive tree_err := EEncodeTree | EEncodeCommit | EFuel.

Section Write.
Context `{G : GoGit} `{W : GitWriter}.

(** [SetEncodedObject]. *)
Definition SetEncodedObject (t : ObjectType) (d : bytes) (st : Storage) : string * Storage :=
  (ComputeHash t d, <[ComputeHash t d := (t, d)]> st).
Definition writeBlob (content : bytes) (st : Storage) : string * Storage := SetEncodedObject BlobObject content st.

(** [treeEntryLess]: a directory sorts as if its name ended in a slash. *)
Definition tree_key (e : TreeEntry) : string :=
  if te_Mode e =? filemode_Dir then te_Name e +:+ "/" else te_Name e.
Definition writeFlatTree (entries : list TreeEntry) (st : Storage) : res tree_err (string * Storage) :=
  d ← res_of_option EEncodeTree (EncodeTree (sort_by tree_key entries));
  Ok (SetEncodedObject TreeObject d st).

(** One level of a file set: its files, and the files of each directory. *)
Definition level_add (acc : Files * gmap string Files) (x : string * blobEntry) : Files * gmap string Files :=
  let '(name, rest, nested) := cut slash x.1 in
  if nested : bool then (acc.1, <[name := <[rest := x.2]> (default ∅ (acc.2 !! name))]> acc.2)
  else (<[name := x.2]> acc.1, acc.2).
Definition level (l : list (string * blobEntry)) : Files * gmap string Files := fold_left level_add l (∅, ∅).

Definition file_entry (x : string * blobEntry) : TreeEntry := mkTreeEntry x.1 (be_mode x.2) (be_hash x.2).
Section Level.
Context (write : Files -> Storage -> res tree_err (string * Storage)).
(** The range over the directories of a level. *)
Fixpoint write_dirs (l : list (string * Files)) (st : Storage) : res tree_err (list TreeEntry * Storage) :=
  match l with
  | [] => Ok ([], st)
  | (name, sub) :: l =>
    '(h, st) ← write sub st;
    '(es, st) ← write_dirs l st;
    Ok (mkTreeEntry name filemode_Dir h :: es, st)
  end.
End Level.
Fixpoint writeNestedTree (fuel : nat) (it : MapIter blobEntry) (itd : MapIter Files) (files : Files) (st : Storage)
    : res tree_err (string * Storage) :=
  match fuel with
  | O => Err EFuel
  | S fuel =>
    let '(fileChildren, dirChildren) := level (it files) in
    '(dirs, st) ← write_dirs (writeNestedTree fuel it itd) (itd dirChildren) st;
    writeFlatTree (map file_entry (it fileChildren) ++ dirs) st
  end.

(** Deep enough for every path of the tree. *)
Definition depth (files : Files) : nat := max_list ((fun p => length (split slash p)) <$> (map_to_list files).*1).
Definition write_tree (it : MapIter blobEntry) (itd : MapIter Files) (files : Files) (st : Storage)
    : res tree_err (string * Storage) := writeNestedTree (S (depth files)) it itd files st.

Definition writeCommit (p : commitParams) (st : Storage) : res tree_err (string * Storage) :=
  d ← res_of_option EEncodeCommit (EncodeCommit p);
  Ok (SetEncodedObject CommitObject d st).
End Write.

(** The directories on the way to a path, as [path.Dir] of a clean path goes up. *)
Definition path_dirs (p : string) : list string := map (fun x => join slash x.1) (dirs [] (split slash p)).
(** [replaceInTree], [fileDirClash]. *)
Definition replaceInTree (rel : string) (files : Files) : Files :=
  let files := fold_right delete files (path_dirs rel) in
  filter (fun x => has_prefix (rel +:+ "/") x.1 = false) files.
Definition clashing (files : Files) (p : string) : option string :=
  last (filter (fun d => bool_decide (is_Some (files !! d)) = true) (path_dirs p)).
Definition fileDirClash (it : MapIter blobEntry) (files : Files) : option string :=
  head (omap (fun x => clashing files x.1) (it files)).

Lemma split_sep c p s : split c (p +:+ String c s) = split c p ++ split c s.
Proof.
  induction p as [|a p IH]; [rewrite app_nil; cbn; by rewrite Ascii.eqb_refl|]. rewrite app_cons. cbn.
  destruct (Ascii.eqb a c); [by rewrite IH|]. rewrite IH. by destruct (split_cons c p) as (x & xs & ->).
Qed.
Lemma join_app c ps qs : ps <> [] -> qs <> [] -> join c (ps ++ qs) = join c ps +:+ String c (join c qs).
Proof.
  intros Hp Hq. induction ps as [|x ps IH]; [done|]. destruct ps as [|y ps].
  - destruct qs; [done|]. done.
  - change (join c ((x :: y :: ps) ++ qs)) with (x +:+ String c (join c ((y :: ps) ++ qs))).
    rewrite IH by done. change (join c (x :: y :: ps)) with (x +:+ String c (join c (y :: ps))).
    by rewrite sapp_assoc, app_cons.
Qed.
Lemma path_dirs_above a p : a ∈ path_dirs p <-> exists rest, p = a +:+ String slash rest.
Proof.
  unfold path_dirs. rewrite list_elem_of_fmap. split.
  - intros ([c r] & -> & (c' & -> & Hc & Hr & Hs)%elem_dirs). cbn in *. exists (join slash r).
    rewrite <- (join_split slash p), Hs. by rewrite <- join_app.
  - intros (rest & ->). exists (split slash a, split slash rest). split; [cbn; by rewrite join_split|].
    apply elem_dirs. exists (split slash a). split_and!; [done|apply split_not_nil|apply split_not_nil|apply split_sep].
Qed.
Lemma replaceInTree_lookup rel files q : replaceInTree rel files !! q =
  if bool_decide (q ∈ path_dirs rel) || has_prefix (rel +:+ "/") q then None else files !! q.
Proof.
  unfold replaceInTree. set (f := fold_right delete files (path_dirs rel)).
  assert (f !! q = if bool_decide (q ∈ path_dirs rel) then None else files !! q) as Hf.
  { unfold f. induction (path_dirs rel) as [|x l IH]; [done|]. cbn [fold_right]. destruct (decide (x = q)) as [->|Hne].
    - rewrite lookup_delete_eq, bool_decide_eq_true_2 by (by left). done.
    - rewrite lookup_delete_ne, IH by done. apply (f_equal (fun b : bool => if b then None else files !! q)), bool_decide_ext.
      set_solver. }
  destruct (has_prefix (rel +:+ "/") q) eqn:Hp; [rewrite orb_true_r|rewrite orb_false_r].
  - apply map_lookup_filter_None. right. intros e _. cbn [fst]. by rewrite Hp.
  - rewrite <- Hf. destruct (f !! q) as [e|] eqn:He.
    + by apply map_lookup_filter_Some.
    + apply map_lookup_filter_None. by left.
Qed.
(** No path is a file and a directory at once: what the guard of a commit asks. *)
Definition clash_free (files : Files) : Prop :=
  forall p rest, is_Some (files !! p) -> files !! (p +:+ String slash rest) = None.
Lemma fileDirClash_None it files : fileDirClash it files = None <-> clash_free files.
Proof.
  unfold clash_free, fileDirClash. rewrite head_None. split.
  - intros H p rest [e Hp]. destruct (files !! (p +:+ String slash rest)) as [e'|] eqn:Hr; [exfalso|done].
    destruct (clashing files (p +:+ String slash rest)) as [x|] eqn:Hc.
    + assert (x ∈ omap (fun x => clashing files x.1) (it files)) as Hin; [|rewrite H in Hin; by apply not_elem_of_nil in Hin].
      apply list_elem_of_omap. exists (p +:+ String slash rest, e'). split; [by apply elem_of_iter|done].
    + unfold clashing in Hc. apply last_None in Hc.
      assert (p ∈ filter (fun d => bool_decide (is_Some (files !! d)) = true) (path_dirs (p +:+ String slash rest))) as Hin.
      { apply list_elem_of_filter. split; [by apply bool_decide_eq_true; eexists|]. apply path_dirs_above. by eexists. }
      rewrite Hc in Hin. by apply not_elem_of_nil in Hin.
  - intros H. apply elem_of_nil_inv. intros x ([q e] & Hq%elem_of_iter & Hx)%list_elem_of_omap. cbn in Hx.
    unfold clashing in Hx. apply last_Some_elem_of, list_elem_of_filter in Hx as [Hd Hin].
    apply bool_decide_eq_true in Hd. apply path_dirs_above in Hin as (rest & ->). by rewrite (H _ rest Hd) in Hq.
Qed.

(** ** One level of a file set *)

Definition at_level (lv : Files * gmap string Files) (name rest : string) : option blobEntry :=
  sub ← lv.2 !! name; sub !! rest.

Lemma cut_name s : (exists name rest, cut slash s = (name, rest, true) /\ s = name +:+ String slash rest /\
    contains slash name = false) \/ (cut slash s = (s, "", false) /\ contains slash s = false).
Proof.
  destruct (cut slash s) as [[name rest] []] eqn:Hc.
  - left. exists name, rest. apply cut_found in Hc as Hf. naive_solver.
  - right. assert (contains slash s = false) as Hn.
    { clear -Hc. revert name rest Hc. induction s as [|a s IH]; intros name rest; cbn; [done|].
      destruct (Ascii.eqb a slash); [done|]. destruct (cut slash s) as [[b r] f]. intros [= <- <- ->]. by eapply IH. }
    rewrite cut_not_found in Hc by done. by simplify_eq.
Qed.
Lemma name_rest_inj name rest name' rest' : contains slash name = false -> contains slash name' = false ->
  name +:+ String slash rest = name' +:+ String slash rest' -> name = name' /\ rest = rest'.
Proof.
  intros Hn Hn' He. pose proof (cut_app slash name rest Hn) as Hc. rewrite He, cut_app in Hc by done. by simplify_eq.
Qed.
Lemma contains_slash_app name rest : contains slash (name +:+ String slash rest) = true.
Proof. rewrite contains_app. cbn. by rewrite orb_true_r. Qed.

Lemma level_spec l : NoDup l.*1 ->
  (forall name e, (level l).1 !! name = Some e <-> (name, e) ∈ l /\ contains slash name = false) /\
  (forall name rest e, at_level (level l) name rest = Some e <->
     (name +:+ String slash rest, e) ∈ l /\ contains slash name = false).
Proof.
  induction l as [|[p b] l IH] using rev_ind; intros Hnd.
  { unfold level, at_level. cbn. split; intros; rewrite lookup_empty; cbn; split; try done;
      by intros [?%not_elem_of_nil _]. }
  rewrite fmap_app, NoDup_app in Hnd. destruct Hnd as (Hnd & Hni & _). destruct (IH Hnd) as [Hf Hd]. clear IH.
  assert (p ∉ l.*1) as Hp by (intros Hin; apply (Hni p); [done|by left]).
  assert (forall e, (p, e) ∉ l) as Hpe by (intros e Hin; apply Hp, list_elem_of_fmap; by exists (p, e)).
  unfold level in *. rewrite fold_left_app. cbn [fold_left]. set (lv := fold_left level_add l _) in *.
  unfold level_add. cbn [fst snd]. destruct (cut_name p) as [(name & rest & Hc & -> & Hn)|[Hc Hn]]; rewrite Hc.
  - split; cbn [fst snd].
    + intros q e. rewrite Hf, elem_of_app, list_elem_of_singleton. split; [naive_solver|].
      intros [[?|[= -> ->]] Hq]; [done|]. by rewrite contains_slash_app in Hq.
    + intros q r e. unfold at_level. cbn [snd]. rewrite elem_of_app, list_elem_of_singleton.
      destruct (decide (q = name)) as [->|Hne].
      * rewrite lookup_insert_eq. cbn. destruct (decide (r = rest)) as [->|Hr].
        -- rewrite lookup_insert_eq. naive_solver.
        -- rewrite lookup_insert_ne by done. transitivity (at_level lv name r = Some e).
           { unfold at_level. destruct (lv.2 !! name); cbn; [done|]. by rewrite lookup_empty. }
           rewrite Hd. split; [naive_solver|]. intros [[?|[= He _]] Hq]; [done|].
           by apply name_rest_inj in He as [_ ?].
      * rewrite lookup_insert_ne by done. fold (at_level lv q r). rewrite Hd. split; [naive_solver|].
        intros [[?|[= He _]] Hq]; [done|]. by apply name_rest_inj in He as [? _].
  - split; cbn [fst snd].
    + intros q e. rewrite elem_of_app, list_elem_of_singleton. destruct (decide (q = p)) as [->|Hne].
      * rewrite lookup_insert_eq. naive_solver.
      * rewrite lookup_insert_ne by done. rewrite Hf. naive_solver.
    + intros q r e. unfold at_level. cbn [snd]. fold (at_level lv q r). rewrite Hd, elem_of_app, list_elem_of_singleton.
      split; [naive_solver|]. intros [[?|[= <- _]] Hq]; [done|]. by rewrite contains_slash_app in Hn.
Qed.
Lemma level_nonempty l name sub : (level l).2 !! name = Some sub -> exists rest e, sub !! rest = Some e.
Proof.
  revert name sub. induction l as [|[p b] l IH] using rev_ind; intros name sub; [done|].
  unfold level in *. rewrite fold_left_app. cbn [fold_left]. set (lv := fold_left level_add l _) in *.
  unfold level_add. cbn [fst snd]. destruct (cut slash p) as [[q r] []]; cbn [fst snd]; [|apply IH].
  destruct (decide (name = q)) as [->|Hne].
  - rewrite lookup_insert_eq. intros [= <-]. exists r, b. by rewrite lookup_insert_eq.
  - rewrite lookup_insert_ne by done. apply IH.
Qed.

(** ** Reading back what was written *)

(** The files of a tree: none is a directory, every component of a path is a
    name the walk accepts, and no path is both a file and a directory. *)
Definition files_ok `{W : GitWriter} (files : Files) : Prop :=
  (forall p b, files !! p = Some b -> be_mode b <> filemode_Dir /\
     Forall (fun c => valid_component c = true) (split slash p)) /\ clash_free files.

Section ReadBack.
Context `{G : GoGit} `{W : GitWriter} {L : GitWriterLaws G W}.

Lemma SetEncodedObject_grows t d st h st' : addressed st -> SetEncodedObject t d st = (h, st') ->
  addressed st' /\ st ⊆ st' /\ st' !! h = Some (t, d).
Proof.
  intros A. unfold SetEncodedObject. intros [= <- <-]. split_and!; [| |by rewrite lookup_insert_eq].
  - intros h t' d'. rewrite lookup_insert_Some. intros [[<- [= <- <-]]|[_ Hx]]; [done|by apply A].
  - apply map_subseteq_spec. intros h [t' d'] Hx. destruct (decide (h = ComputeHash t d)) as [->|Hne].
    + rewrite lookup_insert_eq. apply A in Hx. by apply hash_inj in Hx as [-> ->].
    + by rewrite lookup_insert_ne.
Qed.

Lemma walks_mono st st' es out : st ⊆ st' -> walks st es out -> walks st' es out.
Proof.
  intros Hs. induction 1; [constructor|by constructor|]. eapply walks_dir; try done. by eapply lookup_weaken.
Qed.

(** The tree at [h] holds exactly these files. *)
Definition holds (st : Storage) (h : string) (files : Files) : Prop :=
  exists d es out, st !! h = Some (TreeObject, d) /\ EncodeTree es = Some d /\ walks st es out /\
    forall path b, be_mode b <> filemode_Dir -> (file_entry (path, b) ∈ out <-> files !! path = Some b).
Lemma holds_mono st st' h files : st ⊆ st' -> holds st h files -> holds st' h files.
Proof.
  intros Hs (d & es & out & Hh & He & Hw & Hf). exists d, es, out.
  split_and!; [by eapply lookup_weaken|done|by eapply walks_mono|done].
Qed.

(** What one entry of a tree contributes, the files of directories in [subs]. *)
Definition yields (subs : gmap string Files) (e : TreeEntry) (path : string) (b : blobEntry) : Prop :=
  if te_Mode e =? filemode_Dir
  then exists rest, path = te_Name e +:+ String slash rest /\ default ∅ (subs !! te_Name e) !! rest = Some b
  else e = file_entry (path, b).
Lemma elem_of_under dir path b out : file_entry (path, b) ∈ map (under dir) out <->
  exists rest, path = dir +:+ String slash rest /\ file_entry (rest, b) ∈ out.
Proof.
  rewrite list_elem_of_fmap. split.
  - intros ([n m h] & [= -> <- <-] & Hin). by exists n.
  - intros (rest & -> & Hin). by exists (file_entry (rest, b)).
Qed.
Lemma walks_entries st subs es : NoDup (map te_Name es) ->
  Forall (fun e => valid_component (te_Name e) = true /\
    (te_Mode e = filemode_Dir -> holds st (te_Hash e) (default ∅ (subs !! te_Name e)))) es ->
  exists out, walks st es out /\ forall path b, be_mode b <> filemode_Dir ->
    (file_entry (path, b) ∈ out <-> exists e, e ∈ es /\ yields subs e path b).
Proof.
  induction es as [|e es IH]; intros Hnd Hall.
  { exists []. split; [constructor|]. intros path b _. split; [by intros ?%not_elem_of_nil|].
    by intros (e & ?%not_elem_of_nil & _). }
  apply NoDup_cons in Hnd as [Hni Hnd]. apply Forall_cons in Hall as [[Hv Hd] Hall].
  destruct (IH Hnd Hall) as (out & Hw & Hout). destruct (Z.eqb_spec (te_Mode e) filemode_Dir) as [Hm|Hm].
  - destruct (Hd Hm) as (d & sub & out1 & Hh & He & Hw1 & Hsub). exists (e :: map (under (te_Name e)) out1 ++ out).
    split; [by apply (walks_dir _ _ _ d sub)|]. intros path b Hb. rewrite elem_of_cons, elem_of_app, elem_of_under, Hout by done.
    setoid_rewrite elem_of_cons. setoid_rewrite Hsub; [|done]. split.
    + intros [<-|[Hx|(x & Hx & Hy)]]; [by destruct Hb| |]; [exists e; split; [by left|]|exists x; split; [by right|done]].
      unfold yields. by rewrite (proj2 (Z.eqb_eq _ _) Hm).
    + intros (x & [->|Hx] & Hy); right; [left|right; by exists x].
      unfold yields in Hy. by rewrite (proj2 (Z.eqb_eq _ _) Hm) in Hy.
  - exists (e :: out). split; [by constructor|]. intros path b Hb. rewrite elem_of_cons, Hout by done.
    setoid_rewrite elem_of_cons. split.
    + intros [<-|(x & Hx & Hy)]; [eexists; split; [by left|]|exists x; split; [by right|done]].
      unfold yields. by rewrite (proj2 (Z.eqb_neq _ _) Hm).
    + intros (x & [->|Hx] & Hy); [left|right; by exists x].
      unfold yields in Hy. by rewrite (proj2 (Z.eqb_neq _ _) Hm) in Hy.
Qed.

Lemma write_dirs_ok (write : Files -> Storage -> res tree_err (string * Storage)) l st es st' :
  (forall name sub st h st', (name, sub) ∈ l -> addressed st -> write sub st = Ok (h, st') ->
     addressed st' /\ st ⊆ st' /\ holds st' h sub) ->
  addressed st -> write_dirs write l st = Ok (es, st') ->
  addressed st' /\ st ⊆ st' /\
  Forall2 (fun x e => te_Name e = x.1 /\ te_Mode e = filemode_Dir /\ holds st' (te_Hash e) x.2) l es.
Proof.
  intros Hw. revert st es. induction l as [|[name sub] l IH]; intros st es A; cbn [write_dirs].
  { intros [= <- <-]. split_and!; [done|done|constructor]. }
  intros H. apply bind_Ok in H as ([h st1] & H1 & H). apply bind_Ok in H as ([es1 st2] & H2 & H). injection H as <- <-.
  apply Hw with (name := name) in H1 as (A1 & S1 & Hh); [|by left|done].
  apply IH in H2 as (A2 & S2 & HF); [|intros; eapply Hw; [by right|done|done]|done].
  split_and!; [done|by etrans|]. constructor; [|done]. cbn. split_and!; [done|done|by eapply holds_mono].
Qed.
End ReadBack.

(** ** The round trip *)
Section RoundTrip.
Context `{G : GoGit} `{W : GitWriter} {L : GitWriterLaws G W}.

(** The files below a directory are as well formed as the whole. *)
Lemma files_ok_sub files l name sub : files_ok files -> l ≡ₚ map_to_list files ->
  (level l).2 !! name = Some sub -> files_ok sub.
Proof.
  intros [Hf Hc] Hl Hs.
  assert (NoDup l.*1) as Hnd by (rewrite Hl; apply NoDup_fst_map_to_list).
  destruct (level_spec l Hnd) as [_ Hd].
  assert (forall rest b, sub !! rest = Some b -> files !! (name +:+ String slash rest) = Some b /\ contains slash name = false) as Hsub.
  { intros rest b Hr. assert (at_level (level l) name rest = Some b) as Ha by (unfold at_level; by rewrite Hs).
    apply Hd in Ha as [Hin Hn]. rewrite Hl in Hin. by apply elem_of_map_to_list in Hin. }
  split.
  - intros rest b [Hr Hn]%Hsub. apply Hf in Hr as [Hm Hv]. split; [done|].
    rewrite split_app in Hv by done. by apply Forall_cons in Hv as [_ Hv].
  - intros p rest [b Hp]. destruct (sub !! (p +:+ String slash rest)) as [b'|] eqn:Hr; [exfalso|done].
    apply Hsub in Hp as [Hp _], Hr as [Hr _]. pose proof (Hc (name +:+ String slash p) rest) as Hx.
    assert (files !! (name +:+ String slash (p +:+ String slash rest)) = None) as Hn; [|by rewrite Hn in Hr].
    etrans; [|apply Hx; by eexists]. f_equal. symmetry. apply (sapp_assoc name (String slash p)).
Qed.

Section OneLevel.
Context (it : MapIter blobEntry) (itd : MapIter Files) (files fc : Files) (dc : gmap string Files)
  (dirs : list TreeEntry) (st : Storage).
Context (Hlv : level (it files) = (fc, dc)) (Hok : files_ok files)
  (HF : Forall2 (fun x e => te_Name e = x.1 /\ te_Mode e = filemode_Dir /\ holds st (te_Hash e) x.2) (itd dc) dirs).
Local Abbreviation es := (map file_entry (it fc) ++ dirs).

Lemma level_files n e : fc !! n = Some e <-> files !! n = Some e /\ contains slash n = false.
Proof.
  destruct (level_spec (it files)) as [Hf _]; [apply iter_NoDup|]. rewrite Hlv in Hf. cbn in Hf. by rewrite Hf, elem_of_iter.
Qed.
Lemma level_dirs name rest e : at_level (fc, dc) name rest = Some e <->
  files !! (name +:+ String slash rest) = Some e /\ contains slash name = false.
Proof.
  destruct (level_spec (it files)) as [_ Hd]; [apply iter_NoDup|]. rewrite Hlv in Hd. by rewrite Hd, elem_of_iter.
Qed.
Lemma dir_inhabited name sub : dc !! name = Some sub ->
  exists rest b, files !! (name +:+ String slash rest) = Some b /\ contains slash name = false.
Proof.
  intros Hs. destruct (level_nonempty (it files) name sub) as (rest & b & Hr); [by rewrite Hlv|].
  exists rest, b. apply level_dirs. unfold at_level. cbn. by rewrite Hs.
Qed.
Lemma dirs_names : map te_Name dirs = (itd dc).*1.
Proof.
  pose proof HF as HF'. revert HF'. generalize (itd dc) dirs. clear. induction 1 as [|x e l dirs (Hx & _) _ IHF]; [done|].
  cbn. by rewrite Hx, IHF.
Qed.
Lemma dirs_hold e : e ∈ dirs ->
  te_Mode e = filemode_Dir /\ exists sub, dc !! te_Name e = Some sub /\ holds st (te_Hash e) sub.
Proof.
  intros [i Hi]%list_elem_of_lookup. destruct (Forall2_lookup_r _ _ _ _ _ HF Hi) as ([name sub] & Hx & Hn & Hm & Hho).
  split; [done|]. exists sub. cbn in Hn, Hho. rewrite Hn. split; [|done]. apply (elem_of_iter itd). by eapply list_elem_of_lookup_2.
Qed.
Lemma file_entry_in e : e ∈ map file_entry (it fc) -> exists n b, e = file_entry (n, b) /\ files !! n = Some b /\ contains slash n = false.
Proof. intros ([n b] & -> & Hin%elem_of_iter%level_files)%list_elem_of_fmap. naive_solver. Qed.

Lemma entries_NoDup : NoDup (map te_Name es).
Proof.
  rewrite map_app, map_map. change (map (fun x => te_Name (file_entry x)) (it fc)) with ((it fc).*1).
  rewrite dirs_names. apply NoDup_app. split_and!; [apply iter_NoDup| |apply iter_NoDup].
  intros name Hin Hin'. apply list_elem_of_fmap in Hin as ([n b] & -> & Hin), Hin' as ([n' sub] & Hn & Hin'). cbn in *. subst n'.
  apply elem_of_iter, level_files in Hin as [Hfn _]. apply elem_of_iter in Hin'.
  destruct (dir_inhabited n sub Hin') as (rest & b' & Hx & _). destruct Hok as [_ Hclash]. rewrite Hclash in Hx; [done|by eexists].
Qed.
Lemma entries_good e : e ∈ es -> valid_component (te_Name e) = true /\
  (te_Mode e = filemode_Dir -> holds st (te_Hash e) (default ∅ (dc !! te_Name e))).
Proof.
  destruct Hok as [Hf _]. intros [(n & b & -> & [Hm Hv]%Hf & Hn)%file_entry_in|Hin]%elem_of_app.
  - rewrite split_no_sep in Hv by done. apply Forall_cons in Hv as [Hv _]. by split.
  - apply dirs_hold in Hin as (Hm & sub & Hs & Hho). split; [|by rewrite Hs].
    destruct (dir_inhabited _ _ Hs) as (rest & b & [_ Hv]%Hf & Hn).
    rewrite split_app in Hv by done. by apply Forall_cons in Hv as [Hv _].
Qed.
Lemma entries_yield path b : be_mode b <> filemode_Dir ->
  (exists e, e ∈ es /\ yields dc e path b) <-> files !! path = Some b.
Proof.
  intros Hb. destruct Hok as [Hf _]. split.
  - intros (e & [(n & b' & -> & Hn & _)%file_entry_in|Hin]%elem_of_app & Hy); unfold yields in Hy.
    + cbn in Hy. rewrite (proj2 (Z.eqb_neq _ _)) in Hy by (by apply Hf in Hn as [? _]). destruct b, b'. cbn in *. by simplify_eq.
    + apply dirs_hold in Hin as (Hm & sub & Hs & _). rewrite (proj2 (Z.eqb_eq _ _) Hm), Hs in Hy.
      destruct Hy as (rest & -> & Hr). apply level_dirs. unfold at_level. cbn. by rewrite Hs.
  - intros Hfp. destruct (cut_name path) as [(name & rest & _ & -> & Hn)|[_ Hn]].
    + assert (at_level (fc, dc) name rest = Some b) as (sub & Hs & Hr)%bind_Some by (by apply level_dirs). cbn in Hs.
      assert (name ∈ map te_Name dirs) as (e & -> & Hin)%list_elem_of_fmap.
      { rewrite dirs_names. apply list_elem_of_fmap. exists (name, sub). split; [done|]. by apply elem_of_iter. }
      destruct (dirs_hold e Hin) as (Hm & _). exists e. split; [by apply elem_of_app; right|].
      unfold yields. rewrite (proj2 (Z.eqb_eq _ _) Hm). exists rest. by rewrite Hs.
    + exists (file_entry (path, b)). split.
      * apply elem_of_app. left. apply list_elem_of_fmap. exists (path, b). split; [done|]. by apply elem_of_iter, level_files.
      * unfold yields. cbn. by rewrite (proj2 (Z.eqb_neq _ _) Hb).
Qed.
End OneLevel.

Lemma write_tree_ok fuel it itd files st h st' : addressed st -> files_ok files ->
  writeNestedTree fuel it itd files st = Ok (h, st') -> addressed st' /\ st ⊆ st' /\ holds st' h files.
Proof.
  revert files st h st'. induction fuel as [|fuel IH]; intros files st h st' A Hok; cbn [writeNestedTree]; [done|].
  destruct (level (it files)) as [fc dc] eqn:Hlv. intros H.
  apply bind_Ok in H as ([dirs st1] & H1 & H). unfold writeFlatTree in H. apply bind_Ok in H as (d & He & H).
  injection H as Hh Hst. apply res_of_option_Ok in He.
  apply write_dirs_ok in H1 as (A1 & S1 & HF); [|intros name sub st2 h2 st3 Hin A2; apply IH; [done|]|done].
  2: { apply elem_of_iter in Hin. apply (files_ok_sub files (it files) name); [done|apply iter_perm|by rewrite Hlv]. }
  set (es := map file_entry (it fc) ++ dirs) in *.
  assert (sort_by tree_key es ≡ₚ es) as Hp by apply sort_by_perm.
  destruct (walks_entries st1 dc (sort_by tree_key es)) as (out & Hw & Hout).
  { rewrite Hp. by eapply entries_NoDup. }
  { rewrite Hp. apply Forall_forall. by eapply entries_good. }
  destruct (SetEncodedObject_grows TreeObject d st1 h st' A1) as (A' & S' & Hh'); [by rewrite <- Hh, <- Hst|].
  split_and!; [done|by etrans|]. exists d, (sort_by tree_key es), out.
  split_and!; [done|done|by eapply walks_mono|]. intros path b Hb. rewrite Hout by done. setoid_rewrite Hp.
  by eapply entries_yield.
Qed.

(** ** Enough fuel *)

Lemma write_dirs_err (write : Files -> Storage -> res tree_err (string * Storage)) l st e :
  write_dirs write l st = Err e -> exists name sub st', (name, sub) ∈ l /\ write sub st' = Err e.
Proof.
  revert st. induction l as [|[name sub] l IH]; intros st; cbn [write_dirs]; [done|].
  intros [H|([h st1] & _ & H)]%bind_Err; [by exists name, sub, st; split; [left|]|].
  apply bind_Err in H as [H|([es st2] & _ & [=])]. destruct (IH _ H) as (n & s & st3 & Hin & Hw).
  exists n, s, st3. by split; [right|].
Qed.
Lemma enough_fuel fuel it itd files st : (0 < fuel)%nat ->
  (forall p b, files !! p = Some b -> (length (split slash p) <= fuel)%nat) ->
  writeNestedTree fuel it itd files st <> Err EFuel.
Proof.
  revert files st. induction fuel as [|fuel IH]; intros files st Hpos Hlen; cbn [writeNestedTree]; [lia|].
  destruct (level (it files)) as [fc dc] eqn:Hlv. intros [H|([dirs st1] & _ & H)]%bind_Err.
  - apply write_dirs_err in H as (name & sub & st' & Hin%elem_of_iter & H). revert H.
    assert (forall rest b, sub !! rest = Some b -> (S (length (split slash rest)) <= S fuel)%nat) as Hsub.
    { intros rest b Hr. assert (at_level (fc, dc) name rest = Some b) as Ha by (unfold at_level; cbn; by rewrite Hin).
      destruct (level_spec (it files)) as [_ Hd]; [apply iter_NoDup|]. rewrite Hlv in Hd.
      apply Hd in Ha as [Hx%elem_of_iter%Hlen Hn]. by rewrite split_app in Hx. }
    destruct (level_nonempty (it files) name sub) as (rest & b & Hr); [by rewrite Hlv|].
    apply IH; [|intros p b' Hp; apply Hsub in Hp; lia]. apply Hsub in Hr.
    destruct (split_cons slash rest) as (x & xs & Hs). rewrite Hs in Hr. cbn in Hr. lia.
  - unfold writeFlatTree in H. apply bind_Err in H as [H|(d & _ & [=])]. by destruct (EncodeTree _) in H.
Qed.
Lemma depth_bound files p b : files !! p = Some b -> (length (split slash p) <= depth files)%nat.
Proof.
  intros Hp. apply max_list_elem_of_le, list_elem_of_fmap. exists p. split; [done|].
  apply list_elem_of_fmap. exists (p, b). split; [done|]. by apply elem_of_map_to_list.
Qed.
Lemma writeNestedTree_err fuel it itd files st e :
  writeNestedTree fuel it itd files st = Err e -> e = EEncodeTree \/ e = EFuel.
Proof.
  revert files st. induction fuel as [|fuel IH]; intros files st; cbn [writeNestedTree]; [intros [= <-]; by right|].
  destruct (level (it files)) as [fc dc]. intros [H|([dirs st1] & _ & H)]%bind_Err.
  - apply write_dirs_err in H as (name & sub & st' & _ & H). by apply IH in H.
  - unfold writeFlatTree in H. apply bind_Err in H as [H|(d & _ & [=])].
    destruct (EncodeTree _); [done|]. injection H as <-. by left.
Qed.

(** ** The flattened tree *)

Definition flat (out : list TreeEntry) : Files :=
  fold_left (fun out e => if te_Mode e =? filemode_Dir then out else <[te_Name e := mkEntry (te_Hash e) (te_Mode e)]> out) out ∅.
Lemma flat_spec out p :
  (forall b, flat out !! p = Some b -> be_mode b <> filemode_Dir /\ file_entry (p, b) ∈ out) /\
  (forall b, be_mode b <> filemode_Dir -> file_entry (p, b) ∈ out -> is_Some (flat out !! p)).
Proof.
  unfold flat. induction out as [|[n m h] out [IH1 IH2]] using rev_ind.
  { split; [done|]. by intros b _ ?%not_elem_of_nil. }
  rewrite fold_left_app. cbn. setoid_rewrite elem_of_app. setoid_rewrite list_elem_of_singleton.
  destruct (Z.eqb_spec m filemode_Dir) as [->|Hm].
  { split; [naive_solver|]. intros b Hb [Hin|[= _ Hx _]]; [by eapply IH2|by rewrite Hx in Hb]. }
  destruct (decide (p = n)) as [->|Hne].
  - rewrite lookup_insert_eq. split; [|by eauto]. intros b [= <-]. split; [done|by right].
  - rewrite lookup_insert_ne by done. split; [naive_solver|]. intros b Hb [Hin|[= -> _ _]]; [by eapply IH2|done].
Qed.
Lemma holds_reads st h files : addressed st -> Forall (fun x => be_mode x.2 <> filemode_Dir) (map_to_list files) ->
  holds st h files -> exists walk, WalkTree st h = Some walk /\ flattenTree walk = Ok files.
Proof.
  intros A Hm (d & es & out & Hh & He & Hw & Hf). exists (out, false). split; [by eapply walk_tree|].
  unfold flattenTree. cbn. f_equal. fold (flat out). apply map_eq. intros p. destruct (flat_spec out p) as [H1 H2].
  destruct (flat out !! p) as [b|] eqn:Hb.
  - destruct (H1 b eq_refl) as [Hmb Hin]. by apply Hf in Hin as ->.
  - destruct (files !! p) as [b|] eqn:Hp; [|done]. rewrite Forall_forall in Hm.
    assert (be_mode b <> filemode_Dir) as Hmb by (by apply (Hm (p, b)), elem_of_map_to_list).
    apply Hf in Hp; [|done]. by apply H2 in Hp as [? [=]].
Qed.

Lemma write_tree_err it itd files st e : write_tree it itd files st = Err e -> e = EEncodeTree.
Proof.
  intros H. destruct (writeNestedTree_err _ _ _ _ _ _ H) as [He| ->]; [done|].
  apply enough_fuel in H; [done|lia|]. intros p b Hp%depth_bound. lia.
Qed.
Lemma write_dirs_grows (write : Files -> Storage -> res tree_err (string * Storage)) l st es st' :
  (forall sub st h st', addressed st -> write sub st = Ok (h, st') -> addressed st' /\ st ⊆ st') ->
  addressed st -> write_dirs write l st = Ok (es, st') -> addressed st' /\ st ⊆ st'.
Proof.
  intros Hw. revert st es. induction l as [|[name sub] l IH]; intros st es A; cbn [write_dirs]; [by intros [= <- <-]|].
  intros ([h st1] & H1 & H)%bind_Ok. apply bind_Ok in H as ([es1 st2] & H2 & H). injection H as <- <-.
  apply Hw in H1 as [A1 S1]; [|done]. apply IH in H2 as [A2 S2]; [|done]. split; [done|by etrans].
Qed.
Lemma write_tree_grows it itd files st h st' : addressed st -> write_tree it itd files st = Ok (h, st') ->
  addressed st' /\ st ⊆ st'.
Proof.
  unfold write_tree. generalize (S (depth files)). intros fuel. revert files st h st'.
  induction fuel as [|fuel IH]; intros files st h st' A; cbn [writeNestedTree]; [done|].
  destruct (level (it files)) as [fc dc]. intros ([dirs st1] & H1 & H)%bind_Ok. unfold writeFlatTree in H.
  apply bind_Ok in H as (d & _ & H). injection H as Hh Hst.
  apply write_dirs_grows in H1 as [A1 S1]; [|intros sub st2 h2 st3 A2; by apply IH|done].
  destruct (SetEncodedObject_grows TreeObject d st1 h st' A1) as (A' & S' & _); [by rewrite <- Hh, <- Hst|].
  split; [done|by etrans].
Qed.
Lemma writeCommit_spec p st c st' : addressed st -> writeCommit p st = Ok (c, st') ->
  addressed st' /\ st ⊆ st' /\ exists d g, st' !! c = Some (CommitObject, d) /\ DecodeCommit d = Some g /\
    g_TreeHash g = cp_tree p /\ g_ParentHashes g = cp_parents p.
Proof.
  intros A (d & He%res_of_option_Ok & Hc)%bind_Ok. injection Hc as Hc Hs.
  destruct (SetEncodedObject_grows CommitObject d st c st' A) as (A2 & S2 & Hl); [by rewrite <- Hc, <- Hs|].
  destruct (decode_commit _ _ He) as (g & Hg & Ht & Hp). split_and!; [done|done|]. by exists d, g.
Qed.
Lemma commitFiles_mono st st' c files : st ⊆ st' -> addressed st' -> commitFiles st c = Ok files ->
  commitFiles st' c = Ok files.
Proof.
  intros Hs A. unfold commitFiles. destruct (st !! c) as [[[] d]|] eqn:Hc; try done.
  rewrite (lookup_weaken _ _ _ _ Hc Hs). intros (g & Hg & H)%bind_Ok. rewrite Hg. cbn.
  apply bind_Ok in H as ([out failed] & Hw%res_of_option_Ok & H). unfold flattenTree in H. cbn in H.
  destruct failed; [done|]. by rewrite (walk_mono st st' _ _ Hs A Hw).
Qed.
Lemma write_commit_reads it itd files p st h st1 c st2 : addressed st -> files_ok files ->
  write_tree it itd files st = Ok (h, st1) -> cp_tree p = h -> writeCommit p st1 = Ok (c, st2) ->
  commitFiles st2 c = Ok files /\ addressed st2 /\ st ⊆ st2.
Proof.
  intros A Hok Hw Hp Hc. destruct (write_tree_ok _ _ _ _ _ _ _ A Hok Hw) as (A1 & S1 & Hh).
  destruct (writeCommit_spec _ _ _ _ A1 Hc) as (A2 & S2 & d & g & Hl & Hg & Ht & _).
  destruct (holds_reads st2 h files A2) as (walk & Hwk & Hfl).
  { apply Forall_forall. intros [q b] Hin%elem_of_map_to_list. by apply Hok in Hin as [? _]. }
  { by eapply holds_mono. }
  split_and!; [|done|by etrans]. unfold commitFiles. rewrite Hl. cbn. rewrite Hg. cbn. rewrite Ht, Hp, Hwk. done.
Qed.

(** C14. The store reads back what it wrote: over a content-addressed store the
    nested tree of a well-formed file set is written, unless the encoder refuses
    one of its levels, and the files of any commit then written over it are that
    set again, whatever the order in which the source ranged over its maps;
    every object that was there still is. *)
Theorem write_read_tree it itd files st : addressed st -> files_ok files ->
  match write_tree it itd files st with
  | Err e => e = EEncodeTree
  | Ok (h, st1) => forall p c st2, cp_tree p = h -> writeCommit p st1 = Ok (c, st2) ->
      commitFiles st2 c = Ok files /\ addressed st2 /\ st ⊆ st2
  end.
Proof.
  intros A Hok. destruct (write_tree it itd files st) as [[h st1]|e] eqn:Hw; [|by eapply write_tree_err].
  intros p c st2 Hp Hc. by eapply write_commit_reads.
Qed.
End RoundTrip.
