(* ===== verification/TreeDiff.v ===== *)
(** * The difference of two trees

    What go-git's [Tree.Diff] gives the merge and the rollback, with the law of
    it they rely on, and the part of [internal/store/git/diff.go] that turns its
    changes into the diffs the services work with. *)

From Stdlib Require Import ZArith Lia Ascii String.
From S2P Require Import Prelude GoStrings ModelCommit LandWire LandVerify DiskTree Projection GitTree.

Open Scope Z_scope.
Open Scope list_scope.

(** An element of go-git's [Changes]: the name, mode and hash on each side, all
    zero on a side that has no such path. *)
Record ChangeEntry := mkChangeEntry { ce_Name : string; ce_Mode : Z; ce_Hash : string }.
#[export] Instance ChangeEntry_eq_dec : EqDecision ChangeEntry.
Proof. solve_decision. Defined.
Definition no_entry : ChangeEntry := mkChangeEntry "" 0 ZeroHash.
Definition entry_at (p : string) (e : option blobEntry) : ChangeEntry :=
  match e with Some e => mkChangeEntry p (be_mode e) (be_hash e) | None => no_entry end.
Record change := mkChange { ch_From : ChangeEntry; ch_To : ChangeEntry }.
(** The difference of two trees of a store, and the display hunk of a change
    ([changeHunks], from go-git's patch encoder). *)
Class TreeDiffer := {
  diff_trees : Storage -> string -> string -> option (list change);
  changeHunks : Storage -> change -> list Hunk }.
Definition ch_path (c : change) : string := if String.eqb (ce_Name (ch_To c)) "" then ce_Name (ch_From c) else ce_Name (ch_To c).
Definition filemode_Deprecated : Z := 33204. (* 0100664 *)
(** What the comparison sees of an entry: the deprecated mode of a regular file
    is that of a regular file. *)
Definition diff_view (e : blobEntry) : string * Z :=
  (be_hash e, if be_mode e =? filemode_Deprecated then filemode_Regular else be_mode e).
(** A side's entry differs from the base's. *)
Definition differs (base side : Files) (p : string) : Prop := diff_view <$> base !! p <> diff_view <$> side !! p.

(** A stored tree walked to the end that names no path twice and none empty, and its files. *)
Definition tidy_tree `{G : GoGit} (st : Storage) (t : string) (files : Files) : Prop := exists es,
  WalkTree st t = Some (es, false) /\ NoDup (map te_Name es) /\ "" ∉ map te_Name es /\ flattenTree (es, false) = Ok files.

(** A commit with such a tree. *)
Definition tidy `{G : GoGit} (st : Storage) (h : string) (files : Files) : Prop := exists d g,
  st !! h = Some (CommitObject, d) /\ DecodeCommit d = Some g /\ tidy_tree st (g_TreeHash g) files.

(** Between two such trees, the changes are the paths whose entries differ, once
    each, with the entries of the two sides. *)
Class TreeDifferLaws `{G : GoGit} (T : TreeDiffer) : Prop := {
  diff_trees_exact : forall st t t' base target, tidy_tree st t base -> tidy_tree st t' target ->
    exists l, diff_trees st t t' = Some l /\ NoDup (map ch_path l) /\
      (forall p, p ∈ map ch_path l <-> differs base target p) /\
      (forall c, c ∈ l -> exists p, differs base target p /\ c = mkChange (entry_at p (base !! p)) (entry_at p (target !! p))) }.

(** ** Diffs *)

(** [diffModeFromGit], [gitModeFromDiff]. *)
Definition diffModeFromGit (m : Z) : Z :=
  if m =? filemode_Executable then FileModeExecutable else if m =? filemode_Symlink then FileModeSymlink else FileModeRegular.
Definition gitModeFromDiff (m : Z) : Z :=
  if m =? FileModeExecutable then filemode_Executable else if m =? FileModeSymlink then filemode_Symlink else filemode_Regular.
Definition changeToFileDiff `{T : TreeDiffer} (st : Storage) (c : change) : FileDiff :=
  let from := ch_From c in
  let to := ch_To c in
  if bool_decide (from = no_entry) then
    if bool_decide (to = no_entry) then mkFileDiff (ce_Name to) DiffModified "" "" [] false 0 0
    else mkFileDiff (ce_Name to) DiffAdded "" (ce_Hash to) (changeHunks st c) false (diffModeFromGit (ce_Mode to)) 0
  else if bool_decide (to = no_entry) then
    mkFileDiff (ce_Name from) DiffDeleted (ce_Hash from) "" (changeHunks st c) false (diffModeFromGit (ce_Mode from)) (diffModeFromGit (ce_Mode from))
  else mkFileDiff (ce_Name to) DiffModified (ce_Hash from) (ce_Hash to) (changeHunks st c) false
         (diffModeFromGit (ce_Mode to)) (diffModeFromGit (ce_Mode from)).

(** The entry as it is after a round through a diff: one of the three modes. *)
Definition diff_entry (e : blobEntry) : blobEntry := mkEntry (be_hash e) (gitModeFromDiff (diffModeFromGit (be_mode e))).
Lemma diff_modes m : diffModeFromGit (gitModeFromDiff m) = if (m =? 1) || (m =? 2) then m else 0.
Proof. unfold gitModeFromDiff, FileModeExecutable, FileModeSymlink. destruct (Z.eqb_spec m 1) as [->|]; [done|]. by destruct (Z.eqb_spec m 2) as [->|]. Qed.
Lemma tidy_named `{G : GoGit} st t files : tidy_tree st t files -> files !! "" = None.
Proof.
  intros (es & _ & _ & Hn & Hf). unfold flattenTree in Hf. cbn in Hf. injection Hf as <-.
  cut (forall m : Files, m !! "" = None -> fold_left (fun out e => if te_Mode e =? filemode_Dir then out
    else <[te_Name e := mkEntry (te_Hash e) (te_Mode e)]> out) es m !! "" = None); [intros H; by apply H|].
  induction es as [|e es IH]; intros m Hm; cbn [fold_left]; [done|]. cbn in Hn. apply not_elem_of_cons in Hn as [Hne Hn].
  apply IH; [done|]. destruct (_ =? _); [done|]. by rewrite lookup_insert_ne.
Qed.

(** The diff of a path whose entries differ, the path not empty. *)
Definition diff_of `{T : TreeDiffer} (st : Storage) (p : string) (base target : option blobEntry) : FileDiff :=
  changeToFileDiff st (mkChange (entry_at p base) (entry_at p target)).
(** What a diff keeps of an entry: its hash and one of three modes. *)
Definition diff_key (e : blobEntry) : string * Z := (be_hash e, diffModeFromGit (be_mode e)).
Lemma entry_named p e : p <> "" -> entry_at p (Some e) <> no_entry.
Proof. intros Hp [= He]. done. Qed.
Lemma diff_of_fields `{T : TreeDiffer} st p base target : p <> "" -> is_Some base \/ is_Some target ->
  fd_Path (diff_of st p base target) = p /\
  Operation (diff_of st p base target) = match base, target with None, _ => DiffAdded | _, None => DiffDeleted | _, _ => DiffModified end /\
  (forall e, base = Some e -> OldHash (diff_of st p base target) = be_hash e /\ OldMode (diff_of st p base target) = diffModeFromGit (be_mode e)) /\
  (forall e, target = Some e -> NewHash (diff_of st p base target) = be_hash e /\ fd_Mode (diff_of st p base target) = diffModeFromGit (be_mode e)).
Proof.
  intros Hp Hs. unfold diff_of, changeToFileDiff. cbn [ch_From ch_To].
  destruct base as [b|], target as [t|]; [..|by destruct Hs as [[? [=]]|[? [=]]]];
    repeat (rewrite (bool_decide_eq_false_2 (entry_at p (Some _) = no_entry)) by by apply entry_named);
    rewrite ?(bool_decide_eq_true_2 (entry_at p None = no_entry)) by done; cbn; naive_solver.
Qed.
(** The diffs of two trees: one for each path whose entries differ. *)
Lemma diff_trees_diffs `{G : GoGit} {T : TreeDiffer} {TL : TreeDifferLaws T} st t t' base target :
  tidy_tree st t base -> tidy_tree st t' target -> exists l, diff_trees st t t' = Some l /\
    NoDup (map fd_Path (map (changeToFileDiff st) l)) /\
    (forall p, p ∈ map fd_Path (map (changeToFileDiff st) l) <-> differs base target p) /\
    (forall d, d ∈ map (changeToFileDiff st) l -> exists p, p <> "" /\ differs base target p /\ d = diff_of st p (base !! p) (target !! p)).
Proof.
  intros Tb Tt. destruct (diff_trees_exact _ _ _ _ _ Tb Tt) as (l & Hl & Hnd & Hin & Hc). exists l.
  assert (forall p, differs base target p -> p <> "") as Hne.
  { intros p Hd ->. unfold differs in Hd. by rewrite (tidy_named _ _ _ Tb), (tidy_named _ _ _ Tt) in Hd. }
  assert (map fd_Path (map (changeToFileDiff st) l) = map ch_path l) as Hp.
  { rewrite map_map. apply map_ext_in. intros c (p & Hd & ->)%list_elem_of_In%Hc. pose proof (Hne p Hd) as Hp.
    assert (is_Some (base !! p) \/ is_Some (target !! p)) as Hs.
    { unfold differs in Hd. destruct (base !! p); [left; by eexists|]. destruct (target !! p); [right; by eexists|done]. }
    destruct (diff_of_fields st p _ _ Hp Hs) as (Hx & _). unfold diff_of in Hx. rewrite Hx. unfold ch_path. cbn.
    destruct (target !! p); cbn; [by destruct (String.eqb_spec p "")|]. destruct (base !! p); [done|]. by destruct Hs as [[? ?]|[? ?]]. }
  rewrite Hp. split_and!; [done|done|done|]. intros d (c & -> & (p & Hd & ->)%Hc)%list_elem_of_fmap. exists p. auto.
Qed.
