(* ===== verification/GitToy.v ===== *)
(** * A concrete object store

    An instance of the classes the store's models are stated over: a hash that
    is its own content, and encoders of trees and commits with their decoders.
    It shows that the laws can hold, and the witnesses evaluate over it. *)

From Stdlib Require Import ZArith Lia Ascii String.
From S2P Require Import Prelude StateErr GoStrings LandWire LandVerify DiskTree Projection GitTree TreeDiff.

Open Scope Z_scope.
Open Scope list_scope.

(** A field: its characters, each after a one, and a zero. *)
Fixpoint put_str (s : string) : bytes :=
  match s with "" => ["0"%char] | String c s => "1"%char :: c :: put_str s end.
Fixpoint get_str (d : bytes) : option (string * bytes) :=
  match d with
  | "0"%char :: d => Some ("", d)
  | "1"%char :: c :: d => '(s, d) ← get_str d; Some (String c s, d)
  | _ => None
  end.
Lemma get_put_str s d : get_str (put_str s ++ d) = Some (s, d).
Proof. induction s as [|c s IH]; [done|]. cbn. by rewrite IH. Qed.

(** A list of fields. *)
Fixpoint put_list (l : list string) : bytes :=
  match l with [] => ["0"%char] | s :: l => "1"%char :: put_str s ++ put_list l end.
Fixpoint get_list (n : nat) (d : bytes) : option (list string) :=
  match n, d with
  | _, ["0"%char] => Some []
  | S n, "1"%char :: d => '(s, d) ← get_str d; l ← get_list n d; Some (s :: l)
  | _, _ => None
  end.
Lemma put_list_length l : (length l < length (put_list l))%nat.
Proof. induction l; cbn; [lia|]. rewrite length_app. lia. Qed.
Lemma get_put_list n l : (length l <= n)%nat -> get_list n (put_list l) = Some l.
Proof.
  revert n. induction l as [|s l IH]; intros n Hn; [by destruct n|]. destruct n as [|n]; [cbn in Hn; lia|].
  cbn in Hn |- *. rewrite get_put_str. cbn. rewrite IH by lia. done.
Qed.
Definition read_list (d : bytes) : option (list string) := get_list (length d) d.
Lemma read_put_list l : read_list (put_list l) = Some l.
Proof. apply get_put_list. pose proof (put_list_length l). lia. Qed.

(** The four modes. *)
Definition put_mode (m : Z) : option string :=
  if m =? filemode_Dir then Some "d" else if m =? filemode_Regular then Some "r"
  else if m =? filemode_Executable then Some "x" else if m =? filemode_Symlink then Some "l" else None.
Definition get_mode (s : string) : Z :=
  if String.eqb s "d" then filemode_Dir else if String.eqb s "r" then filemode_Regular
  else if String.eqb s "x" then filemode_Executable else filemode_Symlink.
Lemma get_put_mode m s : put_mode m = Some s -> get_mode s = m.
Proof.
  unfold put_mode. destruct (Z.eqb_spec m filemode_Dir) as [->|_]; [by intros [= <-]|].
  destruct (Z.eqb_spec m filemode_Regular) as [->|_]; [by intros [= <-]|].
  destruct (Z.eqb_spec m filemode_Executable) as [->|_]; [by intros [= <-]|].
  destruct (Z.eqb_spec m filemode_Symlink) as [->|_]; [by intros [= <-]|done].
Qed.

Fixpoint put_entries (es : list TreeEntry) : option (list string) :=
  match es with
  | [] => Some []
  | e :: es => m ← put_mode (te_Mode e); l ← put_entries es; Some (te_Name e :: m :: te_Hash e :: l)
  end.
Fixpoint get_entries (l : list string) : list TreeEntry :=
  match l with n :: m :: h :: l => mkTreeEntry n (get_mode m) h :: get_entries l | _ => [] end.
Lemma get_put_entries es l : put_entries es = Some l -> get_entries l = es.
Proof.
  revert l. induction es as [|[n m h] es IH]; intros l; cbn; [by intros [= <-]|].
  intros (s & Hm%get_put_mode & (l' & Hl%IH & [= <-])%bind_Some)%bind_Some. cbn. by rewrite Hm, Hl.
Qed.
Definition toy_EncodeTree (es : list TreeEntry) : option bytes := l ← put_entries es; Some (put_list l).
Definition toy_tree (d : bytes) : option (list TreeEntry) := get_entries <$> read_list d.
Lemma toy_tree_spec es d : toy_EncodeTree es = Some d -> toy_tree d = Some es.
Proof.
  intros (l & Hl%get_put_entries & [= <-])%bind_Some. unfold toy_tree. rewrite read_put_list. cbn. by rewrite Hl.
Qed.

(** A hash is the object's type and content: nothing collides, and a tree's
    hash is longer than those of its entries. *)
Definition toy_hash (t : ObjectType) (d : bytes) : string :=
  String (match t with CommitObject => "c" | TreeObject => "t" | BlobObject => "b" end) (string_of_list_ascii d).
Lemma toy_hash_inj t d t' d' : toy_hash t d = toy_hash t' d' -> t = t' /\ d = d'.
Proof.
  unfold toy_hash. intros [= Ht Hd]. split; [by destruct t, t'|].
  by rewrite <- (list_ascii_of_string_of_list_ascii d), Hd, list_ascii_of_string_of_list_ascii.
Qed.

Definition toy_valid (c : string) : bool := negb (bool_decide (c ∈ [""; "."; ".."; ".git"])).
Section Walk.
Context (walk : string -> option (list TreeEntry)).
Fixpoint toy_entries (es : list TreeEntry) : option (list TreeEntry) :=
  match es with
  | [] => Some []
  | e :: es =>
    if toy_valid (te_Name e) then
      sub ← (if te_Mode e =? filemode_Dir then walk (te_Hash e) else Some []);
      out ← toy_entries es;
      Some (e :: map (under (te_Name e)) sub ++ out)
    else None
  end.
End Walk.
Fixpoint toy_walk (n : nat) (st : Storage) (h : string) : option (list TreeEntry) :=
  match n, st !! h with
  | S n, Some (TreeObject, d) => es ← toy_tree d; toy_entries (toy_walk n st) es
  | _, _ => None
  end.
Definition toy_WalkTree (st : Storage) (h : string) : option (list TreeEntry * bool) :=
  out ← toy_walk (String.length h) st h; Some (out, false).

Definition toy_EncodeCommit (p : commitParams) : option bytes :=
  Some (put_list (cp_tree p :: cp_message p :: cp_name p :: itoa (cp_when p) :: cp_parents p)).
Definition toy_DecodeCommit (d : bytes) : option GitCommit :=
  match read_list d with
  | Some (tree :: message :: name :: _ :: parents) => Some (mkGitCommit message name 0 tree parents)
  | _ => None
  end.
#[export] Instance toy_git : GoGit :=
  {| ComputeHash := toy_hash; DecodeCommit := toy_DecodeCommit; WalkTree := toy_WalkTree |}.
#[export] Instance toy_writer : GitWriter :=
  {| EncodeTree := toy_EncodeTree; EncodeCommit := toy_EncodeCommit; valid_component := toy_valid |}.

(** ** The laws *)

Lemma put_str_length s : (String.length s <= length (put_str s))%nat.
Proof. induction s; cbn; lia. Qed.
Lemma put_list_elem s l : s ∈ l -> (String.length s < length (put_list l))%nat.
Proof.
  induction 1 as [s l|s s' l _ IH]; cbn; rewrite length_app; [pose proof (put_str_length s); pose proof (put_list_length l)|]; lia.
Qed.
Lemma put_entries_hash es l e : put_entries es = Some l -> e ∈ es -> te_Hash e ∈ l.
Proof.
  revert l. induction es as [|x es IH]; intros l; cbn; [by intros _ ?%not_elem_of_nil|].
  intros (m & _ & (l' & Hl & [= <-])%bind_Some)%bind_Some [->|Hin]%elem_of_cons.
  - do 2 right. by left.
  - do 3 right. by eapply IH.
Qed.
Lemma length_of_ascii d : String.length (string_of_list_ascii d) = length d.
Proof. induction d; cbn; by f_equal. Qed.
Lemma hash_smaller es d e : toy_EncodeTree es = Some d -> e ∈ es ->
  (String.length (te_Hash e) < String.length (toy_hash TreeObject d))%nat.
Proof.
  intros (l & Hl & [= <-])%bind_Some Hin. cbn. rewrite length_of_ascii.
  pose proof (put_list_elem _ _ (put_entries_hash _ _ _ Hl Hin)). lia.
Qed.
Lemma toy_walk_spec st es out : addressed st -> walks st es out ->
  forall n, Forall (fun e => String.length (te_Hash e) <= n)%nat es -> toy_entries (toy_walk n st) es = Some out.
Proof.
  intros A. induction 1 as [|e es out Hm Hv _ _ IH|e es d sub out1 out Hm Hv _ Hh He _ IH1 _ IH2]; intros n Hn; [done| |];
    apply Forall_cons in Hn as [Hn1 Hn]; cbn [toy_entries]; change (valid_component (te_Name e)) with (toy_valid (te_Name e)) in Hv;
    rewrite Hv.
  - rewrite (proj2 (Z.eqb_neq _ _) Hm). cbn. by rewrite IH.
  - rewrite (proj2 (Z.eqb_eq _ _) Hm). apply A in Hh as Heq. destruct n as [|n]; [rewrite <- Heq in Hn1; cbn in Hn1; lia|].
    assert (toy_walk (S n) st (te_Hash e) = Some out1) as Hw.
    { cbn [toy_walk]. rewrite Hh. rewrite (toy_tree_spec _ _ He). cbn. apply IH1, Forall_forall. intros e' Hin.
      pose proof (hash_smaller _ _ _ He Hin) as Hl. rewrite <- Heq in Hn1. cbn in Hl, Hn1. lia. }
    rewrite Hw. cbn [mbind option_bind]. by rewrite IH2.
Qed.
Lemma toy_entries_mono (walk walk' : string -> option (list TreeEntry)) es out :
  (forall h out, walk h = Some out -> walk' h = Some out) -> toy_entries walk es = Some out -> toy_entries walk' es = Some out.
Proof.
  intros Hw. revert out. induction es as [|e es IH]; intros out; cbn [toy_entries]; [done|].
  destruct (toy_valid _); [|done]. intros (sub & Hs & (out' & Ho & [= <-])%bind_Some)%bind_Some.
  destruct (te_Mode e =? filemode_Dir); [apply Hw in Hs; rewrite Hs|injection Hs as <-]; cbn; by rewrite (IH _ Ho).
Qed.
Lemma toy_walk_mono st st' n h out : st ⊆ st' -> toy_walk n st h = Some out -> toy_walk n st' h = Some out.
Proof.
  intros Hs. revert h out. induction n as [|n IH]; intros h out; cbn [toy_walk]; [done|].
  destruct (st !! h) as [[[] d]|] eqn:Hh; try done. rewrite (lookup_weaken _ _ _ _ Hh Hs).
  intros (es & He & H)%bind_Some. rewrite He. cbn. by eapply toy_entries_mono.
Qed.
#[export] Instance toy_laws : GitWriterLaws toy_git toy_writer.
Proof.
  split.
  - apply toy_hash_inj.
  - by intros [] d.
  - intros p d Hd. change (toy_EncodeCommit p = Some d) in Hd. apply (inj Some) in Hd as <-.
    unfold DecodeCommit, toy_git, toy_DecodeCommit. rewrite read_put_list. by eexists.
  - intros st st' h es Hs _. cbn. unfold toy_WalkTree. intros (out & Hw & [= <-])%bind_Some.
    by rewrite (toy_walk_mono _ _ _ _ _ Hs Hw).
  - intros st h d es out A Hh He Hw. cbn. unfold toy_WalkTree. apply A in Hh as Heq. cbn in Heq. subst h. cbn [String.length toy_hash toy_walk].
    rewrite Hh. cbn in He. rewrite (toy_tree_spec _ _ He). cbn. rewrite (toy_walk_spec st es out); [done|done|done|].
    apply Forall_forall. intros e Hin. pose proof (hash_smaller _ _ _ He Hin) as Hl. cbn in Hl. lia.
Qed.

(** A store built by writing into the empty one is content addressed. *)
Lemma addressed_empty : addressed ∅.
Proof. intros h t d. by rewrite lookup_empty. Qed.

(** ** Building a store *)

(** A commit of these files over these parents. *)
Definition toy_commit (files : list (string * string)) (parents : list string) (message : string) (st : Storage) : string * Storage :=
  let entries : Files := list_to_map (map (fun x => (x.1, mkEntry x.2 filemode_Regular)) files) in
  match ('(tree, st) ← write_tree key_order key_order entries st;
         writeCommit (mkParams tree parents message "agent" "agent@mgit" 0) st) with
  | Ok r => r
  | Err _ => ("", st)
  end.
Lemma toy_commit_grows files parents message st : addressed st ->
  addressed (toy_commit files parents message st).2 /\ st ⊆ (toy_commit files parents message st).2.
Proof.
  intros A. unfold toy_commit. set (entries := list_to_map _).
  destruct (write_tree key_order key_order entries st) as [[tree st1]|e] eqn:Hw; cbn [mbind res_bind]; [|done].
  destruct (write_tree_grows _ _ _ _ _ _ A Hw) as [A1 S1]. destruct (writeCommit _ st1) as [[c st2]|e] eqn:Hc; [|done].
  destruct (writeCommit_spec _ _ _ _ A1 Hc) as (A2 & S2 & _). split; [done|by etrans].
Qed.

(** ** A difference of trees *)

Definition toy_change (base target : Files) (p : string) : option TreeDiff.change :=
  if bool_decide (diff_view <$> base !! p = diff_view <$> target !! p) then None
  else Some (mkChange (entry_at p (base !! p)) (entry_at p (target !! p))).
Definition toy_changes (base target : Files) : list TreeDiff.change :=
  omap (toy_change base target) (elements (dom base ∪ dom target)).
Definition toy_diff (st : Storage) (t t' : string) : option (list TreeDiff.change) :=
  match WalkTree st t, WalkTree st t' with
  | Some walk, Some walk' =>
    match flattenTree walk, flattenTree walk' with
    | Ok base, Ok target => Some (toy_changes base target)
    | _, _ => None
    end
  | _, _ => None
  end.
#[export] Instance toy_differ : TreeDiffer := {| diff_trees := toy_diff; changeHunks := fun _ _ => [] |}.
Lemma toy_change_path base target p c : toy_change base target p = Some c ->
  differs base target p /\ c = mkChange (entry_at p (base !! p)) (entry_at p (target !! p)) /\ ch_path c = p.
Proof.
  unfold toy_change. case_bool_decide as Hd; [done|]. intros [= <-]. split_and!; [done|done|]. unfold ch_path. cbn.
  destruct (target !! p) as [e|] eqn:Ht; cbn.
  - destruct (String.eqb_spec p "") as [->|]; [|done]. by destruct (base !! "").
  - destruct (base !! p) eqn:Hb; [done|]. exfalso. by apply Hd.
Qed.
#[export] Instance toy_differ_laws : TreeDifferLaws toy_differ.
Proof.
  split. intros st t t' base target (es & Hw & _ & _ & Hf) (es' & Hw' & _ & _ & Hf'). exists (toy_changes base target).
  split; [cbn; unfold toy_diff; rewrite Hw, Hw', Hf, Hf'; done|]. split; [|split].
  - unfold toy_changes. pose proof (NoDup_elements (dom base ∪ dom target)) as Hn. induction Hn as [|p l Hp _ IH]; [constructor|].
    cbn. destruct (toy_change base target p) as [c|] eqn:Hc; [|done]. cbn. constructor; [|done].
    intros (c' & He & (q & Hq & Hc')%list_elem_of_omap)%list_elem_of_fmap.
    apply toy_change_path in Hc as (_ & _ & <-), Hc' as (_ & _ & <-). by rewrite He in Hp.
  - intros p. rewrite list_elem_of_fmap. split.
    + intros (c & -> & (q & _ & Hc)%list_elem_of_omap). by apply toy_change_path in Hc as (? & _ & ->).
    + intros Hd. destruct (toy_change base target p) as [c|] eqn:Hc.
      * exists c. split; [by apply toy_change_path in Hc as (_ & _ & ->)|]. apply list_elem_of_omap. exists p. split; [|done].
        apply elem_of_elements, elem_of_union. rewrite !elem_of_dom. unfold differs in Hd.
        destruct (base !! p); [left; by eexists|]. destruct (target !! p); [right; by eexists|done].
      * unfold toy_change in Hc. by rewrite bool_decide_eq_false_2 in Hc.
  - intros c (p & _ & Hc)%list_elem_of_omap. apply toy_change_path in Hc as (? & -> & _). by exists p.
Qed.

(** The files of a commit, and the check that its tree names no path twice. *)
Definition walk_of (st : Storage) (h : string) : list TreeEntry :=
  match st !! h with
  | Some (CommitObject, d) => match g ← DecodeCommit d; WalkTree st (g_TreeHash g) with Some (es, false) => es | _ => [] end
  | _ => []
  end.
Definition flat_of (st : Storage) (h : string) : Files := ok_or ∅ (flattenTree (walk_of st h, false)).
Definition tidyb (st : Storage) (h : string) : bool :=
  match st !! h with
  | Some (CommitObject, d) => match g ← DecodeCommit d; WalkTree st (g_TreeHash g) with Some (es, false) => bool_decide (NoDup (map te_Name es)) && bool_decide ("" ∉ map te_Name es) | _ => false end
  | _ => false
  end.
Lemma tidyb_tree st h : tidyb st h = true -> tidy st h (flat_of st h).
Proof.
  unfold tidyb, flat_of, walk_of, tidy. destruct (st !! h) as [[[] d]|]; try done. cbn [mbind option_bind].
  destruct (DecodeCommit d) as [g|] eqn:Hd; [|done]. cbn [mbind option_bind].
  destruct (WalkTree st (g_TreeHash g)) as [[es []]|] eqn:Hw; try done. intros [Hn%bool_decide_eq_true Hn'%bool_decide_eq_true]%andb_true_iff. exists d, g. split; [done|]. split; [done|]. by exists es.
Qed.
