(* ===== verification/Deliverable.v ===== *)
(** * The history a merge brings in

    [internal/service/deliverable_history.go], with [CommitStore.Parents]: the
    walk over every parent of a tip that refuses one with an undelivered sandbox
    land in its history. *)

From Stdlib Require Import ZArith Lia Ascii String.
From S2P Require Import Prelude GoStrings Ledger LandWire LandVerify.

Open Scope nat_scope.
Open Scope list_scope.

Section History.
Context `{G : GoGit}.

(** [CommitStore.Parents] of a full hash. *)
Definition Parents (st : Storage) (hash : string) : option (list string) :=
  match st !! hash with Some (CommitObject, d) => g_ParentHashes <$> DecodeCommit d | _ => None end.

Inductive deliver_err := DUndeliveredTip (h : string) | DUndelivered (h : string) | DUnreadable (h : string) | DFuel.

(** The loop over the queue; each turn takes one hash off it. *)
Fixpoint history_walk (fuel : nat) (st : Storage) (bad good : gset string) (tip : string) (seen : gset string)
    (queue : list string) : res deliver_err unit :=
  match queue with
  | [] => Ok tt
  | hash :: queue =>
    match fuel with
    | O => Err DFuel
    | S fuel =>
      if bool_decide (hash ∈ seen) then history_walk fuel st bad good tip seen queue
      else if bool_decide (hash ∈ bad) then Err (if String.eqb hash tip then DUndeliveredTip hash else DUndelivered hash)
      else if bool_decide (hash ∈ good) then history_walk fuel st bad good tip ({[ hash ]} ∪ seen) queue
      else match Parents st hash with
           | None => Err (DUnreadable hash)
           | Some parents => history_walk fuel st bad good tip ({[ hash ]} ∪ seen) (queue ++ parents)
           end
    end
  end.
(** The parents of the commits not seen yet, and one for the tip. *)
Definition weight (st : Storage) (seen : gset string) (l : list string) : nat :=
  sum_list_with (fun h => if bool_decide (h ∈ seen) then 0 else length (default [] (Parents st h))) l.
Definition history_fuel (st : Storage) : nat := S (weight st ∅ (map_to_list st).*1).
Definition requireDeliverableHistory (st : Storage) (T : Tables) (tip : string) : res deliver_err unit :=
  let '(undelivered, delivered) := LandAdmissions T in
  if bool_decide (undelivered = ∅) then Ok tt
  else history_walk (history_fuel st) st undelivered delivered tip ∅ [tip].

(** ** What the walk decides *)

(** The commits the walk is about: the tip and every parent, but nothing below a
    delivered land. *)
Inductive in_history (st : Storage) (delivered : gset string) (tip : string) : string -> Prop :=
  | in_history_tip : in_history st delivered tip tip
  | in_history_parent h ps p : in_history st delivered tip h -> h ∉ delivered ->
      Parents st h = Some ps -> p ∈ ps -> in_history st delivered tip p.

Section Spec.
Context (st : Storage) (bad good : gset string) (tip : string).
Let reach := in_history st good tip.

Lemma weight_seen l h seen : NoDup l -> h ∈ l -> h ∉ seen ->
  weight st seen l = weight st ({[ h ]} ∪ seen) l + length (default [] (Parents st h)).
Proof.
  intros Hnd Hin Hns. induction l as [|x l IH]; [by apply not_elem_of_nil in Hin|]. apply NoDup_cons in Hnd as [Hx Hnd].
  unfold weight in *. cbn [sum_list_with]. destruct (decide (x = h)) as [->|Hne].
  - rewrite bool_decide_eq_false_2 by done. rewrite (bool_decide_eq_true_2 (h ∈ {[h]} ∪ seen)) by set_solver.
    assert (forall l, h ∉ l -> sum_list_with (fun h0 => if bool_decide (h0 ∈ seen) then 0 else length (default [] (Parents st h0))) l =
      sum_list_with (fun h0 => if bool_decide (h0 ∈ {[h]} ∪ seen) then 0 else length (default [] (Parents st h0))) l) as Heq.
    { clear. intros l. induction l as [|y l IHl]; cbn; [done|]. intros [Hy Hl]%not_elem_of_cons. rewrite (IHl Hl). f_equal.
      by rewrite (bool_decide_ext (y ∈ {[h]} ∪ seen) (y ∈ seen)) by set_solver. }
    rewrite (Heq l Hx). lia.
  - apply elem_of_cons in Hin as [->|Hin]; [done|]. rewrite (IH Hnd Hin).
    rewrite (bool_decide_ext (x ∈ {[h]} ∪ seen) (x ∈ seen)) by set_solver. lia.
Qed.

Lemma weight_le l h seen : weight st ({[ h ]} ∪ seen) l <= weight st seen l.
Proof.
  unfold weight. induction l as [|x l IH]; cbn; [lia|]. case_bool_decide as H1; case_bool_decide as H2; try lia. set_solver.
Qed.

(** Every commit seen is fine, and its parents are seen or queued. *)
Definition covered (seen : gset string) (queue : list string) : Prop :=
  forall h, h ∈ seen -> h ∉ bad /\ (h ∈ good \/ h ∉ good /\ exists ps, Parents st h = Some ps /\ forall p, p ∈ ps -> p ∈ seen \/ p ∈ queue).
Definition walk_result (queue : list string) (r : res deliver_err unit) : Prop :=
  match r with
  | Ok _ => exists seen, covered seen [] /\ forall h, h ∈ queue -> h ∈ seen
  | Err (DUndeliveredTip h) => h = tip /\ reach h /\ h ∈ bad
  | Err (DUndelivered h) => h <> tip /\ reach h /\ h ∈ bad
  | Err (DUnreadable h) => reach h /\ h ∉ bad /\ h ∉ good /\ Parents st h = None
  | Err DFuel => False
  end.
Lemma Parents_elem h ps : Parents st h = Some ps -> h ∈ (map_to_list st).*1.
Proof.
  unfold Parents. destruct (st !! h) as [x|] eqn:Hh; [|done]. intros _. apply list_elem_of_fmap. exists (h, x). split; [done|].
  by apply elem_of_map_to_list.
Qed.
Lemma history_walk_spec fuel seen queue : covered seen queue -> (forall h, h ∈ queue -> reach h) ->
  length queue + weight st seen (map_to_list st).*1 <= fuel ->
  walk_result (elements seen ++ queue) (history_walk fuel st bad good tip seen queue).
Proof.
  revert seen queue. induction fuel as [|fuel IH]; intros seen queue Hc Hr Hf.
  { destruct queue; [|cbn in Hf; lia]. exists seen. split; [done|]. intros h. set_solver. }
  destruct queue as [|hash queue]; [exists seen; split; [done|]; intros h; set_solver|]. cbn [history_walk length] in *.
  assert (reach hash) as Hh by (apply Hr; by left).
  assert (forall h, h ∈ queue -> reach h) as Hq by (intros; apply Hr; by right).
  assert (forall seen' q', (forall h, h ∈ elements seen ++ hash :: queue -> h ∈ elements seen' ++ q') ->
    walk_result (elements seen' ++ q') (history_walk fuel st bad good tip seen' q') ->
    walk_result (elements seen ++ hash :: queue) (history_walk fuel st bad good tip seen' q')) as Hmono.
  { intros seen' q' Hsub. destruct (history_walk fuel st bad good tip seen' q') as [[]|e]; [|done].
    intros (s & Hs & Hin). exists s. split; [done|]. auto. }
  case_bool_decide as Hseen.
  { apply Hmono; [set_solver|]. apply IH; [|done|lia]. intros h Hhs. destruct (Hc h Hhs) as [Hb [Hg|(Hg & ps & Hps & Hp)]]; [auto|].
    split; [done|]. right. split; [done|]. exists ps. split; [done|]. intros p Hpp. destruct (Hp p Hpp); set_solver. }
  case_bool_decide as Hbad.
  { by destruct (String.eqb_spec hash tip). }
  case_bool_decide as Hgood.
  { apply Hmono; [intros h; rewrite !elem_of_app, !elem_of_elements; set_solver|]. apply IH; [|done|].
    - intros h [->%elem_of_singleton|Hhs]%elem_of_union; [by split; [|left]|].
      destruct (Hc h Hhs) as [Hb [Hg|(Hg & ps & Hps & Hp)]]; [auto|].
      split; [done|]. right. split; [done|]. exists ps. split; [done|]. intros p Hpp. destruct (Hp p Hpp); set_solver.
    - pose proof (weight_le (map_to_list st).*1 hash seen). lia. }
  destruct (Parents st hash) as [ps|] eqn:Hps; [|done].
  apply Hmono; [intros h; rewrite !elem_of_app, !elem_of_elements; set_solver|]. apply IH.
  - intros h [->%elem_of_singleton|Hhs]%elem_of_union.
    { split; [done|]. right. split; [done|]. exists ps. split; [done|]. set_solver. }
    destruct (Hc h Hhs) as [Hb [Hg|(Hg & ps' & Hps' & Hp)]]; [auto|].
    split; [done|]. right. split; [done|]. exists ps'. split; [done|]. intros p Hpp. destruct (Hp p Hpp); set_solver.
  - intros h [?|?]%elem_of_app; [auto|]. by eapply in_history_parent.
  - rewrite (weight_seen _ hash seen) in Hf by (done || apply NoDup_fst_map_to_list || by eapply Parents_elem).
    rewrite Hps in Hf. cbn in Hf. rewrite length_app. lia.
Qed.
End Spec.

(** A row of the ledger that a land wrote and no delivery has followed. *)
Definition undelivered_row (T : Tables) (h : string) : Prop := exists r, r ∈ t_commits T /\ cr_CommitHash r = h /\
  co_Origin (content_of T r) = OriginLand /\ is_delivered (content_of T r) = false.
Lemma LandAdmissions_undelivered T h : h ∈ (LandAdmissions T).1 <-> undelivered_row T h.
Proof.
  unfold LandAdmissions, undelivered_row. cbn [fst]. rewrite elem_of_list_to_set, list_elem_of_fmap. split.
  - intros (c & -> & [[(r & <- & Hr%list_elem_of_In)%in_map_iff Ho]%filter_In Hd]%list_elem_of_In%filter_In).
    rewrite merge_sort_Permutation in Hr. exists r. rewrite content_of_row. apply String.eqb_eq in Ho. by apply negb_true_iff in Hd.
  - intros (r & Hr & <- & Ho & Hd). exists (content_of T r). rewrite content_of_row. split; [done|].
    apply list_elem_of_In, filter_In. rewrite Hd. split; [|done]. apply filter_In. split; [|by apply String.eqb_eq].
    apply in_map, list_elem_of_In. by rewrite merge_sort_Permutation.
Qed.

(** The outcome of the walk. *)
Lemma requireDeliverableHistory_spec st T tip :
  let reach := in_history st (LandAdmissions T).2 tip in
  match requireDeliverableHistory st T tip with
  | Ok _ => (forall h, ~ undelivered_row T h) \/
      forall h, reach h -> ~ undelivered_row T h /\ (h ∈ (LandAdmissions T).2 \/ is_Some (Parents st h))
  | Err (DUndeliveredTip h) => h = tip /\ undelivered_row T h
  | Err (DUndelivered h) => h <> tip /\ reach h /\ undelivered_row T h
  | Err (DUnreadable h) => reach h /\ h ∉ (LandAdmissions T).2 /\ Parents st h = None
  | Err DFuel => False
  end.
Proof.
  cbn zeta. unfold requireDeliverableHistory. pose proof (LandAdmissions_undelivered T) as Hu.
  destruct (LandAdmissions T) as [bad good]. cbn [fst snd] in *. case_bool_decide as Hb.
  { left. intros h Hh%Hu. set_solver. }
  assert (walk_result st bad good tip (elements (∅ : gset string) ++ [tip]) (history_walk (history_fuel st) st bad good tip ∅ [tip])) as H.
  { apply history_walk_spec; [intros h; set_solver| |unfold history_fuel; cbn; lia].
    intros h ->%list_elem_of_singleton. constructor. }
  destruct (history_walk _ _ _ _ _ _ _) as [[]|[h|h|h|]]; cbn in H.
  - right. destruct H as (seen & Hc & Hin). assert (forall h, in_history st good tip h -> h ∈ seen) as Hall.
    { induction 1 as [|h ps p _ IH Hg Hps Hp]; [apply Hin; set_solver|].
      destruct (Hc h IH) as [_ [?|(_ & ps' & Hps' & Hp')]]; [done|]. assert (ps' = ps) as -> by congruence.
      destruct (Hp' p Hp); [done|set_solver]. }
    intros h Hh%Hall. destruct (Hc h Hh) as [Hb' [Hg|(_ & ps & Hps & _)]]; rewrite <- Hu; [by split; [|left]|]. split; [done|]. right. by eexists.
  - destruct H as (-> & _ & H). by rewrite <- Hu.
  - destruct H as (? & ? & H). by rewrite <- Hu.
  - by destruct H as (? & _ & ? & ?).
  - done.
Qed.
(** C18. The walk ends, and refuses exactly the tips it cannot vouch for. It
    succeeds if and only if nothing in the whole ledger is an undelivered land,
    or no commit of the tip's history, followed through every parent and not
    below a delivered land, is one, and each of those commits can be read. An
    error names an undelivered land of that history, the tip itself in its own
    case, or a commit of it that cannot be read; and the turns of the loop, one
    per parent recorded in the store and one more, are always enough. *)
Theorem requireDeliverableHistory_exact st T tip :
  let reach := in_history st (LandAdmissions T).2 tip in
  (requireDeliverableHistory st T tip = Ok tt <->
   (forall h, ~ undelivered_row T h) \/
   forall h, reach h -> ~ undelivered_row T h /\ (h ∈ (LandAdmissions T).2 \/ is_Some (Parents st h))) /\
  forall e, requireDeliverableHistory st T tip = Err e ->
    match e with
    | DUndeliveredTip h => h = tip /\ undelivered_row T h
    | DUndelivered h => h <> tip /\ reach h /\ undelivered_row T h
    | DUnreadable h => reach h /\ Parents st h = None
    | DFuel => False
    end.
Proof.
  cbn zeta. pose proof (requireDeliverableHistory_spec st T tip) as H. split.
  - destruct (requireDeliverableHistory st T tip) as [[]|e] eqn:Hr; [by split|]. split; [done|]. intros Hall. exfalso.
    assert (forall h, in_history st (LandAdmissions T).2 tip h -> ~ undelivered_row T h) as Hn.
    { intros h Hh. destruct Hall as [Hall|Hall]; [done|by apply Hall in Hh as [? _]]. }
    destruct e as [h|h|h|]; cbn in H; [|by destruct H as (_ & Hh%Hn & ?)| |done].
    + destruct H as [-> H]. by apply (Hn tip); [constructor|].
    + destruct H as (Hh & Hg & Hp). destruct Hall as [Hall|Hall].
      * unfold requireDeliverableHistory in Hr. pose proof (LandAdmissions_undelivered T) as Hu.
        destruct (LandAdmissions T) as [bad good]. cbn [fst] in Hu. rewrite bool_decide_eq_true_2 in Hr; [done|].
        apply leibniz_equiv, elem_of_equiv_empty. intros x Hx%Hu. by apply Hall in Hx.
      * apply Hall in Hh as [_ [?|[? ?]]]; [done|congruence].
  - intros e He. rewrite He in H. destruct e; naive_solver.
Qed.
End History.
