(* ===== verification/CommitStore.v ===== *)
(** * Staging and committing

    [internal/store/git/commit.go], [staging.go], [staging_directory.go],
    [staging_guard.go], [worktree.go], with the walk of [worktree_fs.go], the
    ignore filter of [worktree_tracked.go] and [generated_block.go]: what the
    working tree is read as, the status of it against HEAD, the staging set, the
    tree a commit is built from, and the commit that advances the branch. *)

From Stdlib Require Import ZArith Lia Ascii String.
From S2P Require Import Prelude StateErr GoStrings ModelCommit LandWire LandVerify DiskTree Projection GitTree.

Open Scope Z_scope.
Open Scope list_scope.

Inductive vc_err :=
  | VProj (e : proj_err) | VTree (e : tree_err) | VRead (path : string) | VLstat (path : string)
  | VDirEntry (path : string) | VStaged (problems : list vc_err) | VClash (path : string)
  | VGenerated | VTracked | VTooLarge (path : string) | VNoMatch (path : string) | VBadPath (path : string)
  | VRefMoved | VNoBranch | VDirty (paths : list string).

(** The store and the checkout: the objects, and the references, disk and
    staging set of [Projection.Repo]. *)
Record VcState := mkVc { vc_objects : Storage; vc_repo : Repo }.
Definition vc_set_objects (st : Storage) (s : VcState) : VcState := mkVc st (vc_repo s).
Definition vc_set_repo (r : Repo) (s : VcState) : VcState := mkVc (vc_objects s) r.
Definition set_staged (l : option (list string)) (r : Repo) : Repo := mkRepo (rp_refs r) (rp_bound r) (rp_disk r) l.
Definition set_bound (b : string) (r : Repo) : Repo := mkRepo (rp_refs r) b (rp_disk r) (rp_staged r).
Definition VcM := ST VcState vc_err.

(** What the operations read besides the state: the host around the disk, the
    clock, the paths of the generated manifest ([None]: it cannot be read), the
    gitignore matcher, the paths the project's git has committed ([None]: they
    cannot be read), whether [os.Stat] follows a link's text to something, what
    other processes do to the references between a read and the compare-and-set,
    and the orders of the map ranges. *)
Record VcEnv := mkVcEnv {
  ve_host : HostFS; ve_now : time; ve_generated : option (list string); ve_ignored : Path -> bool -> bool;
  ve_committed : option (list string); ve_stat : string -> bool; ve_others : gmap string string -> gmap string string;
  ve_it : MapIter blobEntry; ve_itd : MapIter Files; ve_orders : Orders }.

(** ** The generated block *)

Definition block_begin : string := "BEGIN mgit-sandbox".
Definition block_end : string := "END mgit-sandbox".
Fixpoint skipBlanks (s : string) : string :=
  match s with
  | String c r => if existsb (Ascii.eqb c) [" "; "009"; "013"]%char then skipBlanks r else s
  | "" => ""
  end.
(** What follows the marker on its line. *)
Definition markerAfter (line word : string) : option string :=
  let i := skipBlanks line in
  let '(comment, i) :=
    match cut_prefix "<!--" i with
    | Some r => (true, skipBlanks r)
    | None => match cut_prefix "#" i with Some r => (false, skipBlanks r) | None => (false, i) end
    end in
  after ← cut_prefix word i;
  if String.eqb word block_begin then Some ""
  else if comment : bool then Some (default after (cut_prefix "-->" (skipBlanks after))) else Some after.

(** The scan over the lines (each with its terminator, but for a last line
    without one): what is kept so far, the lines since an open begin marker, and
    whether the last span ends where the content does. *)
Record scan := mkScan { sc_kept : string; sc_open : option string; sc_spans : bool; sc_at_end : bool }.
Definition code_in (c : ascii) (lo hi : Z) : bool := (lo <=? byte_val c) && (byte_val c <=? hi).
(** [bytes.TrimSpace] leaves nothing: every rune is [unicode.IsSpace]. *)
Fixpoint blank (s : string) : bool :=
  match s with
  | "" => true
  | String a r =>
    if code_in a 9 13 || (byte_val a =? 32) then blank r
    else match r with
    | "" => false
    | String b r =>
      if (byte_val a =? 194) && ((byte_val b =? 133) || (byte_val b =? 160)) then blank r
      else match r with
      | "" => false
      | String c r =>
        if ((byte_val a =? 225) && (byte_val b =? 154) && (byte_val c =? 128))
           || ((byte_val a =? 226) && (byte_val b =? 128)
               && (code_in c 128 138 || (byte_val c =? 168) || (byte_val c =? 169) || (byte_val c =? 175)))
           || ((byte_val a =? 226) && (byte_val b =? 129) && (byte_val c =? 159))
           || ((byte_val a =? 227) && (byte_val b =? 128) && (byte_val c =? 128))
        then blank r else false
      end
    end
  end.
Definition scan_line (s : scan) (line term : string) : scan :=
  match markerAfter line block_begin with
  | Some _ => mkScan (sc_kept s +:+ default "" (sc_open s)) (Some (line +:+ term)) (sc_spans s) false
  | None =>
    match markerAfter line block_end, sc_open s with
    | Some rest, Some _ => if blank rest then mkScan (sc_kept s) None true true
                           else mkScan (sc_kept s +:+ rest +:+ term) None true false
    | _, Some open => mkScan (sc_kept s) (Some (open +:+ line +:+ term)) (sc_spans s) false
    | _, None => mkScan (sc_kept s +:+ line +:+ term) None (sc_spans s) false
    end
  end.
Fixpoint scan_lines (ls : list string) (s : scan) : scan :=
  match ls with
  | [] => s
  | [line] => if String.eqb line "" then s else scan_line s line ""
  | line :: ls => scan_lines ls (scan_line s line (String "010" ""))
  end.
Definition drop_last (n : nat) (s : string) : string := substring 0 (String.length s - n) s.
Definition crlf : string := String "013" (String "010" "").
Definition trimOneBlankLine (h : string) : string :=
  if has_suffix (crlf +:+ crlf) h then drop_last 2 h
  else if has_suffix (String "010" (String "010" "")) h then drop_last 1 h else h.
Definition StripGeneratedBlock (content : bytes) : bytes :=
  let s := scan_lines (split "010" (string_of_list_ascii content)) (mkScan "" None false false) in
  if sc_spans s then
    let out := sc_kept s +:+ default "" (sc_open s) in
    list_ascii_of_string (if sc_at_end s then trimOneBlankLine out else out)
  else content.

Section Store.
Context `{G : GoGit} `{W : GitWriter} (E : VcEnv).

(** ** The working tree *)

(** [ignoreFilter.hides] *)
Definition hides (head : res vc_err Files) (rel : string) (isDir : bool) : res vc_err bool :=
  if ve_ignored E (split slash rel) isDir then
    head ← head;
    committed ← res_of_option VTracked (ve_committed E);
    let files := (map_to_list head).*1 ++ committed in
    Ok (negb (if isDir then existsb (fun p => bool_decide (rel ∈ path_dirs p)) files else bool_decide (rel ∈ files)))
  else Ok false.

(** [filepath.WalkDir] visits the entries of a directory in the order of their names. *)
Fixpoint path_leb (p q : Path) : bool :=
  match p, q with
  | [], _ => true
  | _, [] => false
  | a :: p, b :: q => if String.eqb a b then path_leb p q else String.leb a b
  end.
Definition path_before (x y : Path * Node) : Prop := path_leb x.1 y.1 = true.
#[local] Instance path_before_dec : RelDecision path_before.
Proof. intros x y. unfold path_before. apply _. Defined.
Definition is_dir (n : Node) : bool := match n with NDir => true | _ => false end.
Definition isNestedMgitRoot (d : Disk) (p : Path) : bool := bool_decide (is_Some (d_nodes d !! (p ++ [".mgit"]))).
(** The walk, below none of the directories it skipped. *)
Fixpoint walk_files (head : res vc_err Files) (d : Disk) (l : list (Path * Node)) (skips : list Path) : res vc_err (list string) :=
  match l with
  | [] => Ok []
  | (p, n) :: l =>
    if existsb (fun s => bool_decide (s `prefix_of` p)) skips then walk_files head d l skips
    else
      let rel := join slash p in
      let skip := if is_dir n then p :: skips else skips in
      if bool_decide (List.last p "" ∈ excludedNames) || (is_dir n && isNestedMgitRoot d p) then walk_files head d l skip
      else
        hide ← hides head rel (is_dir n);
        if (hide : bool) then walk_files head d l skip
        else paths ← walk_files head d l skips; Ok (if is_dir n then paths else rel :: paths)
  end.
Definition vc_headFiles (s : VcState) : res vc_err Files := res_map_err VProj (headFiles (vc_objects s) (vc_repo s)).
Definition listWorkingFiles (s : VcState) : res vc_err (list string) :=
  let d := rp_disk (vc_repo s) in
  let entries := merge_sort path_before (map_to_list (d_nodes d)) in
  walk_files (vc_headFiles s) d entries [].
Definition read_working (d : Disk) (rel : string) : working := workingFileContent (ve_host E) d rel.
Definition blobHashOfWorkingFile (d : Disk) (rel : string) : res vc_err string :=
  match read_working d rel with WRead data _ => Ok (ComputeHash BlobObject data) | _ => Err (VRead rel) end.

(** ** Status *)

Inductive code := SUnmodified | SUntracked | SAdded | SModified | SDeleted.
#[export] Instance code_eq_dec : EqDecision code.
Proof. solve_decision. Defined.
Record FileStatus := mkStatus { fs_Path : string; fs_Staging : code; fs_Worktree : code }.

Definition vc_staged (s : VcState) : res vc_err (list string) := res_of_option (VProj EStagingRead) (rp_staged (vc_repo s)).
Definition classifyWorkingPath (d : Disk) (head : Files) (staged : list string) (path : string) : res vc_err (option FileStatus) :=
  wtHash ← blobHashOfWorkingFile d path;
  let inHead := head !! path in
  let changed := match inHead with Some e => negb (String.eqb (be_hash e) wtHash) | None => true end in
  Ok (if bool_decide (path ∈ staged) then
        Some (mkStatus path (match inHead with Some _ => SModified | None => SAdded end) SUnmodified)
      else match inHead with
           | None => Some (mkStatus path SUnmodified SUntracked)
           | Some _ => if changed then Some (mkStatus path SUnmodified SModified) else None
           end).
Definition deleted_status (staged working : list string) (x : string * blobEntry) : option FileStatus :=
  if bool_decide (x.1 ∈ working) then None
  else Some (mkStatus x.1 (if bool_decide (x.1 ∈ staged) then SDeleted else SUnmodified) SDeleted).
Definition Status (s : VcState) : res vc_err (list FileStatus) :=
  head ← vc_headFiles s;
  working ← listWorkingFiles s;
  staged ← vc_staged s;
  files ← mapM_res (classifyWorkingPath (rp_disk (vc_repo s)) head staged) working;
  Ok (omap id files ++ omap (deleted_status staged working) (ve_it E head)).
Definition dirtyTrackedPaths (s : VcState) : res vc_err (list string) :=
  files ← Status s;
  Ok (map fs_Path (List.filter (fun f => negb (bool_decide (fs_Staging f = SUnmodified)) || bool_decide (fs_Worktree f = SModified)) files)).
Definition IsClean (s : VcState) : res vc_err (list string) :=
  files ← Status s;
  Ok (map fs_Path (List.filter (fun f => negb (has_prefix ".mgit/" (fs_Path f) || String.eqb (fs_Path f) ".mgit")
    && (negb (bool_decide (fs_Staging f = SUnmodified)) || negb (bool_decide (fs_Worktree f = SUnmodified)))) files)).

(** ** The staging set *)

Definition saveStaging (paths : list string) (s : VcState) : VcState := vc_set_repo (set_staged (Some (sort_by id paths)) (vc_repo s)) s.
Definition clearStaging (s : VcState) : VcState := vc_set_repo (set_staged (Some []) (vc_repo s)) s.
Definition stage_one (acc : list string) (rel : string) : list string := if bool_decide (rel ∈ acc) then acc else acc ++ [rel].
Definition stagePaths (rels : list string) : VcM unit := fun s =>
  match vc_staged s with
  | Err e => (Err e, s)
  | Ok paths => (Ok tt, saveStaging (fold_left stage_one rels paths) s)
  end.
Definition generatedSet : res vc_err (list string) := res_of_option VGenerated (ve_generated E).

Definition assertNotOversized (limit : Z) (d : Disk) (rels : list string) : res vc_err unit :=
  if limit <=? 0 then Ok tt
  else forM_ (fun rel => match Lstat (ve_host E) d (comps rel) with
                         | Present (NFile (data, _)) => err_if (limit <? Z.of_nat (length data)) (VTooLarge rel)
                         | _ => Ok tt
                         end) rels.
Definition under_prefix (prefix path : string) : bool :=
  String.eqb prefix "" || String.eqb path prefix || has_prefix (prefix +:+ "/") path.
Definition addChanged (limit : Z) (prefix : string) : VcM unit := fun s =>
  match (files ← Status s;
         generated ← generatedSet;
         let paths := List.filter (fun p => negb (has_prefix ".mgit/" p || String.eqb p ".mgit" || bool_decide (p ∈ generated))
                                            && under_prefix prefix p) (map fs_Path files) in
         _ ← assertNotOversized limit (rp_disk (vc_repo s)) paths; Ok paths) with
  | Err e => (Err e, s)
  | Ok [] => (Ok tt, s)
  | Ok paths => stagePaths paths s
  end.
Definition hasPathUnder (head : Files) (dir : string) : bool := existsb (fun x => has_prefix (dir +:+ "/") x.1) (map_to_list head).
Definition lstat (d : Disk) (rel : string) : DiskTree.stat (C:=content) := Lstat (ve_host E) d (comps rel).
Definition isDirectoryTarget (s : VcState) (rel : string) : res vc_err bool :=
  match lstat (rp_disk (vc_repo s)) rel with
  | Present n => Ok (is_dir n)
  | StatErr => Err (VLstat rel)
  | NotExist =>
    head ← vc_headFiles s;
    Ok (match head !! rel with Some _ => false | None => hasPathUnder head rel end)
  end.
(** [os.Stat], which follows a link. *)
Definition stat_ok (d : Disk) (rel : string) : bool :=
  match lstat d rel with Present (NLink t) => ve_stat E t | Present _ => true | _ => false end.
Definition assertStageable (s : VcState) (rel : string) : res vc_err unit :=
  if stat_ok (rp_disk (vc_repo s)) rel then Ok tt
  else head ← vc_headFiles s; match head !! rel with Some _ => Ok tt | None => Err (VNoMatch rel) end.
Definition Add (limit : Z) (path : string) : VcM unit := fun s =>
  if String.eqb path "." || String.eqb path "" then addChanged limit "" s
  else
    let rel := clean path in
    match (_ ← res_map_err VProj (validateRelPath rel); isDirectoryTarget s rel) with
    | Err e => (Err e, s)
    | Ok true => addChanged limit rel s
    | Ok false =>
      match (_ ← assertStageable s rel; assertNotOversized limit (rp_disk (vc_repo s)) [rel]) with
      | Err e => (Err e, s)
      | Ok _ => stagePaths [rel] s
      end
    end.
Definition matchesAnyTarget (targets : list string) (path : string) : bool :=
  existsb (fun t => String.eqb t "." || String.eqb path t || has_prefix (t +:+ "/") path) targets.
Definition Unstage (rels : list string) : VcM (list string) := fun s =>
  match (_ ← forM_ (fun p => let rel := clean p in if String.eqb rel "." then Ok tt else res_map_err VProj (validateRelPath rel)) rels;
         vc_staged s) with
  | Err e => (Err e, s)
  | Ok paths =>
    let targets := map clean rels in
    let removed := List.filter (matchesAnyTarget targets) paths in
    let kept := List.filter (fun p => negb (matchesAnyTarget targets p)) paths in
    match removed, kept with
    | [], _ => (Ok [], s)
    | _, [] => (Ok removed, clearStaging s)
    | _, _ => (Ok removed, saveStaging kept s)
    end
  end.

(** ** Building the tree *)

Definition isDirOnDisk (d : Disk) (rel : string) : res vc_err bool :=
  match lstat d rel with
  | NotExist => Ok false
  | StatErr => Err (VLstat rel)
  | Present n => Ok (is_dir n)
  end.
Definition checkStagedEntry (d : Disk) (head : Files) (rel : string) : option vc_err :=
  match isDirOnDisk d rel with
  | Err e => Some e
  | Ok onDiskDir =>
    match head !! rel with
    | Some _ => None
    | None =>
      let gone := match lstat d rel with NotExist => hasPathUnder head rel | _ => false end in
      if onDiskDir || gone then Some (VDirEntry rel) else None
    end
  end.
Definition checkStagedEntries (d : Disk) (head : Files) (rels : list string) : res vc_err unit :=
  match omap (checkStagedEntry d head) rels with [] => Ok tt | problems => Err (VStaged problems) end.

(** One turn of the loop over the staged paths. *)
Definition committed_content (generated : list string) (rel : string) (data : bytes) (mode : Z) : bytes :=
  if bool_decide (rel ∈ generated) && negb (mode =? filemode_Symlink) then
    let stripped := StripGeneratedBlock data in
    if blank (string_of_list_ascii stripped) then data else stripped
  else data.
Definition apply_staged (d : Disk) (generated : list string) (acc : Files * Storage) (rel : string) : res vc_err (Files * Storage) :=
  let '(files, st) := acc in
  isDir ← isDirOnDisk d rel;
  if (isDir : bool) then Ok (delete rel files, st)
  else match read_working d rel with
       | WAbsent => Ok (delete rel files, st)
       | WFail e => Err (VProj e)
       | WRead data mode =>
         let '(blobHash, st) := writeBlob (committed_content generated rel data mode) st in
         Ok (<[rel := mkEntry blobHash mode]> (replaceInTree rel files), st)
       end.
Fixpoint apply_all (d : Disk) (generated : list string) (staged : list string) (acc : Files * Storage) : res vc_err (Files * Storage) :=
  match staged with
  | [] => Ok acc
  | rel :: staged => acc ← apply_staged d generated acc rel; apply_all d generated staged acc
  end.
(** The files the next commit will hold, and the blobs stored for them. *)
Definition staged_files (s : VcState) : res vc_err (Files * Storage) :=
  files ← vc_headFiles s;
  staged ← vc_staged s;
  generated ← generatedSet;
  let d := rp_disk (vc_repo s) in
  _ ← checkStagedEntries d files staged;
  '(files, st) ← apply_all d generated staged (files, vc_objects s);
  match fileDirClash (ve_it E) files with Some p => Err (VClash p) | None => Ok (files, st) end.
Definition buildTreeFromStaging (s : VcState) : res vc_err (string * Storage) :=
  '(files, st) ← staged_files s;
  res_map_err VTree (write_tree (ve_it E) (ve_itd E) files st).

(** [StagedTreeMatchesHead]; the objects the build stores stay. *)
Definition StagedTreeMatchesHead : VcM bool := fun s =>
  match (head ← res_of_option (VProj EReadTree) (rp_refs (vc_repo s) !! rp_bound (vc_repo s));
         match vc_objects s !! head with
         | Some (CommitObject, data) => res_of_option (VProj EReadTree) (DecodeCommit data)
         | _ => Err (VProj EReadTree)
         end) with
  | Err e => (Err e, s)
  | Ok g => match buildTreeFromStaging s with
            | Err e => (Err e, s)
            | Ok (tree, st) => (Ok (String.eqb (g_TreeHash g) tree), vc_set_objects st s)
            end
  end.

(** ** Committing *)

(** [advanceBranchRefCAS]: other processes come first, then the reference moves
    if it still holds the value read. *)
Definition advanceBranchRefCAS (branch newHash oldHash : string) : VcM unit := fun s =>
  let refs := ve_others E (rp_refs (vc_repo s)) in
  let s := vc_set_repo (set_refs refs (vc_repo s)) s in
  if bool_decide (refs !! branch = Some oldHash)
  then (Ok tt, vc_set_repo (set_refs (<[branch := newHash]> refs) (vc_repo s)) s)
  else (Err VRefMoved, s).
Definition vc_store (f : Storage -> res tree_err (string * Storage)) : VcM string := fun s =>
  match f (vc_objects s) with Ok (h, st) => (Ok h, vc_set_objects st s) | Err e => (Err (VTree e), s) end.
Definition vc_build (build : VcState -> res vc_err (string * Storage)) : VcM string := fun s =>
  match build s with Ok (h, st) => (Ok h, vc_set_objects st s) | Err e => (Err e, s) end.

Definition committed_as (c : Commit) (id parent tree : string) (now : time) : Commit :=
  let c := mkCommit id (ContentHash c) parent tree (c_TaskID c) (AgentID c) (SessionID c) (Message c) (FileDiffs c)
    (SquashedFrom c) now (Signature c) (CommitType c) (CreatedBy c) (Branch c) in
  mkCommit id (ComputeContentHash c) parent tree (c_TaskID c) (AgentID c) (SessionID c) (Message c) (FileDiffs c)
    (SquashedFrom c) now (Signature c) (CommitType c) (CreatedBy c) (Branch c).
(** The error that clearing the staging area can return after the reference moved
    is not modelled: writing the staging file is taken to succeed. *)
Definition createCommit (c : Commit) (build : VcState -> res vc_err (string * Storage)) : VcM Commit :=
  branch ← get (fun s => rp_bound (vc_repo s));
  ref ← get (fun s => rp_refs (vc_repo s) !! branch);
  parentHash ← lift (res_of_option (VProj EReadTree) ref);
  treeHash ← vc_build build;
  id ← vc_store (writeCommit (mkParams treeHash [parentHash] (Message c) (AgentID c) (AgentID c +:+ "@mgit") (ve_now E)));
  _ ← advanceBranchRefCAS branch id parentHash;
  _ ← modify clearStaging;
  mret (committed_as c id parentHash treeHash (ve_now E)).
Definition CreateCommit (c : Commit) : VcM Commit := createCommit c buildTreeFromStaging.

(** ** Checking out *)

Definition materialize (target : string) (old : Files) : VcM unit := fun s =>
  match materializeCommit (ve_host E) (ve_orders E) (vc_objects s) target old (rp_disk (vc_repo s)) with
  | (Ok _, d) => (Ok tt, vc_set_repo (set_disk d (vc_repo s)) s)
  | (Err e, d) => (Err (VProj e), vc_set_repo (set_disk d (vc_repo s)) s)
  end.
Definition checkClean : VcM unit := fun s =>
  match dirtyTrackedPaths s with
  | Err e => (Err e, s)
  | Ok [] => (Ok tt, s)
  | Ok dirty => (Err (VDirty dirty), s)
  end.
Definition Checkout (branchName : string) : VcM unit :=
  ref ← get (fun s => rp_refs (vc_repo s) !! branchName);
  target ← lift (res_of_option VNoBranch ref);
  _ ← checkClean;
  head ← get vc_headFiles;
  currentHead ← lift head;
  _ ← materialize target currentHead;
  _ ← modify (fun s => vc_set_repo (set_bound branchName (vc_repo s)) s);
  modify clearStaging.
End Store.

(** ** What a staged path is committed as *)

Section Facts.
Context `{G : GoGit} `{W : GitWriter} {L : GitWriterLaws G W} (E : VcEnv).

(** The entry the working tree gives a path, [None] where there is no file. *)
Definition disk_entry (d : Disk) (generated : list string) (rel : string) : option blobEntry :=
  match isDirOnDisk E d rel, read_working E d rel with
  | Ok false, WRead data mode => Some (mkEntry (ComputeHash BlobObject (committed_content generated rel data mode)) mode)
  | _, _ => None
  end.
(** A file at [rel] takes the place of [q]. *)
Definition displaces (rel q : string) : bool := bool_decide (q ∈ path_dirs rel) || has_prefix (rel +:+ "/") q.

Lemma apply_staged_Ok d gen files st rel files' st' : addressed st -> apply_staged E d gen (files, st) rel = Ok (files', st') ->
  addressed st' /\ st ⊆ st' /\
  files' = match disk_entry d gen rel with None => delete rel files | Some e => <[rel := e]> (replaceInTree rel files) end /\
  (forall e, disk_entry d gen rel = Some e -> exists data, st' !! be_hash e = Some (BlobObject, data)).
Proof.
  intros A. unfold apply_staged, disk_entry. destruct (isDirOnDisk E d rel) as [[]|e]; cbn [mbind res_bind]; [|..|done].
  - intros [= <- <-]. by split_and!.
  - destruct (read_working E d rel) as [data mode| |e]; [|by intros [= <- <-]; split_and!|done].
    destruct (writeBlob _ st) as [h st1] eqn:Hw. intros [= <- <-].
    pose proof Hw as Hh. unfold writeBlob, SetEncodedObject in Hh. injection Hh as <- _.
    apply SetEncodedObject_grows in Hw as (A1 & S1 & Hl); [|done]. split_and!; [done|done|done|].
    intros e [= <-]. cbn. by eexists.
Qed.
Lemma apply_all_Ok d gen staged files st files' st' : addressed st -> apply_all E d gen staged (files, st) = Ok (files', st') ->
  addressed st' /\ st ⊆ st' /\
  files' = fold_left (fun files rel => match disk_entry d gen rel with None => delete rel files
                                       | Some e => <[rel := e]> (replaceInTree rel files) end) staged files /\
  (forall rel e, rel ∈ staged -> disk_entry d gen rel = Some e -> exists data, st' !! be_hash e = Some (BlobObject, data)).
Proof.
  revert files st. induction staged as [|rel staged IH]; intros files st A; cbn [apply_all fold_left].
  { intros [= <- <-]. split_and!; [done|done|done|]. by intros ? ? ?%not_elem_of_nil. }
  intros ([f1 st1] & H1 & H)%bind_Ok. apply apply_staged_Ok in H1 as (A1 & S1 & -> & Hb); [|done].
  apply IH in H as (A2 & S2 & -> & Hb2); [|done]. split_and!; [done|by etrans|done|].
  intros r e [->|Hr]%elem_of_cons He; [|by eapply Hb2]. destruct (Hb _ He) as (data & Hd). exists data. by eapply lookup_weaken.
Qed.

(** A file on disk rules out files where its path is a directory, and below it. *)
Definition coherent (d : Disk) (gen : list string) (rels : list string) (q : string) : Prop :=
  forall rel, rel ∈ rels -> is_Some (disk_entry d gen rel) -> displaces rel q = true -> disk_entry d gen q = None.
Lemma apply_fold_lookup d gen staged (files : Files) q : coherent d gen staged q ->
  fold_left (fun files rel => match disk_entry d gen rel with None => delete rel files
                              | Some e => <[rel := e]> (replaceInTree rel files) end) staged files !! q =
  if bool_decide (q ∈ staged) then disk_entry d gen q
  else if existsb (fun rel => bool_decide (is_Some (disk_entry d gen rel)) && displaces rel q) staged then None else files !! q.
Proof.
  induction staged as [|rel staged IH] using rev_ind; intros Hc; [done|]. rewrite fold_left_app. cbn [fold_left].
  set (f := fold_left _ staged files) in *.
  assert (coherent d gen staged q) as Hc' by (intros r Hr; apply Hc, elem_of_app; by left).
  specialize (IH Hc'). destruct (decide (q = rel)) as [->|Hne].
  { rewrite bool_decide_eq_true_2 by set_solver. destruct (disk_entry d gen rel); [by rewrite lookup_insert_eq|by rewrite lookup_delete_eq]. }
  assert (bool_decide (q ∈ staged ++ [rel]) = bool_decide (q ∈ staged)) as -> by (apply bool_decide_ext; set_solver).
  rewrite existsb_app. cbn [existsb]. rewrite orb_false_r. destruct (disk_entry d gen rel) as [e|] eqn:He.
  - rewrite lookup_insert_ne, replaceInTree_lookup by done. fold (displaces rel q). rewrite IH, (bool_decide_eq_true_2 (is_Some (Some e))) by (by eexists).
    cbn [andb]. destruct (displaces rel q) eqn:Hd; [|by rewrite orb_false_r]. rewrite orb_true_r.
    case_bool_decide; [|done]. symmetry. apply (Hc rel); [set_solver|by rewrite He; eexists|done].
  - rewrite lookup_delete_ne, IH by done. rewrite (bool_decide_eq_false_2 (is_Some None)) by (by intros [? [=]]). by rewrite orb_false_r.
Qed.

(** ** A plain path: its directories are where it says, or missing *)

Record plain (d : Disk) (p : string) : Prop := {
  plain_clean : clean p = p; plain_valid : validateRelPath p = Ok tt;
  plain_links : no_link_above (d_nodes d) (comps p); plain_stat : lstat E d p <> StatErr }.

Lemma plain_comps d p : plain d p -> comps p = split slash p.
Proof. intros [H _ _ _]. unfold comps. by rewrite H. Qed.
Lemma plain_lstat d p : plain d p -> lstat E d p = stat_of (d_nodes d !! comps p) \/ lstat E d p = NotExist.
Proof.
  intros [_ _ Hl Hs]. unfold lstat, Lstat in *. destruct (locate_cases (d_nodes d) (comps p) Hl) as [[-> _]|[->|He]]; [by left|by right|].
  by rewrite He in Hs.
Qed.
Lemma plain_file d gen p e : plain d p -> disk_entry d gen p = Some e ->
  (exists n, d_nodes d !! comps p = Some n /\ n <> NDir) /\ forall a, above a (comps p) -> d_nodes d !! a = Some NDir.
Proof.
  intros [_ _ Hl Hs]. unfold disk_entry, isDirOnDisk, read_working, workingFileContent, lstat, Lstat in *.
  destruct (locate_cases (d_nodes d) (comps p) Hl) as [[Hin Hab]|[Hp|Hp]].
  - rewrite Hin. intros H. split; [|done]. unfold stat_of in H. destruct (d_nodes d !! comps p) as [[|f|t]|]; cbn in H.
    + by destruct (validateRelPath p).
    + by eexists.
    + by eexists.
    + by destruct (validateRelPath p).
  - rewrite Hp. cbn. by destruct (validateRelPath p).
  - by rewrite Hp in Hs.
Qed.
Lemma plain_coherent d gen rels q : (forall rel, rel ∈ rels -> plain d rel) -> plain d q -> coherent d gen rels q.
Proof.
  intros Hr Hq rel Hin [e He] Hd. apply Hr in Hin. destruct (disk_entry d gen q) as [e'|] eqn:Hq'; [exfalso|done].
  destruct (plain_file _ _ _ _ Hin He) as [(n & Hn & Hf) Ha]. destruct (plain_file _ _ _ _ Hq Hq') as [(n' & Hn' & Hf') Ha'].
  apply orb_true_iff in Hd as [Hd|Hd].
  - apply bool_decide_eq_true, path_dirs_above in Hd as (rest & Hd).
    assert (above (comps q) (comps rel)) as Hab.
    { rewrite (plain_comps _ _ Hin), (plain_comps _ _ Hq), Hd, split_sep. split; [apply split_not_nil|].
      exists (split slash rest). split; [apply split_not_nil|done]. }
    apply Ha in Hab. congruence.
  - apply has_prefix_app in Hd as (rest & Hd). rewrite sapp_assoc in Hd. change ("/" +:+ rest) with (String slash rest) in Hd.
    assert (above (comps rel) (comps q)) as Hab.
    { rewrite (plain_comps _ _ Hin), (plain_comps _ _ Hq), Hd, split_sep. split; [apply split_not_nil|].
      exists (split slash rest). split; [apply split_not_nil|done]. }
    apply Ha' in Hab. congruence.
Qed.

(** ** Staging everything *)

Definition changed (d : Disk) (head : Files) (p : string) : Prop :=
  match head !! p, blobHashOfWorkingFile E d p with Some e, Ok h => be_hash e <> h | _, _ => True end.
Lemma Status_Ok s sts : Status E s = Ok sts -> exists head working staged,
  vc_headFiles s = Ok head /\ listWorkingFiles E s = Ok working /\ vc_staged s = Ok staged /\
  (forall p, p ∈ working -> exists data mode, read_working E (rp_disk (vc_repo s)) p = WRead data mode) /\
  (forall p, p ∈ map fs_Path sts <->
     (p ∈ working /\ (p ∈ staged \/ changed (rp_disk (vc_repo s)) head p)) \/ (is_Some (head !! p) /\ p ∉ working)).
Proof.
  intros (head & Hh & H)%bind_Ok. apply bind_Ok in H as (working & Hw & H). apply bind_Ok in H as (staged & Hs & H).
  apply bind_Ok in H as (files & Hf & [= <-]). exists head, working, staged. set (d := rp_disk (vc_repo s)) in *.
  apply mapM_res_Ok in Hf.
  assert (forall p, p ∈ working -> exists data mode, read_working E d p = WRead data mode) as Hread.
  { intros p [i Hi]%list_elem_of_lookup. destruct (Forall2_lookup_l _ _ _ _ _ Hf Hi) as (o & _ & Hc).
    unfold classifyWorkingPath in Hc. apply bind_Ok in Hc as (h & Hb & _). unfold blobHashOfWorkingFile in Hb.
    destruct (read_working E d p); [by eauto|done|done]. }
  split_and!; try done. intros p. rewrite map_app, elem_of_app. apply ZifyClasses.or_morph.
  - transitivity (exists q o, q ∈ working /\ classifyWorkingPath E d head staged q = Ok (Some o) /\ fs_Path o = p).
    { rewrite list_elem_of_fmap. split.
      - intros (o & -> & (x & Hx & Ho)%list_elem_of_omap). cbn in Ho. subst x.
        apply list_elem_of_lookup in Hx as [i Hi]. destruct (Forall2_lookup_r _ _ _ _ _ Hf Hi) as (q & Hq & Hc).
        exists q, o. split_and!; [by eapply list_elem_of_lookup_2|done|done].
      - intros (q & o & [i Hi]%list_elem_of_lookup & Hc & <-). destruct (Forall2_lookup_l _ _ _ _ _ Hf Hi) as (x & Hx & Hc').
        rewrite Hc in Hc'. injection Hc' as <-. exists o. split; [done|]. apply list_elem_of_omap. exists (Some o).
        split; [by eapply list_elem_of_lookup_2|done]. }
    unfold classifyWorkingPath, changed. split.
    + intros (q & o & Hq & (h & Hb & [= Ho])%bind_Ok & <-).
      assert (fs_Path o = q) as Hp by (revert Ho; repeat case_match; by intros [= <-]). rewrite Hp.
      split; [done|]. rewrite Hb. case_bool_decide; [by left|right]. destruct (head !! q) as [e|]; [|done].
      destruct (String.eqb_spec (be_hash e) h); [done|done].
    + intros [Hq Hor]. destruct (Hread p Hq) as (data & mode & Hr). unfold blobHashOfWorkingFile in *. rewrite Hr in Hor.
      exists p. setoid_rewrite Hr. cbn [mbind res_bind]. case_bool_decide as Hst; [by eexists|]. destruct Hor as [Hor|Hor]; [done|].
      destruct (head !! p) as [e|]; [|by eexists]. destruct (String.eqb_spec (be_hash e) (ComputeHash BlobObject data)); [done|].
      by eexists.
  - rewrite list_elem_of_fmap. unfold deleted_status. split.
    + intros (o & -> & ([q e] & Hq%elem_of_iter & Ho)%list_elem_of_omap). cbn in Ho. case_bool_decide; [done|]. injection Ho as <-.
      split; [by eexists|done].
    + intros [[e Hp] Hn].
      exists (mkStatus p (if bool_decide (p ∈ staged) then SDeleted else SUnmodified) SDeleted). split; [done|].
      apply list_elem_of_omap. exists (p, e). split; [by apply elem_of_iter|]. cbn. by rewrite bool_decide_eq_false_2.
Qed.

Lemma stage_fold l acc x : x ∈ fold_left stage_one l acc <-> x ∈ acc \/ x ∈ l.
Proof.
  revert acc. induction l as [|y l IH]; intros acc; cbn [fold_left]; [set_solver|]. rewrite IH. unfold stage_one.
  case_bool_decide; set_solver.
Qed.
(** A plain path is not the store's own directory, nor below it. *)
Lemma plain_not_store d p : plain d p -> has_prefix ".mgit/" p || String.eqb p ".mgit" = false.
Proof.
  intros [Hc Hv _ _]. unfold validateRelPath in Hv. apply seq_Ok in Hv as [_ Hv]. cbn zeta in Hv. rewrite Hc in Hv.
  apply seq_Ok in Hv as [_ Hv%err_if_Ok]. apply not_true_is_false. intros Hp.
  assert (exists rest, split slash p = ".mgit" :: rest) as (rest & Hs).
  { apply orb_true_iff in Hp as [Hp| ->%String.eqb_eq]; [|by exists []]. apply has_prefix_app in Hp as (r & ->).
    exists (split slash r). by apply (split_app slash ".mgit"). }
  unfold isExcludedPath in Hv. by rewrite Hs in Hv.
Qed.

(** [commit -a]: with nothing staged, the paths staged are the status's. *)
Lemma addChanged_all limit s sts : Status E s = Ok sts -> vc_staged s = Ok [] -> ve_generated E = Some [] ->
  assertNotOversized E limit (rp_disk (vc_repo s)) (map fs_Path sts) = Ok tt ->
  (forall p, p ∈ map fs_Path sts -> plain (rp_disk (vc_repo s)) p) ->
  exists s1 staged, addChanged E limit "" s = (Ok tt, s1) /\ vc_staged s1 = Ok staged /\
    (forall p, p ∈ staged <-> p ∈ map fs_Path sts) /\
    vc_objects s1 = vc_objects s /\ rp_disk (vc_repo s1) = rp_disk (vc_repo s) /\ vc_headFiles s1 = vc_headFiles s.
Proof.
  intros Hs Hst Hg Hl Hp. unfold addChanged. rewrite Hs. unfold generatedSet. rewrite Hg. cbn [mbind res_bind res_of_option].
  assert (List.filter (fun p => negb (has_prefix ".mgit/" p || String.eqb p ".mgit" || bool_decide (p ∈ @nil string)) && under_prefix "" p)
            (map fs_Path sts) = map fs_Path sts) as ->.
  { apply forallb_filter_id, forallb_forall. intros p Hin%list_elem_of_In.
    rewrite (plain_not_store _ _ (Hp p Hin)). rewrite bool_decide_eq_false_2 by apply not_elem_of_nil. done. }
  rewrite Hl. cbn [mbind res_bind]. destruct (map fs_Path sts) as [|p l] eqn:Hm.
  { exists s, []. by split_and!. }
  unfold stagePaths. rewrite Hst. eexists _, _. split; [done|]. split; [done|]. split_and!; try done.
  intros q. rewrite elem_of_sort_by, stage_fold. set_solver.
Qed.

Lemma apply_all_total d gen staged acc : (forall p, p ∈ staged -> plain d p) -> exists r, apply_all E d gen staged acc = Ok r.
Proof.
  revert acc. induction staged as [|p staged IH]; intros [files st] Hp; [by eexists|]. cbn [apply_all].
  assert (exists r, apply_staged E d gen (files, st) p = Ok r) as (r & ->); [|apply IH; set_solver].
  destruct (Hp p ltac:(by left)) as [Hc Hv Hl Hs]. unfold apply_staged, isDirOnDisk, read_working, workingFileContent, lstat in *.
  rewrite Hv. destruct (Lstat (ve_host E) d (comps p)) as [[|[]|]| |]; cbn; try done; by eexists.
Qed.

(** What [commit -a] makes of a path that HEAD or the walk knows. *)
Definition recorded (d : Disk) (head : Files) (working : list string) (p : string) : option blobEntry :=
  match disk_entry d [] p with
  | Some e => if bool_decide (be_hash <$> head !! p = Some (be_hash e) /\ p ∈ working) then head !! p else Some e
  | None => None
  end.
Abbreviation fold_staged d gen := (fold_left (fun (files : Files) rel => match disk_entry d gen rel with
  | None => delete rel files | Some e => <[rel := e]> (replaceInTree rel files) end)).

(** Not the store's own directory. *)
Definition plain_name (p : string) : Prop := has_prefix ".mgit/" p || String.eqb p ".mgit" = false.
Lemma read_disk_entry d p data mode : read_working E d p = WRead data mode ->
  exists e, disk_entry d [] p = Some e /\ isDirOnDisk E d p = Ok false /\ blobHashOfWorkingFile E d p = Ok (be_hash e).
Proof.
  intros Hr. unfold disk_entry, blobHashOfWorkingFile.
  assert (isDirOnDisk E d p = Ok false) as ->.
  { unfold read_working, workingFileContent in Hr. unfold isDirOnDisk, lstat. destruct (validateRelPath p); [|done].
    by destruct (Lstat (ve_host E) d (comps p)) as [[]| |]. }
  rewrite Hr. eexists. split_and!; [done|done|]. cbn. unfold committed_content.
  rewrite bool_decide_eq_false_2 by apply not_elem_of_nil. done.
Qed.
Lemma fold_unstaged d gen staged (files : Files) p : files !! p = None -> p ∉ staged -> fold_staged d gen staged files !! p = None.
Proof.
  revert files. induction staged as [|rel l IH]; intros f Hn Hns; cbn [fold_left]; [done|]. apply not_elem_of_cons in Hns as [Hne Hns].
  apply IH; [|done]. destruct (disk_entry d gen rel).
  - rewrite lookup_insert_ne, replaceInTree_lookup, Hn by done. by destruct (_ || _).
  - by rewrite lookup_delete_ne.
Qed.

Section All.
Context (d : Disk) (head : Files) (working staged : list string).
Context (Hread : forall p, p ∈ working -> exists data mode, read_working E d p = WRead data mode)
  (Hplain : forall p, is_Some (head !! p) \/ p ∈ working -> plain d p)
  (Hel : forall p, p ∈ staged <-> (p ∈ working /\ changed d head p) \/ (is_Some (head !! p) /\ p ∉ working)).

Lemma staged_plain p : p ∈ staged -> plain d p.
Proof using All. intros [[Hx _]|[Hx _]]%Hel; apply Hplain; auto. Qed.
Lemma all_recorded p : is_Some (head !! p) \/ p ∈ working -> fold_staged d [] staged head !! p = recorded d head working p.
Proof using All.
  intros Hk. rewrite (apply_fold_lookup d []) by (apply plain_coherent; [exact staged_plain|by apply Hplain]). unfold recorded.
  case_bool_decide as Hin.
  - apply Hel in Hin as [[Hwk Hch]|[_ Hn]].
    + destruct (Hread p Hwk) as (data & mode & Hr). destruct (read_disk_entry _ _ _ _ Hr) as (e & -> & _ & Hb).
      unfold changed in Hch. rewrite Hb in Hch.
      rewrite bool_decide_eq_false_2; [done|]. intros [He _]. destruct (head !! p) as [x|]; [|done]. cbn in He. congruence.
    + destruct (disk_entry d [] p); [|done]. by rewrite bool_decide_eq_false_2 by tauto.
  - assert (p ∈ working /\ ~ changed d head p) as [Hwk Hch].
    { rewrite Hel in Hin. destruct (decide (p ∈ working)); tauto. }
    destruct (Hread p Hwk) as (data & mode & Hr). destruct (read_disk_entry _ _ _ _ Hr) as (e & He & _ & Hb).
    unfold changed in Hch. rewrite Hb in Hch.
    assert (existsb (fun rel => bool_decide (is_Some (disk_entry d [] rel)) && displaces rel p) staged = false) as ->.
    { apply not_true_is_false. intros (rel & Hr1 & [Hs1 Hd1]%andb_true_iff)%existsb_true_elem.
      apply bool_decide_eq_true in Hs1. pose proof (plain_coherent d [] staged p staged_plain (Hplain p Hk) rel Hr1 Hs1 Hd1). congruence. }
    rewrite He. rewrite bool_decide_eq_true_2; [done|]. split; [|done].
    destruct (head !! p) as [x|]; [|by destruct Hch]. cbn. f_equal. apply dec_stable. tauto.
Qed.
Lemma all_clash_free : clash_free (fold_staged d [] staged head).
Proof using All.
  assert (forall p, is_Some (fold_staged d [] staged head !! p) -> (is_Some (head !! p) \/ p ∈ working) /\ is_Some (disk_entry d [] p)) as Hk.
  { intros p Hp. assert (is_Some (head !! p) \/ p ∈ working) as Hkn.
    { destruct (head !! p) eqn:Hn; [left; by eexists|]. destruct (decide (p ∈ working)); [by right|].
      rewrite fold_unstaged in Hp; [by destruct Hp|done|]. intros [[Hx _]|[[y Hx] _]]%Hel; [done|congruence]. }
    split; [done|]. rewrite all_recorded in Hp by done. unfold recorded in Hp. destruct (disk_entry d [] p); [by eexists|by destruct Hp]. }
  intros p rest Hp. destruct (_ !! (p +:+ String slash rest)) as [e|] eqn:Hr; [exfalso|done].
  destruct (Hk p Hp) as [Hkp [x Hx]]. destruct (Hk (p +:+ String slash rest)) as [Hkr Hsr]; [by eexists|].
  assert (coherent d [] [p +:+ String slash rest] p) as Hc.
  { apply plain_coherent; [|by apply Hplain]. intros rel ->%list_elem_of_singleton. by apply Hplain. }
  rewrite (Hc (p +:+ String slash rest)) in Hx; [done|by left|done|]. unfold displaces.
  rewrite bool_decide_eq_true_2; [done|]. apply path_dirs_above. by eexists.
Qed.
Lemma all_checked : checkStagedEntries E d head staged = Ok tt.
Proof using All.
  unfold checkStagedEntries. assert (omap (checkStagedEntry E d head) staged = []) as ->; [|done].
  apply elem_of_nil_inv. intros e (p & Hp & He)%list_elem_of_omap. unfold checkStagedEntry in He.
  pose proof (plain_stat _ _ (staged_plain p Hp)) as Hs. unfold isDirOnDisk in He.
  destruct (lstat E d p) as [n| |] eqn:Hl; [| |done]; destruct (head !! p) eqn:Hh; try done.
  - apply Hel in Hp as [[Hwk _]|[[y Hx] _]]; [|congruence]. destruct (Hread p Hwk) as (data & mode & Hr).
    destruct (read_disk_entry _ _ _ _ Hr) as (_ & _ & Hi & _). unfold isDirOnDisk in Hi. rewrite Hl in Hi. injection Hi as Hi. by rewrite Hi in He.
  - apply Hel in Hp as [[Hwk _]|[[y Hx] _]]; [|congruence]. destruct (Hread p Hwk) as (data & mode & Hr).
    unfold read_working, workingFileContent in Hr. unfold lstat in Hl. rewrite Hl in Hr. by destruct (validateRelPath p).
Qed.
End All.

(** C9. [commit -a] records the working tree. Where nothing is staged, every
    path HEAD or the walk of the working tree knows is plain, and the status and
    the size guard succeed, staging everything and building the tree succeed, and
    the files of the tree are what is on disk: a path with no file there is gone,
    and every other has the content on disk; its mode is the one on disk where
    the content changed or the path is new, and where only the mode changed the
    entry of HEAD is kept, mode included; and no path is file and directory. *)
Theorem commit_all_records limit s sts head working : addressed (vc_objects s) -> Status E s = Ok sts ->
  vc_headFiles s = Ok head -> listWorkingFiles E s = Ok working -> vc_staged s = Ok [] -> ve_generated E = Some [] ->
  let d := rp_disk (vc_repo s) in
  assertNotOversized E limit d (map fs_Path sts) = Ok tt ->
  (forall p, is_Some (head !! p) \/ p ∈ working -> plain d p) ->
  exists s1 files st, addChanged E limit "" s = (Ok tt, s1) /\ staged_files E s1 = Ok (files, st) /\ clash_free files /\
    forall p, (is_Some (head !! p) \/ p ∈ working ->
      files !! p = recorded d head working p) /\ (head !! p = None -> p ∉ working -> files !! p = None).
Proof.
  intros A Hs Hh Hw Hst Hg d Hl Hp.
  destruct (Status_Ok _ _ Hs) as (head' & working' & staged' & Hh' & Hw' & Hst' & Hread & Hel).
  assert (head' = head) as -> by congruence. assert (working' = working) as -> by congruence.
  assert (staged' = []) as -> by congruence. fold d in Hread, Hel.
  destruct (addChanged_all limit s sts Hs Hst Hg Hl) as (s1 & staged & Hadd & Hst1 & Hels & Ho & Hd & Hh1).
  { intros p [[Hx _]|[Hx _]]%Hel; apply Hp; auto. }
  assert (forall p, p ∈ staged <-> (p ∈ working /\ changed d head p) \/ (is_Some (head !! p) /\ p ∉ working)) as Hin.
  { intros p. rewrite Hels, Hel. pose proof (not_elem_of_nil p). tauto. }
  destruct (apply_all_total d [] staged (head, vc_objects s)) as [[files st] Hall]; [by eapply staged_plain|].
  destruct (apply_all_Ok _ _ _ _ _ _ _ A Hall) as (_ & _ & Hf & _).
  exists s1, files, st. split; [done|]. split.
  { unfold staged_files, generatedSet. rewrite Hh1, Hh, Hst1, Hg, Ho, Hd. cbn [mbind res_bind res_of_option].
    fold d. rewrite (all_checked d head working staged) by done. cbn [mbind res_bind]. rewrite Hall. cbn [mbind res_bind].
    assert (fileDirClash (ve_it E) files = None) as ->; [|done]. apply fileDirClash_None. rewrite Hf. by eapply all_clash_free. }
  split; [rewrite Hf; by eapply all_clash_free|]. intros p. rewrite Hf. split; [by eapply all_recorded|].
  intros Hn Hnw. apply fold_unstaged; [done|]. intros [[Hx _]|[[y Hx] _]]%Hin; [done|congruence].
Qed.

(** ** A commit *)

Lemma build_Ok s h st : addressed (vc_objects s) -> buildTreeFromStaging E s = Ok (h, st) -> exists files st0,
  staged_files E s = Ok (files, st0) /\ addressed st0 /\ vc_objects s ⊆ st0 /\ clash_free files /\
  write_tree (ve_it E) (ve_itd E) files st0 = Ok (h, st).
Proof.
  intros A ([files st0] & Hf & H)%bind_Ok. exists files, st0. apply res_map_err_Ok in H.
  pose proof Hf as Hf'. unfold staged_files in Hf'. apply bind_Ok in Hf' as (head & _ & Hf').
  apply bind_Ok in Hf' as (staged & _ & Hf'). apply bind_Ok in Hf' as (gen & _ & Hf'). apply bind_Ok in Hf' as (_ & _ & Hf').
  apply bind_Ok in Hf' as ([fs st1] & Hall & Hf'). destruct (fileDirClash _ fs) eqn:Hc; [done|]. injection Hf' as -> ->.
  apply apply_all_Ok in Hall as (A1 & S1 & _); [|done]. apply fileDirClash_None in Hc. by split_and!.
Qed.

(** A commit that stops before the reference, or writes everything and comes to
    the compare and set. *)
Lemma CreateCommit_run c s r s' : addressed (vc_objects s) -> CreateCommit E c s = (r, s') ->
  let branch := rp_bound (vc_repo s) in
  let others := ve_others E (rp_refs (vc_repo s)) in
  addressed (vc_objects s') /\ vc_objects s ⊆ vc_objects s' /\
  (is_ok r = false /\ vc_repo s' = vc_repo s \/
   exists parent files st id g d, rp_refs (vc_repo s) !! branch = Some parent /\ staged_files E s = Ok (files, st) /\ clash_free files /\
     vc_objects s' !! id = Some (CommitObject, d) /\ DecodeCommit d = Some g /\ g_ParentHashes g = [parent] /\
     (files_ok files -> commitFiles (vc_objects s') id = Ok files) /\
     if bool_decide (others !! branch = Some parent)
     then vc_repo s' = set_staged (Some []) (set_refs (<[branch := id]> others) (vc_repo s)) /\
          exists c', r = Ok c' /\ CommitID c' = id
     else vc_repo s' = set_refs others (vc_repo s) /\ r = Err VRefMoved).
Proof.
  intros A. unfold CreateCommit, createCommit, mbind, ST_bind, get, lift.
  destruct (rp_refs (vc_repo s) !! rp_bound (vc_repo s)) as [parent|] eqn:Hp; cbn [res_of_option];
    [|by intros [= <- <-]; split_and!; try done; left].
  unfold vc_build. destruct (buildTreeFromStaging E s) as [[tree st1]|e] eqn:Hb; cbn zeta beta iota;
    [|by intros [= <- <-]; split_and!; try done; left].
  destruct (build_Ok _ _ _ A Hb) as (files & st0 & Hf & A0 & S0 & Hcf & Hw).
  destruct (write_tree_grows _ _ _ _ _ _ A0 Hw) as [A1 S1].
  unfold vc_store. cbn [vc_objects vc_set_objects]. set (params := mkParams tree [parent] _ _ _ _).
  assert (vc_objects s ⊆ st1) as S01 by (by etrans).
  destruct (writeCommit params st1) as [[id st2]|e] eqn:Hc; [|by intros [= <- <-]; split_and!; try done; left].
  destruct (writeCommit_spec _ _ _ _ A1 Hc) as (A2 & S2 & d & g & Hl & Hg & _ & Hpar).
  assert (vc_objects s ⊆ st2) as S02 by (by etrans).
  assert (files_ok files -> commitFiles st2 id = Ok files) as Hread.
  { intros Hok. by destruct (write_commit_reads _ _ _ params _ _ _ _ _ A0 Hok Hw eq_refl Hc) as [? _]. }
  unfold advanceBranchRefCAS. cbn [vc_repo vc_set_objects vc_set_repo set_refs rp_bound rp_refs].
  destruct (bool_decide (_ = Some parent)) eqn:Hcas; intros [= <- <-]; (split; [done|]; split; [done|]); right;
    exists parent, files, st0, id, g, d; cbn; rewrite Hcas; split_and!; try done. by eexists.
Qed.

(** C17. A commit moves its branch by compare and set. It succeeds only if the
    branch still holds, after whatever others did to the references, the commit
    the build started from, which is then the only parent; the references are
    those the others left with the branch at the new commit, the staging set is
    empty, and the commit reads back as the files built from the staging set,
    among which no path is file and directory. A commit that fails writes no
    reference, and keeps the staging set; in both cases the objects only grow
    and the disk is untouched. *)
Theorem CreateCommit_cas c s r s' : addressed (vc_objects s) -> CreateCommit E c s = (r, s') ->
  let branch := rp_bound (vc_repo s) in
  let refs := rp_refs (vc_repo s) in
  let refs' := rp_refs (vc_repo s') in
  addressed (vc_objects s') /\ vc_objects s ⊆ vc_objects s' /\
  rp_disk (vc_repo s') = rp_disk (vc_repo s) /\ rp_bound (vc_repo s') = branch /\
  match r with
  | Ok c' => exists parent files st g d, refs !! branch = Some parent /\ ve_others E refs !! branch = Some parent /\
      refs' = <[branch := CommitID c']> (ve_others E refs) /\ vc_staged s' = Ok [] /\
      staged_files E s = Ok (files, st) /\ clash_free files /\
      vc_objects s' !! CommitID c' = Some (CommitObject, d) /\ DecodeCommit d = Some g /\ g_ParentHashes g = [parent] /\
      (files_ok files -> commitFiles (vc_objects s') (CommitID c') = Ok files)
  | Err e => rp_staged (vc_repo s') = rp_staged (vc_repo s) /\
      (refs' = refs \/ e = VRefMoved /\ refs' = ve_others E refs /\ ve_others E refs !! branch <> refs !! branch)
  end.
Proof.
  intros A H. destruct (CreateCommit_run _ _ _ _ A H) as (A' & S' & Hrun). cbn zeta.
  destruct Hrun as [[Hr Hs]|(parent & files & st & id & g & d & Hp & Hf & Hcf & Hl & Hg & Hpar & Hread & Hrun)].
  { destruct r as [c'|e]; [done|]. rewrite Hs. split_and!; try done. by left. }
  case_bool_decide as Hcas; destruct Hrun as [Hs Hr].
  - destruct Hr as (c' & -> & Hid). rewrite <- Hid in *. unfold vc_staged. rewrite Hs. split_and!; try done.
    exists parent, files, st, g, d. by split_and!.
  - subst r. rewrite Hs. split_and!; try done. right. split_and!; [done..|cbn; congruence].
Qed.

(** ** A directory replaced on disk *)

(** What [commit -a] stages of a path HEAD has and the walk does not list. *)
Lemma addChanged_deleted limit s s1 head working q gen : vc_headFiles s = Ok head -> listWorkingFiles E s = Ok working ->
  is_Some (head !! q) -> q ∉ working -> plain_name q -> ve_generated E = Some gen -> q ∉ gen ->
  vc_staged s = Ok [] -> addChanged E limit "" s = (Ok tt, s1) ->
  exists staged, vc_staged s1 = Ok (sort_by id staged) /\ q ∈ staged /\
    (forall r, r ∈ staged -> is_Some (head !! r) \/ r ∈ working) /\
    vc_objects s1 = vc_objects s /\ rp_disk (vc_repo s1) = rp_disk (vc_repo s) /\ vc_headFiles s1 = vc_headFiles s.
Proof.
  intros Hh Hw Hq Hn Hname Hg Hng Hst. unfold addChanged. destruct (Status E s) as [sts|e] eqn:Hs; [|done].
  destruct (Status_Ok _ _ Hs) as (head' & working' & staged' & Hh' & Hw' & _ & _ & Hel).
  assert (head' = head) as -> by congruence. assert (working' = working) as -> by congruence.
  unfold generatedSet. rewrite Hg. cbn [mbind res_bind res_of_option]. set (paths := List.filter _ _).
  assert (q ∈ paths) as Hin.
  { apply list_elem_of_In, filter_In. split; [apply list_elem_of_In, Hel; by right|].
    rewrite Hname, bool_decide_eq_false_2 by done. done. }
  destruct (assertNotOversized _ _ _ _); [|done]. cbn [mbind res_bind].
  assert (forall r, r ∈ paths -> is_Some (head !! r) \/ r ∈ working) as Hk.
  { intros r [Hr _]%list_elem_of_In%filter_In. apply list_elem_of_In, Hel in Hr as [[? _]|[? _]]; auto. }
  clearbody paths. destruct paths as [|p l]; [by apply not_elem_of_nil in Hin|]. unfold stagePaths. rewrite Hst.
  change ((@Ok vc_err unit tt, saveStaging (fold_left stage_one (p :: l) []) s) = (Ok tt, s1) -> exists staged : list string,
    vc_staged s1 = Ok (sort_by id staged) /\ q ∈ staged /\ (forall r, r ∈ staged -> is_Some (head !! r) \/ r ∈ working) /\
    vc_objects s1 = vc_objects s /\ rp_disk (vc_repo s1) = rp_disk (vc_repo s) /\ vc_headFiles s1 = vc_headFiles s).
  set (all := fold_left stage_one (p :: l) []). intros [= <-]. exists all. split; [done|].
  split; [apply stage_fold; by right|]. split; [|done]. intros r [?%not_elem_of_nil|Hr]%stage_fold; [done|by apply Hk].
Qed.

(** The directory [a] of a tracked path [q] is now what [n] says, and what leads
    to it is as before. *)
Definition replaced (d : Disk) (a rest : string) (n : Node) : Prop :=
  clean a = a /\ clean (a +:+ String slash rest) = a +:+ String slash rest /\ d_nodes d !! comps a = Some n /\
  forall b, above b (comps a) -> d_nodes d !! b = Some NDir.
Lemma replaced_comps d a rest n : replaced d a rest n ->
  comps (a +:+ String slash rest) = comps a ++ split slash rest /\ comps a <> [] /\ split slash rest <> [].
Proof.
  intros (Ha & Hq & _). unfold comps. rewrite Ha, Hq, split_sep. split_and!; [done|apply split_not_nil|apply split_not_nil].
Qed.
Lemma replaced_above d a rest n : replaced d a rest n ->
  forall b x, b <> [] -> x <> [] -> comps a = b ++ x -> d_nodes d !! ([] ++ b) = Some NDir.
Proof. intros (_ & _ & _ & Hab) b x Hb Hx He. apply Hab. split; [done|]. by exists x. Qed.

(** A tracked directory that became a file cannot be committed with
    [commit -a]: staging succeeds, with the deletions of the files that were below
    it, and the commit is then refused for every one of them, whatever else is
    staged, because asking the disk about a path below a file is an error and not
    an absence. *)
Theorem dir_to_file_stuck limit s s1 c head working a rest f gen : vc_headFiles s = Ok head -> listWorkingFiles E s = Ok working ->
  let q := a +:+ String slash rest in
  is_Some (head !! q) -> q ∉ working -> plain_name q -> ve_generated E = Some gen -> q ∉ gen -> vc_staged s = Ok [] ->
  replaced (rp_disk (vc_repo s)) a rest (NFile f) -> addChanged E limit "" s = (Ok tt, s1) ->
  exists problems, VLstat q ∈ problems /\ staged_files E s1 = Err (VStaged problems) /\
    (is_Some (rp_refs (vc_repo s1) !! rp_bound (vc_repo s1)) -> CreateCommit E c s1 = (Err (VStaged problems), s1)).
Proof.
  intros Hh Hw q Hq Hn Hname Hg Hng Hst Hr Hadd.
  destruct (addChanged_deleted _ _ _ _ _ _ _ Hh Hw Hq Hn Hname Hg Hng Hst Hadd) as (staged & Hst1 & Hin & _ & Ho & Hd & Hh1).
  destruct (replaced_comps _ _ _ _ Hr) as (Hc & Ha & Hrest).
  assert (lstat E (rp_disk (vc_repo s)) q = StatErr) as Hl.
  { unfold lstat, Lstat. unfold q. rewrite Hc. rewrite (locate_file _ [] _ _ f); [done|done|done|by eapply replaced_above|apply Hr]. }
  assert (VLstat q ∈ omap (checkStagedEntry E (rp_disk (vc_repo s)) head) (sort_by id staged)) as Hp.
  { apply list_elem_of_omap. exists q. split; [by apply elem_of_sort_by|]. unfold checkStagedEntry, isDirOnDisk. by rewrite Hl. }
  exists (omap (checkStagedEntry E (rp_disk (vc_repo s)) head) (sort_by id staged)). split; [done|].
  assert (staged_files E s1 = Err (VStaged (omap (checkStagedEntry E (rp_disk (vc_repo s)) head) (sort_by id staged)))) as Hsf.
  { unfold staged_files, generatedSet, checkStagedEntries. rewrite Hh1, Hh, Hst1, Hg, Hd. cbn [mbind res_bind res_of_option].
    destruct (omap _ _); [by apply not_elem_of_nil in Hp|done]. }
  split; [done|]. intros [parent Hpar]. unfold CreateCommit, createCommit, mbind, ST_bind, get, lift. rewrite Hpar. cbn [res_of_option].
  unfold vc_build, buildTreeFromStaging. by rewrite Hsf.
Qed.

(** ** A directory replaced by a link *)

Lemma le_app r x : String.le r (r +:+ x).
Proof.
  induction r as [|c r IH]; [by destruct x|]. rewrite app_cons. unfold String.le, String.leb in *. cbn.
  unfold Ascii.compare. by rewrite N.compare_refl.
Qed.
Lemma app_neq r c x : r <> r +:+ String c x.
Proof. intros H. apply (f_equal String.length) in H. rewrite length_sapp in H. cbn in H. lia. Qed.
(** The last staged path that bears on [q] decides it. *)
Lemma fold_last d gen l1 l2 (files : Files) q : (forall r, r ∈ l2 -> r <> q -> displaces r q = false) ->
  fold_staged d gen (l1 ++ q :: l2) files !! q = disk_entry d gen q.
Proof.
  intros Hr. rewrite fold_left_app. cbn [fold_left]. set (f := fold_left _ l1 files). clearbody f.
  assert (match disk_entry d gen q with None => delete q f | Some e => <[q := e]> (replaceInTree q f) end !! q = disk_entry d gen q) as H0.
  { destruct (disk_entry d gen q); [by rewrite lookup_insert_eq|by rewrite lookup_delete_eq]. }
  revert H0. generalize (match disk_entry d gen q with None => delete q f | Some e => <[q := e]> (replaceInTree q f) end).
  induction l2 as [|r l2 IH]; intros g Hg; cbn [fold_left]; [done|]. apply IH; [intros; apply Hr; [by right|done]|].
  destruct (decide (r = q)) as [->|Hne].
  { destruct (disk_entry d gen q); [by rewrite lookup_insert_eq|by rewrite lookup_delete_eq]. }
  destruct (disk_entry d gen r); [|by rewrite lookup_delete_ne].
  rewrite lookup_insert_ne, replaceInTree_lookup by done. fold (displaces r q). by rewrite (Hr r) by (done || by left).
Qed.

(** Among sorted paths, one after [q] displaces it only from below it. *)
Lemma after_spares l1 l2 q r : StronglySorted String.le (l1 ++ q :: l2) -> r ∈ l2 ->
  String.le q r /\ (has_prefix (q +:+ "/") r = false -> r <> q -> displaces r q = false).
Proof.
  intros Hs Hr. apply StronglySorted_app in Hs as (_ & _ & Hs). apply StronglySorted_inv in Hs as [_ Hs].
  rewrite Forall_forall in Hs. specialize (Hs r Hr). split; [done|]. intros Hb Hne. apply orb_false_iff. split.
  - apply bool_decide_eq_false. intros (x & ->)%path_dirs_above. change (String slash x) with ("/" +:+ x) in Hb.
    by rewrite <- sapp_assoc, has_prefix_self in Hb.
  - apply not_true_is_false. intros (x & Hx)%has_prefix_app. destruct Hne. apply (anti_symm String.le); [|done].
    rewrite Hx, sapp_assoc. apply le_app.
Qed.

(** Where a tracked directory was replaced by a link to a directory outside,
    [commit -a] commits what lies outside: the tracked path below the link is
    staged as a deletion, read through the link, and recorded as a file whose
    content is that of the file there; the link itself is not recorded. *)
Theorem link_swap_commits_outside limit s s1 head working a rest t data x gen files st :
  addressed (vc_objects s) -> vc_headFiles s = Ok head -> listWorkingFiles E s = Ok working -> clash_free head ->
  let q := a +:+ String slash rest in
  is_Some (head !! q) -> q ∉ working -> (forall r, r ∈ working -> has_prefix (q +:+ "/") r = false) ->
  validateRelPath q = Ok tt -> plain_name q -> ve_generated E = Some gen -> q ∉ gen -> vc_staged s = Ok [] ->
  replaced (rp_disk (vc_repo s)) a rest (NLink t) -> h_node (ve_host E) t (split slash rest) = Some (NFile (data, x)) ->
  addChanged E limit "" s = (Ok tt, s1) -> staged_files E s1 = Ok (files, st) ->
  files !! q = Some (mkEntry (ComputeHash BlobObject data) (if x then filemode_Executable else filemode_Regular)) /\
  st !! ComputeHash BlobObject data = Some (BlobObject, data) /\ files !! a = None.
Proof.
  intros A Hh Hw Hcf q Hq Hn Hbelow Hv Hname Hg Hng Hst Hr Hnode Hadd Hsf.
  destruct (addChanged_deleted _ _ _ _ _ _ _ Hh Hw Hq Hn Hname Hg Hng Hst Hadd) as (staged & Hst1 & Hin & Hk & Ho & Hd & Hh1).
  destruct (replaced_comps _ _ _ _ Hr) as (Hc & Ha & Hrest). fold q in Hc.
  set (d := rp_disk (vc_repo s)) in *.
  assert (Lstat (ve_host E) d (comps q) = Present (NFile (data, x))) as Hl.
  { unfold Lstat. rewrite Hc. rewrite (locate_link _ [] _ _ t); [by rewrite Hnode|done|done|by eapply replaced_above|apply Hr]. }
  assert (disk_entry d gen q = Some (mkEntry (ComputeHash BlobObject data) (if x then filemode_Executable else filemode_Regular))) as He.
  { unfold disk_entry, isDirOnDisk, lstat, read_working, workingFileContent. rewrite Hl, Hv. cbn. unfold committed_content.
    by rewrite bool_decide_eq_false_2. }
  unfold staged_files, generatedSet in Hsf. rewrite Hh1, Hh, Hst1, Hg, Ho, Hd in Hsf. cbn [mbind res_bind res_of_option] in Hsf.
  apply bind_Ok in Hsf as (_ & _ & Hsf). apply bind_Ok in Hsf as ([fs st'] & Hall & Hsf).
  destruct (fileDirClash _ fs); [done|]. injection Hsf as -> ->.
  apply apply_all_Ok in Hall as (A1 & _ & Hf & Hb); [|done]. apply (elem_of_sort_by id) in Hin as Hin'.
  destruct (Hb q _ Hin' He) as (data' & Hdata).
  pose proof (sort_by_sorted id staged) as Hsort. change (StronglySorted String.le (sort_by id staged)) in Hsort.
  assert (forall r, r ∈ sort_by id staged -> has_prefix (q +:+ "/") r = false) as Hnb.
  { intros r [Hrh|Hrw]%(elem_of_sort_by id)%Hk; [|by apply Hbelow]. apply not_true_is_false. intros (y & ->)%has_prefix_app.
    destruct Hq as [e0 Hq0]. rewrite sapp_assoc in Hrh. change ("/" +:+ y) with (String slash y) in Hrh.
    rewrite (Hcf q y) in Hrh; [by destruct Hrh|by eexists]. }
  apply list_elem_of_split in Hin' as (l1 & l2 & Hl12). rewrite Hl12 in *. split; [|split].
  - rewrite Hf, <- He. apply fold_last. intros r Hrl Hne. apply (after_spares l1 l2); [done|done| |done]. apply Hnb. set_solver.
  - pose proof Hdata as Hx. apply A1 in Hx. by apply hash_inj in Hx as [_ ->].
  - rewrite Hf, fold_left_app. cbn [fold_left]. apply fold_unstaged.
    + rewrite He, lookup_insert_ne by apply not_eq_sym, app_neq. rewrite replaceInTree_lookup.
      rewrite bool_decide_eq_true_2; [done|]. apply path_dirs_above. by exists rest.
    + intros Hal. destruct (after_spares l1 l2 q a) as [Hle _]; [done|done|].
      apply (app_neq a "/" rest). apply (anti_symm String.le); [apply le_app|done].
Qed.
End Facts.
