(* ===== verification/CommitToy.v ===== *)
(** * Staging and committing, on concrete repositories

    The theorems of [GitTree.v] and [CommitStore.v] at small repositories over
    the toy encoders: one with an edit, a deletion, a change of mode and a new
    file; one where a tracked directory became a file; one where it became a
    link to a directory outside. *)

From Stdlib Require Import ZArith Lia Ascii String.
From S2P Require Import Prelude StateErr GoStrings TaskId ModelCommit LandWire LandVerify DiskTree Projection GitTree GitToy CommitStore.

Open Scope Z_scope.
Open Scope list_scope.

Module CommitToy.
(** A repository whose HEAD holds these files (a path and its content) and whose
    checkout holds these nodes. *)
Definition blob (text : string) : string := ComputeHash BlobObject (list_ascii_of_string text).
Definition head_of (files : list (string * string)) : string * Storage :=
  toy_commit (map (fun x => (x.1, blob x.2)) files) [] "base" ∅.
Definition repo (files : list (string * string)) (nodes : list (Path * DiskTree.Node content)) : VcState :=
  mkVc (head_of files).2 (mkRepo {[ "main" := (head_of files).1 ]} "main" (mkDisk (list_to_map nodes) []) (Some [])).
Definition file (text : string) (x : bool) : DiskTree.Node content := NFile (list_ascii_of_string text, x).
(** Below the outside directory [/out] there is a file [x]. *)
Definition host : HostFS := mkHost (String.eqb "/out")
  (fun t p => if String.eqb t "/out" && bool_decide (p = ["x"]) then Some (file "secret" false) else None) (fun _ => true) (fun _ => true).
Definition orders : Orders := mkOrders key_order key_order key_order key_order key_order.
Definition env : VcEnv := mkVcEnv host 5 (Some []) (fun _ _ => false) (Some []) (fun _ => true) id key_order key_order orders.

Lemma addressed_repo files nodes : addressed (vc_objects (repo files nodes)).
Proof. apply toy_commit_grows, addressed_empty. Qed.

Definition edited : VcState := repo [("a", "1"); ("gone", "2"); ("run", "#")]
  [(["a"], file "9" false); (["run"], file "#" true); (["new"], NDir); (["new"; "f"], file "n" false)].
Definition to_file : VcState := repo [("a/x", "1"); ("b", "2")] [(["a"], file "9" false); (["b"], file "2" false)].
Definition to_link : VcState := repo [("a/x", "1"); ("b", "2")] [(["a"], NLink "/out"); (["b"], file "2" false)].

Definition head (s : VcState) : Files := ok_or ∅ (vc_headFiles s).
Definition working (s : VcState) : list string := ok_or [] (listWorkingFiles env s).
Definition status (s : VcState) : list FileStatus := ok_or [] (Status env s).
Definition staged_all (s : VcState) : VcState := (addChanged env 0 "" s).2.
Definition built (s : VcState) : Files * Storage := ok_or (∅, ∅) (staged_files env (staged_all s)).

(** A path of HEAD or of the working tree is one of these. *)
Definition known (s : VcState) : list string := (map_to_list (head s)).*1 ++ working s.
Lemma known_all s p : is_Some (head s !! p) \/ p ∈ working s -> p ∈ known s.
Proof.
  intros [[e H]|H]; apply elem_of_app; [left|by right]. apply list_elem_of_fmap. exists (p, e). split; [done|].
  by apply elem_of_map_to_list.
Qed.
(** No link on the disk, and no known path below a file. *)
Definition plainb (s : VcState) : bool :=
  let d := rp_disk (vc_repo s) in
  forallb (fun x => match x.2 with NLink _ => false | _ => true end) (map_to_list (d_nodes d)) &&
  forallb (fun p => String.eqb (clean p) p && is_ok (validateRelPath p) && match lstat env d p with StatErr => false | _ => true end) (known s).
Lemma plain_known s : plainb s = true -> forall p, is_Some (head s !! p) \/ p ∈ working s -> plain env (rp_disk (vc_repo s)) p.
Proof.
  intros [Hl Hk]%andb_true_iff p Hp%known_all. rewrite forallb_forall in Hk. specialize (Hk p (proj1 (list_elem_of_In _ _) Hp)).
  apply andb_true_iff in Hk as [[Hc Hv]%andb_true_iff Hs]. split.
  - by apply String.eqb_eq.
  - by destruct (validateRelPath p) as [[]|].
  - intros a t _ Ha. rewrite forallb_forall in Hl. specialize (Hl (a, NLink t)). cbn in Hl.
    discriminate Hl. by apply list_elem_of_In, elem_of_map_to_list.
  - by destruct (lstat env (rp_disk (vc_repo s)) p).
Qed.
Lemma all_staged s : is_ok (addChanged env 0 "" s).1 = true -> addChanged env 0 "" s = (Ok tt, staged_all s).
Proof. unfold staged_all. by destruct (addChanged env 0 "" s) as [[[]|] ?]. Qed.
Lemma is_ok_or {E A} (r : res E A) d : is_ok r = true -> r = Ok (ok_or d r).
Proof. by destruct r. Qed.

(** [edited]: what [commit -a] makes of it, the change of mode aside. *)
Definition committed : Files := list_to_map
  [("a", mkEntry (blob "9") filemode_Regular); ("run", mkEntry (blob "#") filemode_Regular); ("new/f", mkEntry (blob "n") filemode_Regular)].
Lemma edited_head : vc_headFiles edited = Ok (head edited).
Proof. apply is_ok_or. vm_compute. reflexivity. Qed.
Lemma edited_working : listWorkingFiles env edited = Ok (working edited).
Proof. apply is_ok_or. vm_compute. reflexivity. Qed.
Lemma edited_status : Status env edited = Ok (status edited).
Proof. apply is_ok_or. vm_compute. reflexivity. Qed.
Lemma edited_plain p : is_Some (head edited !! p) \/ p ∈ working edited -> plain env (rp_disk (vc_repo edited)) p.
Proof. apply plain_known. vm_compute. reflexivity. Qed.
Lemma commit_all_records_witness :
  (exists s1 files st, addChanged env 0 "" edited = (Ok tt, s1) /\ staged_files env s1 = Ok (files, st) /\ clash_free files /\
    forall p, (is_Some (head edited !! p) \/ p ∈ working edited ->
      files !! p = recorded env (rp_disk (vc_repo edited)) (head edited) (working edited) p) /\
      (head edited !! p = None -> p ∉ working edited -> files !! p = None)) /\
  (built edited).1 = committed.
Proof.
  split; [|vm_compute; reflexivity].
  exact (commit_all_records env 0 edited _ _ _ (addressed_repo _ _) edited_status edited_head edited_working eq_refl eq_refl
    eq_refl edited_plain).
Defined.

Lemma staged_objects s : vc_objects (staged_all s) = vc_objects s.
Proof.
  unfold staged_all, addChanged. destruct (Status env s ≫= _) as [[|p l]|e]; [done| |done].
  unfold stagePaths. by destruct (vc_staged s).
Qed.
Lemma addressed_edited : addressed (vc_objects (staged_all edited)).
Proof. rewrite staged_objects. apply addressed_repo. Qed.
Definition message : Commit := mkCommit "" "" "" "" (mkTaskID "" "") "agent" "" "all" None [] 0 "" "" "" "".
Definition ran : res vc_err Commit * VcState := CreateCommit env message (staged_all edited).
Definition made : Commit := ok_or message ran.1.
Lemma ran_made : ran = (Ok made, ran.2).
Proof.
  assert (is_ok ran.1 = true) as H by (vm_compute; reflexivity). revert H. unfold made. by destruct ran as [[c|e] s].
Qed.
Lemma CreateCommit_cas_witness :
  addressed (vc_objects ran.2) /\ commitFiles (vc_objects ran.2) (CommitID made) = Ok committed /\
  exists parent files st g d, rp_refs (vc_repo (staged_all edited)) !! "main" = Some parent /\
    rp_refs (vc_repo ran.2) = <[ "main" := CommitID made ]> (rp_refs (vc_repo (staged_all edited))) /\
    staged_files env (staged_all edited) = Ok (files, st) /\ clash_free files /\
    vc_objects ran.2 !! CommitID made = Some (CommitObject, d) /\ DecodeCommit d = Some g /\ g_ParentHashes g = [parent].
Proof.
  destruct (CreateCommit_cas env message (staged_all edited) (Ok made) ran.2 addressed_edited ran_made)
    as (A & _ & _ & _ & parent & files & st & g & d & Hp & _ & Hr & _ & Hf & Hc & Hl & Hg & Hpar & _).
  split; [exact A|]. split; [vm_compute; reflexivity|]. exists parent, files, st, g, d.
  repeat (split; [assumption|]). assumption.
Defined.

(** [to_file]: the tracked directory [a] is a file now. *)
Lemma to_file_replaced : replaced (rp_disk (vc_repo to_file)) "a" "x" (file "9" false).
Proof.
  split; [reflexivity|]. split; [reflexivity|]. split; [reflexivity|]. intros b [Hb (r & Hr & Hx)].
  destruct b as [|y [|z b]]; [by destruct Hb| |discriminate Hx]. destruct r; [by destruct Hr|discriminate Hx].
Qed.
Lemma dir_to_file_stuck_witness :
  exists problems, VLstat "a/x" ∈ problems /\ staged_files env (staged_all to_file) = Err (VStaged problems) /\
    (is_Some (rp_refs (vc_repo (staged_all to_file)) !! rp_bound (vc_repo (staged_all to_file))) ->
     CreateCommit env message (staged_all to_file) = (Err (VStaged problems), staged_all to_file)).
Proof.
  apply (dir_to_file_stuck env 0 to_file (staged_all to_file) message (head to_file) (working to_file) "a" "x"
    (list_ascii_of_string "9", false) []).
  - apply is_ok_or. vm_compute. reflexivity.
  - apply is_ok_or. vm_compute. reflexivity.
  - vm_compute. eexists. reflexivity.
  - apply (bool_decide_eq_false_1 ("a/x" ∈ working to_file)). vm_compute. reflexivity.
  - reflexivity.
  - reflexivity.
  - apply not_elem_of_nil.
  - reflexivity.
  - exact to_file_replaced.
  - apply all_staged. vm_compute. reflexivity.
Defined.

(** [to_link]: the tracked directory [a] is a link to [/out] now. *)
Lemma to_link_replaced : replaced (rp_disk (vc_repo to_link)) "a" "x" (NLink "/out").
Proof.
  split; [reflexivity|]. split; [reflexivity|]. split; [reflexivity|]. intros b [Hb (r & Hr & Hx)].
  destruct b as [|y [|z b]]; [by destruct Hb| |discriminate Hx]. destruct r; [by destruct Hr|discriminate Hx].
Qed.
Lemma to_link_built : staged_files env (staged_all to_link) = Ok (built to_link).
Proof. apply is_ok_or. vm_compute. reflexivity. Qed.
Lemma link_swap_commits_outside_witness :
  (built to_link).1 !! "a/x" = Some (mkEntry (blob "secret") filemode_Regular) /\
  (built to_link).2 !! blob "secret" = Some (BlobObject, list_ascii_of_string "secret") /\ (built to_link).1 !! "a" = None.
Proof.
  apply (link_swap_commits_outside env 0 to_link (staged_all to_link) (head to_link) (working to_link) "a" "x" "/out"
    (list_ascii_of_string "secret") false [] (built to_link).1 (built to_link).2).
  - apply addressed_repo.
  - apply is_ok_or. vm_compute. reflexivity.
  - apply is_ok_or. vm_compute. reflexivity.
  - apply (fileDirClash_None key_order). vm_compute. reflexivity.
  - vm_compute. eexists. reflexivity.
  - apply (bool_decide_eq_false_1 ("a/x" ∈ working to_link)). vm_compute. reflexivity.
  - apply Forall_forall, (bool_decide_eq_true_1 (Forall _ _)). vm_compute. reflexivity.
  - reflexivity.
  - reflexivity.
  - reflexivity.
  - apply not_elem_of_nil.
  - reflexivity.
  - exact to_link_replaced.
  - reflexivity.
  - apply all_staged. vm_compute. reflexivity.
  - rewrite to_link_built. by destruct (built to_link).
Defined.

(** Writing a nested tree and reading it back. *)
Lemma committed_ok : files_ok committed.
Proof.
  split; [|apply (fileDirClash_None key_order); vm_compute; reflexivity]. intros p b Hp.
  assert (Forall (fun x => x.2.(be_mode) <> filemode_Dir /\ Forall (fun c => valid_component c = true) (split slash x.1)) (map_to_list committed)) as H.
  { apply (bool_decide_eq_true_1 _). vm_compute. reflexivity. }
  rewrite Forall_forall in H. apply (H (p, b)). by apply elem_of_map_to_list.
Qed.
Lemma write_read_tree_witness :
  match write_tree key_order reverse_order committed ∅ with
  | Err e => e = EEncodeTree
  | Ok (h, st1) => forall p c st2, cp_tree p = h -> writeCommit p st1 = Ok (c, st2) ->
      commitFiles st2 c = Ok committed /\ addressed st2 /\ ∅ ⊆ st2
  end /\ is_ok (write_tree key_order reverse_order committed ∅) = true.
Proof.
  split; [|vm_compute; reflexivity]. exact (write_read_tree key_order reverse_order committed ∅ addressed_empty committed_ok).
Defined.
End CommitToy.
