(* ===== verification/Squash.v ===== *)
(** * Squashing a task

    [internal/store/git/squash.go], [internal/service/squash.go], with the tag
    stripping of [tasktag.go] and the pin check of [sync.go]: the net change of
    a task's commits over the base they fork from, the commit that carries it on
    the task's own branch, and the service that records it in the ledger. *)

From Stdlib Require Import ZArith Lia Ascii String.
From S2P Require Import Prelude StateErr GoStrings TaskId ModelCommit Ledger LandWire LandVerify DiskTree Projection GitTree.

Open Scope Z_scope.
Open Scope list_scope.

Inductive squash_err :=
  | ENoTask | EReadCommit (hash : string) | EFiles (e : proj_err) | EWriteTree (e : tree_err)
  | ENoBranch | EBadTask | ELedger (e : ledger_err) | EGetCommit | EWorktrees | EPin | EAuditLog.

(** What a squash reads and writes: the objects, the branches, the commit index
    and the audit trail. *)
Record AuditEntry := mkAudit { au_Operation : string; au_Agent : string; au_Task : string; au_Commit : string; au_Details : string }.
Record SqState := mkSq { q_objects : Storage; q_refs : gmap string string; q_index : Tables; q_audit : list AuditEntry }.
Definition q_set_objects (s : Storage) (q : SqState) : SqState := mkSq s (q_refs q) (q_index q) (q_audit q).
Definition q_set_refs (r : gmap string string) (q : SqState) : SqState := mkSq (q_objects q) r (q_index q) (q_audit q).
Definition q_set_index (T : Tables) (q : SqState) : SqState := mkSq (q_objects q) (q_refs q) T (q_audit q).
Definition q_log (e : AuditEntry) (q : SqState) : SqState := mkSq (q_objects q) (q_refs q) (q_index q) (q_audit q ++ [e]).
(** The clock, the worktree table's fork base per task ([None]: the query
    failed), and the audit service: not wired, or whether it can write. *)
Record SqEnv := mkSqEnv { sq_now : time; sq_index_now : string; sq_worktrees : option (gmap string string); sq_audit : option bool }.
Definition SqM := ST SqState squash_err.

(** A write to the object store; to the branches; to the index. *)
Definition store (f : Storage -> res tree_err (string * Storage)) : SqM string := fun q =>
  match f (q_objects q) with Ok (h, st) => (Ok h, q_set_objects st q) | Err e => (Err (EWriteTree e), q) end.
Definition set_ref (branch id : string) : SqM unit := modify (fun q => q_set_refs (<[branch := id]> (q_refs q)) q).
Definition index (f : Tables -> res ledger_err Tables) : SqM unit := fun q =>
  match f (q_index q) with Ok T => (Ok tt, q_set_index T q) | Err e => (Err (ELedger e), q) end.

Record SquashRequest := mkSqReq { sr_TaskID : string; sr_Message : string; sr_DryRun : bool }.
Record squashPlan := mkPlan {
  pl_hashes : list string; pl_diffs : list FileDiff; pl_base : string; pl_message : string; pl_provenance : list string }.
Record SquashTreePreview := mkPreview { pv_BaseCommit : string; pv_BaseTree : string; pv_Tree : string }.
Definition EmptyNet (p : SquashTreePreview) : bool := negb (String.eqb (pv_Tree p) "") && String.eqb (pv_Tree p) (pv_BaseTree p).

(** ** Text *)

Definition nl : string := String "010" "".

(** [leadingTaskTag]: a tag in brackets and one space after it. *)
Definition strip_tag (message : string) : string :=
  match cut_prefix "[MGIT:" message with
  | None => message
  | Some rest =>
    let '(id, rest, found) := cut "]" rest in
    if found && negb (String.eqb id "") then default rest (cut_prefix " " rest) else message
  end.
Fixpoint take_hex (s : string) : string * string :=
  match s with
  | String c r => if existsb (Ascii.eqb c) (list_ascii_of_string "0123456789abcdef")
                  then let '(h, r) := take_hex r in (String c h, r) else ("", s)
  | "" => ("", "")
  end.
(** [cherryPickPrefix]: the prefix and what follows it. *)
Definition cherry_prefix (s : string) : option (string * string) :=
  rest ← cut_prefix "cherry-pick " s;
  let '(h, rest) := take_hex rest in
  if String.eqb h "" then None
  else rest ← cut_prefix ": " rest; Some ("cherry-pick " +:+ h +:+ ": ", rest).
Fixpoint tag_loop (fuel : nat) (rest : string) : string :=
  match fuel with
  | O => rest
  | S fuel => match cherry_prefix rest with
              | Some (kept, rest) => kept +:+ tag_loop fuel (strip_tag rest)
              | None => rest
              end
  end.
Definition withoutTaskTag (message : string) : string := tag_loop (String.length message) (strip_tag message).


(** The last operation on each path, in the order the paths first appear. *)
Definition merge_diff (acc : gmap string FileDiff * list string) (d : FileDiff) : gmap string FileDiff * list string :=
  (<[fd_Path d := d]> acc.1, match acc.1 !! fd_Path d with Some _ => acc.2 | None => acc.2 ++ [fd_Path d] end).
Definition mergeDiffs (diffs : list FileDiff) : list FileDiff :=
  let '(seen, order) := fold_left merge_diff diffs (∅, []) in omap (fun p => seen !! p) order.

(** ** The net change *)

Abbreviation Net := (gmap string (option blobEntry)).
Section Squash.
Context `{G : GoGit} `{W : GitWriter} (it : MapIter blobEntry) (itd : MapIter Files) (itn : MapIter (option blobEntry)).

Definition commit_object (st : Storage) (h : string) : res squash_err GitCommit :=
  match st !! h with
  | Some (CommitObject, d) => res_of_option (EReadCommit h) (DecodeCommit d)
  | _ => Err (EReadCommit h)
  end.
Definition commitTreeFiles (st : Storage) (h : string) : res squash_err Files :=
  _ ← commit_object st h; res_map_err EFiles (commitFiles st h).
Definition squashBase (st : Storage) (first : string) : res squash_err (string * Files) :=
  g ← commit_object st first;
  match g_ParentHashes g with
  | [] => Ok (ZeroHash, ∅)
  | baseHash :: _ => files ← commitTreeFiles st baseHash; Ok (baseHash, files)
  end.

Definition applyTreeDelta (net : Net) (parent cur : Files) : Net :=
  let net := fold_left (fun net x => if bool_decide (parent !! x.1 = Some x.2) then net else <[x.1 := Some x.2]> net) (it cur) net in
  fold_left (fun net x => match cur !! x.1 with Some _ => net | None => <[x.1 := None]> net end) (it parent) net.
(** One commit: the files of its parent and its own. *)
Definition commit_delta (st : Storage) (h : string) : res squash_err (Files * Files) :=
  g ← commit_object st h;
  cur ← commitTreeFiles st h;
  parent ← match g_ParentHashes g with [] => Ok ∅ | p :: _ => commitTreeFiles st p end;
  Ok (parent, cur).
Fixpoint taskNetChanges (st : Storage) (commits : list string) (net : Net) : res squash_err Net :=
  match commits with
  | [] => Ok net
  | h :: commits => '(parent, cur) ← commit_delta st h; taskNetChanges st commits (applyTreeDelta net parent cur)
  end.
(** The range over the net changes that updates the base's files. *)
Definition apply_net (net : Net) (files : Files) : Files :=
  fold_left (fun files x => match x.2 with None => delete x.1 files | Some e => <[x.1 := e]> files end) (itn net) files.

(** The base, its tree, and the files the squash will hold. *)
Definition squash_files (st : Storage) (taskCommits : list string) : res squash_err (string * string * Files) :=
  match taskCommits with
  | [] => Err ENoTask
  | first :: _ =>
    '(baseHash, baseFiles) ← squashBase st first;
    baseTree ← (if String.eqb baseHash ZeroHash then Ok (ComputeHash TreeObject [])
                else g ← commit_object st baseHash; Ok (g_TreeHash g));
    net ← taskNetChanges st taskCommits ∅;
    Ok (baseHash, baseTree, apply_net net baseFiles)
  end.
Definition squashTree (taskCommits : list string) : SqM (string * string * string) :=
  st ← get q_objects;
  '(baseHash, baseTree, files) ← lift (squash_files st taskCommits);
  treeHash ← store (write_tree it itd files);
  mret (baseHash, treeHash, baseTree).

Definition BuildSquashTree (taskCommits : list string) : SqM SquashTreePreview :=
  '(baseHash, treeHash, baseTree) ← squashTree taskCommits;
  mret (mkPreview (if String.eqb baseHash ZeroHash then "" else baseHash) baseTree treeHash).

(** The commit as [CreateSquashCommit] fills it in. *)
Definition squashed (c : Commit) (id parent tree branch : string) (now : time) : Commit :=
  let c := mkCommit id (ContentHash c) parent tree (c_TaskID c) (AgentID c) (SessionID c) (Message c) (FileDiffs c)
    (SquashedFrom c) now (Signature c) (CommitType c) (CreatedBy c) branch in
  mkCommit id (ComputeContentHash c) parent tree (c_TaskID c) (AgentID c) (SessionID c) (Message c) (FileDiffs c)
    (SquashedFrom c) now (Signature c) (CommitType c) (CreatedBy c) branch.
Definition CreateSquashCommit (E : SqEnv) (c : Commit) (taskCommits : list string) (branch : string) : SqM Commit :=
  _ ← lift (err_if (String.eqb branch "") ENoBranch);
  '(baseHash, treeHash, _) ← squashTree taskCommits;
  let root := String.eqb baseHash ZeroHash in
  id ← store (writeCommit (mkParams treeHash (if root then [] else [baseHash]) (Message c)
    (AgentID c) (AgentID c +:+ "@mgit") (sq_now E)));
  _ ← set_ref branch id;
  mret (squashed c id (if root then "" else baseHash) treeHash branch (sq_now E)).

(** ** The service *)

Definition GetCommit (st : Storage) (hash : string) : res squash_err Commit :=
  match commit_object st hash with Ok g => Ok (commitFromGitObject hash g) | Err _ => Err EGetCommit end.
Definition assertPinnedForkBase (E : SqEnv) (taskID computedBase : string) : res squash_err unit :=
  worktrees ← res_of_option EWorktrees (sq_worktrees E);
  match worktrees !! taskID with
  | None => Ok tt
  | Some pinned => err_if (negb (String.eqb pinned "") && negb (String.eqb computedBase "")
                           && negb (String.eqb pinned computedBase)) EPin
  end.
Definition planSquash (E : SqEnv) (req : SquashRequest) : SqM squashPlan :=
  T ← get q_index;
  st ← get q_objects;
  records ← lift (res_map_err ELedger (GetContentCommits (sr_TaskID req) T));
  _ ← lift (err_if (length records =? 0)%nat ENoTask);
  cs ← lift (mapM_res (fun r => GetCommit st (cr_CommitHash r)) records);
  let base := match cs with c :: _ => ParentID c | [] => "" end in
  let summaries := map (fun c => "- " +:+ ShortID c +:+ ": " +:+ withoutTaskTag (Message c)) cs in
  _ ← lift (assertPinnedForkBase E (sr_TaskID req) base);
  let generated := "[" +:+ sr_TaskID req +:+ "] Squashed from " +:+ itoa (Z.of_nat (length records)) +:+ " micro-commits"
                   +:+ nl +:+ nl +:+ join "010"%char summaries in
  mret (mkPlan (map cr_CommitHash records) (mergeDiffs (flat_map (fun c => slice (FileDiffs c)) cs)) base
    (if String.eqb (sr_Message req) "" then generated else sr_Message req) summaries).

Definition logAudit (E : SqEnv) (c : Commit) (taskID : string) (n : nat) : SqM unit :=
  match sq_audit E with
  | None => mret tt
  | Some false => fail EAuditLog
  | Some true => modify (q_log (mkAudit "SQUASH" (AgentID c) taskID (CommitID c)
      ("squashed " +:+ itoa (Z.of_nat n) +:+ " commits")))
  end.
Definition squash_template (tid : TaskID) (agent branch : string) (p : squashPlan) : Commit :=
  mkCommit "" "" "" "" tid agent "" (pl_message p) (Some (pl_diffs p)) (pl_provenance p) 0 "" CommitTypeSquash agent branch.
Definition with_parent (c : Commit) (base : string) : Commit :=
  mkCommit (CommitID c) (ContentHash c) base (TreeHash c) (c_TaskID c) (AgentID c) (SessionID c) (Message c) (FileDiffs c)
    (SquashedFrom c) (CreatedAt c) (Signature c) (CommitType c) (CreatedBy c) (Branch c).
Definition SquashTask (E : SqEnv) (req : SquashRequest) : SqM Commit :=
  plan ← planSquash E req;
  taskID ← lift (match ParseTaskID (sr_TaskID req) with Ok t => Ok t | Err _ => Err EBadTask end);
  if sr_DryRun req then mret (squash_template taskID "" "" plan)
  else
    let branch := "task/" +:+ sr_TaskID req in
    c ← CreateSquashCommit E (squash_template taskID "mgit-squash" branch plan) (pl_hashes plan) branch;
    let c := with_parent c (pl_base plan) in
    T ← get q_index;
    let position := Z.of_nat (length (GetTaskCommits (sr_TaskID req) T)) in
    _ ← index (AddCommitToTask (sq_index_now E) (sr_TaskID req) (CommitID c) (ContentHash c) "mgit-squash" position);
    _ ← logAudit E c (sr_TaskID req) (length (pl_hashes plan));
    mret c.
End Squash.

(** ** The files of a squash *)

(** The reference: a path holds what the last of the commits that changed it
    left there, and what the base has where none did. *)
Definition last_touch (base : Files) (ds : list (Files * Files)) (p : string) : option blobEntry :=
  fold_left (fun v d => if bool_decide (d.1 !! p = d.2 !! p) then v else d.2 !! p) ds (base !! p).

Section NetChange.
Context `{G : GoGit} `{W : GitWriter} (it : MapIter blobEntry) (itd : MapIter Files) (itn : MapIter (option blobEntry)).

Lemma applyTreeDelta_lookup net parent cur p : applyTreeDelta it net parent cur !! p =
  if bool_decide (parent !! p = cur !! p) then net !! p else Some (cur !! p).
Proof.
  unfold applyTreeDelta.
  rewrite (iter_fold_lookup it (fun v x => match cur !! x.1 with Some _ => v | None => Some None end)).
  2: { intros m [k e]. cbn. destruct (cur !! k); [done|apply lookup_insert_eq]. }
  2: { intros m [k e] q Hq. cbn in *. destruct (cur !! k); [done|by apply lookup_insert_ne]. }
  rewrite (iter_fold_lookup it (fun v x => if bool_decide (parent !! x.1 = Some x.2) then v else Some (Some x.2))).
  2: { intros m [k e]. cbn. destruct (bool_decide _); [done|apply lookup_insert_eq]. }
  2: { intros m [k e] q Hq. cbn in *. destruct (bool_decide _); [done|by apply lookup_insert_ne]. }
  destruct (parent !! p) as [b|] eqn:Hp, (cur !! p) as [b'|] eqn:Hc; cbn; rewrite ?Hc, ?Hp; repeat case_bool_decide; naive_solver.
Qed.
Lemma apply_net_lookup net files p : apply_net itn net files !! p =
  match net !! p with Some v => v | None => files !! p end.
Proof.
  unfold apply_net. rewrite (iter_fold_lookup itn (fun v x => x.2)); [done| |].
  - intros m [k [e|]]; cbn; [apply lookup_insert_eq|apply lookup_delete_eq].
  - intros m [k [e|]] q Hq; cbn in *; [by apply lookup_insert_ne|by apply lookup_delete_ne].
Qed.
Lemma taskNetChanges_Ok st commits net net' : taskNetChanges it st commits net = Ok net' <->
  exists ds, mapM_res (commit_delta st) commits = Ok ds /\ net' = fold_left (fun n d => applyTreeDelta it n d.1 d.2) ds net.
Proof.
  revert net. induction commits as [|h commits IH]; intros net; cbn [taskNetChanges mapM_res].
  { split; [intros [= <-]; by exists []|]. intros (ds & [= <-] & ->). done. }
  split.
  - intros ([parent cur] & Hd & (ds & Hm & ->)%IH)%bind_Ok. exists ((parent, cur) :: ds). by rewrite Hd, Hm.
  - intros (ds & ([parent cur] & Hd & (ds' & Hm & [= <-])%bind_Ok)%bind_Ok & ->). rewrite Hd. apply IH. by exists ds'.
Qed.
Lemma net_last_touch (base : Files) ds net p :
  match fold_left (fun n d => applyTreeDelta it n d.1 d.2) ds net !! p with Some v => v | None => base !! p end =
  fold_left (fun v d => if bool_decide (d.1 !! p = d.2 !! p) then v else d.2 !! p) ds
    (match net !! p with Some v => v | None => base !! p end).
Proof.
  revert net. induction ds as [|[parent cur] ds IH]; intros net; cbn [fold_left fst snd]; [done|].
  rewrite IH, applyTreeDelta_lookup. f_equal. by case_bool_decide.
Qed.

Lemma squash_files_Ok st first commits base baseTree files :
  squash_files it itn st (first :: commits) = Ok (base, baseTree, files) ->
  exists baseFiles ds, squashBase st first = Ok (base, baseFiles) /\
    mapM_res (commit_delta st) (first :: commits) = Ok ds /\ forall p, files !! p = last_touch baseFiles ds p.
Proof.
  unfold squash_files. intros ([b bf] & Hb & H)%bind_Ok. apply bind_Ok in H as (bt & _ & H).
  apply bind_Ok in H as (net & (ds & Hds & ->)%taskNetChanges_Ok & [= <- <- <-]). exists bf, ds. split_and!; [done|done|].
  intros p. rewrite apply_net_lookup. unfold last_touch. rewrite net_last_touch. by rewrite lookup_empty.
Qed.
End NetChange.

(** ** The task's rows after a host commit is indexed *)

#[export] Instance by_position_trans : Transitive by_position.
Proof. intros x y z. unfold by_position. lia. Qed.
#[export] Instance by_position_total : Total by_position.
Proof. intros x y. unfold by_position. lia. Qed.
Lemma GetTaskCommits_snoc task T r : ledger_wf T -> t_commit_seq T < cr_ID r -> cr_TaskID r = task ->
  Forall (fun r' => cr_Position r' <= cr_Position r) (GetTaskCommits task T) ->
  forall T', t_commits T' = t_commits T ++ [r] -> GetTaskCommits task T' = GetTaskCommits task T ++ [r].
Proof.
  intros Wf Hid Ht HF T' Hc. unfold GetTaskCommits in *. rewrite Hc, filter_app.
  assert (filter (fun r => cr_TaskID r = task) [r] = [r]) as -> by (cbn; by rewrite decide_True).
  set (l := filter _ (t_commits T)) in *.
  assert (forall x, x ∈ l -> x ∈ t_commits T) as Hl by (intros x [_ Hx]%list_elem_of_filter; done).
  apply (StronglySorted_unique_strong by_position).
  - intros x y Hx Hy. rewrite merge_sort_Permutation in Hx. rewrite merge_sort_Permutation in Hy.
    intros [?|[? H1]] [?|[? H2]]; try lia. assert (cr_ID x = cr_ID y) as He by lia.
    apply elem_of_app in Hx as [Hx|Hx%list_elem_of_singleton], Hy as [Hy|Hy%list_elem_of_singleton]; subst; try done.
    + apply Hl in Hx, Hy. by eapply wf_id_inj.
    + apply Hl in Hx. pose proof (wf_id_bound _ _ Wf Hx). lia.
    + apply Hl in Hy. pose proof (wf_id_bound _ _ Wf Hy). lia.
  - apply StronglySorted_merge_sort; apply _.
  - apply StronglySorted_app. split_and!; [|apply StronglySorted_merge_sort; apply _|repeat constructor].
    intros x y Hx Hy%list_elem_of_singleton. subst y. rewrite Forall_forall in HF. specialize (HF x Hx).
    rewrite merge_sort_Permutation in Hx. apply Hl in Hx. pose proof (wf_id_bound _ _ Wf Hx). cbn in HF. unfold by_position. lia.
  - by rewrite !merge_sort_Permutation.
Qed.
Lemma host_commit_appended now task h ch agent pos T T' l : ledger_wf T -> GetContentCommits task T = Ok l ->
  Forall (fun r => cr_Position r <= pos) (GetTaskCommits task T) ->
  AddCommitToTask now task h ch agent pos T = Ok T' ->
  ledger_wf T' /\ exists r, cr_CommitHash r = h /\ cr_Position r = pos /\
    GetTaskCommits task T' = GetTaskCommits task T ++ [r] /\ GetContentCommits task T' = Ok (l ++ [r]).
Proof.
  intros Wf Hl HF HT. unfold AddCommitToTask, AppendTaskCommit in HT.
  set (i := mkInsert _ _ _ _ _ _ _ _) in *. pose proof (insert_refines now i T Wf) as Hr. rewrite HT in Hr.
  destruct Hr as [Wf' Ha]. cbn in Ha. destruct (existsb _ _); [done|]. cbn in Ha. injection Ha as Ha.
  set (r := insert_record _ now i) in *.
  assert (t_commits T' = t_commits T ++ [r]) as Hc.
  { pose proof (f_equal (map fst) Ha) as Hm. rewrite map_app in Hm. unfold abs in Hm. rewrite !map_map in Hm. cbn in Hm.
    by rewrite !map_id in Hm. }
  assert (GetTaskCommits task T' = GetTaskCommits task T ++ [r]) as Hg.
  { apply (GetTaskCommits_snoc task T r); try done. cbn. rewrite abs_length, <- (wf_seq _ Wf). lia. }
  split; [done|]. exists r. split_and!; [done|done|done|].
  apply GetContentCommits_Ok in Hl as (HU & -> & Hn); [|done]. apply GetContentCommits_Ok; [done|].
  assert (forall x s, (x, s) ∈ abs T' -> s = row_status T' x) as Hst by (intros x s Hx; by apply abs_elem in Hx as [_ ?]).
  assert (row_status T' r = Host) as Hrs.
  { symmetry. apply Hst. rewrite <- Ha. apply elem_of_app. right. by left. }
  assert (forall x, x ∈ GetTaskCommits task T -> row_status T' x = row_status T x) as Hold.
  { intros x Hx. symmetry. apply Hst. rewrite <- Ha. apply elem_of_app. left. apply abs_elem. split; [|done].
    rewrite GetTaskCommits_perm in Hx. by apply list_elem_of_filter in Hx as [_ ?]. }
  rewrite Hg. split_and!.
  - apply Forall_app. split; [|apply Forall_singleton; by rewrite Hrs]. apply Forall_forall. intros x Hx.
    rewrite Hold by done. rewrite Forall_forall in HU. by apply HU.
  - rewrite List.filter_app. cbn [List.filter]. rewrite Hrs. cbn. f_equal.
    clear -Hold. induction (GetTaskCommits task T) as [|x xs IH]; [done|]. cbn [List.filter].
    rewrite (Hold x), IH by (try (by left); intros; apply Hold; by right). done.
  - intros He. by apply app_eq_nil in He as [_ ?].
Qed.

(** ** What a squash does *)

Section Correct.
Context `{G : GoGit} `{W : GitWriter} {L : GitWriterLaws G W}
  (it : MapIter blobEntry) (itd : MapIter Files) (itn : MapIter (option blobEntry)).

Lemma commit_object_mono st st' h g : st ⊆ st' -> commit_object st h = Ok g -> commit_object st' h = Ok g.
Proof.
  intros Hs. unfold commit_object. destruct (st !! h) as [[[] d]|] eqn:Hh; try done. by rewrite (lookup_weaken _ _ _ _ Hh Hs).
Qed.
Lemma commitTreeFiles_mono st st' h files : st ⊆ st' -> addressed st' -> commitTreeFiles st h = Ok files ->
  commitTreeFiles st' h = Ok files.
Proof.
  intros Hs A (g & Hg & Hf)%bind_Ok. unfold commitTreeFiles. rewrite (commit_object_mono _ _ _ _ Hs Hg).
  cbn. apply res_map_err_Ok in Hf. apply res_map_err_Ok. by eapply commitFiles_mono.
Qed.
Lemma commit_delta_mono st st' h d : st ⊆ st' -> addressed st' -> commit_delta st h = Ok d -> commit_delta st' h = Ok d.
Proof.
  intros Hs A (g & Hg & H)%bind_Ok. apply bind_Ok in H as (cur & Hc & H). apply bind_Ok in H as (parent & Hp & H).
  unfold commit_delta. rewrite (commit_object_mono _ _ _ _ Hs Hg). cbn. rewrite (commitTreeFiles_mono _ _ _ _ Hs A Hc). cbn.
  destruct (g_ParentHashes g) as [|p ps]; [by injection Hp as <-|]. by rewrite (commitTreeFiles_mono _ _ _ _ Hs A Hp).
Qed.
Lemma squashBase_mono st st' h b : st ⊆ st' -> addressed st' -> squashBase st h = Ok b -> squashBase st' h = Ok b.
Proof.
  intros Hs A (g & Hg & H)%bind_Ok. unfold squashBase. rewrite (commit_object_mono _ _ _ _ Hs Hg). cbn.
  destruct (g_ParentHashes g) as [|p ps]; [done|]. apply bind_Ok in H as (files & Hf & H).
  by rewrite (commitTreeFiles_mono _ _ _ _ Hs A Hf).
Qed.

Lemma store_Ok f q h q' : store f q = (Ok h, q') <-> exists st, f (q_objects q) = Ok (h, st) /\ q' = q_set_objects st q.
Proof. unfold store. destruct (f _) as [[h' st]|e]; naive_solver. Qed.
Lemma index_Ok f q q' : index f q = (Ok tt, q') <-> exists T, f (q_index q) = Ok T /\ q' = q_set_index T q.
Proof. unfold index. destruct (f _) as [T|e]; naive_solver. Qed.
Lemma squashTree_Ok l q b h bt q' : squashTree it itd itn l q = (Ok (b, h, bt), q') ->
  exists files st', squash_files it itn (q_objects q) l = Ok (b, bt, files) /\
    write_tree it itd files (q_objects q) = Ok (h, st') /\ q' = q_set_objects st' q.
Proof.
  unfold squashTree. intros (st & q1 & [= <- <-] & H)%M_bind_Ok.
  apply M_bind_Ok in H as ([[b1 bt1] files] & q1 & [Hf <-]%lift_eq & H).
  apply M_bind_Ok in H as (h1 & q1 & (st' & Hw & ->)%store_Ok & H). injection H as <- <- <- <-. by exists files, st'.
Qed.

(** The state after a squash commit was made. *)
Lemma CreateSquashCommit_Ok E c l branch q c' q' : addressed (q_objects q) ->
  CreateSquashCommit it itd itn E c l branch q = (Ok c', q') ->
  exists b bt files h st1, squash_files it itn (q_objects q) l = Ok (b, bt, files) /\
    write_tree it itd files (q_objects q) = Ok (h, st1) /\
    addressed (q_objects q') /\ q_objects q ⊆ q_objects q' /\
    q_refs q' = <[branch := CommitID c']> (q_refs q) /\ q_index q' = q_index q /\
    (exists g, commit_object (q_objects q') (CommitID c') = Ok g /\ g_TreeHash g = h /\
       g_ParentHashes g = if String.eqb b ZeroHash then [] else [b]) /\
    (files_ok files -> commitTreeFiles (q_objects q') (CommitID c') = Ok files).
Proof.
  intros A. unfold CreateSquashCommit. intros ([] & q1 & [_ <-]%lift_eq & H)%M_bind_Ok.
  apply M_bind_Ok in H as ([[b h] bt] & q1 & (files & st1 & Hf & Hw & ->)%squashTree_Ok & H).
  apply M_bind_Ok in H as (id & q2 & (st2 & Hc & ->)%store_Ok & H).
  apply M_bind_Ok in H as ([] & q2 & [= <-] & H). injection H as <- <-. cbn in Hc |- *.
  destruct (write_tree_grows _ _ _ _ _ _ A Hw) as [A1 S1].
  destruct (writeCommit_spec _ _ _ _ A1 Hc) as (A2 & S2 & d & g & Hl & Hg & Ht & Hp). cbn in Ht, Hp.
  exists b, bt, files, h, st1. assert (commit_object st2 id = Ok g) as Ho by (unfold commit_object; by rewrite Hl, Hg).
  split_and!; try done; [by etrans|by exists g|]. intros Hok. unfold commitTreeFiles. rewrite Ho. cbn.
  apply res_map_err_Ok. eapply (write_commit_reads it itd files); [exact A|done|exact Hw| |exact Hc]; done.
Qed.

Lemma planSquash_Ok E req q p q' : planSquash E req q = (Ok p, q') -> q' = q /\
  exists records, GetContentCommits (sr_TaskID req) (q_index q) = Ok records /\ records <> [] /\
    pl_hashes p = map cr_CommitHash records /\
    exists cs, mapM_res (fun r => GetCommit (q_objects q) (cr_CommitHash r)) records = Ok cs /\
      pl_base p = (match cs with c :: _ => ParentID c | [] => "" end) /\ pl_diffs p = [].
Proof.
  unfold planSquash. intros (T & q1 & [= <- <-] & H)%M_bind_Ok. apply M_bind_Ok in H as (st & q1 & [= <- <-] & H).
  apply M_bind_Ok in H as (records & q1 & [Hr%res_map_err_Ok <-]%lift_eq & H).
  apply M_bind_Ok in H as ([] & q1 & [Hn%err_if_Ok <-]%lift_eq & H).
  apply M_bind_Ok in H as (cs & q1 & [Hcs <-]%lift_eq & H).
  apply M_bind_Ok in H as ([] & q1 & [_ <-]%lift_eq & H). injection H as <- <-. split; [done|].
  exists records. split_and!; [done|by destruct records|done|]. exists cs. split_and!; [done|done|].
  assert (flat_map (fun c => slice (FileDiffs c)) cs = []) as ->; [|done].
  apply mapM_res_Ok in Hcs. clear -Hcs. induction Hcs as [|r c records cs Hc _ IH]; [done|]. cbn. rewrite IH.
  unfold GetCommit in Hc. destruct (commit_object _ _); [|done]. by injection Hc as <-.
Qed.

Lemma logAudit_index E c task n q q' r : logAudit E c task n q = (r, q') ->
  q_objects q' = q_objects q /\ q_refs q' = q_refs q /\ q_index q' = q_index q.
Proof. unfold logAudit. destruct (sq_audit E) as [[]|]; by intros [= _ <-]. Qed.
Lemma SquashTask_run E req q c q' : addressed (q_objects q) -> sr_DryRun req = false ->
  SquashTask it itd itn E req q = (Ok c, q') ->
  exists records b bt files, GetContentCommits (sr_TaskID req) (q_index q) = Ok records /\ records <> [] /\
    squash_files it itn (q_objects q) (map cr_CommitHash records) = Ok (b, bt, files) /\
    addressed (q_objects q') /\ q_objects q ⊆ q_objects q' /\
    q_refs q' = <["task/" +:+ sr_TaskID req := CommitID c]> (q_refs q) /\
    AddCommitToTask (sq_index_now E) (sr_TaskID req) (CommitID c) (ContentHash c) "mgit-squash"
      (Z.of_nat (length (GetTaskCommits (sr_TaskID req) (q_index q)))) (q_index q) = Ok (q_index q') /\
    (exists g, commit_object (q_objects q') (CommitID c) = Ok g /\
       (exists st1, write_tree it itd files (q_objects q) = Ok (g_TreeHash g, st1)) /\
       g_ParentHashes g = if String.eqb b ZeroHash then [] else [b]) /\
    (files_ok files -> commitTreeFiles (q_objects q') (CommitID c) = Ok files).
Proof.
  intros A Hd. unfold SquashTask. rewrite Hd.
  intros (p & q1 & [-> (records & Hr & Hn & Hh & _)]%planSquash_Ok & H)%M_bind_Ok.
  apply M_bind_Ok in H as (tid & q1 & [_ <-]%lift_eq & H).
  apply M_bind_Ok in H as (c0 & q1 & Hc & H). apply M_bind_Ok in H as (T & q2 & [= <- <-] & H).
  apply M_bind_Ok in H as ([] & q2 & (T' & HT & ->)%index_Ok & H).
  apply M_bind_Ok in H as ([] & q3 & (Ho & Hrf & Hi)%logAudit_index & H). injection H as <- <-.
  apply CreateSquashCommit_Ok in Hc as (b & bt & files & h & st1 & Hf & Hw & A' & S & Hrefs & Hix & (g & Hg & Hth & Hp) & Hok); [|done].
  rewrite Hh in Hf. exists records, b, bt, files. rewrite Ho, Hrf, Hi. cbn. rewrite Hix in HT. split_and!; try done. exists g. split_and!; [done|rewrite Hth; by exists st1|done].
Qed.

(** What a squash of the task starts from: the base its first content commit
    forks from with the base's files, and what each of its commits changed. *)
Definition task_net (q : SqState) (task base : string) (baseFiles : Files) (ds : list (Files * Files)) : Prop :=
  exists records first rest, GetContentCommits task (q_index q) = Ok records /\ map cr_CommitHash records = first :: rest /\
    squashBase (q_objects q) first = Ok (base, baseFiles) /\ mapM_res (commit_delta (q_objects q)) (first :: rest) = Ok ds.
Lemma task_net_files q task records b bt files : GetContentCommits task (q_index q) = Ok records -> records <> [] ->
  squash_files it itn (q_objects q) (map cr_CommitHash records) = Ok (b, bt, files) ->
  exists baseFiles ds, task_net q task b baseFiles ds /\ forall p, files !! p = last_touch baseFiles ds p.
Proof.
  intros Hr Hn Hf. destruct records as [|r rs]; [done|]. cbn [map] in Hf.
  destruct (squash_files_Ok _ _ _ _ _ _ _ _ Hf) as (bf & ds & Hb & Hds & Hl). exists bf, ds. split; [|done].
  by exists (r :: rs), (cr_CommitHash r), (map cr_CommitHash rs).
Qed.
Lemma task_net_inj q task b bf ds b' bf' ds' : task_net q task b bf ds -> task_net q task b' bf' ds' ->
  b = b' /\ bf = bf' /\ ds = ds'.
Proof.
  intros (l & f & r & Hl & Hm & Hb & Hd) (l' & f' & r' & Hl' & Hm' & Hb' & Hd').
  rewrite Hl in Hl'. injection Hl' as <-. rewrite Hm in Hm'. injection Hm' as <- <-. rewrite Hb in Hb'. rewrite Hd in Hd'. by simplify_eq.
Qed.

(** C13. A squash holds exactly the task's net change. When [SquashTask] succeeds
    its commit's only parent is the base the task's first commit forks from (or it
    has none), and, when the resulting set of files can be one tree, reading the
    commit back gives at every path what the last of the task's own commits that
    changed the path left there, deletions included, and what the base has where
    none of them did; commits interleaved on the branch contribute nothing. *)
Theorem SquashTask_delivers E req q c q' : addressed (q_objects q) -> sr_DryRun req = false ->
  SquashTask it itd itn E req q = (Ok c, q') ->
  exists base baseFiles ds files, task_net q (sr_TaskID req) base baseFiles ds /\
    (forall p, files !! p = last_touch baseFiles ds p) /\
    (exists g, commit_object (q_objects q') (CommitID c) = Ok g /\
       g_ParentHashes g = if String.eqb base ZeroHash then [] else [base]) /\
    (files_ok files -> commitTreeFiles (q_objects q') (CommitID c) = Ok files).
Proof.
  intros A Hd H.
  destruct (SquashTask_run _ _ _ _ _ A Hd H) as (records & b & bt & files & Hr & Hn & Hf & _ & _ & _ & _ & (g & Hg & _ & Hp) & Hok).
  destruct (task_net_files _ _ _ _ _ _ Hr Hn Hf) as (bf & ds & Ht & Hl). exists b, bf, ds, files. split_and!; [done|done|by exists g|done].
Qed.

(** A squash can record one path as a file and as a directory. Where the
    task left alone a file of its base that an interleaved commit replaced by a
    directory, and then committed below that directory, the set of files the
    squash writes holds both, and nothing refuses it: the commit is made of the
    tree the encoder gave for a set that is no tree. *)
Theorem squash_clash E req q c q' base baseFiles ds p tail : addressed (q_objects q) -> sr_DryRun req = false ->
  task_net q (sr_TaskID req) base baseFiles ds ->
  is_Some (last_touch baseFiles ds p) -> is_Some (last_touch baseFiles ds (p +:+ String slash tail)) ->
  SquashTask it itd itn E req q = (Ok c, q') ->
  exists files g tree st, write_tree it itd files (q_objects q) = Ok (tree, st) /\ ~ clash_free files /\
    commit_object (q_objects q') (CommitID c) = Ok g /\ g_TreeHash g = tree.
Proof.
  intros A Hd Ht Hp Hq H.
  destruct (SquashTask_run _ _ _ _ _ A Hd H) as (records & b & bt & files & Hr & Hn & Hf & _ & _ & _ & _ & (g & Hg & (st & Hw) & _) & _).
  destruct (task_net_files _ _ _ _ _ _ Hr Hn Hf) as (bf & ds' & Ht' & Hl).
  destruct (task_net_inj _ _ _ _ _ _ _ _ Ht Ht') as (<- & <- & <-). rewrite <- !Hl in *.
  exists files, g, (g_TreeHash g), st. split_and!; [done| |done|done]. intros Hc. rewrite (Hc _ tail Hp) in Hq. by destruct Hq.
Qed.

(** ** Squashing again *)

Lemma squash_files_mono st st' l r : st ⊆ st' -> addressed st' -> squash_files it itn st l = Ok r -> squash_files it itn st' l = Ok r.
Proof.
  intros Hs A. unfold squash_files. destruct l as [|first l]; [done|]. generalize (first :: l). intros hs.
  intros ([b bf] & Hb & H)%bind_Ok. rewrite (squashBase_mono _ _ _ _ Hs A Hb). cbn. apply bind_Ok in H as (bt & Hbt & H).
  assert ((if String.eqb b ZeroHash then Ok (ComputeHash TreeObject []) else g ← commit_object st' b; Ok (g_TreeHash g)) = Ok bt) as ->.
  { destruct (String.eqb b ZeroHash); [done|]. apply bind_Ok in Hbt as (g & Hg & Hbt).
    by rewrite (commit_object_mono _ _ _ _ Hs Hg). }
  cbn. apply bind_Ok in H as (net & (ds & Hds & ->)%taskNetChanges_Ok & H).
  assert (taskNetChanges it st' hs ∅ = Ok (fold_left (fun n d => applyTreeDelta it n d.1 d.2) ds ∅)) as ->; [|done].
  apply taskNetChanges_Ok. exists ds. split; [|done]. apply mapM_res_Ok in Hds. apply mapM_res_Ok.
  eapply Forall2_impl; [exact Hds|]. intros h d. by apply commit_delta_mono.
Qed.
(** A last commit that takes the base to the result changes nothing. *)
Lemma squashBase_root st first bf : addressed st -> squashBase st first = Ok (ZeroHash, bf) -> bf = ∅.
Proof.
  intros A (g & _ & H)%bind_Ok. destruct (g_ParentHashes g) as [|p ps]; [by injection H as <-|].
  apply bind_Ok in H as (files & (g' & Hg & _)%bind_Ok & [= -> _]). unfold commit_object in Hg.
  destruct (st !! ZeroHash) as [[t d]|] eqn:Hz; [|done]. by apply A, hash_nonzero in Hz.
Qed.
Lemma squash_files_snoc st l s g b bt files : addressed st -> squash_files it itn st l = Ok (b, bt, files) ->
  commit_object st s = Ok g -> g_ParentHashes g = (if String.eqb b ZeroHash then [] else [b]) ->
  commitTreeFiles st s = Ok files -> squash_files it itn st (l ++ [s]) = Ok (b, bt, files).
Proof.
  intros A. unfold squash_files. destruct l as [|first l]; [done|]. cbn [app].
  change (first :: (l ++ [s])) with ((first :: l) ++ [s]). set (hs := first :: l). clearbody hs.
  intros ([b' bf] & Hb & H)%bind_Ok Hg Hp Hf. rewrite Hb. cbn [mbind res_bind]. apply bind_Ok in H as (bt' & Hbt & H).
  cbn beta iota. rewrite Hbt. cbn [mbind res_bind].
  apply bind_Ok in H as (net & (ds & Hds & Hnet)%taskNetChanges_Ok & [= <- <- Hfl]).
  assert (commit_delta st s = Ok (bf, files)) as Hd.
  { unfold commit_delta. rewrite Hg. cbn. rewrite Hf. cbn. rewrite Hp. destruct (String.eqb_spec b' ZeroHash) as [->|Hz].
    - by rewrite (squashBase_root _ _ _ A Hb).
    - apply bind_Ok in Hb as (g1 & _ & Hb). destruct (g_ParentHashes g1) as [|p ps]; [by injection Hb as <- <-|].
      apply bind_Ok in Hb as (fs & Hfs & [= -> ->]). by rewrite Hfs. }
  assert (taskNetChanges it st (hs ++ [s]) ∅ = Ok (applyTreeDelta it net bf files)) as ->.
  { apply taskNetChanges_Ok. exists (ds ++ [(bf, files)]). rewrite fold_left_app. cbn. rewrite <- Hnet. split; [|done].
    apply mapM_res_Ok. apply mapM_res_Ok in Hds. apply Forall2_app; [done|by constructor]. }
  cbn. do 2 f_equal. apply map_eq. intros p. rewrite apply_net_lookup, applyTreeDelta_lookup, <- Hfl, apply_net_lookup.
  case_bool_decide as He; [done|by destruct (net !! p)].
Qed.

(** C34. Squashing again gives the same squash. After a successful [SquashTask]
    the task's content commits are those it was made from and then the squash
    commit itself, and the files a second squash computes over that longer list
    are the first one's, over the same base. *)
Theorem squash_again E req q c q' : addressed (q_objects q) -> ledger_wf (q_index q) -> sr_DryRun req = false ->
  let rows := GetTaskCommits (sr_TaskID req) (q_index q) in
  Forall (fun r => cr_Position r <= Z.of_nat (length rows)) rows ->
  SquashTask it itd itn E req q = (Ok c, q') ->
  exists records r base bt files, GetContentCommits (sr_TaskID req) (q_index q) = Ok records /\
    GetContentCommits (sr_TaskID req) (q_index q') = Ok (records ++ [r]) /\ cr_CommitHash r = CommitID c /\
    squash_files it itn (q_objects q) (map cr_CommitHash records) = Ok (base, bt, files) /\
    (files_ok files ->
     squash_files it itn (q_objects q') (map cr_CommitHash (records ++ [r])) = Ok (base, bt, files)).
Proof.
  intros A Wf Hd rows Hpos H.
  destruct (SquashTask_run _ _ _ _ _ A Hd H) as (records & b & bt & files & Hr & _ & Hf & A' & S & _ & Hadd & (g & Hg & _ & Hp) & Hok).
  destruct (host_commit_appended _ _ _ _ _ _ _ _ _ Wf Hr Hpos Hadd) as (_ & r & Hh & _ & _ & Hc).
  exists records, r, b, bt, files. split_and!; try done. intros Hfo. rewrite map_app. cbn [map]. rewrite Hh.
  apply (squash_files_snoc _ _ _ g); try done; [|by apply Hok]. by eapply squash_files_mono.
Qed.

(** ** A chain of commits *)

(** Each commit's first parent is the one before it. *)
Fixpoint chained (st : Storage) (prev : string) (l : list string) : Prop :=
  match l with
  | [] => True
  | h :: l => (exists g, commit_object st h = Ok g /\ head (g_ParentHashes g) = Some prev) /\ chained st h l
  end.
Lemma commit_delta_cur st h d : commit_delta st h = Ok d -> commitTreeFiles st h = Ok d.2.
Proof. intros (g & _ & H)%bind_Ok. apply bind_Ok in H as (cur & Hc & H). apply bind_Ok in H as (parent & _ & [= <-]). done. Qed.
Lemma chained_fold st l ds prev d0 p : mapM_res (commit_delta st) l = Ok ds -> chained st prev l ->
  commit_delta st prev = Ok d0 ->
  exists d, commit_delta st (default prev (last l)) = Ok d /\
    fold_left (fun v d => if bool_decide (d.1 !! p = d.2 !! p) then v else d.2 !! p) ds (d0.2 !! p) = d.2 !! p.
Proof.
  revert ds prev d0. induction l as [|h l IH]; intros ds prev d0; cbn [mapM_res chained].
  { intros [= <-] _ H0. by exists d0. }
  intros (d & Hd & (ds' & Hm & [= <-])%bind_Ok)%bind_Ok [(g & Hg & Hh) Hc] H0. cbn [fold_left].
  assert (d.1 = d0.2) as Hpar.
  { apply commit_delta_cur in H0. unfold commit_delta in Hd. rewrite Hg in Hd. cbn in Hd. apply bind_Ok in Hd as (cur & _ & Hd).
    destruct (g_ParentHashes g) as [|q qs]; [done|]. injection Hh as ->. rewrite H0 in Hd. cbn in Hd. by injection Hd as <-. }
  destruct (IH ds' h d Hm Hc Hd) as (d' & Hd' & Hf). exists d'. split; [rewrite last_cons; by destruct (last l)|]. rewrite <- Hf, Hpar.
  f_equal. by case_bool_decide.
Qed.
(** Over a chain of commits a squash is the last one's tree: when each of the
    task's commits is the first parent of the next, with nothing interleaved,
    the files of the squash are those of the task's last commit. *)
Theorem squash_chain st first rest base bt files : chained st first rest ->
  squash_files it itn st (first :: rest) = Ok (base, bt, files) ->
  commitTreeFiles st (default first (last rest)) = Ok files.
Proof.
  intros Hc Hs. destruct (squash_files_Ok _ _ _ _ _ _ _ _ Hs) as (bf & ds & Hb & Hds & Hl).
  apply bind_Ok in Hds as (d0 & Hd0 & (ds' & Hm & [= <-])%bind_Ok).
  assert (d0.1 = bf) as Hd1.
  { apply bind_Ok in Hb as (g & Hg & Hb). unfold commit_delta in Hd0. rewrite Hg in Hd0. cbn in Hd0.
    apply bind_Ok in Hd0 as (cur & _ & Hd0). destruct (g_ParentHashes g) as [|q qs].
    - injection Hb as _ <-. cbn in Hd0. by injection Hd0 as <-.
    - apply bind_Ok in Hb as (fs & Hfs & [= _ <-]). rewrite Hfs in Hd0. cbn in Hd0. by injection Hd0 as <-. }
  assert (forall p, exists d, commit_delta st (default first (last rest)) = Ok d /\ files !! p = d.2 !! p) as Hall.
  { intros p. destruct (chained_fold st rest ds' first d0 p Hm Hc Hd0) as (d & Hd & Hf). exists d. split; [done|].
    rewrite Hl, <- Hf. unfold last_touch. cbn [fold_left]. f_equal. rewrite Hd1. by case_bool_decide. }
  destruct (Hall "") as (d & Hd & _). rewrite (commit_delta_cur _ _ _ Hd). f_equal. apply map_eq. intros p.
  destruct (Hall p) as (d' & Hd' & ->). congruence.
Qed.

(** ** What a squash leaves alone *)

(** Nothing stored is lost and no branch but one moves. *)
Definition only_branch (branch : string) (q q' : SqState) : Prop :=
  addressed (q_objects q) -> addressed (q_objects q') /\ q_objects q ⊆ q_objects q' /\
    forall b, b <> branch -> q_refs q' !! b = q_refs q !! b.
#[local] Instance only_branch_preorder branch : PreOrder (only_branch branch).
Proof.
  split; [by intros q A|]. intros q1 q2 q3 H1 H2 A. destruct (H1 A) as (A2 & S2 & R2). destruct (H2 A2) as (A3 & S3 & R3).
  split_and!; [done|by etrans|]. intros b Hb. by rewrite R3, R2.
Qed.
Lemma keeps_store branch f : (forall st h st', addressed st -> f st = Ok (h, st') -> addressed st' /\ st ⊆ st') ->
  keeps (only_branch branch) (store f).
Proof.
  intros Hf q A. unfold store. destruct (f (q_objects q)) as [[h st]|e] eqn:He; cbn; [|done].
  by apply Hf in He as [??].
Qed.
Lemma keeps_index branch f : keeps (only_branch branch) (index f).
Proof. intros q A. unfold index. by destruct (f (q_index q)). Qed.
Lemma keeps_set_ref branch id : keeps (only_branch branch) (set_ref branch id).
Proof. intros q A. cbn. split_and!; [done|done|]. intros b Hb. by apply lookup_insert_ne. Qed.
Lemma keeps_squashTree branch l : keeps (only_branch branch) (squashTree it itd itn l).
Proof.
  unfold squashTree. keep. apply keeps_store. intros st h st' A. by apply write_tree_grows.
Qed.

(** Whatever comes of it, an error after the commit was written included, a
    squash removes no object, the task's own commits among them, and moves no
    branch but the task's own; and a dry run changes nothing at all. *)
Theorem SquashTask_frame E req q r q' : addressed (q_objects q) -> SquashTask it itd itn E req q = (r, q') ->
  q_objects q ⊆ q_objects q' /\ (forall b, b <> "task/" +:+ sr_TaskID req -> q_refs q' !! b = q_refs q !! b) /\
  (sr_DryRun req = true -> q' = q).
Proof.
  intros A H.
  assert (keeps (only_branch ("task/" +:+ sr_TaskID req)) (SquashTask it itd itn E req)) as Hk.
  { unfold SquashTask, planSquash, CreateSquashCommit, logAudit.
    keep; try apply keeps_index; try apply keeps_set_ref; try (by intros ?);
      apply keeps_store; intros st h st' A1 Hw; [by eapply write_tree_grows|].
    by destruct (writeCommit_spec _ _ _ _ A1 Hw) as (? & ? & _). }
  destruct (keeps_run _ _ _ _ _ Hk H A) as (_ & S & R). split_and!; [done|done|]. intros Hd.
  assert (keeps eq (planSquash E req)) as Hp by (unfold planSquash; keep).
  unfold SquashTask in H. rewrite Hd in H. apply M_bind_run in H as [(p & q1 & ->%(keeps_run _ _ _ _ _ Hp) & H)|(e & ->%(keeps_run _ _ _ _ _ Hp) & _)]; [|done].
  apply M_bind_run in H as [(t & q2 & [_ <-]%lift_eq & H)|(e & [_ <-]%lift_eq & _)]; [|done]. by injection H.
Qed.
End Correct.
