(* ===== verification/SquashToy.v ===== *)
(** * Squashing, on a concrete repository

    The theorems of [Squash.v] at a small store over the toy encoders: a task of
    two commits with another task's commit between them. *)

From Stdlib Require Import ZArith Lia Ascii String.
From S2P Require Import Prelude StateErr GoStrings TaskId ModelCommit Ledger LandWire LandVerify DiskTree Projection GitTree GitToy Squash.

Open Scope Z_scope.
Open Scope list_scope.

Module SquashToy.
(** The branch: a base with [a] and [b]; the task edits [b]; another task
    replaces the file [a] by a directory; the task edits [b] again, and in the
    second world writes below [a]. *)
Definition base := toy_commit [("a", "h1"); ("b", "h1")] [] "base" ∅.
Definition first := toy_commit [("a", "h1"); ("b", "h2")] [base.1] "first" base.2.
Definition other := toy_commit [("a/x", "h1"); ("b", "h2")] [first.1] "other" first.2.
Definition second := toy_commit [("a/x", "h1"); ("b", "h3")] [other.1] "second" other.2.
Definition below := toy_commit [("a/x", "h1"); ("a/y", "h3"); ("b", "h2")] [other.1] "below" other.2.

Definition rows (l : list string) : Tables :=
  fold_left (fun T h => ok_or T (AddCommitToTask "t0" "MGIT-1" h "ch" "agent" (Z.of_nat (length (t_commits T))) T)) l empty_tables.
Definition repo (st : Storage) (l : list string) : SqState := mkSq st {[ "main" := "x" ]} (rows l) [].
Definition env : SqEnv := mkSqEnv 5 "t1" (Some ∅) (Some true).
Definition req : SquashRequest := mkSqReq "MGIT-1" "" false.
Definition world := repo second.2 [first.1; second.1].
Definition world' := repo below.2 [first.1; below.1].

Lemma addressed_first : addressed first.2.
Proof. apply toy_commit_grows, toy_commit_grows, addressed_empty. Qed.
Lemma addressed_world : addressed (q_objects world).
Proof. apply toy_commit_grows, toy_commit_grows, addressed_first. Qed.
Lemma addressed_world' : addressed (q_objects world').
Proof. apply toy_commit_grows, toy_commit_grows, addressed_first. Qed.

Definition run (q : SqState) : res squash_err Commit * SqState := SquashTask key_order key_order key_order env req q.
Definition made (q : SqState) : Commit := ok_or (mkCommit "" "" "" "" (mkTaskID "" "") "" "" "" None [] 0 "" "" "" "") (run q).1.
Lemma run_made q : is_ok (run q).1 = true -> run q = (Ok (made q), (run q).2).
Proof. unfold made. destruct (run q) as [[c|e] q']; [done|]. intros [=]. Qed.
Lemma world_runs : run world = (Ok (made world), (run world).2).
Proof. apply run_made. vm_compute. reflexivity. Qed.
Lemma world'_runs : run world' = (Ok (made world'), (run world').2).
Proof. apply run_made. vm_compute. reflexivity. Qed.

Example run_files : commitTreeFiles (q_objects (run world).2) (CommitID (made world)) =
  Ok (list_to_map [("a", mkEntry "h1" filemode_Regular); ("b", mkEntry "h3" filemode_Regular)]).
Proof. vm_compute. reflexivity. Qed.

(** The squash of the first world. *)
Lemma SquashTask_delivers_witness :
  exists base baseFiles ds files, task_net world "MGIT-1" base baseFiles ds /\
    (forall p, files !! p = last_touch baseFiles ds p) /\
    (exists g, commit_object (q_objects (run world).2) (CommitID (made world)) = Ok g /\
       g_ParentHashes g = if String.eqb base ZeroHash then [] else [base]) /\
    (files_ok files -> commitTreeFiles (q_objects (run world).2) (CommitID (made world)) = Ok files).
Proof. exact (SquashTask_delivers key_order key_order key_order env req world (made world) _ addressed_world eq_refl world_runs). Defined.

Lemma squash_again_witness :
  exists records r base bt files, GetContentCommits "MGIT-1" (q_index world) = Ok records /\
    GetContentCommits "MGIT-1" (q_index (run world).2) = Ok (records ++ [r]) /\ cr_CommitHash r = CommitID (made world) /\
    squash_files key_order key_order (q_objects world) (map cr_CommitHash records) = Ok (base, bt, files) /\
    (files_ok files ->
     squash_files key_order key_order (q_objects (run world).2) (map cr_CommitHash (records ++ [r])) = Ok (base, bt, files)).
Proof.
  apply (squash_again key_order key_order key_order env req world (made world) (run world).2 addressed_world).
  - pose proof (ledger_refines [TxAppend "t0" [mkInsert "MGIT-1" first.1 "ch" "agent" 0 "" OriginHost ""];
      TxAppend "t0" [mkInsert "MGIT-1" second.1 "ch" "agent" 1 "" OriginHost ""]]) as [H _]. exact H.
  - reflexivity.
  - vm_compute. repeat constructor; discriminate.
  - exact world_runs.
Defined.

Lemma squash_chain_witness :
  commitTreeFiles first.2 first.1 = Ok (list_to_map [("a", mkEntry "h1" filemode_Regular); ("b", mkEntry "h2" filemode_Regular)]).
Proof.
  apply (squash_chain key_order key_order first.2 base.1 [first.1] ZeroHash (ComputeHash TreeObject [])).
  - split; [|done]. eexists. split; vm_compute; reflexivity.
  - vm_compute. reflexivity.
Defined.

Lemma SquashTask_frame_witness :
  q_objects world ⊆ q_objects (run world).2 /\
  (forall b, b <> "task/MGIT-1" -> q_refs (run world).2 !! b = q_refs world !! b) /\
  (sr_DryRun req = true -> (run world).2 = world).
Proof. exact (SquashTask_frame key_order key_order key_order env req world _ _ addressed_world world_runs). Defined.

(** The second world's squash holds [a] and [a/y]. *)
Definition start := squashBase (q_objects world') first.1.
Definition changes := mapM_res (commit_delta (q_objects world')) [first.1; below.1].
Lemma squash_clash_witness :
  exists files g tree st, write_tree key_order key_order files (q_objects world') = Ok (tree, st) /\ ~ clash_free files /\
    commit_object (q_objects (run world').2) (CommitID (made world')) = Ok g /\ g_TreeHash g = tree.
Proof.
  apply (squash_clash key_order key_order key_order env req world' (made world') (run world').2
    base.1 (ok_or ("", ∅) start).2 (ok_or [] changes) "a" "y" addressed_world').
  - reflexivity.
  - exists (ok_or [] (GetContentCommits "MGIT-1" (q_index world'))), first.1, [below.1]. split_and!; vm_compute; reflexivity.
  - exists (mkEntry "h1" filemode_Regular). vm_compute. reflexivity.
  - exists (mkEntry "h3" filemode_Regular). vm_compute. reflexivity.
  - exact world'_runs.
Defined.
End SquashToy.
