(* ===== verification/Apply.v ===== *)
(** * Commits that carry diffs

    [internal/store/git/commit_from_diffs.go], [apply_fs.go], [apply_journal.go],
    [diff.go] and [internal/service/apply_recovery.go]: the commit whose tree is
    the tip's with verified diffs applied, their materialization, the crash
    journal, and the recovery every command runs when it opens the repository. *)

From Stdlib Require Import ZArith Lia Ascii String.
From S2P Require Import Prelude StateErr GoStrings SandboxModel ModelCommit Ledger LandWire LandVerify DiskTree Projection GitTree TreeDiff CommitStore Squash.

Open Scope Z_scope.
Open Scope list_scope.

Inductive apply_err :=
  | AStore (e : vc_err) | ATree (e : tree_err) | ALedger (e : ledger_err) | AProj (e : proj_err) | ANoCommit (hash : string)
  | AHistory | ADiff | AEmpty | AConflict (path : string) | AChain (path : string) | ADirty (paths : list string)
  | AJournalPending (root : string) | ATask | ANoTask | ANoNet | ANoParent (hash : string) | ASourceTask | AAudit.

(** The pending application: where it writes, the commit, what is owed to the
    index, and the diffs. *)
Record ApplyJournal := mkJournal {
  j_Root : string; j_CommitHash : string; j_ContentHash : string; j_TaskID : string; j_AgentID : string; j_Diffs : list FileDiff }.
Record ApState := mkAp { ap_vc : VcState; ap_index : Tables; ap_journal : option ApplyJournal; ap_audit : list AuditEntry }.
Definition ap_set_vc (s : VcState) (a : ApState) : ApState := mkAp s (ap_index a) (ap_journal a) (ap_audit a).
Definition ap_set_index (T : Tables) (a : ApState) : ApState := mkAp (ap_vc a) T (ap_journal a) (ap_audit a).
Definition ap_set_journal (j : option ApplyJournal) (a : ApState) : ApState := mkAp (ap_vc a) (ap_index a) j (ap_audit a).
Definition ap_log (e : AuditEntry) (a : ApState) : ApState := mkAp (ap_vc a) (ap_index a) (ap_journal a) (ap_audit a ++ [e]).
Definition ApM := ST ApState apply_err.
(** [ae_audit]: no audit service, or whether its append succeeds. *)
Record ApEnv := mkApEnv { ae_store : VcEnv; ae_root : string; ae_history : History; ae_index_now : string; ae_audit : option bool }.

(** The journal as JSON keeps it: text that is not UTF-8 is replaced. The other
    strings are hashes and ids, and the hunks are not read back. *)
Definition kept_diff (d : FileDiff) : FileDiff :=
  mkFileDiff (json_text (fd_Path d)) (Operation d) (OldHash d) (NewHash d) (Hunks d) (BinaryDiff d) (fd_Mode d) (OldMode d).
Definition kept_journal (j : ApplyJournal) : ApplyJournal :=
  mkJournal (json_text (j_Root j)) (j_CommitHash j) (j_ContentHash j) (j_TaskID j) (j_AgentID j) (map kept_diff (j_Diffs j)).

Section Apply.
Context `{G : GoGit} `{W : GitWriter} {TD : TreeDiffer} (E : ApEnv).

(** ** Reading *)

Definition a_object (st : Storage) (h : string) : res apply_err GitCommit :=
  match st !! h with
  | Some (CommitObject, d) => res_of_option (ANoCommit h) (DecodeCommit d)
  | _ => Err (ANoCommit h)
  end.
Definition DiffCommits (st : Storage) (fromHash toHash : string) : res apply_err (list FileDiff) :=
  from ← a_object st fromHash;
  to ← a_object st toHash;
  changes ← res_of_option ADiff (diff_trees st (g_TreeHash from) (g_TreeHash to));
  Ok (map (changeToFileDiff st) changes).
Definition IsAncestorOfHead (s : VcState) (hash : string) : res apply_err bool :=
  head ← res_of_option (AStore VNoBranch) (rp_refs (vc_repo s) !! rp_bound (vc_repo s));
  if String.eqb head hash then Ok true
  else
    _ ← a_object (vc_objects s) hash;
    _ ← a_object (vc_objects s) head;
    res_of_option AHistory (is_ancestor (ae_history E) hash head).

(** One turn of the loop of [DirtyPaths]. *)
Definition path_dirty (d : Disk) (head : Files) (staged : list string) (p : string) : res apply_err (option string) :=
  if bool_decide (p ∈ staged) then Ok (Some p)
  else match read_working (ae_store E) d p with
       | WAbsent => Ok (match head !! p with Some _ => Some p | None => None end)
       | WFail e => Err (AProj e)
       | WRead data _ =>
         Ok (match head !! p with
             | None => Some p
             | Some e => if String.eqb (ComputeHash BlobObject data) (be_hash e) then None else Some p
             end)
       end.
Definition DirtyPaths (s : VcState) (paths : list string) : res apply_err (list string) :=
  staged ← res_map_err AStore (vc_staged s);
  head ← res_map_err AStore (vc_headFiles s);
  dirty ← mapM_res (path_dirty (rp_disk (vc_repo s)) head staged) paths;
  Ok (omap (M:=list) id dirty).

(** ** The commit *)

Definition verifyOldState (path : string) (existing : option blobEntry) (oldHash : string) : res apply_err unit :=
  match existing with
  | None => Err (AConflict path)
  | Some e => err_if (negb (String.eqb (be_hash e) oldHash)) (AConflict path)
  end.
Definition diff_new (d : FileDiff) : blobEntry := mkEntry (NewHash d) (gitModeFromDiff (fd_Mode d)).
Definition applyVerifiedDiff (files : Files) (d : FileDiff) : res apply_err Files :=
  let path := fd_Path d in
  if String.eqb (Operation d) DiffAdded then
    match files !! path with
    | Some e => if String.eqb (be_hash e) (NewHash d) then Ok files else Err (AConflict path)
    | None => Ok (<[path := diff_new d]> files)
    end
  else if String.eqb (Operation d) DiffDeleted then
    _ ← verifyOldState path (files !! path) (OldHash d); Ok (delete path files)
  else
    _ ← verifyOldState path (files !! path) (OldHash d); Ok (<[path := diff_new d]> files).
Fixpoint apply_diffs (diffs : list FileDiff) (files : Files) : res apply_err Files :=
  match diffs with [] => Ok files | d :: diffs => files ← applyVerifiedDiff files d; apply_diffs diffs files end.

(** Calls into the parts of the state, their errors wrapped. *)
Definition a_vc {A} (m : VcM A) : ApM A := fun a =>
  match m (ap_vc a) with (Ok x, s) => (Ok x, ap_set_vc s a) | (Err e, s) => (Err (AStore e), ap_set_vc s a) end.
Definition a_store (f : Storage -> res tree_err (string * Storage)) : ApM string := fun a =>
  match f (vc_objects (ap_vc a)) with
  | Ok (h, st) => (Ok h, ap_set_vc (vc_set_objects st (ap_vc a)) a)
  | Err e => (Err (ATree e), a)
  end.
Definition createFromDiffs (c : Commit) (diffs : list FileDiff) (preAdvance : Commit -> ApM unit) : ApM Commit :=
  _ ← lift (err_if (length diffs =? 0)%nat AEmpty);
  branch ← get (fun a => rp_bound (vc_repo (ap_vc a)));
  ref ← get (fun a => rp_refs (vc_repo (ap_vc a)) !! branch);
  parentHash ← lift (res_of_option (AStore VNoBranch) ref);
  head ← get (fun a => vc_headFiles (ap_vc a));
  files ← lift (res_map_err AStore head);
  files ← lift (apply_diffs diffs files);
  treeHash ← a_store (write_tree (ve_it (ae_store E)) (ve_itd (ae_store E)) files);
  id ← a_store (writeCommit (mkParams treeHash [parentHash] (Message c) (AgentID c) (AgentID c +:+ "@mgit") (ve_now (ae_store E))));
  let c := committed_as c id parentHash treeHash (ve_now (ae_store E)) in
  _ ← preAdvance c;
  _ ← a_vc (advanceBranchRefCAS (ae_store E) branch id parentHash);
  mret c.
Definition CreateCommitFromDiffs (c : Commit) (diffs : list FileDiff) : ApM Commit := createFromDiffs c diffs (fun _ => mret tt).

(** ** The disk *)

Definition materialize_one (objects : Storage) (d : FileDiff) (disk : Disk) : res proj_err unit * Disk :=
  let H := ve_host (ae_store E) in
  if String.eqb (Operation d) DiffDeleted
  then step (ERemoveFile (fd_Path d)) disk (Remove H (comps (fd_Path d)) disk) (fun disk => (Ok tt, disk))
  else writeEntryToDir H objects (fd_Path d) (diff_new d) disk.
Fixpoint materialize_all (objects : Storage) (diffs : list FileDiff) (disk : Disk) : res proj_err unit * Disk :=
  match diffs with
  | [] => (Ok tt, disk)
  | d :: diffs => match materialize_one objects d disk with (Ok _, disk) => materialize_all objects diffs disk | r => r end
  end.
Definition a_disk (f : Storage -> Disk -> res proj_err unit * Disk) : ApM unit := fun a =>
  let s := ap_vc a in
  let '(r, disk) := f (vc_objects s) (rp_disk (vc_repo s)) in
  (res_map_err AProj r, ap_set_vc (vc_set_repo (set_disk disk (vc_repo s)) s) a).
Definition MaterializeDiffs (diffs : list FileDiff) : ApM unit :=
  _ ← lift (res_map_err AProj (forM_ (fun d => validateRelPath (fd_Path d)) diffs));
  a_disk (fun objects => materialize_all objects diffs).

(** ** The journal *)

Definition ReadApplyJournal (a : ApState) : option ApplyJournal := kept_journal <$> ap_journal a.
Definition WriteApplyJournal (j : ApplyJournal) : ApM unit := fun a =>
  match ReadApplyJournal a with
  | Some existing => if String.eqb (j_Root existing) (j_Root j) then (Ok tt, ap_set_journal (Some j) a)
                     else (Err (AJournalPending (j_Root existing)), a)
  | None => (Ok tt, ap_set_journal (Some j) a)
  end.
Definition ClearApplyJournal : ApM unit := modify (ap_set_journal None).
Definition CreateCommitFromDiffsJournaled (c : Commit) (diffs : list FileDiff) (taskID agentID : string) : ApM Commit :=
  c ← createFromDiffs c diffs (fun c => WriteApplyJournal (mkJournal (ae_root E) (CommitID c) (ContentHash c) taskID agentID diffs));
  _ ← MaterializeDiffs diffs;
  mret c.
Definition AddToTask (taskID hash contentHash agentID : string) : ApM unit := fun a =>
  let position := Z.of_nat (length (GetTaskCommits taskID (ap_index a))) in
  match AddCommitToTask (ae_index_now E) taskID hash contentHash agentID position (ap_index a) with
  | Ok T => (Ok tt, ap_set_index T a)
  | Err e => (Err (ALedger e), a)
  end.

(** ** Recovery *)

Definition indexIfMissing (j : ApplyJournal) : ApM unit :=
  T ← get ap_index;
  if existsb (fun r => String.eqb (cr_CommitHash r) (j_CommitHash j)) (GetTaskCommits (j_TaskID j) T) then mret tt
  else AddToTask (j_TaskID j) (j_CommitHash j) (j_ContentHash j) (j_AgentID j).
Definition RecoverPendingApply : ApM unit :=
  pending ← get ReadApplyJournal;
  match pending with
  | None => mret tt
  | Some j =>
    if negb (String.eqb (j_Root j) (ae_root E)) then mret tt
    else
      ref ← get (fun a => rp_refs (vc_repo (ap_vc a)) !! rp_bound (vc_repo (ap_vc a)));
      head ← lift (res_of_option (AStore VNoBranch) ref);
      _ ← (if String.eqb head (j_CommitHash j) then _ ← MaterializeDiffs (j_Diffs j); indexIfMissing j
           else onLineage ← get (fun a => IsAncestorOfHead (ap_vc a) (j_CommitHash j));
                onLineage ← lift onLineage;
                if (onLineage : bool) then indexIfMissing j else mret tt);
      ClearApplyJournal
  end.
End Apply.

(** ** What verified diffs do to the files *)

(** One diff at its path: what was there, and what is. *)
Definition diff_applied (d : FileDiff) (old new : option blobEntry) : Prop :=
  if String.eqb (Operation d) DiffAdded
  then old = None /\ new = Some (diff_new d) \/ new = old /\ be_hash <$> old = Some (NewHash d)
  else be_hash <$> old = Some (OldHash d) /\ new = if String.eqb (Operation d) DiffDeleted then None else Some (diff_new d).
Lemma applyVerifiedDiff_Ok files d files' : applyVerifiedDiff files d = Ok files' ->
  diff_applied d (files !! fd_Path d) (files' !! fd_Path d) /\ forall p, p <> fd_Path d -> files' !! p = files !! p.
Proof.
  unfold applyVerifiedDiff, diff_applied, verifyOldState. destruct (String.eqb (Operation d) DiffAdded).
  - destruct (files !! fd_Path d) as [e|] eqn:Hf.
    + destruct (String.eqb_spec (be_hash e) (NewHash d)) as [He|]; [|done]. intros [= <-]. rewrite Hf. cbn. split; [right; by rewrite He|done].
    + intros [= <-]. rewrite lookup_insert_eq. split; [by left|]. intros p Hp. by rewrite lookup_insert_ne.
  - destruct (files !! fd_Path d) as [e|]; [|by destruct (String.eqb _ DiffDeleted)].
    destruct (String.eqb_spec (be_hash e) (OldHash d)) as [He|]; [|by destruct (String.eqb _ DiffDeleted)].
    cbn. rewrite He. destruct (String.eqb _ DiffDeleted); intros [= <-].
    + rewrite lookup_delete_eq. split; [done|]. intros p Hp. by rewrite lookup_delete_ne.
    + rewrite lookup_insert_eq. split; [done|]. intros p Hp. by rewrite lookup_insert_ne.
Qed.
Lemma apply_diffs_Ok l files files' : NoDup (map fd_Path l) -> apply_diffs l files = Ok files' ->
  (forall d, d ∈ l -> diff_applied d (files !! fd_Path d) (files' !! fd_Path d)) /\
  (forall p, p ∉ map fd_Path l -> files' !! p = files !! p).
Proof.
  revert files. induction l as [|d l IH]; intros files Hn; cbn [apply_diffs].
  { intros [= <-]. split; [by intros d ?%not_elem_of_nil|done]. }
  intros (f1 & H1 & H)%bind_Ok. cbn [map] in Hn. apply NoDup_cons in Hn as [Hd Hn]. apply IH in H as [Ha Hp]; [|done].
  apply applyVerifiedDiff_Ok in H1 as [H1 H1']. split.
  - intros x [->|Hx]%elem_of_cons; [by rewrite Hp|].
    assert (fd_Path x <> fd_Path d) as Hne. { intros He. apply Hd. rewrite <- He. apply list_elem_of_fmap. by exists x. }
    rewrite <- (H1' _ Hne). by apply Ha.
  - intros p [Hpd Hpl]%not_elem_of_cons. by rewrite Hp, H1'.
Qed.

(** ** The commit made *)

Section Made.
Context `{G : GoGit} `{W : GitWriter} {L : GitWriterLaws G W} {TD : TreeDiffer} (E : ApEnv).

(** A commit object over the tip whose tree is the tip's files with the diffs
    applied, stored; nothing refers to it yet. *)
Record stored (c : Commit) (diffs : list FileDiff) (a a1 : ApState) (parent : string) (files : Files) (c' : Commit) : Prop := {
  st_parent : rp_refs (vc_repo (ap_vc a)) !! rp_bound (vc_repo (ap_vc a)) = Some parent;
  st_files : exists head, vc_headFiles (ap_vc a) = Ok head /\ apply_diffs diffs head = Ok files;
  st_state : a1 = ap_set_vc (vc_set_objects (vc_objects (ap_vc a1)) (ap_vc a)) a;
  st_addressed : addressed (vc_objects (ap_vc a1));
  st_grows : vc_objects (ap_vc a) ⊆ vc_objects (ap_vc a1);
  st_object : exists d g, vc_objects (ap_vc a1) !! CommitID c' = Some (CommitObject, d) /\ DecodeCommit d = Some g /\ g_ParentHashes g = [parent];
  st_reads : files_ok files -> commitFiles (vc_objects (ap_vc a1)) (CommitID c') = Ok files;
  st_commit : AgentID c' = AgentID c /\ c_TaskID c' = c_TaskID c }.
Lemma createFromDiffs_run c diffs hook a r a' : addressed (vc_objects (ap_vc a)) -> createFromDiffs E c diffs hook a = (r, a') ->
  (is_ok r = false /\ exists st, a' = ap_set_vc (vc_set_objects st (ap_vc a)) a /\ addressed st /\ vc_objects (ap_vc a) ⊆ st) \/
  exists parent files c' a1, stored c diffs a a1 parent files c' /\
    (_ ← hook c'; _ ← a_vc (advanceBranchRefCAS (ae_store E) (rp_bound (vc_repo (ap_vc a))) (CommitID c') parent); mret c') a1 = (r, a').
Proof.
  intros A. unfold createFromDiffs.
  assert (forall e : apply_err, is_ok (@Err apply_err Commit e) = false /\ exists st, a = ap_set_vc (vc_set_objects st (ap_vc a)) a /\
    addressed st /\ vc_objects (ap_vc a) ⊆ st) as Hkeep.
  { intros e. split; [done|]. exists (vc_objects (ap_vc a)). by destruct a as [[? ?] ? ? ?]. }
  destruct (length diffs =? 0)%nat; [intros [= <- <-]; left; apply Hkeep|].
  unfold mbind at 1 2 3 4 5 6 7, ST_bind, get, lift. cbn [err_if].
  destruct (rp_refs (vc_repo (ap_vc a)) !! rp_bound (vc_repo (ap_vc a))) as [parent|] eqn:Hp; cbn [res_of_option]; [|intros [= <- <-]; left; apply Hkeep].
  destruct (vc_headFiles (ap_vc a)) as [head|e] eqn:Hh; cbn [res_map_err]; [|intros [= <- <-]; left; apply Hkeep].
  destruct (apply_diffs diffs head) as [files|e] eqn:Hf; [|intros [= <- <-]; left; apply Hkeep].
  intros [(tree & a1 & H1 & H)|(e & H1 & ->)]%M_bind_run; unfold a_store in H1;
    destruct (write_tree (ve_it (ae_store E)) (ve_itd (ae_store E)) files (vc_objects (ap_vc a))) as [[tree' st1]|e'] eqn:Hw; try done; injection H1 as <- <-; [|left; apply Hkeep].
  destruct (write_tree_grows _ _ _ _ _ _ A Hw) as [A1 S1].
  apply M_bind_run in H as [(id & a1 & H1 & H)|(e & H1 & ->)]; unfold a_store in H1; cbn [ap_vc ap_set_vc vc_objects vc_set_objects] in H1;
    destruct (writeCommit _ st1) as [[id' st2]|e'] eqn:Hc; try done; injection H1 as <- <-; [|left; split; [done|by exists st1]].
  destruct (writeCommit_spec _ _ _ _ A1 Hc) as (A2 & S2 & d & g & Hl & Hg & _ & Hpar).
  right. exists parent, files, (committed_as c id' parent tree' (ve_now (ae_store E))), (ap_set_vc (vc_set_objects st2 (ap_vc a)) a).
  split; [|exact H]. split; cbn; try done; [by exists head|by etrans|by exists d, g|].
  intros Hok. by destruct (write_commit_reads _ _ _ (mkParams tree' [parent] (Message c) (AgentID c) (AgentID c +:+ "@mgit") (ve_now (ae_store E))) _ _ _ _ _ A Hok Hw eq_refl Hc) as [? _].
Qed.
End Made.
