(* ===== verification/Rollback.v ===== *)
(** * Rolling back and cherry-picking

    [internal/service/rollback.go] and [internal/service/cherrypick.go]: the fold
    of a task's commits into the state before and the state after each path, the
    inverse diffs, the rollback that commits them, and the pick of one commit. *)

From Stdlib Require Import ZArith Lia Ascii String.
From S2P Require Import Prelude StateErr GoStrings TaskId ModelCommit Ledger LandWire LandVerify DiskTree Projection GitTree TreeDiff CommitStore Squash Apply.

Open Scope Z_scope.
Open Scope list_scope.

(** ** The fold *)

(** A path over a task's commits: its blob and mode before the first and after
    the last, no blob where it is absent. *)
Record pathState := mkPathState { ps_before : option string; ps_after : option string; ps_beforeMode : Z; ps_afterMode : Z }.
Abbreviation States := (gmap string pathState).
Definition verifyFoldChain (st : pathState) (d : FileDiff) : res apply_err unit :=
  if String.eqb (Operation d) DiffAdded
  then match ps_after st with Some _ => Err (AChain (fd_Path d)) | None => Ok tt end
  else match ps_after st with
       | None => Err (AChain (fd_Path d))
       | Some h => err_if (negb (String.eqb h (OldHash d)) || negb (ps_afterMode st =? OldMode d)) (AChain (fd_Path d))
       end.
Definition fold_at (state : option pathState) (d : FileDiff) : res apply_err pathState :=
  st ← match state with
       | None => Ok (mkPathState (if String.eqb (Operation d) DiffAdded then None else Some (OldHash d)) None (OldMode d) 0)
       | Some st => _ ← verifyFoldChain st d; Ok st
       end;
  Ok (if String.eqb (Operation d) DiffDeleted
      then mkPathState (ps_before st) None (ps_beforeMode st) (ps_afterMode st)
      else mkPathState (ps_before st) (Some (NewHash d)) (ps_beforeMode st) (fd_Mode d)).
Definition fold_one (states : States) (d : FileDiff) : res apply_err States :=
  st ← fold_at (states !! fd_Path d) d; Ok (<[fd_Path d := st]> states).
Fixpoint foldDiffs (states : States) (diffs : list FileDiff) : res apply_err States :=
  match diffs with [] => Ok states | d :: diffs => states ← fold_one states d; foldDiffs states diffs end.

Definition inverse_one (p : string) (st : pathState) : option FileDiff :=
  match ps_before st, ps_after st with
  | None, Some after => Some (mkFileDiff p DiffDeleted after "" [] false 0 0)
  | Some before, None => Some (mkFileDiff p DiffAdded "" before [] false (ps_beforeMode st) 0)
  | Some before, Some after =>
    if negb (String.eqb before after) || negb (ps_beforeMode st =? ps_afterMode st)
    then Some (mkFileDiff p DiffModified after before [] false (ps_beforeMode st) (ps_afterMode st)) else None
  | None, None => None
  end.
(** The paths are sorted, so the order of the range over the map does not show. *)
Definition inverseFromStates (states : States) : list FileDiff :=
  omap (fun p => st ← states !! p; inverse_one p st) (sort_by id (map_to_list states).*1).

Record RollbackRequest := mkRollbackReq { rb_SourceHash : string; rb_TaskID : string; rb_Reason : string; rb_DryRun : bool }.
Record CherryPickRequest := mkPickReq { cp_SourceHash : string; cp_TaskID : string }.

(** [strings.TrimSpace]: [blank] says of a string that it is all spaces. *)
Definition lead_space (s : string) : option string :=
  match s with
  | "" => None
  | String a r =>
    if blank (String a "") then Some r
    else match r with
         | String b r =>
           if blank (String a (String b "")) then Some r
           else match r with String c r => if blank (String a (String b (String c ""))) then Some r else None | "" => None end
         | "" => None
         end
  end.
Fixpoint trim_left (fuel : nat) (s : string) : string :=
  match fuel, lead_space s with S fuel, Some r => trim_left fuel r | _, _ => s end.
Fixpoint trim_right (s : string) : string :=
  match s with "" => "" | String a r => if blank s then "" else String a (trim_right r) end.
Definition TrimSpace (s : string) : string := trim_right (trim_left (String.length s) s).

Section Rollback.
Context `{G : GoGit} `{W : GitWriter} {TD : TreeDiffer} (E : ApEnv).

(** One of the task's commits: skipped where it is not on the branch. *)
Definition fold_record (s : VcState) (states : States) (rec : CommitRecord) : res apply_err States :=
  let st := vc_objects s in
  onLineage ← IsAncestorOfHead E s (cr_CommitHash rec);
  if negb onLineage then Ok states
  else
    g ← a_object st (cr_CommitHash rec);
    let c := commitFromGitObject (cr_CommitHash rec) g in
    _ ← err_if (String.eqb (ParentID c) "") (ANoParent (cr_CommitHash rec));
    diffs ← DiffCommits st (ParentID c) (CommitID c);
    foldDiffs states diffs.
Fixpoint fold_records (s : VcState) (states : States) (records : list CommitRecord) : res apply_err States :=
  match records with [] => Ok states | rec :: records => states ← fold_record s states rec; fold_records s states records end.
Definition taskInverseDiffs (s : VcState) (records : list CommitRecord) : res apply_err (list FileDiff) :=
  states ← fold_records s ∅ records; Ok (inverseFromStates states).

(** ** The services *)

Definition log_entry (e : AuditEntry) : ApM unit :=
  match ae_audit E with None => mret tt | Some false => fail AAudit | Some true => modify (ap_log e) end.
(** The source a rollback names. *)
Definition check_source (req : RollbackRequest) (a : ApState) : res apply_err unit :=
  if String.eqb (rb_SourceHash req) "" then Ok tt
  else
    g ← a_object (vc_objects (ap_vc a)) (rb_SourceHash req);
    let source := commitFromGitObject (rb_SourceHash req) g in
    _ ← res_map_err ALedger (RequireContentCommit (CommitID source) (ap_index a));
    err_if (negb (String.eqb (String_ (c_TaskID source)) (rb_TaskID req))) ASourceTask.
Definition parse_task (id : string) : res apply_err TaskID := match ParseTaskID id with Ok t => Ok t | Err _ => Err ATask end.
Definition refuse_dirty (diffs : list FileDiff) : ApM unit :=
  s ← get ap_vc;
  dirty ← lift (DirtyPaths E s (map fd_Path diffs));
  lift (match dirty with [] => Ok tt | _ => Err (ADirty dirty) end).
(** A commit made, committed to the index, its journal cleared. *)
Definition apply_commit (c : Commit) (diffs : list FileDiff) (taskID agentID : string) : ApM Commit :=
  c ← CreateCommitFromDiffsJournaled E c diffs taskID agentID;
  _ ← AddToTask E taskID (CommitID c) (ContentHash c) agentID;
  _ ← ClearApplyJournal;
  mret c.
Definition revert_commit (req : RollbackRequest) (taskID : TaskID) (inverse : list FileDiff) (records : nat) : Commit :=
  let reason := if String.eqb (rb_Reason req) "" then "rollback" else rb_Reason req in
  mkCommit "" "" "" "" taskID "mgit-rollback" ""
    ("[MGIT:" +:+ rb_TaskID req +:+ "] Revert: " +:+ reason +:+ " (" +:+ itoa (Z.of_nat records) +:+ " commits)")
    (Some inverse) [] 0 "" CommitTypeRollback "mgit-rollback" ("task/" +:+ rb_TaskID req).
Definition RollbackTask (req : RollbackRequest) : ApM Commit :=
  source ← get (check_source req);
  _ ← lift source;
  T ← get ap_index;
  records ← lift (res_map_err ALedger (GetContentCommits (rb_TaskID req) T));
  _ ← lift (err_if (length records =? 0)%nat ANoTask);
  s ← get ap_vc;
  inverse ← lift (taskInverseDiffs s records);
  _ ← lift (err_if (length inverse =? 0)%nat ANoNet);
  _ ← refuse_dirty inverse;
  taskID ← lift (parse_task (rb_TaskID req));
  let c := revert_commit req taskID inverse (length records) in
  if rb_DryRun req then mret c
  else
    c ← apply_commit c inverse (rb_TaskID req) "mgit-rollback";
    _ ← log_entry (mkAudit "ROLLBACK" (AgentID c) (rb_TaskID req) (CommitID c)
                     (if String.eqb (rb_Reason req) "" then "rollback" else rb_Reason req));
    mret c.

Definition pick_commit (source : Commit) (pickTask : string) (taskID : TaskID) (diffs : list FileDiff) : Commit :=
  mkCommit "" "" "" "" taskID "mgit-cherry-pick" ""
    ("[MGIT:" +:+ pickTask +:+ "] cherry-pick " +:+ ShortID source +:+ ": " +:+ TrimSpace (Message source))
    (Some diffs) [] 0 "" CommitTypeNormal "mgit-cherry-pick" ("task/" +:+ pickTask).
Definition CherryPick (req : CherryPickRequest) : ApM Commit :=
  s ← get ap_vc;
  g ← lift (a_object (vc_objects s) (cp_SourceHash req));
  let source := commitFromGitObject (cp_SourceHash req) g in
  T ← get ap_index;
  _ ← lift (res_map_err ALedger (RequireContentCommit (CommitID source) T));
  let pickTask := if String.eqb (cp_TaskID req) "" then String_ (c_TaskID source) else cp_TaskID req in
  _ ← lift (err_if (String.eqb pickTask "") ATask);
  taskID ← lift (parse_task pickTask);
  _ ← lift (err_if (String.eqb (ParentID source) "") (ANoParent (CommitID source)));
  diffs ← lift (DiffCommits (vc_objects s) (ParentID source) (CommitID source));
  _ ← lift (err_if (length diffs =? 0)%nat ANoNet);
  _ ← refuse_dirty diffs;
  c ← apply_commit (pick_commit source pickTask taskID diffs) diffs pickTask "mgit-cherry-pick";
  _ ← log_entry (mkAudit "CREATE_COMMIT" (AgentID c) (String_ (c_TaskID c)) (CommitID c) "");
  mret c.
End Rollback.

(** ** What the fold computes *)

(** The task's commits that changed a path, its entry before the first of them
    and after the last. *)
Definition touched (ds : list (Files * Files)) (p : string) : list (Files * Files) :=
  List.filter (fun d => negb (bool_decide (diff_view <$> d.1 !! p = diff_view <$> d.2 !! p))) ds.
Definition before (ds : list (Files * Files)) (p : string) : option blobEntry := d ← head (touched ds p); d.1 !! p.
Definition after (ds : list (Files * Files)) (p : string) : option blobEntry := d ← last (touched ds p); d.2 !! p.
Definition net (ds : list (Files * Files)) (p : string) : Prop := diff_key <$> before ds p <> diff_key <$> after ds p.
(** Each commit that changed a path found it, hash and mode, as the one before
    left it. *)
Definition unbroken (ds : list (Files * Files)) : Prop := forall ds1 d ds2 p, ds = ds1 ++ d :: ds2 -> differs d.1 d.2 p ->
  touched ds1 p <> [] -> diff_key <$> after ds1 p = diff_key <$> d.1 !! p.

Record state_ok (b f : option blobEntry) (st : pathState) : Prop := {
  so_before : ps_before st = be_hash <$> b;
  so_after : ps_after st = be_hash <$> f;
  so_beforeMode : forall e, b = Some e -> ps_beforeMode st = diffModeFromGit (be_mode e);
  so_afterMode : forall e, f = Some e -> ps_afterMode st = diffModeFromGit (be_mode e) }.
Definition states_ok (ds : list (Files * Files)) (states : States) : Prop := forall p,
  match states !! p with
  | None => touched ds p = []
  | Some st => touched ds p <> [] /\ state_ok (before ds p) (after ds p) st
  end.

Section FoldFacts.
Context `{G : GoGit} `{W : GitWriter} {L : GitWriterLaws G W} {TD : TreeDiffer} {TL : TreeDifferLaws TD} (E : ApEnv).

Lemma touched_snoc ds d p : touched (ds ++ [d]) p = if bool_decide (diff_view <$> d.1 !! p = diff_view <$> d.2 !! p) then touched ds p else touched ds p ++ [d].
Proof. unfold touched. rewrite List.filter_app. cbn. destruct (bool_decide _); cbn; [by rewrite app_nil_r|done]. Qed.
Lemma after_snoc ds d p : differs d.1 d.2 p -> after (ds ++ [d]) p = d.2 !! p.
Proof. intros Hd. unfold after. rewrite touched_snoc, bool_decide_eq_false_2 by done. by rewrite last_snoc. Qed.
Lemma before_snoc ds d p : differs d.1 d.2 p -> before (ds ++ [d]) p = if bool_decide (touched ds p = []) then d.1 !! p else before ds p.
Proof.
  intros Hd. unfold before. rewrite touched_snoc, bool_decide_eq_false_2 by done. destruct (touched ds p); [done|]. by rewrite bool_decide_eq_false_2.
Qed.
Lemma same_snoc ds d p : ~ differs d.1 d.2 p -> touched (ds ++ [d]) p = touched ds p.
Proof. intros Hd. rewrite touched_snoc, bool_decide_eq_true_2; [done|]. by apply dec_stable. Qed.

Lemma foldDiffs_Ok l states states' : NoDup (map fd_Path l) -> foldDiffs states l = Ok states' ->
  (forall d, d ∈ l -> exists st, fold_at (states !! fd_Path d) d = Ok st /\ states' !! fd_Path d = Some st) /\
  (forall p, p ∉ map fd_Path l -> states' !! p = states !! p).
Proof.
  revert states. induction l as [|d l IH]; intros states Hn; cbn [foldDiffs].
  { intros [= <-]. split; [by intros d ?%not_elem_of_nil|done]. }
  intros (s1 & H1 & H)%bind_Ok. unfold fold_one in H1. apply bind_Ok in H1 as (st & Hst & [= <-]). cbn [map] in Hn.
  apply NoDup_cons in Hn as [Hd Hn]. apply IH in H as [Ha Hp]; [|done]. split.
  - intros x [->|Hx]%elem_of_cons; [exists st; split; [done|]; by rewrite Hp, lookup_insert_eq|].
    destruct (Ha x Hx) as (st' & Hf & Hl). exists st'. split; [|done]. rewrite lookup_insert_ne in Hf; [done|].
    intros He. apply Hd. rewrite He. apply list_elem_of_fmap. by exists x.
  - intros p [Hpd Hpl]%not_elem_of_cons. by rewrite Hp, lookup_insert_ne.
Qed.

(** The diff of a changed path, folded. *)
Lemma fold_at_diff st0 ds base target p state st : p <> "" -> differs base target p ->
  match state with None => touched ds p = [] | Some x => touched ds p <> [] /\ state_ok (before ds p) (after ds p) x end ->
  fold_at state (diff_of st0 p (base !! p) (target !! p)) = Ok st ->
  state_ok (before (ds ++ [(base, target)]) p) (after (ds ++ [(base, target)]) p) st /\
  (touched ds p <> [] -> diff_key <$> after ds p = diff_key <$> base !! p).
Proof.
  intros Hp Hd Hs Hf. rewrite after_snoc, before_snoc by done. cbn [fst snd].
  assert (is_Some (base !! p) \/ is_Some (target !! p)) as Hsome.
  { unfold differs in Hd. destruct (base !! p); [left; by eexists|]. destruct (target !! p); [right; by eexists|done]. }
  destruct (diff_of_fields st0 p _ _ Hp Hsome) as (_ & Hop & Hold & Hnew). set (d := diff_of _ _ _ _) in *. clearbody d.
  unfold fold_at in Hf. apply bind_Ok in Hf as (x & Hx & Hf).
  assert (ps_before x = be_hash <$> (if bool_decide (touched ds p = []) then base !! p else before ds p) /\
    (forall e, (if bool_decide (touched ds p = []) then base !! p else before ds p) = Some e -> ps_beforeMode x = diffModeFromGit (be_mode e)) /\
    (touched ds p <> [] -> diff_key <$> after ds p = diff_key <$> base !! p)) as (Hb & Hbm & Hch).
  { destruct state as [x0|].
    - destruct Hs as [Hne [Hsb Hsa Hsbm Hsam]]. apply bind_Ok in Hx as ([] & Hv & [= <-]). rewrite bool_decide_eq_false_2 by done.
      split_and!; [done|done|]. intros _. unfold verifyFoldChain in Hv. rewrite Hop, Hsa in Hv.
      destruct (base !! p) as [b|] eqn:Hbase; cbn in Hv.
      + assert (String.eqb (match target !! p with Some _ => DiffModified | None => DiffDeleted end) DiffAdded = false) as Hna by (by destruct (target !! p)).
        rewrite Hna in Hv. destruct (after ds p) as [f|] eqn:Hf0; [|done]. cbn in Hv. apply err_if_Ok, orb_false_iff in Hv as [Hh Hm].
        destruct (Hold b eq_refl) as [Ho Hom]. apply negb_false_iff, String.eqb_eq in Hh. apply negb_false_iff, Z.eqb_eq in Hm.
        cbn. unfold diff_key. by rewrite Hh, Ho, <- (Hsam f), Hm, Hom.
      + by destruct (after ds p).
    - rewrite bool_decide_eq_true_2 by done. injection Hx as <-. cbn. rewrite Hop. split_and!; [|..|by rewrite Hs].
      + destruct (base !! p) as [b|]; [|done]. destruct (Hold b eq_refl) as [-> _]. by destruct (target !! p).
      + intros e He. by apply Hold. }
  split; [|done]. injection Hf as <-. rewrite Hop.
  destruct (target !! p) as [t|] eqn:Ht, (base !! p) as [b|] eqn:Hbase; [..|by destruct Hsome as [[? [=]]|[? [=]]]].
  - destruct (Hnew t eq_refl) as [Hn Hm]. split; cbn; [done|by rewrite Hn|done|by intros e [= <-]].
  - destruct (Hnew t eq_refl) as [Hn Hm]. split; cbn; [done|by rewrite Hn|done|by intros e [= <-]].
  - split; cbn; done.
Qed.
Lemma commit_fold st t t' ds base target l states states' : tidy_tree st t base -> tidy_tree st t' target ->
  diff_trees st t t' = Some l -> foldDiffs states (map (changeToFileDiff st) l) = Ok states' -> states_ok ds states ->
  states_ok (ds ++ [(base, target)]) states' /\
  forall p, differs base target p -> touched ds p <> [] -> diff_key <$> after ds p = diff_key <$> base !! p.
Proof.
  intros Tb Tt Hl Hf Hs. destruct (diff_trees_diffs _ _ _ _ _ Tb Tt) as (l' & Hl' & Hnd & Hin & Hd). assert (l' = l) as -> by congruence.
  apply foldDiffs_Ok in Hf as [Ha Hu]; [|done].
  assert (forall p, differs base target p -> exists st', states' !! p = Some st' /\
    state_ok (before (ds ++ [(base, target)]) p) (after (ds ++ [(base, target)]) p) st' /\
    (touched ds p <> [] -> diff_key <$> after ds p = diff_key <$> base !! p)) as Hch.
  { intros p Hp. apply Hin in Hp as (d & -> & Hdl)%list_elem_of_fmap. destruct (Hd d Hdl) as (p & Hne & Hp & ->).
    assert (fd_Path (diff_of st p (base !! p) (target !! p)) = p) as Hpath.
    { apply diff_of_fields; [done|]. unfold differs in Hp. destruct (base !! p); [left; by eexists|].
      destruct (target !! p); [right; by eexists|done]. }
    destruct (Ha _ Hdl) as (st' & Hfa & Hl2). rewrite Hpath in *. exists st'. split; [done|].
    eapply fold_at_diff; [done|done| |exact Hfa]. specialize (Hs p). by destruct (states !! p). }
  split; [|intros p Hp; by destruct (Hch p Hp) as (? & _ & _ & ?)]. intros p. destruct (decide (differs base target p)) as [Hp|Hp].
  - destruct (Hch p Hp) as (st' & -> & Hso & _). split; [|done]. rewrite touched_snoc, bool_decide_eq_false_2 by done. by destruct (touched ds p).
  - rewrite Hu by (by rewrite Hin). specialize (Hs p). unfold before, after. by rewrite same_snoc.
Qed.

(** One of the task's commits, where it is on the branch: the files of its first
    parent and its own. *)
Definition lineage_of (s : VcState) (rec : CommitRecord) (d : option (Files * Files)) : Prop :=
  match d with
  | None => IsAncestorOfHead E s (cr_CommitHash rec) = Ok false
  | Some d => IsAncestorOfHead E s (cr_CommitHash rec) = Ok true /\ exists g p ps,
      a_object (vc_objects s) (cr_CommitHash rec) = Ok g /\ g_ParentHashes g = p :: ps /\
      tidy (vc_objects s) p d.1 /\ tidy (vc_objects s) (cr_CommitHash rec) d.2
  end.
Lemma tidy_a_object st h files : tidy st h files -> exists g, a_object st h = Ok g /\ tidy_tree st (g_TreeHash g) files.
Proof. intros (d & g & Hh & Hd & Ht). exists g. unfold a_object. by rewrite Hh, Hd. Qed.
Lemma unbroken_snoc ds d : unbroken ds -> (forall p, differs d.1 d.2 p -> touched ds p <> [] -> diff_key <$> after ds p = diff_key <$> d.1 !! p) ->
  unbroken (ds ++ [d]).
Proof.
  intros Hu Hd ds1 x ds2 p He. destruct ds2 as [|y ds2 _] using rev_ind.
  - apply app_inj_tail in He as [-> ->]. apply Hd.
  - rewrite app_comm_cons, app_assoc in He. apply app_inj_tail in He as [-> _]. by eapply Hu.
Qed.
Lemma fold_records_Ok s records ods ds states states' : Forall2 (lineage_of s) records ods -> states_ok ds states -> unbroken ds ->
  fold_records E s states records = Ok states' ->
  states_ok (ds ++ omap id ods) states' /\ unbroken (ds ++ omap id ods).
Proof.
  intros HF. revert ds states. induction HF as [|rec od records ods Hrec _ IH]; intros ds states Hs Hu; cbn [fold_records omap list_omap].
  { intros [= <-]. by rewrite app_nil_r. }
  intros (s1 & H1 & H)%bind_Ok. unfold fold_record in H1. destruct od as [d|]; cbn [lineage_of id] in *.
  - destruct Hrec as (Hon & g & p & ps & Hg & Hps & Tp & Tc). rewrite Hon in H1. cbn [mbind res_bind negb] in H1. rewrite Hg in H1.
    cbn [mbind res_bind] in H1. unfold commitFromGitObject in H1. cbn [ParentID CommitID] in H1. rewrite Hps in H1.
    apply seq_Ok in H1 as [_ H1]. apply bind_Ok in H1 as (diffs & Hdf & H1). unfold DiffCommits in Hdf.
    destruct (tidy_a_object _ _ _ Tp) as (gp & Hgp & Tp'). destruct (tidy_a_object _ _ _ Tc) as (gc & Hgc & Tc').
    assert (gc = g) as -> by congruence. rewrite Hgp in Hdf. cbn [mbind res_bind] in Hdf. rewrite Hg in Hdf. cbn [mbind res_bind] in Hdf.
    apply bind_Ok in Hdf as (l & Hl%res_of_option_Ok & [= <-]).
    destruct (commit_fold _ _ _ ds d.1 d.2 l states s1 Tp' Tc' Hl H1 Hs) as [Hs1 Hch]. destruct d as [b t]. cbn [fst snd] in *.
    replace (ds ++ (b, t) :: omap id ods) with ((ds ++ [(b, t)]) ++ omap id ods) by (by rewrite <- app_assoc).
    eapply IH; [done| |done]. by apply unbroken_snoc.
  - rewrite Hrec in H1. injection H1 as <-. by eapply IH.
Qed.

(** ** The inverse *)

Lemma inverse_path p st d : inverse_one p st = Some d -> fd_Path d = p.
Proof. unfold inverse_one. destruct (ps_before st), (ps_after st); repeat case_match; by intros [= <-]. Qed.
Lemma inverse_elem states d : d ∈ inverseFromStates states <-> exists st, states !! fd_Path d = Some st /\ inverse_one (fd_Path d) st = Some d.
Proof.
  unfold inverseFromStates. rewrite list_elem_of_omap. split.
  - intros (p & _ & (st & Hst & Hi)%bind_Some). pose proof (inverse_path _ _ _ Hi) as <-. by exists st.
  - intros (st & Hst & Hi). exists (fd_Path d). split; [|apply bind_Some; by exists st]. apply (elem_of_sort_by id), list_elem_of_fmap.
    exists (fd_Path d, st). split; [done|]. by apply elem_of_map_to_list.
Qed.
Lemma inverse_NoDup states : NoDup (map fd_Path (inverseFromStates states)).
Proof.
  unfold inverseFromStates. assert (NoDup (sort_by id (map_to_list states).*1)) as Hn by (rewrite sort_by_perm; apply NoDup_fst_map_to_list).
  induction Hn as [|p l Hp _ IH]; [constructor|]. cbn. destruct (states !! p ≫= inverse_one p) as [d|] eqn:Hd; [|done]. cbn.
  apply bind_Some in Hd as (st & _ & Hi%inverse_path). constructor; [|done]. rewrite Hi.
  intros (d' & He & (q & Hq & (st' & _ & Hi'%inverse_path)%bind_Some)%list_elem_of_omap)%list_elem_of_fmap. congruence.
Qed.
(** The entry as it is after a round through a diff. *)
Lemma inverse_new b st d e : state_ok b None st \/ (exists f, state_ok b (Some f) st) -> b = Some e -> inverse_one (fd_Path d) st = Some d ->
  Some (diff_new d) = diff_entry <$> b.
Proof.
  intros Hs -> Hi. cbn. f_equal. unfold diff_new, diff_entry. unfold inverse_one in Hi.
  destruct Hs as [[Hb Ha Hm _]|[f [Hb Ha Hm _]]]; rewrite Hb, Ha in Hi; cbn in Hi; specialize (Hm e eq_refl).
  - injection Hi as <-. cbn. by rewrite Hm.
  - destruct (negb _ || negb _); [|done]. injection Hi as <-. cbn. by rewrite Hm.
Qed.
Lemma inverse_none b f p st : state_ok b f st -> inverse_one p st = None <-> diff_key <$> b = diff_key <$> f.
Proof.
  intros [Hb Ha Hbm Ham]. unfold inverse_one. rewrite Hb, Ha. destruct b as [b|], f as [f|]; cbn; [|done..].
  rewrite (Hbm b), (Ham f) by done. unfold diff_key. destruct (String.eqb_spec (be_hash b) (be_hash f)) as [->|Hne]; cbn.
  - destruct (Z.eqb_spec (diffModeFromGit (be_mode b)) (diffModeFromGit (be_mode f))) as [->|Hne]; cbn; [done|].
    split; [done|]. by intros [= ?].
  - split; [done|]. by intros [= ? _].
Qed.
(** What a path the task changed is rolled back to: what was there before, if the
    tip has the content the task left, by its hash (the check does not look at the
    mode, which is overwritten); or, deleted by the task, nothing is changed where
    the tip has the content of before. *)
Definition rolled (b f old new : option blobEntry) : Prop :=
  be_hash <$> old = be_hash <$> f /\ new = diff_entry <$> b \/ f = None /\ new = old /\ be_hash <$> old = be_hash <$> b.
Lemma inverse_applied b f st d old new : state_ok b f st -> inverse_one (fd_Path d) st = Some d -> diff_applied d old new -> rolled b f old new.
Proof.
  intros Hs Hi Hap. pose proof Hs as [Hb Ha Hm _]. pose proof Hi as Hi'. unfold inverse_one in Hi. rewrite Hb, Ha in Hi.
  unfold diff_applied in Hap. destruct b as [b|], f as [f|]; cbn in Hi; [| | |done].
  - destruct (negb _ || negb _); [|done]. assert (Operation d = DiffModified /\ OldHash d = be_hash f) as [Ho Hol] by (by injection Hi as <-).
    rewrite Ho in Hap. destruct Hap as [Hold Hnew]. left. rewrite Hold, Hol. split; [done|]. rewrite Hnew.
    eapply (inverse_new (Some b)); [right; by exists f|done|done].
  - assert (Operation d = DiffAdded /\ NewHash d = be_hash b) as [Ho Hn] by (by injection Hi as <-). rewrite Ho in Hap.
    destruct Hap as [[-> ->]|[-> Hold]].
    + left. split; [done|]. eapply (inverse_new (Some b)); [by left|done|done].
    + right. split_and!; [done..|]. by rewrite Hold, Hn.
  - assert (Operation d = DiffDeleted /\ OldHash d = be_hash f) as [Ho Hol] by (by injection Hi as <-). rewrite Ho in Hap.
    destruct Hap as [Hold ->]. left. by rewrite Hold, Hol.
Qed.

(** ** The run *)

Lemma a_vc_advance_Ok branch id parent a u a' : a_vc (advanceBranchRefCAS (ae_store E) branch id parent) a = (Ok u, a') ->
  let others := ve_others (ae_store E) (rp_refs (vc_repo (ap_vc a))) in
  others !! branch = Some parent /\
  a' = ap_set_vc (vc_set_repo (set_refs (<[branch := id]> others) (vc_repo (ap_vc a))) (ap_vc a)) a.
Proof. unfold a_vc, advanceBranchRefCAS. case_bool_decide; [|done]. by intros [= _ <-]. Qed.
Lemma WriteApplyJournal_Ok j a u a' : WriteApplyJournal j a = (Ok u, a') -> a' = ap_set_journal (Some j) a.
Proof. unfold WriteApplyJournal. destruct (ReadApplyJournal a) as [x|]; [destruct (String.eqb _ _); [|done]|]; by intros [= _ <-]. Qed.
Lemma a_disk_Ok f a u a' : a_disk f a = (Ok u, a') -> exists disk, f (vc_objects (ap_vc a)) (rp_disk (vc_repo (ap_vc a))) = (Ok tt, disk) /\
  a' = ap_set_vc (vc_set_repo (set_disk disk (vc_repo (ap_vc a))) (ap_vc a)) a.
Proof. unfold a_disk. destruct (f _ _) as [[[]|e] disk]; [|done]. intros [= _ <-]. by exists disk. Qed.
Lemma AddToTask_Ok task hash ch agent a u a' : AddToTask E task hash ch agent a = (Ok u, a') -> exists T,
  AddCommitToTask (ae_index_now E) task hash ch agent (Z.of_nat (length (GetTaskCommits task (ap_index a)))) (ap_index a) = Ok T /\
  a' = ap_set_index T a.
Proof. unfold AddToTask. destruct (AddCommitToTask _ _ _ _ _ _ _) as [T|e]; [|done]. intros [= _ <-]. by exists T. Qed.
(** The state an application ends in. *)
Definition applied (a a1 : ApState) (c' : Commit) (disk : Disk) (T : Tables) : ApState :=
  let r := vc_repo (ap_vc a) in
  mkAp (mkVc (vc_objects (ap_vc a1)) (mkRepo (<[rp_bound r := CommitID c']> (ve_others (ae_store E) (rp_refs r))) (rp_bound r) disk (rp_staged r)))
    T None (ap_audit a).
Lemma apply_commit_Ok c diffs task agent a c' a' : addressed (vc_objects (ap_vc a)) -> apply_commit E c diffs task agent a = (Ok c', a') ->
  exists parent files a1 disk T, stored c diffs a a1 parent files c' /\
    ve_others (ae_store E) (rp_refs (vc_repo (ap_vc a))) !! rp_bound (vc_repo (ap_vc a)) = Some parent /\
    Forall (fun d => validateRelPath (fd_Path d) = Ok tt) diffs /\
    materialize_all E (vc_objects (ap_vc a1)) diffs (rp_disk (vc_repo (ap_vc a))) = (Ok tt, disk) /\
    AddCommitToTask (ae_index_now E) task (CommitID c') (ContentHash c') agent (Z.of_nat (length (GetTaskCommits task (ap_index a)))) (ap_index a) = Ok T /\
    a' = applied a a1 c' disk T.
Proof.
  intros A. unfold apply_commit, CreateCommitFromDiffsJournaled, MaterializeDiffs, ClearApplyJournal. intros H. run_M.
  match goal with H : createFromDiffs _ _ _ _ _ = _ |- _ => apply createFromDiffs_run in H as [[? _]|(parent & files & c2 & a1 & Hst & H)]; [done| |done] end.
  run_M. repeat match goal with H : WriteApplyJournal _ _ = _ |- _ => apply WriteApplyJournal_Ok in H
    | H : a_vc _ _ = _ |- _ => apply a_vc_advance_Ok in H as [Hcas ->]
    | H : a_disk _ _ = _ |- _ => apply a_disk_Ok in H as (disk & Hd & ->)
    | H : AddToTask _ _ _ _ _ _ = _ |- _ => apply AddToTask_Ok in H as (T & HT & ->) end.
  match goal with H : res_map_err _ (forM_ _ _) = _ |- _ => apply res_map_err_Ok, forM_Ok in H; rename H into Hv end.
  subst. exists parent, files, a1, disk, T. pose proof (st_state _ _ _ _ _ _ _ Hst) as Hs.
  revert Hcas Hd HT Hs Hst. generalize (vc_objects (ap_vc a1)). intros st Hcas Hd HT -> Hst.
  by split_and!.
Qed.

Lemma log_entry_Ok e a u a' : log_entry E e a = (Ok u, a') -> ap_vc a' = ap_vc a /\ ap_index a' = ap_index a /\ ap_journal a' = ap_journal a.
Proof. unfold log_entry. destruct (ae_audit E) as [[]|]; by intros [= _ <-]. Qed.
Lemma RollbackTask_Ok req a c a' : rb_DryRun req = false -> RollbackTask E req a = (Ok c, a') ->
  exists records inverse taskID a1, GetContentCommits (rb_TaskID req) (ap_index a) = Ok records /\
    taskInverseDiffs E (ap_vc a) records = Ok inverse /\ DirtyPaths E (ap_vc a) (map fd_Path inverse) = Ok [] /\
    apply_commit E (revert_commit req taskID inverse (length records)) inverse (rb_TaskID req) "mgit-rollback" a = (Ok c, a1) /\
    ap_vc a' = ap_vc a1 /\ ap_index a' = ap_index a1 /\ ap_journal a' = ap_journal a1.
Proof.
  intros Hd. unfold RollbackTask, refuse_dirty. intros H. run_M. rewrite Hd in H. run_M.
  match goal with H : DirtyPaths _ _ _ = Ok ?l |- _ => destruct l; [|done] end.
  match goal with H : log_entry _ _ _ = _ |- _ => apply log_entry_Ok in H end.
  match goal with H : res_map_err _ _ = _ |- _ => apply res_map_err_Ok in H end. by eexists _, _, _, _.
Qed.

(** C7. A rollback restores the state before the task. When it succeeds on a
    task whose commits on the branch have these files (each with those of its
    first parent, in trees that name no path twice), the commit it makes has the
    tip as its only parent, the branch moved from the tip to it, the journal is
    cleared and the staging set kept; every one of the task's commits found the
    paths it changed as the task's commit before it had left them, content and
    mode; and, where the new files can be one tree, reading the commit back gives
    at every path the task changed on balance what was there before it, the tip
    still having there the content the task left, and at every other path what the
    tip has. So the rollback is refused when another commit left such a path with
    other content or another mode for the task's next commit, or with other
    content for the tip; another mode in the tip is not noticed and is
    overwritten. *)
Theorem rollback_restores req a c a' records ods : addressed (vc_objects (ap_vc a)) -> rb_DryRun req = false ->
  RollbackTask E req a = (Ok c, a') -> GetContentCommits (rb_TaskID req) (ap_index a) = Ok records ->
  Forall2 (lineage_of (ap_vc a)) records ods ->
  let ds := omap id ods in
  let branch := rp_bound (vc_repo (ap_vc a)) in
  exists parent tip files d g, rp_refs (vc_repo (ap_vc a)) !! branch = Some parent /\ vc_headFiles (ap_vc a) = Ok tip /\
    rp_refs (vc_repo (ap_vc a')) = <[branch := CommitID c]> (ve_others (ae_store E) (rp_refs (vc_repo (ap_vc a)))) /\
    ap_journal a' = None /\ vc_staged (ap_vc a') = vc_staged (ap_vc a) /\
    vc_objects (ap_vc a') !! CommitID c = Some (CommitObject, d) /\ DecodeCommit d = Some g /\ g_ParentHashes g = [parent] /\
    (files_ok files -> commitFiles (vc_objects (ap_vc a')) (CommitID c) = Ok files) /\ unbroken ds /\
    forall p, (net ds p -> rolled (before ds p) (after ds p) (tip !! p) (files !! p)) /\ (~ net ds p -> files !! p = tip !! p).
Proof.
  intros A Hdry H Hrec HF ds branch. apply RollbackTask_Ok in H as (records' & inverse & taskID & a1 & Hrec' & Hinv & _ & Hap & Hvc & _ & Hj); [|done].
  assert (records' = records) as -> by congruence. apply bind_Ok in Hinv as (states & Hfold & [= <-]).
  destruct (fold_records_Ok (ap_vc a) records ods [] ∅ states HF) as [Hs Hu]; [by intros p; rewrite lookup_empty| |done|].
  { intros ds1 x ds2 p He. by destruct ds1. }
  cbn [app] in Hs, Hu. fold ds in Hs, Hu.
  apply apply_commit_Ok in Hap as (parent & files & a2 & disk & T & [Hp (tip & Htip & Hdiffs) _ _ _ (d & g & Hl & Hg & Hpar) Hread _] & Hcas & _ & _ & _ & ->); [|done].
  apply apply_diffs_Ok in Hdiffs as [Hon Hoff]; [|apply inverse_NoDup]. unfold vc_staged. rewrite Hvc, Hj.
  exists parent, tip, files, d, g. split_and!; try done.
  intros p. specialize (Hs p). destruct (states !! p) as [st|] eqn:Hst.
  - destruct Hs as [_ Hso]. pose proof (inverse_none _ _ p _ Hso) as Hnone. unfold net. destruct (inverse_one p st) as [x|] eqn:Hx.
    + split; [|intros Hn; exfalso; apply Hn; intros Hk; by apply Hnone in Hk]. intros _. pose proof (inverse_path _ _ _ Hx) as <-.
      eapply inverse_applied; [done|done|]. apply Hon, inverse_elem. by exists st.
    + split; [by intros Hn; destruct Hn; apply Hnone|]. intros _. apply Hoff. intros (x & -> & (st' & Hst' & Hx')%inverse_elem)%list_elem_of_fmap.
      congruence.
  - split; [unfold net, before, after; by rewrite Hs|]. intros _. apply Hoff.
    intros (x & -> & (st' & Hst' & _)%inverse_elem)%list_elem_of_fmap. congruence.
Qed.
End FoldFacts.
