(* ===== verification/Recovery.v ===== *)
(** * Completing an interrupted application

    The crash journal of [Apply.v] at work: a commit that carries diffs is
    written, journaled, made the tip, materialized, indexed, and its journal
    cleared; a process that dies anywhere on the way leaves a state from which
    [RecoverPendingApply], at the next open, either finishes the application or
    finds that it never began. *)

From Stdlib Require Import ZArith Lia Ascii String.
From S2P Require Import Prelude StateErr GoStrings SandboxModel ModelCommit Ledger LandWire LandVerify DiskTree Projection GitTree TreeDiff CommitStore Squash Apply Rollback.

Open Scope Z_scope.
Open Scope list_scope.

Abbreviation at_path d := (comps (fd_Path d)).

(** ** Materializing a diff on a disk that lets it *)

(** The directories on the way to a path. *)
Definition over (q p : Path) : bool := bool_decide (q ∈ (dirs [] p).*1).
Lemma over_above q p : over q p = true <-> above q p.
Proof.
  unfold over. rewrite bool_decide_eq_true, above_dirs, list_elem_of_fmap. split.
  - intros ([a r] & -> & Hr). by exists r.
  - intros [r Hr]. by exists (q, r).
Qed.

Section Disk.
Context `{G : GoGit} (E : ApEnv) (st : Storage).
Let H := ve_host (ae_store E).

Definition writes (d : FileDiff) : bool := negb (String.eqb (Operation d) DiffDeleted).
(** What a diff leaves at its path. *)
Definition leaves (d : FileDiff) : option Node :=
  if writes d then match blobContent st (NewHash d) with Ok data => Some (node_of (be_mode (diff_new d)) data) | Err _ => None end
  else None.
(** The node at a path of the disk before a diff is materialized is no directory,
    and no link leads to it. *)
Definition ready (D : Disk) (d : FileDiff) : Prop := no_link_above (d_nodes D) (at_path d) /\ d_nodes D !! at_path d <> Some NDir.
(** Nothing but directories leads to the path, and a write can be made there. *)
Record feasible (D : Disk) (d : FileDiff) : Prop := {
  fe_above : forall a, above a (at_path d) -> d_nodes D !! a = None \/ d_nodes D !! a = Some NDir;
  fe_node : d_nodes D !! at_path d <> Some NDir;
  fe_write : writes d = true -> validateRelPath (fd_Path d) = Ok tt /\ h_write_ok H (at_path d) = true /\
    exists data, blobContent st (NewHash d) = Ok data }.
Definition done_at (d : FileDiff) (nodes : gmap Path Node) (q : Path) : option Node :=
  if bool_decide (q = at_path d) then leaves d else if writes d && over q (at_path d) then Some NDir else nodes !! q.

Lemma feasible_links D d : feasible D d -> no_link_above (d_nodes D) (at_path d).
Proof. intros [Ha _ _] a t [->| ->]%Ha; done. Qed.
Lemma MkdirAll_clear ds (D : Disk) : (forall a r, (a, r) ∈ ds -> d_nodes D !! a = None \/ d_nodes D !! a = Some NDir) ->
  exists D', MkdirAll H ds D = Some D'.
Proof.
  revert D. induction ds as [|[a r] ds IH]; intros D Hd; cbn [MkdirAll]; [by eexists|].
  destruct (Hd a r) as [-> | ->]; [by left| |].
  - apply IH. intros b x Hb. cbn. destruct (decide (b = a)) as [->|Hne]; [right; apply lookup_insert_eq|].
    rewrite lookup_insert_ne by done. apply (Hd b x). by right.
  - apply IH. intros b x Hb. apply (Hd b x). by right.
Qed.
Lemma locate_made (nodes : gmap Path Node) p : (forall a, above a p -> nodes !! a = Some NDir) -> locate nodes (dirs [] p) = Inside.
Proof. intros Hd. apply locate_inside, Forall_forall. intros [a r] Hin. apply Hd, above_dirs. by eexists. Qed.

Lemma materialize_one_Ok D d : disk_wf (d_nodes D) -> feasible D d -> exists D', materialize_one E st d D = (Ok tt, D') /\
  disk_wf (d_nodes D') /\ d_outside D' = d_outside D /\ forall q, d_nodes D' !! q = done_at d (d_nodes D) q.
Proof.
  intros W F. pose proof (feasible_links _ _ F) as Hl. destruct F as [Ha Hn Hw]. unfold materialize_one, done_at, leaves. fold H.
  unfold writes in *. destruct (String.eqb (Operation d) DiffDeleted); cbn [negb] in *.
  - destruct (Remove H (at_path d) D) as [D'|] eqn:Hr.
    + apply Remove_inside in Hr as (W' & [Ho _] & Hp & Hq); [|done..]. exists D'. cbn [step]. split_and!; [done..|].
      intros q. case_bool_decide as Hqp; [by rewrite Hqp|]. cbn [andb]. by apply Hq.
    + exfalso. unfold Remove in Hr. destruct (locate (d_nodes D) (dirs [] (at_path d))) eqn:Hloc.
      * destruct (d_nodes D !! at_path d) as [[| |]|]; done.
      * done.
      * clear -Hloc Ha. assert (forall a r, (a, r) ∈ dirs [] (at_path d) -> d_nodes D !! a = None \/ d_nodes D !! a = Some NDir) as Hd.
        { intros a r Hin. apply Ha, above_dirs. by eexists. }
        induction (dirs [] (at_path d)) as [|[a r] ds IH]; [done|]. cbn in Hloc. destruct (Hd a r) as [Hx|Hx]; [by left|..]; rewrite Hx in Hloc; [done|].
        apply IH; [done|]. intros b y Hb. apply (Hd b y). by right.
      * apply locate_through in Hloc as (a & Hin & Hx). apply (Hl a link); [|done]. apply above_dirs. by eexists.
  - destruct Hw as (Hv & Hok & data & Hb); [done|]. unfold writeEntryToDir. change (be_hash (diff_new d)) with (NewHash d). rewrite Hv, Hb. cbn [mbind res_bind].
    destruct (MkdirAll_clear (dirs [] (at_path d)) D) as [D1 H1]; [intros a r Hin; apply Ha, above_dirs; by eexists|].
    rewrite H1. cbn [step]. apply MkdirAll_dirs in H1 as (W1 & S1 & Hc1 & Hd1); [|done..].
    assert (d_nodes D1 !! at_path d = d_nodes D !! at_path d) as Hsame by (by destruct (Hc1 (at_path d)) as [|[]%above_irrefl]).
    assert (no_link_above (d_nodes D1) (at_path d)) as Hl1 by (intros a t Hx; by rewrite Hd1).
    assert (exists D2, Remove H (at_path d) D1 = Some D2) as [D2 H2].
    { unfold Remove. rewrite locate_made, Hsame by done. destruct (d_nodes D !! at_path d) as [[| |]|]; [done|by eexists..]. }
    rewrite H2. apply Remove_inside in H2 as (W2 & [Ho2 _] & Hp2 & Hq2); [|done..]. cbn [step].
    assert (forall a, above a (at_path d) -> d_nodes D2 !! a = Some NDir) as Hd2.
    { intros a Hx. rewrite Hq2; [by apply Hd1|]. intros ->. by eapply above_irrefl. }
    destruct (Create H (at_path d) (node_of (be_mode (diff_new d)) data) D2) as [D3|] eqn:H3.
    2: { unfold Create in H3. by rewrite locate_made, Hok in H3. }
    apply Create_inside in H3 as (W3 & Ho3 & Hn3); [|done|intros a t Hx; by rewrite Hd2|by rewrite Hp2].
    exists D3. cbn [step]. split_and!; [done|done|destruct S1; congruence|]. intros q. rewrite Hn3.
    case_bool_decide as Hqp; [by rewrite Hqp, lookup_insert_eq|]. rewrite lookup_insert_ne, Hq2 by done.
    destruct (over q (at_path d)) eqn:Hov; cbn [andb]; [by apply Hd1, over_above|].
    destruct (Hc1 q) as [->|Hx%over_above]; [done|congruence].
Qed.
Lemma file_above (nodes : gmap Path Node) a p f : disk_wf nodes -> above a p -> nodes !! a = Some (NFile f) ->
  locate nodes (dirs [] p) = ParentNotDir.
Proof.
  intros W (Ha & r & Hr & ->) Hf. apply (locate_file nodes [] a r f); [done|done| |done].
  intros b x Hb Hx ->. apply (W (b ++ x) (NFile f)); [done|]. split; [done|]. by exists x.
Qed.
Lemma feasible_of_Ok D d D' : disk_wf (d_nodes D) -> ready D d -> materialize_one E st d D = (Ok tt, D') -> feasible D d.
Proof.
  intros W [Hl Hn]. unfold materialize_one. fold H. destruct (String.eqb (Operation d) DiffDeleted) eqn:Hop.
  - destruct (Remove H (at_path d) D) as [D1|] eqn:Hr; [|done]. intros _. split; [|done|by unfold writes; rewrite Hop].
    intros a Ha. destruct (d_nodes D !! a) as [[| |]|] eqn:Hx; [by right| | |by left].
    + unfold Remove in Hr. by rewrite (file_above _ _ _ _ W Ha Hx) in Hr.
    + by destruct (Hl a target).
  - unfold writeEntryToDir. destruct (validateRelPath (fd_Path d)) as [[]|e] eqn:Hv; [|done]. cbn [mbind res_bind].
    change (be_hash (diff_new d)) with (NewHash d). destruct (blobContent st _) as [data|e] eqn:Hb; [|done]. unfold step.
    destruct (MkdirAll _ _ _) as [D1|] eqn:H1; [|done]. pose proof H1 as H1'.
    apply MkdirAll_inside in H1' as (_ & Hq & Hd); [|intros a r t Hin; apply Hl, above_dirs; by eexists].
    apply MkdirAll_dirs in H1 as (W1 & _ & Hc1 & Hd1); [|done..].
    destruct (Remove _ _ _) as [D2|] eqn:H2; [|done].
    apply Remove_inside in H2 as (W2 & _ & Hp2 & Hq2); [|done|intros a t Hx; by rewrite Hd1].
    unfold Create. rewrite locate_made. 2: { intros a Hx. rewrite Hq2; [by apply Hd1|]. intros ->. by eapply above_irrefl. }
    destruct (h_write_ok H (at_path d)) eqn:Hok; [|done]. intros _. split; [|done|].
    + intros a Ha. destruct (Hq a) as [Hx|(Hx & _)]; [|by left]. right. rewrite <- Hx. by apply Hd1.
    + intros _. split_and!; [done..|]. by exists data.
Qed.

(** ** Materializing diffs of paths apart from each other *)

(** No path twice, and none a directory on the way to another. *)
Definition apart (l : list FileDiff) : Prop :=
  NoDup (map (fun d => at_path d) l) /\ forall x y, x ∈ l -> y ∈ l -> ~ above (at_path x) (at_path y).
Lemma apart_cons d l : apart (d :: l) -> apart l /\ forall y, y ∈ l ->
  at_path y <> at_path d /\ ~ above (at_path d) (at_path y) /\ ~ above (at_path y) (at_path d).
Proof.
  intros [Hn Ha]. cbn [map] in Hn. apply NoDup_cons in Hn as [Hd Hn]. split.
  - split; [done|]. intros x y Hx Hy. apply Ha; by right.
  - intros y Hy. split_and!; [|by apply Ha; [left|right]|by apply Ha; [right|left]].
    intros He. apply Hd. rewrite <- He. apply list_elem_of_fmap. by exists y.
Qed.
(** What the diffs leave at a path. *)
Definition settled (l : list FileDiff) (nodes : gmap Path Node) (q : Path) : option Node :=
  match find (fun d => bool_decide (q = at_path d)) l with
  | Some d => leaves d
  | None => if existsb (fun d => writes d && over q (at_path d)) l then Some NDir else nodes !! q
  end.
Lemma settled_cons d l nodes nodes' q : apart (d :: l) -> (forall q, nodes' !! q = done_at d nodes q) ->
  settled (d :: l) nodes q = settled l nodes' q.
Proof.
  intros [_ Hy]%apart_cons Hd. unfold settled. cbn [find existsb]. rewrite Hd. unfold done_at.
  destruct (decide (q = at_path d)) as [->|Hne].
  - rewrite !bool_decide_eq_true_2 by done. destruct (find _ l) as [x|] eqn:Hf.
    { apply find_some in Hf as [Hx%list_elem_of_In He%bool_decide_eq_true]. by destruct (Hy x Hx) as [[] _]. }
    destruct (existsb _ l) eqn:He; [|done]. apply existsb_true_elem in He as (x & Hx & [_ Ho%over_above]%andb_true_iff).
    by destruct (Hy x Hx) as (_ & [] & _).
  - rewrite bool_decide_eq_false_2 by done. destruct (find _ l); [done|]. destruct (writes d && _); cbn [orb]; [|done].
    by destruct (existsb _ l).
Qed.
Lemma feasible_after D D' d y : at_path y <> at_path d -> ~ above (at_path d) (at_path y) -> ~ above (at_path y) (at_path d) ->
  feasible D d -> (forall q, d_nodes D' !! q = done_at d (d_nodes D) q) -> (feasible D' y <-> feasible D y).
Proof.
  intros Hne Hn1 Hn2 [Ha _ _] Hq.
  assert (forall a, above a (at_path y) -> d_nodes D' !! a = d_nodes D !! a \/
    (d_nodes D' !! a = Some NDir /\ (d_nodes D !! a = None \/ d_nodes D !! a = Some NDir))) as Hab.
  { intros a Hy. rewrite Hq. unfold done_at. rewrite bool_decide_eq_false_2 by (by intros ->).
    destruct (writes d && over a (at_path d)) eqn:Ho; [|by left]. right. split; [done|].
    apply andb_true_iff in Ho as [_ Ho%over_above]. by apply Ha. }
  assert (d_nodes D' !! at_path y = d_nodes D !! at_path y) as Hy.
  { rewrite Hq. unfold done_at. rewrite bool_decide_eq_false_2 by done.
    destruct (over (at_path y) (at_path d)) eqn:Ho; [by apply over_above in Ho|by rewrite andb_false_r]. }
  split; intros [Fa Fn Fw]; split; try done; try congruence; intros a Hx; destruct (Hab a Hx) as [Heq|[Hd' Hd]]; auto.
  - rewrite <- Heq. by apply Fa.
  - rewrite Heq. by apply Fa.
Qed.
Lemma materialize_all_Ok l D : disk_wf (d_nodes D) -> apart l -> Forall (feasible D) l -> exists D', materialize_all E st l D = (Ok tt, D') /\
  disk_wf (d_nodes D') /\ d_outside D' = d_outside D /\ forall q, d_nodes D' !! q = settled l (d_nodes D) q.
Proof.
  revert D. induction l as [|d l IH]; intros D W Ap HF; cbn [materialize_all]; [by exists D|].
  apply Forall_cons in HF as [Fd HF]. destruct (materialize_one_Ok D d W Fd) as (D1 & -> & W1 & Ho1 & Hq1).
  pose proof (apart_cons _ _ Ap) as [Ap' Hy]. destruct (IH D1 W1 Ap') as (D2 & H2 & W2 & Ho2 & Hq2).
  - rewrite Forall_forall in HF |- *. intros y Hin. destruct (Hy y Hin) as (Hne & Hn1 & Hn2).
    apply (feasible_after D D1 d y); auto.
  - exists D2. split_and!; [done|done|congruence|]. intros q. rewrite Hq2. symmetry. by apply settled_cons.
Qed.
Lemma ready_after D D' d y : at_path y <> at_path d -> ~ above (at_path d) (at_path y) -> ~ above (at_path y) (at_path d) ->
  (forall q, d_nodes D' !! q = done_at d (d_nodes D) q) -> ready D y -> ready D' y.
Proof.
  intros Hne Hn1 Hn2 Hq [Hl Hn]. unfold done_at in Hq. split.
  - intros a t Ha. rewrite Hq, bool_decide_eq_false_2 by (by intros ->). destruct (writes d && _); [done|by apply Hl].
  - rewrite Hq, bool_decide_eq_false_2 by done. destruct (over (at_path y) (at_path d)) eqn:Ho; [by apply over_above in Ho|].
    by rewrite andb_false_r.
Qed.
Lemma all_feasible l D D' : disk_wf (d_nodes D) -> apart l -> Forall (ready D) l -> materialize_all E st l D = (Ok tt, D') ->
  Forall (feasible D) l.
Proof.
  revert D. induction l as [|d l IH]; intros D W Ap HR; cbn [materialize_all]; [constructor|].
  apply Forall_cons in HR as [Rd HR]. destruct (materialize_one E st d D) as [[[]|e] D1] eqn:H1; [|done]. intros Hl.
  pose proof (feasible_of_Ok _ _ _ W Rd H1) as Fd. constructor; [done|].
  destruct (materialize_one_Ok D d W Fd) as (D1' & H1' & W1 & _ & Hq1). rewrite H1 in H1'. injection H1' as <-.
  pose proof (apart_cons _ _ Ap) as [Ap' Hy]. specialize (IH D1 W1 Ap').
  assert (Forall (feasible D1) l) as HF.
  { apply IH; [|done]. rewrite Forall_forall in HR |- *. intros y Hin. destruct (Hy y Hin) as (Hne & Hn1 & Hn2).
    apply (ready_after D D1 d y); auto. }
  rewrite Forall_forall in HF |- *. intros y Hin. destruct (Hy y Hin) as (Hne & Hn1 & Hn2).
  apply (feasible_after D D1 d y); auto.
Qed.

(** ** A materialization cut short *)

(** A disk on the way: as before, but for anything that is not a directory at the
    paths of the diffs, and for directories made on the way to those written. *)
Record partway (l : list FileDiff) (D0 D : Disk) : Prop := {
  pw_wf : disk_wf (d_nodes D);
  pw_outside : d_outside D = d_outside D0;
  pw_nodes : forall q, d_nodes D !! q = d_nodes D0 !! q \/
    (exists d, d ∈ l /\ q = at_path d /\ d_nodes D !! q <> Some NDir) \/
    (exists d, d ∈ l /\ writes d = true /\ above q (at_path d) /\ d_nodes D0 !! q = None /\ d_nodes D !! q = Some NDir) }.
Lemma partway_refl l D : disk_wf (d_nodes D) -> partway l D D.
Proof. intros W. split; auto. Qed.
Lemma leaves_node d : leaves d <> Some NDir.
Proof. unfold leaves. destruct (writes d); [|done]. destruct (blobContent _ _); [|done]. unfold node_of. by destruct (_ =? _). Qed.
(** Where a run of all the diffs stands after some of them. *)
Lemma partway_prefix l l' D0 D : disk_wf (d_nodes D0) -> apart l -> Forall (feasible D0) l ->
  materialize_all E st l D0 = (Ok tt, D) -> partway (l ++ l') D0 D.
Proof.
  intros W Ap HF Hm. destruct (materialize_all_Ok l D0 W Ap HF) as (D' & Hm' & W' & Ho & Hq).
  rewrite Hm in Hm'. injection Hm' as <-. split; [done..|]. intros q. rewrite Hq. unfold settled.
  destruct (find _ l) as [d|] eqn:Hf.
  - apply find_some in Hf as [Hd%list_elem_of_In ->%bool_decide_eq_true]. right. left. exists d.
    split_and!; [apply elem_of_app; by left|done|apply leaves_node].
  - destruct (existsb _ l) eqn:He; [|by left]. apply existsb_true_elem in He as (d & Hd & [Hw Hov%over_above]%andb_true_iff).
    rewrite Forall_forall in HF. destruct (HF d Hd) as [Ha _ _]. destruct (Ha q Hov) as [Hn|Hn]; [|left; by rewrite Hn].
    right. right. exists d. split_and!; [apply elem_of_app; by left|done..].
Qed.
(** From there the materialization ends where it would have. *)
Lemma partway_completes l D0 D D1 : disk_wf (d_nodes D0) -> apart l -> Forall (ready D0) l -> partway l D0 D ->
  materialize_all E st l D0 = (Ok tt, D1) -> materialize_all E st l D = (Ok tt, D1).
Proof.
  intros W0 Ap HR [W Ho Hq] Hm. pose proof (all_feasible _ _ _ W0 Ap HR Hm) as HF.
  destruct (materialize_all_Ok l D0 W0 Ap HF) as (D1' & Hm' & _ & Ho1 & Hq1). rewrite Hm in Hm'. injection Hm' as <-.
  destruct Ap as [Hnd Hab].
  assert (Forall (feasible D) l) as HF'.
  { rewrite Forall_forall in HF |- *. intros y Hy. destruct (HF y Hy) as [Fa Fn Fw]. split; [|..|done].
    - intros a Ha. destruct (Hq a) as [->|[(d & Hd & -> & _)|(d & _ & _ & _ & _ & Hx)]]; [by apply Fa| |by right].
      by destruct (Hab d y Hd Hy).
    - destruct (Hq (at_path y)) as [->|[(d & _ & _ & Hx)|(d & Hd & _ & Hx & _)]]; [done..|]. by destruct (Hab y d Hy Hd). }
  destruct (materialize_all_Ok l D W (conj Hnd Hab) HF') as (D2 & -> & _ & Ho2 & Hq2). f_equal.
  destruct D1 as [n1 o1], D2 as [n2 o2]. cbn in *. f_equal; [|congruence]. apply map_eq. intros q. rewrite Hq1, Hq2. unfold settled.
  destruct (find _ l) as [d|] eqn:Hf; [done|]. destruct (existsb _ l) eqn:He; [done|].
  destruct (Hq q) as [Hx|[(d & Hd & -> & _)|(d & Hd & Hw & Hx & _)]]; [done| |].
  - apply list_elem_of_In in Hd. apply (find_none _ _ Hf) in Hd. by rewrite bool_decide_eq_true_2 in Hd.
  - apply over_above in Hx. enough (existsb (fun d => writes d && over q (at_path d)) l = true) by congruence.
    apply existsb_true_elem. exists d. by rewrite Hw, Hx.
Qed.
End Disk.

(** ** Interruptions *)

(** The next open of the repository: the same root, store and history, another
    clock. *)
Definition reopened (now : string) (E : ApEnv) : ApEnv := mkApEnv (ae_store E) (ae_root E) (ae_history E) now (ae_audit E).
Definition journal_of (E : ApEnv) (c : Commit) (diffs : list FileDiff) (task agent : string) : ApplyJournal :=
  mkJournal (ae_root E) (CommitID c) (ContentHash c) task agent diffs.
Definition with_objects (st : Storage) (a : ApState) : ApState := ap_set_vc (vc_set_objects st (ap_vc a)) a.
Definition with_disk (D : Disk) (a : ApState) : ApState := ap_set_vc (vc_set_repo (set_disk D (vc_repo (ap_vc a))) (ap_vc a)) a.
(** Where a process that would have taken [a] to [a'] can die: before the
    journal; with the journal, before the branch moved; after it moved, the disk
    on the way and the index as it was; with the index written; with the journal
    cleared. The flag says whether the branch had moved. *)
Inductive interrupted (E : ApEnv) (c : Commit) (diffs : list FileDiff) (task agent : string) (a a' : ApState) : bool -> ApState -> Prop :=
  | int_unjournaled st : vc_objects (ap_vc a) ⊆ st -> interrupted E c diffs task agent a a' false (with_objects st a)
  | int_journaled : interrupted E c diffs task agent a a' false
      (ap_set_journal (Some (journal_of E c diffs task agent)) (with_objects (vc_objects (ap_vc a')) a))
  | int_moved D : partway diffs (rp_disk (vc_repo (ap_vc a))) D -> interrupted E c diffs task agent a a' true
      (ap_set_journal (Some (journal_of E c diffs task agent)) (ap_set_index (ap_index a) (with_disk D a')))
  | int_indexed : interrupted E c diffs task agent a a' true (ap_set_journal (Some (journal_of E c diffs task agent)) a')
  | int_cleared : interrupted E c diffs task agent a a' true a'.

Section Recovery.
Context `{G : GoGit} `{W : GitWriter} {L : GitWriterLaws G W} {TD : TreeDiffer} (E : ApEnv).

(** A row is added whatever the clock says, if it is not there yet; then it is. *)
Lemma insertTaskCommitTx_Ok now i T T' : insertTaskCommitTx now i T = Ok T' ->
  (forall r, r ∈ t_commits T -> cr_TaskID r = in_TaskID i -> cr_CommitHash r <> in_CommitHash i) /\
  (exists r, r ∈ t_commits T' /\ cr_TaskID r = in_TaskID i /\ cr_CommitHash r = in_CommitHash i) /\
  forall now', exists T2, insertTaskCommitTx now' i T = Ok T2.
Proof.
  unfold insertTaskCommitTx. destruct (existsb _ _) eqn:Hd; [done|]. cbn [err_if mbind res_bind]. intros Hi. split_and!.
  - intros r Hr Ht Hh. enough (existsb (fun r => String.eqb (cr_TaskID r) (in_TaskID i) && String.eqb (cr_CommitHash r) (in_CommitHash i)) (t_commits T) = true) by congruence.
    apply existsb_true_elem. exists r. by rewrite Ht, Hh, !String.eqb_refl.
  - exists (insert_record (t_commit_seq T + 1) now i). split; [|done].
    assert (t_commits T' = t_commits T ++ [insert_record (t_commit_seq T + 1) now i]) as ->; [|apply elem_of_app; right; by left].
    destruct (String.eqb _ ""); [by injection Hi as <-|]. by apply insertAdmission_commits in Hi as [-> _].
  - intros now'. destruct (String.eqb (in_Origin i) ""); [by eexists|]. unfold insertAdmission in *. cbn [t_commits] in *.
    destruct (err_if _ ECheck) as [[]|e]; [|done]. cbn [mbind res_bind] in *.
    assert (existsb (fun c => cr_ID c =? cr_ID (insert_record (t_commit_seq T + 1) now' i)) (t_commits T ++ [insert_record (t_commit_seq T + 1) now' i]) = true) as ->; [|by eexists].
    rewrite existsb_app. cbn. by rewrite Z.eqb_refl, orb_true_r.
Qed.
Lemma indexed_already task hash T : existsb (fun r => String.eqb (cr_CommitHash r) hash) (GetTaskCommits task T) = true <->
  exists r, r ∈ t_commits T /\ cr_TaskID r = task /\ cr_CommitHash r = hash.
Proof.
  rewrite existsb_true_elem. split.
  - intros (r & Hr & Hh%String.eqb_eq). rewrite GetTaskCommits_perm in Hr. apply list_elem_of_filter in Hr as [Ht Hr]. by exists r.
  - intros (r & Hr & Ht & <-). exists r. rewrite GetTaskCommits_perm. split; [by apply list_elem_of_filter|apply String.eqb_refl].
Qed.
Lemma index_missing now now' j x T : AddCommitToTask now (j_TaskID j) (j_CommitHash j) (j_ContentHash j) (j_AgentID j)
    (Z.of_nat (length (GetTaskCommits (j_TaskID j) (ap_index x)))) (ap_index x) = Ok T ->
  exists T', AddCommitToTask now' (j_TaskID j) (j_CommitHash j) (j_ContentHash j) (j_AgentID j)
      (Z.of_nat (length (GetTaskCommits (j_TaskID j) (ap_index x)))) (ap_index x) = Ok T' /\
    indexIfMissing (reopened now' E) j x = (Ok tt, ap_set_index T' x).
Proof.
  intros Hadd. apply insertTaskCommitTx_Ok in Hadd as (Hno & _ & Hany). destruct (Hany now') as [T' HT']. exists T'. split; [exact HT'|].
  unfold indexIfMissing. unfold mbind at 1, ST_bind, get. destruct (existsb _ _) eqn:He.
  - apply indexed_already in He as (r & Hr & Ht & Hh). by destruct (Hno r Hr Ht).
  - unfold AddToTask. cbn [reopened ae_index_now]. unfold AddCommitToTask, AppendTaskCommit in *. by rewrite HT'.
Qed.
Lemma index_present now j x r : r ∈ t_commits (ap_index x) -> cr_TaskID r = j_TaskID j -> cr_CommitHash r = j_CommitHash j ->
  indexIfMissing (reopened now E) j x = (Ok tt, x).
Proof.
  intros Hr Ht Hh. unfold indexIfMissing. unfold mbind at 1, ST_bind, get.
  assert (existsb (fun r => String.eqb (cr_CommitHash r) (j_CommitHash j)) (GetTaskCommits (j_TaskID j) (ap_index x)) = true) as ->; [|done].
  apply indexed_already. by exists r.
Qed.
(** Recovery where the branch holds the journaled commit. *)
Lemma recover_moved now j x D T : ap_journal x = Some j -> kept_journal j = j -> j_Root j = ae_root E ->
  rp_refs (vc_repo (ap_vc x)) !! rp_bound (vc_repo (ap_vc x)) = Some (j_CommitHash j) ->
  Forall (fun d => validateRelPath (fd_Path d) = Ok tt) (j_Diffs j) ->
  materialize_all E (vc_objects (ap_vc x)) (j_Diffs j) (rp_disk (vc_repo (ap_vc x))) = (Ok tt, D) ->
  indexIfMissing (reopened now E) j (with_disk D x) = (Ok tt, ap_set_index T (with_disk D x)) ->
  RecoverPendingApply (reopened now E) x = (Ok tt, ap_set_journal None (ap_set_index T (with_disk D x))).
Proof.
  intros Hj Hk Hroot Hb Hv Hm Hi. unfold RecoverPendingApply. unfold mbind at 1, ST_bind, get, ReadApplyJournal. rewrite Hj. cbn [fmap option_fmap option_map].
  rewrite Hk. cbn [reopened ae_root]. rewrite Hroot, String.eqb_refl. cbn [negb]. unfold mbind at 1 2, ST_bind, get, lift.
  rewrite Hb. cbn [res_of_option]. rewrite String.eqb_refl. unfold MaterializeDiffs, a_disk.
  assert (forM_ (fun d => validateRelPath (fd_Path d)) (j_Diffs j) = Ok tt) as Hf by (by apply forM_Ok).
  unfold mbind, ST_bind, lift. rewrite Hf. cbn [res_map_err].
  change (materialize_all (reopened now E)) with (materialize_all E). rewrite Hm. cbn [res_map_err]. unfold with_disk in Hi. rewrite Hi. done.
Qed.

(** Recovery where it does not. *)
Lemma recover_unmoved now j x parent gh gp : ap_journal x = Some j -> kept_journal j = j -> j_Root j = ae_root E ->
  rp_refs (vc_repo (ap_vc x)) !! rp_bound (vc_repo (ap_vc x)) = Some parent -> j_CommitHash j <> parent ->
  a_object (vc_objects (ap_vc x)) (j_CommitHash j) = Ok gh -> a_object (vc_objects (ap_vc x)) parent = Ok gp ->
  is_ancestor (ae_history E) (j_CommitHash j) parent = Some false ->
  RecoverPendingApply (reopened now E) x = (Ok tt, ap_set_journal None x).
Proof.
  intros Hj Hk Hroot Hb Hne Hh Hp Ha. unfold RecoverPendingApply. unfold mbind at 1, ST_bind, get, ReadApplyJournal.
  rewrite Hj. cbn [fmap option_fmap option_map]. rewrite Hk. cbn [reopened ae_root]. rewrite Hroot, String.eqb_refl. cbn [negb].
  assert (String.eqb parent (j_CommitHash j) = false) as Hn by (by apply String.eqb_neq).
  unfold mbind, ST_bind, lift, IsAncestorOfHead. rewrite Hb. cbn [res_of_option]. rewrite Hn, Hb. cbn [res_of_option mbind res_bind]. rewrite Hn, Hh.
  cbn [mbind res_bind]. rewrite Hp. cbn [mbind res_bind reopened ae_history]. by rewrite Ha.
Qed.
Lemma journal_kept c diffs task agent : json_text (ae_root E) = ae_root E -> Forall (fun d => json_text (fd_Path d) = fd_Path d) diffs ->
  kept_journal (journal_of E c diffs task agent) = journal_of E c diffs task agent.
Proof.
  intros Hroot Hpaths. unfold journal_of, kept_journal. cbn [j_Root j_CommitHash j_ContentHash j_TaskID j_AgentID j_Diffs]. rewrite Hroot. f_equal.
  induction Hpaths as [|d l Hd _ IH]; [done|]. cbn [map]. rewrite IH. f_equal. unfold kept_diff. rewrite Hd. by destruct d.
Qed.
Lemma tip_object s tip files : rp_refs (vc_repo s) !! rp_bound (vc_repo s) = Some tip -> vc_headFiles s = Ok files ->
  exists d g, vc_objects s !! tip = Some (CommitObject, d) /\ DecodeCommit d = Some g.
Proof.
  intros Hp Hh%res_map_err_Ok. unfold headFiles in Hh. rewrite Hp in Hh. cbn [res_of_option mbind res_bind] in Hh. unfold commitFiles in Hh.
  destruct (vc_objects s !! tip) as [[[] d]|]; try done. apply bind_Ok in Hh as (g & Hg%res_of_option_Ok & _). by exists d, g.
Qed.

(** C8. An application interrupted anywhere is finished or left alone at the next
    open. Take a commit of diffs that succeeds (its paths apart from each other,
    no directory and behind no link on the disk, and spelt in UTF-8, as the root
    is; no journal before it; its commit new to the branch), and any state its
    process can die in. Where the branch had not moved,
    recovery changes nothing but the journal, which is cleared. Where it had,
    whatever part of the diffs was on disk, and whether or not the commit was in
    the index, recovery ends in the state the uninterrupted run ended in: the
    same disk, references, objects and staging set, the journal cleared, and the
    commit in the index once, with the clock of the reopening where it had not
    been written yet. *)
Theorem recovery_completes now c diffs task agent a c' a' moved x : addressed (vc_objects (ap_vc a)) -> ap_journal a = None ->
  disk_wf (d_nodes (rp_disk (vc_repo (ap_vc a)))) -> Forall (ready (rp_disk (vc_repo (ap_vc a)))) diffs -> apart diffs ->
  json_text (ae_root E) = ae_root E -> Forall (fun d => json_text (fd_Path d) = fd_Path d) diffs ->
  apply_commit E c diffs task agent a = (Ok c', a') ->
  (forall parent, rp_refs (vc_repo (ap_vc a)) !! rp_bound (vc_repo (ap_vc a)) = Some parent ->
    CommitID c' <> parent /\ is_ancestor (ae_history E) (CommitID c') parent = Some false) ->
  interrupted E c' diffs task agent a a' moved x ->
  if moved then exists T, RecoverPendingApply (reopened now E) x = (Ok tt, ap_set_index T a') /\
    (ap_index x = ap_index a' -> T = ap_index a') /\ (ap_index x = ap_index a -> AddCommitToTask now task (CommitID c') (ContentHash c') agent
       (Z.of_nat (length (GetTaskCommits task (ap_index a)))) (ap_index a) = Ok T)
  else RecoverPendingApply (reopened now E) x = (Ok tt, ap_set_journal None x).
Proof.
  intros A Hj Wf HR Hap Hroot Hpaths H Hfresh Hint.
  apply apply_commit_Ok in H as (parent & files & a1 & D1 & T & Hst & Hcas & Hv & Hm & HT & ->); [|done].
  set (j := journal_of E c' diffs task agent). pose proof (journal_kept c' diffs task agent Hroot Hpaths) as Hk. fold j in Hk.
  pose proof (insertTaskCommitTx_Ok _ _ _ _ HT) as (Hno & (row & Hrow & Htask & Hhash) & _). cbn in Hno, Htask, Hhash.
  assert (T <> ap_index a) as HTne by (intros ->; by destruct (Hno row Hrow Htask)).
  destruct Hint as [st Hs| |D HD| |].
  - unfold RecoverPendingApply, mbind, ST_bind, get, ReadApplyJournal. unfold with_objects, ap_set_vc, ap_set_journal. cbn. by rewrite Hj.
  - destruct (Hfresh parent (st_parent _ _ _ _ _ _ _ Hst)) as [Hne Ha]. destruct (st_object _ _ _ _ _ _ _ Hst) as (d & g & Hd & Hg & _).
    destruct (st_files _ _ _ _ _ _ _ Hst) as (head & Hh & _). pose proof (st_parent _ _ _ _ _ _ _ Hst) as Hp.
    destruct (tip_object _ _ _ Hp Hh) as (pd & gp & Hpo & Hgp).
    apply (recover_unmoved now j _ parent g gp); try done; cbn; unfold a_object; cbn.
    + by rewrite Hd, Hg.
    + rewrite (lookup_weaken _ _ _ _ Hpo (st_grows _ _ _ _ _ _ _ Hst)). by rewrite Hgp.
  - edestruct (index_missing (ae_index_now E) now j (with_disk D1 (ap_set_journal (Some j) (ap_set_index (ap_index a) (with_disk D (applied E a a1 c' D1 T)))))) as (T' & HT' & Hi); [exact HT|].
    exists T'. split; [|split; [done|intros _; exact HT']].
    rewrite (recover_moved now j _ D1 T'); try done; [apply lookup_insert_eq|]. cbn. by eapply partway_completes.
  - exists T. split; [|split; [done|done]].
    pose proof (all_feasible _ _ _ _ _ Wf Hap HR Hm) as HF.
    rewrite (recover_moved now j _ D1 T); try done; [apply lookup_insert_eq|..].
    + cbn. eapply partway_completes; [done..| |exact Hm]. rewrite <- (app_nil_r diffs). by eapply partway_prefix.
    + by apply (index_present now j _ row).
  - exists T. split; [|done]. done.
Qed.
End Recovery.
