(* ===== verification/Merge.v ===== *)
(** * Merging a branch

    [internal/store/git/merge.go] and [internal/service/merge.go]: the scan for
    conflicts, the merged tree, the fast-forward and the merge commit, and the
    verb that chooses among them. The ancestor test and the merge base are
    go-git's ([History]), as is the difference of two trees. *)

From Stdlib Require Import ZArith Lia Ascii String.
From S2P Require Import Prelude StateErr GoStrings TaskId ModelCommit Ledger LandWire LandVerify DiskTree Projection GitTree TreeDiff Deliverable CommitStore Squash.

Open Scope Z_scope.
Open Scope list_scope.

Inductive merge_err :=
  | MEmptySource | MUnknownStrategy | MNoBranch (name : string) | MNoCommit (hash : string) | MStore (e : vc_err)
  | MTree (e : tree_err) | MDeliver (e : deliver_err) | MHistory | MDiff | MNoCommonAncestor | MConflict (paths : list string).
Definition MergeM := ST VcState merge_err.
(** A call into the store, its error wrapped. *)
Definition from_store {A} (m : VcM A) : MergeM A := fun s =>
  match m s with (Ok a, s) => (Ok a, s) | (Err e, s) => (Err (MStore e), s) end.

Record MergeEnv := mkMergeEnv {
  me_store : VcEnv; me_history : History; me_ledger : Tables; me_quote : string -> string;
  me_net : MapIter (option blobEntry); me_changes : MapIter string }.
Inductive MergeStrategy := MergeAuto | MergeNoFF | MergeSquash.
#[export] Instance MergeStrategy_eq_dec : EqDecision MergeStrategy.
Proof. solve_decision. Defined.
(** A strategy is one of the three, or a string that is not one ([None]); the
    empty string is [MergeAuto]. *)
Record MergeRequest := mkMergeReq { mr_SourceBranch : string; mr_Strategy : option MergeStrategy; mr_Message : string }.
Record MergeResult := mkMergeResult {
  ms_Strategy : MergeStrategy; ms_Source : string; ms_Target : string; ms_MergedHash : string; ms_FastFwd : bool; ms_Status : string }.

Section Merge.
Context `{G : GoGit} `{W : GitWriter} {TD : TreeDiffer} (M : MergeEnv).

(** ** Reading *)

Definition mergeCommitObject (st : Storage) (h : string) : res merge_err GitCommit :=
  match st !! h with
  | Some (CommitObject, d) => res_of_option (MNoCommit h) (DecodeCommit d)
  | _ => Err (MNoCommit h)
  end.
Definition MergeBase (st : Storage) (left right : string) : res merge_err string :=
  _ ← mergeCommitObject st left;
  _ ← mergeCommitObject st right;
  res_of_option MHistory (merge_base (me_history M) left right).
Definition IsAncestor (st : Storage) (a d : string) : res merge_err bool :=
  _ ← mergeCommitObject st a;
  _ ← mergeCommitObject st d;
  res_of_option MHistory (is_ancestor (me_history M) a d).
Definition mergeFiles (st : Storage) (h : string) : res merge_err Files :=
  _ ← mergeCommitObject st h; res_map_err (MStore ∘ VProj) (commitFiles st h).

(** ** Conflicts *)

Definition add_change (out : gmap string string) (c : change) : gmap string string :=
  let hash := ce_Hash (ch_To c) in
  <[ch_path c := if String.eqb hash ZeroHash then "" else hash]> out.
Definition changedPaths (st : Storage) (base target : GitCommit) : res merge_err (gmap string string) :=
  changes ← res_of_option MDiff (diff_trees st (g_TreeHash base) (g_TreeHash target));
  Ok (fold_left add_change changes ∅).
Definition conflict_at (right : gmap string string) (x : string * string) : option string :=
  match right !! x.1 with
  | Some h => if String.eqb h x.2 then None else Some x.1
  | None => None
  end.
Definition ConflictingPaths (st : Storage) (baseHash leftHash rightHash : string) : res merge_err (list string) :=
  base ← mergeCommitObject st baseHash;
  left ← mergeCommitObject st leftHash;
  right ← mergeCommitObject st rightHash;
  leftChanges ← changedPaths st base left;
  rightChanges ← changedPaths st base right;
  Ok (omap (conflict_at rightChanges) (me_changes M leftChanges)).

(** ** The merged tree *)

Definition files_of_base (st : Storage) (baseHash : string) : res merge_err Files :=
  if String.eqb baseHash "" then Ok ∅ else mergeFiles st baseHash.
Definition netDelta (st : Storage) (baseHash targetHash : string) : res merge_err Net :=
  base ← files_of_base st baseHash;
  target ← mergeFiles st targetHash;
  Ok (applyTreeDelta (ve_it (me_store M)) ∅ base target).
Definition applyMergeDelta (merged : Files) (delta : Net) : Files :=
  fold_left (fun merged x => match x.2 with None => delete x.1 merged | Some e => <[x.1 := e]> merged end) (me_net M delta) merged.
Definition merged_files (st : Storage) (headHash sourceHash : string) : res merge_err Files :=
  baseHash ← MergeBase st headHash sourceHash;
  baseFiles ← files_of_base st baseHash;
  headDelta ← netDelta st baseHash headHash;
  sourceDelta ← netDelta st baseHash sourceHash;
  Ok (applyMergeDelta (applyMergeDelta baseFiles headDelta) sourceDelta).
Definition mergedTree (headHash sourceHash : string) (st : Storage) : res merge_err (string * Storage) :=
  merged ← merged_files st headHash sourceHash;
  res_map_err MTree (write_tree (ve_it (me_store M)) (ve_itd (me_store M)) merged st).

(** ** Moving the branch *)

Definition m_store (f : Storage -> res merge_err (string * Storage)) : MergeM string := fun s =>
  match f (vc_objects s) with Ok (h, st) => (Ok h, vc_set_objects st s) | Err e => (Err e, s) end.
Definition materializeMerge (target : string) (preHead : Files) : VcM unit :=
  _ ← checkClean (me_store M);
  materialize (me_store M) target preHead.
Definition FastForward (branchName targetHash : string) : MergeM unit :=
  ref ← get (fun s => rp_refs (vc_repo s) !! branchName);
  cur ← lift (res_of_option (MNoBranch branchName) ref);
  head ← get vc_headFiles;
  currentHead ← lift (res_map_err MStore head);
  _ ← from_store (materializeMerge targetHash currentHead);
  from_store (advanceBranchRefCAS (me_store M) branchName targetHash cur).
Definition merge_params (tree head source message : string) : commitParams :=
  mkParams tree [head; source] message "mgit-merge" "mgit-merge@mgit" (ve_now (me_store M)).
Definition CreateMergeCommit (message sourceHash : string) : MergeM string :=
  branch ← get (fun s => rp_bound (vc_repo s));
  ref ← get (fun s => rp_refs (vc_repo s) !! branch);
  headHash ← lift (res_of_option (MNoBranch branch) ref);
  head ← get vc_headFiles;
  currentHead ← lift (res_map_err MStore head);
  treeHash ← m_store (mergedTree headHash sourceHash);
  commitHash ← m_store (fun st => res_map_err MTree (writeCommit (merge_params treeHash headHash sourceHash message) st));
  _ ← from_store (materializeMerge commitHash currentHead);
  _ ← from_store (advanceBranchRefCAS (me_store M) branch commitHash headHash);
  mret commitHash.

(** ** The verb *)

Definition scan_conflicts (st : Storage) (headHash sourceHash : string) : res merge_err unit :=
  base ← MergeBase st headHash sourceHash;
  if String.eqb base "" then Err MNoCommonAncestor
  else conflicts ← ConflictingPaths st base headHash sourceHash;
       match conflicts with [] => Ok tt | _ => Err (MConflict conflicts) end.
Definition squash_message (req : MergeRequest) : string :=
  if String.eqb (mr_Message req) "" then "Squash merge branch " +:+ me_quote M (mr_SourceBranch req) else mr_Message req.
(** The source branch a store returns carries no task. *)
Definition squash_merge_commit (req : MergeRequest) (currentBranch : string) : Commit :=
  mkCommit "" "" "" "" (mkTaskID "" "") "mgit-merge" "" (squash_message req) None [] 0 "" CommitTypeMerge "mgit-merge" currentBranch.
Definition merge_message (req : MergeRequest) (currentBranch : string) : string :=
  if String.eqb (mr_Message req) "" then "Merge branch " +:+ me_quote M (mr_SourceBranch req) +:+ " into " +:+ currentBranch
  else mr_Message req.
(** The switch over the strategies. *)
Definition merge_by (strategy : MergeStrategy) (canFF : bool) (req : MergeRequest) (currentBranch source : string) : MergeM MergeResult :=
  let result (hash : string) (ff : bool) (status : string) : MergeResult :=
    mkMergeResult strategy (mr_SourceBranch req) currentBranch hash ff status in
  match strategy with
  | MergeAuto =>
    if canFF then _ ← FastForward currentBranch source; mret (result source true "fast-forward")
    else hash ← CreateMergeCommit (merge_message req currentBranch) source; mret (result hash false "merged")
  | MergeNoFF => hash ← CreateMergeCommit (merge_message req currentBranch) source; mret (result hash false "merged")
  | MergeSquash =>
    c ← from_store (CreateCommit (me_store M) (squash_merge_commit req currentBranch));
    mret (result (CommitID c) false "squashed")
  end.
Definition Merge (req : MergeRequest) : MergeM MergeResult :=
  if String.eqb (mr_SourceBranch req) "" then fail (W:=VcState) MEmptySource
  else
    strategy ← lift (res_of_option MUnknownStrategy (mr_Strategy req));
    src ← get (fun s => rp_refs (vc_repo s) !! mr_SourceBranch req);
    source ← lift (res_of_option (MNoBranch (mr_SourceBranch req)) src);
    currentBranch ← get (fun s => rp_bound (vc_repo s));
    ref ← get (fun s => rp_refs (vc_repo s) !! currentBranch);
    headHash ← lift (res_of_option (MNoBranch currentBranch) ref);
    let upToDate_result := mkMergeResult strategy (mr_SourceBranch req) currentBranch headHash false "already up to date" in
    if String.eqb (mr_SourceBranch req) currentBranch then mret upToDate_result
    else
      st ← get vc_objects;
      _ ← lift (res_map_err MDeliver (requireDeliverableHistory st (me_ledger M) source));
      upToDate ← lift (IsAncestor st source headHash);
      if (upToDate : bool) then mret upToDate_result
      else
        canFF ← lift (IsAncestor st headHash source);
        _ ← lift (if (canFF : bool) then Ok tt else scan_conflicts st headHash source);
        merge_by strategy canFF req currentBranch source.
End Merge.

(** ** The three-way merge *)

Section Facts.
Context `{G : GoGit} `{W : GitWriter} {L : GitWriterLaws G W} {TD : TreeDiffer} {TL : TreeDifferLaws TD} (M : MergeEnv).

(** What a change shows of a side: its hash, or nothing for a deletion. *)
Definition side_hash (e : option blobEntry) : string := from_option be_hash ZeroHash e.
Definition shown (e : option blobEntry) : string := if String.eqb (side_hash e) ZeroHash then "" else side_hash e.
(** What the scan asks of the paths both sides changed: the same content hash, or
    both deleted. Modes are not compared. *)
Definition same_content (base left right : Files) : Prop :=
  forall p, differs base left p -> differs base right p -> shown (left !! p) = shown (right !! p).
(** The merge of two sides: the left where the right has what the base has, the
    right elsewhere. *)
Definition merge3 (base left right : Files) (p : string) : option blobEntry :=
  if bool_decide (right !! p = base !! p) then left !! p else right !! p.

Lemma tidy_merge_object st h files : tidy st h files -> exists g, mergeCommitObject st h = Ok g /\ tidy_tree st (g_TreeHash g) files.
Proof. intros (d & g & Hh & Hd & Ht). exists g. unfold mergeCommitObject. by rewrite Hh, Hd. Qed.
Lemma tidy_files st h files : tidy st h files -> mergeFiles st h = Ok files.
Proof.
  intros (d & g & Hh & Hd & es & Hw & _ & _ & Hf). unfold mergeFiles, mergeCommitObject, commitFiles. rewrite Hh. cbn. rewrite Hd. cbn.
  rewrite Hw. cbn [res_of_option mbind res_bind]. by rewrite Hf.
Qed.

Lemma applyMergeDelta_lookup delta files p :
  applyMergeDelta M files delta !! p = match delta !! p with Some v => v | None => files !! p end.
Proof. apply (apply_net_lookup (me_net M)). Qed.
Lemma merged_files_Ok st head source files : merged_files M st head source = Ok files <->
  exists base baseFiles left right, MergeBase M st head source = Ok base /\ files_of_base st base = Ok baseFiles /\
    mergeFiles st head = Ok left /\ mergeFiles st source = Ok right /\
    files = applyMergeDelta M (applyMergeDelta M baseFiles (applyTreeDelta (ve_it (me_store M)) ∅ baseFiles left))
              (applyTreeDelta (ve_it (me_store M)) ∅ baseFiles right).
Proof.
  unfold merged_files, netDelta. split.
  - intros (base & Hm & H)%bind_Ok. rewrite Hm in *. apply bind_Ok in H as (bf & Hb & H). rewrite Hb in H. cbn [mbind res_bind] in H.
    apply bind_Ok in H as (hd & (left & Hl & [= <-])%bind_Ok & H). apply bind_Ok in H as (sd & (right & Hr & [= <-])%bind_Ok & [= <-]).
    by exists base, bf, left, right.
  - intros (base & bf & left & right & Hm & Hb & Hl & Hr & ->). rewrite Hm. cbn [mbind res_bind]. rewrite Hb. cbn [mbind res_bind].
    rewrite Hl. cbn [mbind res_bind]. by rewrite Hr.
Qed.
Lemma merged_lookup (base left right : Files) p :
  applyMergeDelta M (applyMergeDelta M base (applyTreeDelta (ve_it (me_store M)) ∅ base left))
    (applyTreeDelta (ve_it (me_store M)) ∅ base right) !! p = merge3 base left right p.
Proof.
  unfold merge3. rewrite !applyMergeDelta_lookup, !applyTreeDelta_lookup, lookup_empty.
  repeat case_bool_decide; congruence.
Qed.

Lemma changedPaths_lookup st b t base target : tidy_tree st (g_TreeHash b) base -> tidy_tree st (g_TreeHash t) target ->
  exists m, changedPaths st b t = Ok m /\
    forall p, m !! p = if bool_decide (differs base target p) then Some (shown (target !! p)) else None.
Proof.
  intros Hb Ht. destruct (diff_trees_exact _ _ _ _ _ Hb Ht) as (l & Hl & _ & Hin & Hc).
  unfold changedPaths. rewrite Hl. cbn. eexists. split; [done|]. intros p.
  rewrite <- (bool_decide_ext _ _ (Hin p)).
  assert (forall c, c ∈ l -> ce_Hash (ch_To c) = side_hash (target !! ch_path c)) as Hh.
  { intros c (q & Hd & ->)%Hc. unfold ch_path. cbn. destruct (target !! q) as [e|] eqn:Hq; cbn.
    - destruct (String.eqb_spec q "") as [->|]; [|by rewrite Hq]. destruct (base !! ""); cbn; by rewrite Hq.
    - unfold differs in Hd. destruct (base !! q) as [e|] eqn:Hbq; cbn; [by rewrite Hq|exfalso; apply Hd; by rewrite ?Hbq, ?Hq]. }
  clear -Hh. induction l as [|c l IH] using rev_ind; [by rewrite bool_decide_eq_false_2 by apply not_elem_of_nil|].
  rewrite fold_left_app. cbn [fold_left]. unfold add_change at 1. rewrite (Hh c) by set_solver.
  destruct (decide (ch_path c = p)) as [<-|Hne].
  - rewrite lookup_insert_eq, bool_decide_eq_true_2; [done|]. rewrite map_app. set_solver.
  - rewrite lookup_insert_ne, IH by (done || set_solver).
    by rewrite (bool_decide_ext (p ∈ map ch_path l) (p ∈ map ch_path (l ++ [c]))) by (rewrite map_app; set_solver).
Qed.
Lemma ConflictingPaths_tidy st bh lh rh base left right : tidy st bh base -> tidy st lh left -> tidy st rh right ->
  exists l, ConflictingPaths M st bh lh rh = Ok l /\
    forall p, p ∈ l <-> differs base left p /\ differs base right p /\ shown (left !! p) <> shown (right !! p).
Proof.
  intros (gb & Hb & Tb)%tidy_merge_object (gl & Hl & Tl)%tidy_merge_object (gr & Hr & Tr)%tidy_merge_object.
  destruct (changedPaths_lookup st gb gl base left Tb Tl) as (ml & Hml & Hll).
  destruct (changedPaths_lookup st gb gr base right Tb Tr) as (mr & Hmr & Hlr).
  unfold ConflictingPaths. rewrite Hb. cbn [mbind res_bind]. rewrite Hl. cbn [mbind res_bind]. rewrite Hr. cbn [mbind res_bind].
  rewrite Hml. cbn [mbind res_bind]. rewrite Hmr. cbn [mbind res_bind]. eexists. split; [done|]. intros p. rewrite list_elem_of_omap. split.
  - intros ([q h] & Hq%elem_of_iter & Hc). unfold conflict_at in Hc. cbn in Hc. rewrite Hll in Hq. rewrite Hlr in Hc.
    case_bool_decide as Hdl; [|done]. case_bool_decide as Hdr; [|done]. injection Hq as Hq. subst h.
    destruct (String.eqb_spec (shown (right !! q)) (shown (left !! q))) as [He|He]; [done|]. injection Hc as ->. by split_and!.
  - intros (Hdl & Hdr & Hne). exists (p, shown (left !! p)). split; [apply elem_of_iter; by rewrite Hll, bool_decide_eq_true_2|].
    unfold conflict_at. cbn. rewrite Hlr, bool_decide_eq_true_2 by done. destruct (String.eqb_spec (shown (right !! p)) (shown (left !! p))); [congruence|done].
Qed.
Lemma scan_conflicts_tidy st head source bh base left right : MergeBase M st head source = Ok bh -> bh <> "" ->
  tidy st bh base -> tidy st head left -> tidy st source right ->
  (scan_conflicts M st head source = Ok tt <-> same_content base left right).
Proof.
  intros Hm Hne Hb Hl Hr. destruct (ConflictingPaths_tidy _ _ _ _ _ _ _ Hb Hl Hr) as (l & Hc & Hin).
  unfold scan_conflicts. rewrite Hm. cbn [mbind res_bind]. destruct (String.eqb_spec bh ""); [done|]. rewrite Hc. cbn [mbind res_bind].
  unfold same_content. split.
  - destruct l as [|p l]; [|done]. intros _ p Hdl Hdr. apply dec_stable. intros Hx.
    by destruct (not_elem_of_nil p (proj2 (Hin p) (conj Hdl (conj Hdr Hx)))).
  - intros Ha. destruct l as [|p l]; [done|]. destruct (proj1 (Hin p)) as (Hdl & Hdr & Hx); [by left|]. by destruct Hx; apply Ha.
Qed.

(** ** Moving the branch *)

(** Materializing a commit and advancing a branch to it. *)
Definition move (target branch cur : string) (preHead : Files) : MergeM unit :=
  _ ← from_store (materializeMerge M target preHead);
  from_store (advanceBranchRefCAS (me_store M) branch target cur).
Definition refs_of (s : VcState) : gmap string string := rp_refs (vc_repo s).
Definition others (s : VcState) : gmap string string := ve_others (me_store M) (refs_of s).
Definition clean_tree (s : VcState) : Prop := dirtyTrackedPaths (me_store M) s = Ok [].
(** What a step that does not end well leaves of the references. *)
Definition unmoved (s s' : VcState) : Prop := refs_of s' = refs_of s \/ refs_of s' = others s.

Lemma move_spec target branch cur preHead s r s' : move target branch cur preHead s = (r, s') ->
  vc_objects s' = vc_objects s /\ rp_bound (vc_repo s') = rp_bound (vc_repo s) /\ rp_staged (vc_repo s') = rp_staged (vc_repo s) /\
  (rp_disk (vc_repo s') = rp_disk (vc_repo s) \/ clean_tree s) /\
  match r with
  | Ok _ => clean_tree s /\ others s !! branch = Some cur /\ refs_of s' = <[branch := target]> (others s) /\
      materializeCommit (ve_host (me_store M)) (ve_orders (me_store M)) (vc_objects s) target preHead (rp_disk (vc_repo s)) =
        (Ok tt, rp_disk (vc_repo s'))
  | Err _ => unmoved s s'
  end.
Proof.
  unfold move, from_store, materializeMerge, mbind, ST_bind, checkClean, clean_tree, unmoved, refs_of, others.
  destruct (dirtyTrackedPaths (me_store M) s) as [[|p l]|e]; [|by intros [= <- <-]; split_and!; try done; left..].
  unfold materialize. destruct (materializeCommit _ _ _ _ _ _) as [[[]|e] d]; cbn;
    [|intros [= <- <-]; cbn; split_and!; try done; [by right|by left]].
  unfold advanceBranchRefCAS. cbn. case_bool_decide as Hc; intros [= <- <-]; cbn; split_and!; try done; by right.
Qed.

Lemma merge_FastForward_run branch target s r s' : FastForward M branch target s = (r, s') ->
  (s' = s /\ is_ok r = false) \/
  exists cur preHead, refs_of s !! branch = Some cur /\ vc_headFiles s = Ok preHead /\ move target branch cur preHead s = (r, s').
Proof.
  unfold FastForward. unfold mbind at 1 2 3 4, ST_bind, get, lift.
  destruct (rp_refs (vc_repo s) !! branch) as [cur|] eqn:Hc; cbn [res_of_option]; [|intros [= <- <-]; by left].
  destruct (vc_headFiles s) as [preHead|e] eqn:Hh; cbn [res_map_err]; [|intros [= <- <-]; by left].
  intros H. right. exists cur, preHead. by split_and!.
Qed.

(** What a merge commit is, before the branch moves to it. *)
Definition merge_made (s s1 : VcState) (message head source id : string) : Prop := exists files tree st d g,
  merged_files M (vc_objects s) head source = Ok files /\
  write_tree (ve_it (me_store M)) (ve_itd (me_store M)) files (vc_objects s) = Ok (tree, st) /\
  vc_objects s1 !! id = Some (CommitObject, d) /\ DecodeCommit d = Some g /\ g_ParentHashes g = [head; source] /\
  (files_ok files -> commitFiles (vc_objects s1) id = Ok files).
Lemma CreateMergeCommit_run message source s r s' : addressed (vc_objects s) -> CreateMergeCommit M message source s = (r, s') ->
  (vc_repo s' = vc_repo s /\ addressed (vc_objects s') /\ vc_objects s ⊆ vc_objects s' /\ is_ok r = false) \/
  exists head preHead id s1 r1, refs_of s !! rp_bound (vc_repo s) = Some head /\ vc_headFiles s = Ok preHead /\
    vc_repo s1 = vc_repo s /\ addressed (vc_objects s1) /\ vc_objects s ⊆ vc_objects s1 /\ merge_made s s1 message head source id /\
    move id (rp_bound (vc_repo s)) head preHead s1 = (r1, s') /\ r = (_ ← r1; Ok id).
Proof.
  intros A. unfold CreateMergeCommit. unfold mbind at 1 2 3 4 5, ST_bind, get, lift.
  destruct (rp_refs (vc_repo s) !! rp_bound (vc_repo s)) as [head|] eqn:Hc; cbn [res_of_option]; [|intros [= <- <-]; by left].
  destruct (vc_headFiles s) as [preHead|e] eqn:Hh; cbn [res_map_err]; [|intros [= <- <-]; by left].
  unfold mbind at 1 2 3, m_store, ST_bind. destruct (mergedTree M head source (vc_objects s)) as [[tree st]|e] eqn:Ht; [|intros [= <- <-]; by left].
  unfold mergedTree in Ht. apply bind_Ok in Ht as (files & Hf & Hw). apply res_map_err_Ok in Hw.
  destruct (write_tree_grows _ _ _ _ _ _ A Hw) as [A1 S1]. cbn [vc_objects vc_set_objects].
  destruct (writeCommit _ st) as [[id st2]|e] eqn:Hw2; cbn [res_map_err]; [|intros [= <- <-]; left; by split_and!].
  destruct (writeCommit_spec _ _ _ _ A1 Hw2) as (A2 & S2 & d & g & Hl & Hg & _ & Hp).
  set (s1 := vc_set_objects st2 _). intros H. right. exists head, preHead, id, s1.
  assert (exists r1, move id (rp_bound (vc_repo s)) head preHead s1 = (r1, s') /\ r = (_ ← r1; Ok id)) as (r1 & Hm & Hr).
  { revert H. unfold move, mbind, ST_bind. destruct (from_store _ s1) as [[[]|e] s2]; [|intros [= <- <-]; by eexists].
    destruct (from_store _ s2) as [[[]|e] s3]; intros [= <- <-]; by eexists. }
  exists r1. split_and!; try done; [by etrans|]. exists files, tree, st, d, g. split_and!; try done.
  intros Hok. by destruct (write_commit_reads _ _ _ (merge_params M tree head source message) _ _ _ _ _ A Hok Hw eq_refl Hw2) as [? _].
Qed.

(** ** The verb *)

(** What the switch is reached with. *)
Record reached (req : MergeRequest) (s : VcState) (strategy : MergeStrategy) (canFF : bool) (head source : string) : Prop := {
  rc_head : refs_of s !! rp_bound (vc_repo s) = Some head;
  rc_source : refs_of s !! mr_SourceBranch req = Some source;
  rc_delivered : requireDeliverableHistory (vc_objects s) (me_ledger M) source = Ok tt;
  rc_ff : IsAncestor M (vc_objects s) head source = Ok canFF;
  rc_conflicts : canFF = false -> scan_conflicts M (vc_objects s) head source = Ok tt }.
Lemma Merge_run req s r s' : Merge M req s = (r, s') ->
  (s' = s /\ match r with
             | Ok a => refs_of s !! rp_bound (vc_repo s) = Some (ms_MergedHash a) /\ ms_Target a = rp_bound (vc_repo s) /\
                       ms_Status a = "already up to date"
             | Err _ => True
             end) \/
  exists strategy canFF head source, reached req s strategy canFF head source /\
    merge_by M strategy canFF req (rp_bound (vc_repo s)) source s = (r, s').
Proof.
  unfold Merge. destruct (String.eqb _ ""); [intros [= <- <-]; by left|].
  unfold mbind at 1 2 3 4 5 6, ST_bind, get, lift. destruct (mr_Strategy req) as [strategy|]; cbn [res_of_option]; [|intros [= <- <-]; by left].
  destruct (rp_refs (vc_repo s) !! mr_SourceBranch req) as [source|] eqn:Hs; cbn [res_of_option]; [|intros [= <- <-]; by left].
  destruct (rp_refs (vc_repo s) !! rp_bound (vc_repo s)) as [head|] eqn:Hh; cbn [res_of_option]; [|intros [= <- <-]; by left].
  destruct (String.eqb _ (rp_bound _)); [intros [= <- <-]; by left|].
  unfold mbind at 1 2 3, ST_bind. destruct (requireDeliverableHistory _ _ _) as [[]|e] eqn:Hd; cbn [res_map_err]; [|intros [= <- <-]; by left].
  destruct (IsAncestor M _ source head) as [[]|e]; [intros [= <- <-]; by left| |intros [= <- <-]; by left].
  unfold mbind at 1 2, ST_bind. destruct (IsAncestor M _ head source) as [canFF|e] eqn:Hff; [|intros [= <- <-]; by left].
  destruct (if canFF then _ else _) as [[]|e] eqn:Hc; [|intros [= <- <-]; by left].
  intros H. right. exists strategy, canFF, head, source. split; [|done]. split; try done. by intros ->.
Qed.

Lemma Status_ext s s1 : vc_repo s1 = vc_repo s -> vc_headFiles s1 = vc_headFiles s -> Status (me_store M) s1 = Status (me_store M) s.
Proof. intros Hr Hh. unfold Status, listWorkingFiles, vc_staged. by rewrite Hh, Hr. Qed.
Lemma clean_tree_grown s s1 head : vc_repo s1 = vc_repo s -> addressed (vc_objects s1) -> vc_objects s ⊆ vc_objects s1 ->
  vc_headFiles s = Ok head -> clean_tree s1 -> clean_tree s.
Proof.
  intros Hr A Hs Hh. assert (vc_headFiles s1 = vc_headFiles s) as Hh1; [|unfold clean_tree, dirtyTrackedPaths; by rewrite (Status_ext s)].
  rewrite Hh. unfold vc_headFiles in *. apply res_map_err_Ok in Hh. apply res_map_err_Ok. rewrite Hr. unfold headFiles in *.
  apply bind_Ok in Hh as (h & Hl & Hh). rewrite Hl. cbn. by eapply commitFiles_mono.
Qed.

(** What one of the three ways to move the branch leaves, ending with the commit
    it moves to. *)
Definition guarded (s s' : VcState) (r : res merge_err string) : Prop :=
  let branch := rp_bound (vc_repo s) in
  addressed (vc_objects s') /\ vc_objects s ⊆ vc_objects s' /\ rp_bound (vc_repo s') = branch /\
  (rp_disk (vc_repo s') = rp_disk (vc_repo s) \/ clean_tree s) /\
  match r with
  | Err _ => unmoved s s'
  | Ok id => exists head, refs_of s !! branch = Some head /\ others s !! branch = Some head /\ refs_of s' = <[branch := id]> (others s)
  end.
Lemma FastForward_guarded target s r s' : addressed (vc_objects s) -> FastForward M (rp_bound (vc_repo s)) target s = (r, s') ->
  guarded s s' (_ ← r; Ok target).
Proof.
  intros A [[-> Hr]|(cur & preHead & Hc & _ & Hm)]%merge_FastForward_run.
  { destruct r; [done|]. split_and!; try done; by left. }
  apply move_spec in Hm as (Ho & Hb & _ & Hd & Hr). unfold guarded. rewrite Ho, Hb. split_and!; try done.
  destruct r as [[]|e]; [|done]. exists cur. tauto.
Qed.
Lemma CreateMergeCommit_guarded message source s r s' : addressed (vc_objects s) -> CreateMergeCommit M message source s = (r, s') ->
  guarded s s' r.
Proof.
  intros A [(Hs & A' & S' & Hr)|(head & preHead & id & s1 & r1 & Hh & Hph & Hs & A1 & S1 & _ & Hm & ->)]%CreateMergeCommit_run; [| |done].
  { destruct r; [done|]. unfold guarded, unmoved, refs_of. rewrite Hs. split_and!; try done; by left. }
  apply move_spec in Hm as (Ho & Hb & _ & Hd & Hr). unfold guarded, unmoved, refs_of, others, refs_of in *. rewrite Hs in *. rewrite Ho.
  split_and!; try done; [destruct Hd; [by left|right; by eapply clean_tree_grown]|].
  destruct r1 as [[]|e]; [|done]. exists head. tauto.
Qed.
Lemma CreateCommit_guarded c s r s' : addressed (vc_objects s) -> CreateCommit (me_store M) c s = (r, s') ->
  guarded s s' (c ← res_map_err MStore r; Ok (CommitID c)).
Proof.
  intros A H. destruct (CreateCommit_run _ _ _ _ _ A H) as (A' & S' & [[Hr Hs]|(parent & files & st & id & g & d & Hp & _ & _ & _ & _ & _ & _ & Hrun)]).
  { destruct r; [done|]. unfold guarded, unmoved, refs_of. rewrite Hs. split_and!; try done; by left. }
  unfold guarded, unmoved, others, refs_of. case_bool_decide as Hcas; destruct Hrun as [Hs Hr]; rewrite Hs; cbn [set_staged set_refs rp_bound rp_disk rp_refs].
  - destruct Hr as (c' & -> & Hid). split_and!; try done; [by left|]. exists parent. by rewrite Hid.
  - subst r. split_and!; try done; [by left|by right].
Qed.
Lemma merge_by_run strategy canFF req branch source s r s' : merge_by M strategy canFF req branch source s = (r, s') ->
  branch = rp_bound (vc_repo s) -> addressed (vc_objects s) -> exists r1, guarded s s' r1 /\
    match r with Ok a => ms_Target a = branch /\ r1 = Ok (ms_MergedHash a) | Err _ => is_ok r1 = false end.
Proof.
  intros H -> A. unfold merge_by in H. destruct strategy; [destruct canFF|..].
  - apply M_bind_run in H as [([] & s1 & H1 & [= <- <-])|(e & H1 & ->)]; apply FastForward_guarded in H1; eauto.
  - apply M_bind_run in H as [(id & s1 & H1 & [= <- <-])|(e & H1 & ->)]; apply CreateMergeCommit_guarded in H1; eauto.
  - apply M_bind_run in H as [(id & s1 & H1 & [= <- <-])|(e & H1 & ->)]; apply CreateMergeCommit_guarded in H1; eauto.
  - apply M_bind_run in H as [(c & s1 & H1 & [= <- <-])|(e & H1 & ->)]; unfold from_store in H1;
      destruct (CreateCommit _ _ s) as [[c'|e'] s2] eqn:Hc; [injection H1 as -> ->|done|done|injection H1 as <- ->];
      apply CreateCommit_guarded in Hc; eauto.
Qed.

(** C16. A merge is guarded. Whatever its outcome the objects only grow, the
    current branch stays the current branch, and a file of the checkout changes
    only where no tracked file had uncommitted changes. A merge that fails moves
    no reference. One that succeeds changes nothing at all, being up to date, or
    moves the current branch, and only it, from the commit it was on when it was
    read, if it was still there, to the commit reported; and then nothing in the
    source's history, through every parent and down to a delivered land, is a
    sandbox land that was not delivered. *)
Theorem Merge_guarded req s r s' : addressed (vc_objects s) -> Merge M req s = (r, s') ->
  addressed (vc_objects s') /\ vc_objects s ⊆ vc_objects s' /\ rp_bound (vc_repo s') = rp_bound (vc_repo s) /\
  (rp_disk (vc_repo s') = rp_disk (vc_repo s) \/ clean_tree s) /\
  match r with
  | Err _ => unmoved s s'
  | Ok a => ms_Target a = rp_bound (vc_repo s) /\ exists head, refs_of s !! ms_Target a = Some head /\
      (s' = s /\ ms_MergedHash a = head \/
       others s !! ms_Target a = Some head /\ refs_of s' = <[ms_Target a := ms_MergedHash a]> (others s) /\
       exists source, refs_of s !! mr_SourceBranch req = Some source /\
         forall h, in_history (vc_objects s) (LandAdmissions (me_ledger M)).2 source h -> ~ undelivered_row (me_ledger M) h)
  end.
Proof.
  intros A [[-> H]|(strategy & canFF & head & source & [Hh Hs Hd _ _] & H)]%Merge_run.
  { split_and!; try done; [by left|]. destruct r as [a|e]; [|by left]. destruct H as (H1 & H2 & _). split; [done|].
    exists (ms_MergedHash a). rewrite H2. split; [done|]. by left. }
  assert (forall h, in_history (vc_objects s) (LandAdmissions (me_ledger M)).2 source h -> ~ undelivered_row (me_ledger M) h) as Hdel.
  { pose proof (requireDeliverableHistory_spec (vc_objects s) (me_ledger M) source) as Hx. rewrite Hd in Hx. destruct Hx as [Hx|Hx]; [done|].
    intros h Hr. by apply Hx in Hr as [? _]. }
  apply merge_by_run in H as (r1 & (A' & S' & Hb & Hdisk & Hg) & Hr); [|done..]. split_and!; try done.
  destruct r as [a|e]; [|by destruct r1]. destruct Hr as [Ht ->]. destruct Hg as (head' & Hh' & Ho & Hrefs). rewrite Ht.
  split; [done|]. exists head'. split; [done|]. right. split_and!; [done..|]. by exists source.
Qed.

(** C6. A merge commit is the three-way merge. When a merge reports a merge
    commit, its parents are the current commit and the source's, and, when the
    merged files can be one tree, reading it back gives at every path what the
    current branch has where the source has what the base has, and what the
    source has elsewhere. Unless the current commit is an ancestor of the source,
    no path that both sides changed (in trees that name no path twice) was left
    with different contents by the two: both deleted it, or both left it with the
    same content hash. Two modes of one content are not refused: a path both sides
    changed has the source's entry in the merge, mode included. *)
Theorem merge_three_way req s a s' : addressed (vc_objects s) -> Merge M req s = (Ok a, s') -> ms_Status a = "merged" ->
  exists head source bh base left right files g d,
    refs_of s !! rp_bound (vc_repo s) = Some head /\ refs_of s !! mr_SourceBranch req = Some source /\
    MergeBase M (vc_objects s) head source = Ok bh /\ files_of_base (vc_objects s) bh = Ok base /\
    mergeFiles (vc_objects s) head = Ok left /\ mergeFiles (vc_objects s) source = Ok right /\
    (forall p, files !! p = merge3 base left right p) /\
    (forall p, differs base left p -> differs base right p -> files !! p = right !! p) /\
    (IsAncestor M (vc_objects s) head source = Ok false -> tidy (vc_objects s) bh base -> tidy (vc_objects s) head left ->
     tidy (vc_objects s) source right -> same_content base left right) /\
    vc_objects s' !! ms_MergedHash a = Some (CommitObject, d) /\ DecodeCommit d = Some g /\ g_ParentHashes g = [head; source] /\
    (files_ok files -> commitFiles (vc_objects s') (ms_MergedHash a) = Ok files).
Proof.
  intros A [[-> (_ & _ & H)]|(strategy & canFF & head & source & [Hh Hs _ Hff Hc] & H)]%Merge_run Hst; [by rewrite H in Hst|].
  assert (exists message, CreateMergeCommit M message source s = (Ok (ms_MergedHash a), s')) as (message & Hm).
  { unfold merge_by in H. destruct strategy; [destruct canFF|..]; apply M_bind_Ok in H as (x & s1 & H1 & [= <- <-]); try done; by eexists. }
  apply CreateMergeCommit_run in Hm as [(_ & _ & _ & ?)|(head' & preHead & id & s1 & r1 & Hh' & _ & _ & _ & _ & Hmade & Hmove & Hr)]; [done| |done].
  assert (head' = head) as -> by (unfold refs_of in *; congruence).
  destruct r1 as [u|e]; [injection Hr as ->|done]. apply move_spec in Hmove as (Ho & _).
  destruct Hmade as (files & tree & st & d & g & Hf & _ & Hl & Hg & Hp & Hread). rewrite <- Ho in *.
  apply merged_files_Ok in Hf as (bh & base & left & right & Hbh & Hb & Hleft & Hright & ->).
  match type of Hread with files_ok ?F -> _ => exists head, source, bh, base, left, right, F, g, d end.
  split_and!; try done; [apply merged_lookup| |].
  { intros p _ Hd. rewrite merged_lookup. unfold merge3. rewrite bool_decide_eq_false_2; [done|].
    intros He. apply Hd. by rewrite He. }
  intros Hff' Tb Tl Tr. rewrite Hff in Hff'. injection Hff' as ->. specialize (Hc eq_refl).
  apply (scan_conflicts_tidy (vc_objects s) head source bh base left right) in Hc; try done. intros ->.
  unfold scan_conflicts in Hc. by rewrite Hbh in Hc.
Qed.

(** C40. A merge can record one path as a file and as a directory. Where the
    current branch has a file the source left alone, and the source adds a path
    below it, the two sides changed no path in common: the scan finds no
    conflict, and the merged tree is written for a set of files that holds
    both. *)
Theorem merge_clash st head source bh base left right p tail :
  MergeBase M st head source = Ok bh -> bh <> "" -> tidy st bh base -> tidy st head left -> tidy st source right ->
  same_content base left right -> is_Some (left !! p) -> right !! p = base !! p ->
  is_Some (right !! (p +:+ String slash tail)) -> right !! (p +:+ String slash tail) <> base !! (p +:+ String slash tail) ->
  scan_conflicts M st head source = Ok tt /\
  exists files, ~ clash_free files /\
    mergedTree M head source st = res_map_err MTree (write_tree (ve_it (me_store M)) (ve_itd (me_store M)) files st).
Proof.
  intros Hm Hne Tb Tl Tr Ha Hl Hp Hr Hq. split; [by eapply scan_conflicts_tidy|].
  assert (files_of_base st bh = Ok base) as Hb.
  { unfold files_of_base. destruct (String.eqb_spec bh ""); [done|]. by apply tidy_files. }
  assert (exists files, merged_files M st head source = Ok files /\ forall q, files !! q = merge3 base left right q) as (files & Hf & Hlk).
  { eexists. split; [|by apply merged_lookup]. apply merged_files_Ok. exists bh, base, left, right. split_and!; try done; by apply tidy_files. }
  exists files. split; [|unfold mergedTree; by rewrite Hf]. intros Hcf. specialize (Hcf p tail). rewrite !Hlk in Hcf. unfold merge3 in Hcf.
  rewrite bool_decide_eq_true_2, bool_decide_eq_false_2 in Hcf by done. rewrite Hcf in Hr; [by destruct Hr|done].
Qed.

(** A squash merge brings in nothing. When a merge with that strategy reports
    its commit, the files of the commit are those built from the current commit
    and the staging set, whatever the source branch holds: with nothing staged
    they are the files the current branch had, and the current commit is the only
    parent. *)
Theorem squash_merge_drops req s a s' head : addressed (vc_objects s) ->
  ve_generated (me_store M) = Some [] -> vc_staged s = Ok [] -> vc_headFiles s = Ok head -> clash_free head ->
  Merge M req s = (Ok a, s') -> ms_Status a = "squashed" ->
  exists d g, vc_objects s' !! ms_MergedHash a = Some (CommitObject, d) /\ DecodeCommit d = Some g /\
    Some (g_ParentHashes g) = (fun h => [h]) <$> refs_of s !! rp_bound (vc_repo s) /\
    (files_ok head -> commitFiles (vc_objects s') (ms_MergedHash a) = Ok head).
Proof.
  intros A Hgen Hst Hhead Hcf [[-> (_ & _ & H)]|(strategy & canFF & h & source & [Hh Hs _ Hff Hc] & H)]%Merge_run Hstat; [by rewrite H in Hstat|].
  assert (exists c c', CreateCommit (me_store M) c s = (Ok c', s') /\ ms_MergedHash a = CommitID c') as (c & c' & Hcc & Hid).
  { unfold merge_by in H. destruct strategy; [destruct canFF|..]; apply M_bind_Ok in H as (x & s1 & H1 & [= <- <-]); try done.
    unfold from_store in H1. destruct (CreateCommit _ _ s) as [[y|e] s2] eqn:Hc2; [|done]. injection H1 as -> ->. by eexists _, _. }
  apply CreateCommit_run in Hcc as (_ & _ & [[? _]|(parent & files & st & id & g & d & Hp & Hf & _ & Hl & Hg & Hpar & Hread & Hrun)]); [done| |done].
  assert (files = head) as ->.
  { unfold staged_files, generatedSet in Hf. rewrite Hhead, Hst, Hgen in Hf. cbn [mbind res_bind res_of_option apply_all] in Hf.
    rewrite (proj2 (fileDirClash_None _ _) Hcf) in Hf. cbn in Hf. by injection Hf. }
  case_bool_decide; destruct Hrun as [_ Hr]; [|done]. destruct Hr as (y & [= <-] & Hy). rewrite Hid, Hy.
  exists d, g. split_and!; try done. unfold refs_of. rewrite Hp, Hpar. done.
Qed.
End Facts.
