(* ===== verification/MergeToy.v ===== *)
(** * Merging, on a concrete repository

    The theorems of [Merge.v] over the toy encoders and a toy difference of
    trees: two branches that changed different files; two whose union is no
    tree; a squash merge. *)

From Stdlib Require Import ZArith Lia Ascii String.
From S2P Require Import Prelude StateErr GoStrings TaskId ModelCommit Ledger LandWire LandVerify DiskTree Projection GitTree TreeDiff GitToy Deliverable CommitStore Squash Merge.

Open Scope Z_scope.
Open Scope list_scope.

Module MergeToy.
Definition blob (text : string) : string := ComputeHash BlobObject (list_ascii_of_string text).
Definition blobs : Storage := fold_left (fun st text => (writeBlob (list_ascii_of_string text) st).2) ["1"; "2"; "3"] ∅.
Definition commit (files : list (string * string)) (parents : list string) (message : string) (st : Storage) : string * Storage :=
  toy_commit (map (fun x => (x.1, blob x.2)) files) parents message st.
Lemma addressed_blobs : addressed blobs.
Proof.
  unfold blobs. generalize ["1"; "2"; "3"]%string. intros l. cut (forall st, addressed st -> addressed (fold_left (fun st text => (writeBlob (list_ascii_of_string text) st).2) l st)).
  { intros H. apply H, addressed_empty. }
  induction l as [|x l IH]; intros st A; cbn [fold_left]; [done|]. apply IH. by eapply SetEncodedObject_grows.
Qed.

(** A base, what the current branch made of it and what [feature] did, with the
    current branch checked out. *)
Record history := mkToy { ty_base : string * Storage; ty_left : string * Storage; ty_right : string * Storage }.
Definition toy_history (base left right : list (string * string)) : history :=
  let b := commit base [] "base" blobs in
  let l := commit left [b.1] "left" b.2 in
  mkToy b l (commit right [b.1] "right" l.2).
Lemma addressed_history base left right : addressed (ty_right (toy_history base left right)).2.
Proof. do 3 apply toy_commit_grows. apply addressed_blobs. Qed.
Definition refs (h : history) : gmap string string := <["feature" := (ty_right h).1]> {[ "main" := (ty_left h).1 ]}.
Definition world (h : history) (nodes : list (Path * DiskTree.Node content)) : VcState :=
  mkVc (ty_right h).2 (mkRepo (refs h) "main" (mkDisk (list_to_map nodes) []) (Some [])).
Definition file (text : string) : DiskTree.Node content := NFile (list_ascii_of_string text, false).

Definition host : HostFS := mkHost (fun _ => false) (fun _ _ => None) (fun _ => true) (fun _ => true).
Definition orders : Orders := mkOrders key_order key_order key_order key_order key_order.
Definition store_env : VcEnv := mkVcEnv host 5 (Some []) (fun _ _ => false) (Some []) (fun _ => true) id key_order key_order orders.
(** The ledger knows of an undelivered land of another task. *)
Definition ledger : Tables :=
  ok_or empty_tables (AppendTaskCommits "t0" [mkInsert "MGIT-2" "unrelated" "h1" "agent" 0 "sb" OriginLand ""] empty_tables).
Definition env (h : history) : MergeEnv :=
  mkMergeEnv store_env (mkHistory (fun _ _ => Some false) (fun _ _ => Some (ty_base h).1)) ledger id key_order key_order.
Definition req (strategy : MergeStrategy) : MergeRequest := mkMergeReq "feature" (Some strategy) "".
Definition run (h : history) (strategy : MergeStrategy) (s : VcState) : res merge_err MergeResult * VcState := Merge (env h) (req strategy) s.
Definition done_ (r : res merge_err MergeResult) : MergeResult := ok_or (mkMergeResult MergeAuto "" "" "" false "") r.
Lemma run_done h strategy s : is_ok (run h strategy s).1 = true -> run h strategy s = (Ok (done_ (run h strategy s).1), (run h strategy s).2).
Proof. unfold done_. destruct (run h strategy s) as [[a|e] s']; [done|]. intros [=]. Qed.

(** The current branch changes [a], the source changes [b] and adds [c]. *)
Definition apart : history := toy_history [("a", "1"); ("b", "1")] [("a", "2"); ("b", "1")] [("a", "1"); ("b", "3"); ("c", "1")].
Definition apart_world : VcState := world apart [(["a"], file "2"); (["b"], file "1")].
Definition apart_run : res merge_err MergeResult * VcState := run apart MergeAuto apart_world.
Definition apart_merged : Files :=
  list_to_map [("a", mkEntry (blob "2") filemode_Regular); ("b", mkEntry (blob "3") filemode_Regular); ("c", mkEntry (blob "1") filemode_Regular)].
Lemma apart_runs : apart_run = (Ok (done_ apart_run.1), apart_run.2).
Proof. apply run_done. vm_compute. reflexivity. Qed.

Lemma Merge_guarded_witness :
  addressed (vc_objects apart_run.2) /\ refs_of apart_run.2 !! "main" = Some (ms_MergedHash (done_ apart_run.1)) /\
  exists source, refs apart !! "feature" = Some source /\
    forall h, in_history (vc_objects apart_world) (LandAdmissions ledger).2 source h -> ~ undelivered_row ledger h.
Proof.
  destruct (Merge_guarded (env apart) (req MergeAuto) apart_world (Ok (done_ apart_run.1)) apart_run.2 (addressed_history _ _ _) apart_runs)
    as (A & _ & _ & _ & Ht & head & Hh & [[_ Hm]|(_ & Hr & source & Hs & Hd)]).
  - exfalso. assert (refs_of apart_world !! ms_Target (done_ apart_run.1) = Some (ty_left apart).1) as Hx by (vm_compute; reflexivity).
    rewrite Hh in Hx. assert (bool_decide (ms_MergedHash (done_ apart_run.1) = (ty_left apart).1) = false) as Hb by (vm_compute; reflexivity).
    rewrite Hm in Hb. injection Hx as ->. rewrite bool_decide_eq_true_2 in Hb by reflexivity. discriminate Hb.
  - split; [exact A|]. split; [vm_compute; reflexivity|]. exists source. split; [exact Hs|exact Hd].
Defined.
Lemma merge_three_way_witness :
  (exists (base left right files : Files) d g, (forall p, files !! p = merge3 base left right p) /\
    vc_objects apart_run.2 !! ms_MergedHash (done_ apart_run.1) = Some (CommitObject, d) /\ DecodeCommit d = Some g /\
    g_ParentHashes g = [(ty_left apart).1; (ty_right apart).1]) /\
  commitFiles (vc_objects apart_run.2) (ms_MergedHash (done_ apart_run.1)) = Ok apart_merged.
Proof.
  split; [|vm_compute; reflexivity].
  destruct (merge_three_way (env apart) (req MergeAuto) apart_world (done_ apart_run.1) apart_run.2 (addressed_history _ _ _) apart_runs)
    as (head & source & bh & base & left & right & files & g & d & Hh & Hs & _ & _ & _ & _ & Hf & _ & _ & Hl & Hg & Hp & _); [vm_compute; reflexivity|].
  exists base, left, right, files, d, g. split; [exact Hf|]. split; [exact Hl|]. split; [exact Hg|].
  assert (refs_of apart_world !! "main" = Some (ty_left apart).1) as Hx by reflexivity.
  assert (refs_of apart_world !! "feature" = Some (ty_right apart).1) as Hy by reflexivity.
  change (refs_of apart_world !! "main" = Some head) in Hh. change (refs_of apart_world !! "feature" = Some source) in Hs.
  rewrite Hx in Hh. rewrite Hy in Hs. injection Hh as <-. injection Hs as <-. exact Hp.
Defined.

(** ** A union that is no tree *)

Definition same_contentb (base left right : Files) : bool :=
  forallb (fun p => bool_decide (diff_view <$> base !! p = diff_view <$> left !! p) || bool_decide (diff_view <$> base !! p = diff_view <$> right !! p)
    || String.eqb (shown (left !! p)) (shown (right !! p))) (elements (dom base ∪ dom left)).
Lemma same_content_of base left right : same_contentb base left right = true -> same_content base left right.
Proof.
  intros H p Hl Hr. unfold differs in *. unfold same_contentb in H. rewrite forallb_forall in H.
  destruct (decide (p ∈ dom base ∪ dom left)) as [Hin|Hn].
  - specialize (H p). rewrite !bool_decide_eq_false_2 in H by done. apply String.eqb_eq, H, list_elem_of_In. by apply elem_of_elements.
  - apply not_elem_of_union in Hn as [Hb Hlf]. apply not_elem_of_dom in Hb, Hlf. by rewrite Hb, Hlf in Hl.
Qed.

(** The current branch adds the file [lib], the source adds [lib/x]. *)
Definition clash : history := toy_history [("b", "1")] [("b", "1"); ("lib", "2")] [("b", "1"); ("lib/x", "3")].
Definition clash_store : Storage := (ty_right clash).2.
Lemma merge_clash_witness :
  scan_conflicts (env clash) clash_store (ty_left clash).1 (ty_right clash).1 = Ok tt /\
  exists files, ~ clash_free files /\ mergedTree (env clash) (ty_left clash).1 (ty_right clash).1 clash_store =
    res_map_err MTree (write_tree key_order key_order files clash_store).
Proof.
  apply (merge_clash (env clash) clash_store (ty_left clash).1 (ty_right clash).1 (ty_base clash).1 (flat_of clash_store (ty_base clash).1)
    (flat_of clash_store (ty_left clash).1) (flat_of clash_store (ty_right clash).1) "lib" "x").
  - vm_compute. reflexivity.
  - discriminate.
  - apply tidyb_tree. vm_compute. reflexivity.
  - apply tidyb_tree. vm_compute. reflexivity.
  - apply tidyb_tree. vm_compute. reflexivity.
  - apply same_content_of. vm_compute. reflexivity.
  - vm_compute. eexists. reflexivity.
  - vm_compute. reflexivity.
  - vm_compute. eexists. reflexivity.
  - vm_compute. discriminate.
Defined.

(** ** A squash merge *)

Definition squash_run : res merge_err MergeResult * VcState := run apart MergeSquash apart_world.
Lemma squash_runs : squash_run = (Ok (done_ squash_run.1), squash_run.2).
Proof. apply run_done. vm_compute. reflexivity. Qed.
Definition apart_head : Files := flat_of (ty_right apart).2 (ty_left apart).1.
Lemma squash_merge_drops_witness :
  (exists d g, vc_objects squash_run.2 !! ms_MergedHash (done_ squash_run.1) = Some (CommitObject, d) /\ DecodeCommit d = Some g /\
    g_ParentHashes g = [(ty_left apart).1] /\
    (files_ok apart_head -> commitFiles (vc_objects squash_run.2) (ms_MergedHash (done_ squash_run.1)) = Ok apart_head)) /\
  apart_head !! "c" = None.
Proof.
  split; [|vm_compute; reflexivity].
  destruct (squash_merge_drops (env apart) (req MergeSquash) apart_world (done_ squash_run.1) squash_run.2 apart_head (addressed_history _ _ _))
    as (d & g & Hl & Hg & Hp & Hr).
  - reflexivity.
  - reflexivity.
  - vm_compute. reflexivity.
  - apply (fileDirClash_None key_order). vm_compute. reflexivity.
  - exact squash_runs.
  - vm_compute. reflexivity.
  - exists d, g. split; [exact Hl|]. split; [exact Hg|]. split; [|exact Hr]. injection Hp as Hp. rewrite Hp. reflexivity.
Defined.
End MergeToy.
