(* ===== verification/RollbackToy.v ===== *)
(** * Rolling back, on a concrete repository

    The theorems of [Rollback.v] and [Recovery.v] over the toy encoders: a task of two commits with
    another task's commit between them, rolled back at the tip,
    and the rollback interrupted with a file removed and not yet rewritten. *)

From Stdlib Require Import ZArith Lia Ascii String.
From S2P Require Import Prelude StateErr GoStrings TaskId ModelCommit Ledger LandWire LandVerify DiskTree Projection GitTree TreeDiff GitToy Deliverable CommitStore Squash SquashToy Apply Rollback Recovery Merge MergeToy.

Open Scope Z_scope.
Open Scope list_scope.

Module RollbackToy.
Import MergeToy.
(** The task edits [a] and adds [c]; another task edits [b]; the task edits [a]
    again. The disk holds the tip. *)
Definition base := commit [("a", "1"); ("b", "1")] [] "base" blobs.
Definition first := commit [("a", "2"); ("b", "1"); ("c", "1")] [base.1] "first" base.2.
Definition other := commit [("a", "2"); ("b", "2"); ("c", "1")] [first.1] "other" first.2.
Definition second := commit [("a", "3"); ("b", "2"); ("c", "1")] [other.1] "second" other.2.
Definition store : Storage := second.2.
Definition world : VcState :=
  mkVc store (mkRepo {[ "main" := second.1 ]} "main" (mkDisk (list_to_map [(["a"], file "3"); (["b"], file "2"); (["c"], file "1")]) []) (Some [])).
Definition start : ApState := mkAp world (SquashToy.rows [first.1; second.1]) None [].
(** A commit is as long as what it is built on, and longer. *)
Definition ancestry : History := mkHistory (fun a d => Some (String.length a <=? String.length d)%nat) (fun _ _ => None).
Definition env : ApEnv := mkApEnv store_env "/root" ancestry "t1" (Some true).
Definition req : RollbackRequest := mkRollbackReq "" "MGIT-1" "bad idea" false.
Definition run : res apply_err Commit * ApState := RollbackTask env req start.
Definition made : Commit := ok_or (mkCommit "" "" "" "" (mkTaskID "" "") "" "" "" None [] 0 "" "" "" "") run.1.

Lemma addressed_store : addressed store.
Proof. unfold store, second, other, first, base, commit. do 4 apply toy_commit_grows. apply addressed_blobs. Qed.
Lemma runs : run = (Ok made, run.2).
Proof.
  assert (is_ok run.1 = true) as H by (vm_compute; reflexivity). unfold made. destruct run as [[c|e] a]; [reflexivity|discriminate H].
Qed.
Definition records : list CommitRecord := ok_or [] (GetContentCommits "MGIT-1" (ap_index start)).
(** What the rollback makes of the tip: [a] as in the base, the other task's [b],
    no [c]. *)
Definition restored : Files := list_to_map [("a", mkEntry (blob "1") filemode_Regular); ("b", mkEntry (blob "2") filemode_Regular)].
Definition pair_of (p h : string) : option (Files * Files) := Some (flat_of store p, flat_of store h).
Definition changes : list (option (Files * Files)) := [pair_of base.1 first.1; pair_of other.1 second.1].
Lemma in_lineage rec p : IsAncestorOfHead env world (cr_CommitHash rec) = Ok true ->
  g_ParentHashes <$> (match a_object store (cr_CommitHash rec) with Ok g => Some g | Err _ => None end) = Some [p] ->
  tidyb store p = true -> tidyb store (cr_CommitHash rec) = true ->
  lineage_of env world rec (pair_of p (cr_CommitHash rec)).
Proof.
  intros Hon Hp Tp Tc. cbn [lineage_of pair_of]. split; [exact Hon|]. change (vc_objects world) with store.
  destruct (a_object store (cr_CommitHash rec)) as [g|e]; [|discriminate Hp]. injection Hp as Hp. exists g, p, [].
  split; [reflexivity|]. split; [exact Hp|]. split; apply tidyb_tree; assumption.
Qed.
Lemma lineages : Forall2 (lineage_of env world) records changes.
Proof.
  assert (map cr_CommitHash records = [first.1; second.1]) as Hr by (vm_compute; reflexivity).
  destruct records as [|r1 [|r2 [|? ?]]]; try discriminate Hr. injection Hr as H1 H2. unfold changes. rewrite <- H1, <- H2.
  constructor; [apply in_lineage; rewrite ?H1; vm_compute; reflexivity|].
  constructor; [apply in_lineage; rewrite ?H2; vm_compute; reflexivity|constructor].
Qed.

Lemma rollback_restores_witness :
  (exists (tip files : Files), vc_headFiles world = Ok tip /\ unbroken (omap id changes) /\
    forall p, (net (omap id changes) p -> rolled (before (omap id changes) p) (after (omap id changes) p) (tip !! p) (files !! p)) /\
      (~ net (omap id changes) p -> files !! p = tip !! p)) /\
  commitFiles (vc_objects (ap_vc run.2)) (CommitID made) = Ok restored.
Proof.
  split; [|vm_compute; reflexivity].
  destruct (rollback_restores env req start made run.2 records changes addressed_store eq_refl runs) as
    (parent & tip & files & d & g & _ & Ht & _ & _ & _ & _ & _ & _ & _ & Hu & Hp).
  - vm_compute. reflexivity.
  - exact lineages.
  - exists tip, files. split; [exact Ht|]. split; [exact Hu|exact Hp].
Defined.

(** ** The rollback, interrupted *)

Definition inverse : list FileDiff := ok_or [] (taskInverseDiffs env world records).
Definition revert : Commit := revert_commit req (mkTaskID "MGIT" "1") inverse 2.
Definition application : res apply_err Commit * ApState := apply_commit env revert inverse "MGIT-1" "mgit-rollback" start.
Definition reverted : Commit := ok_or revert application.1.
Lemma applies : application = (Ok reverted, application.2).
Proof.
  assert (is_ok application.1 = true) as H by (vm_compute; reflexivity). unfold reverted. destruct application as [[c|e] a]; [reflexivity|discriminate H].
Qed.
Definition native : Disk := rp_disk (vc_repo world).
Definition cut_short : Disk := mkDisk (delete ["a"] (d_nodes native)) [].
Lemma paths : map (fun d => comps (fd_Path d)) inverse = [["a"]; ["c"]].
Proof. vm_compute. reflexivity. Qed.
Lemma path_of d : d ∈ inverse -> comps (fd_Path d) = ["a"] \/ comps (fd_Path d) = ["c"].
Proof.
  intros Hd. assert (comps (fd_Path d) ∈ map (fun d => comps (fd_Path d)) inverse) as Hp by (apply list_elem_of_fmap; by exists d).
  rewrite paths in Hp. apply elem_of_cons in Hp as [?|Hp]; [by left|]. apply list_elem_of_singleton in Hp. by right.
Qed.
Lemma nothing_above d q : d ∈ inverse -> ~ above q (comps (fd_Path d)).
Proof. intros [-> | ->]%path_of [r Hr]%above_dirs; by apply not_elem_of_nil in Hr. Qed.
Lemma all_ready : Forall (ready native) inverse.
Proof.
  apply Forall_forall. intros d Hd. split; [intros a t []%nothing_above; exact Hd|].
  destruct (path_of d Hd) as [-> | ->]; vm_compute; discriminate.
Qed.
Lemma all_apart : Recovery.apart inverse.
Proof.
  split; [rewrite paths; apply (bool_decide_unpack _); vm_compute; exact I|]. intros x y _ Hy. by apply nothing_above.
Qed.
Lemma short_partway : partway inverse native cut_short.
Proof.
  split; [apply disk_checked_wf; vm_compute; reflexivity|reflexivity|]. intros q. destruct (decide (q = ["a"])) as [->|Hne].
  - right. left. assert (["a"] ∈ map (fun d => comps (fd_Path d)) inverse) as Hin by (rewrite paths; by left).
    apply list_elem_of_fmap in Hin as (d & Hp & Hd). exists d. split; [exact Hd|]. split; [exact Hp|]. vm_compute. discriminate.
  - left. unfold cut_short. cbn [d_nodes]. by apply lookup_delete_ne.
Qed.
Definition crashed : ApState :=
  ap_set_journal (Some (journal_of env reverted inverse "MGIT-1" "mgit-rollback")) (ap_set_index (ap_index start) (with_disk cut_short application.2)).

Lemma recovery_completes_witness :
  read_working store_env (rp_disk (vc_repo (ap_vc crashed))) "a" = WAbsent /\
  exists T, RecoverPendingApply (reopened "t2" env) crashed = (Ok tt, ap_set_index T application.2).
Proof.
  split; [vm_compute; reflexivity|].
  destruct (recovery_completes env "t2" revert inverse "MGIT-1" "mgit-rollback" start reverted application.2 true crashed addressed_store eq_refl)
    as (T & HT & _).
  - apply disk_checked_wf. vm_compute. reflexivity.
  - exact all_ready.
  - exact all_apart.
  - vm_compute. reflexivity.
  - vm_compute. repeat constructor.
  - exact applies.
  - intros parent Hp. assert (parent = second.1) as -> by (cut (Some second.1 = Some parent); [congruence|exact Hp]).
    split; [|vm_compute; reflexivity].
    intros He. assert (String.length (CommitID reverted) = String.length second.1) as Hl by (rewrite He; reflexivity).
    vm_compute in Hl. discriminate Hl.
  - apply int_moved, short_partway.
  - exists T. exact HT.
Defined.

(** ** A rollback that records a path as a file and a directory *)

(** The task removes the file [p]; another task adds [p/t]; the task removes it.
    Undoing the task adds both back. *)
Definition old_base := commit [("b", "1"); ("p", "1")] [] "base" blobs.
Definition drops := commit [("b", "1")] [old_base.1] "drops" old_base.2.
Definition adds := commit [("b", "1"); ("p/t", "2")] [drops.1] "adds" drops.2.
Definition drops_again := commit [("b", "1")] [adds.1] "drops again" adds.2.
Definition emptied : ApState :=
  mkAp (mkVc drops_again.2 (mkRepo {[ "main" := drops_again.1 ]} "main" (mkDisk (list_to_map [(["b"], file "1")]) []) (Some [])))
    (SquashToy.rows [drops.1; drops_again.1]) None [].
Definition bricked : ApState := (RollbackTask env req emptied).2.
(** The rollback fails after the branch moved, and so does every recovery, which
    leaves the journal: no later command gets past it. *)
Example rollback_bricks :
  (RollbackTask env req emptied).1 = Err (AProj (EMkdir "p/t")) /\
  rp_refs (vc_repo (ap_vc bricked)) !! "main" <> rp_refs (vc_repo (ap_vc emptied)) !! "main" /\
  (RecoverPendingApply env bricked).1 = Err (AProj (EMkdir "p/t")) /\
  (ap_journal (RecoverPendingApply env bricked).2 = ap_journal bricked /\ is_Some (ap_journal bricked)).
Proof.
  split; [vm_compute; reflexivity|]. split; [vm_compute; discriminate|]. split; [vm_compute; reflexivity|].
  split; [vm_compute; reflexivity|]. vm_compute. eexists. reflexivity.
Qed.
End RollbackToy.
