(* ===== verification/LandChain.v ===== *)
(** * Ordering the new commits of a land pool

    [internal/sandboxd/land/derive.go]: [newPoolCommits], [orderChain] and
    [CommitChain]. The commits a pool adds must form one linear chain; the
    theorem says which chain is returned, whatever order Go's maps are ranged
    over, and that the loop that follows it ends. *)
From Stdlib Require Import ZArith Lia Ascii String.
From S2P Require Import Prelude GoStrings TaskId LandWire ModelCommit LandVerify.

Record PoolCommit := mkPoolCommit { pc_ID : string; pc_ParentID : string; pc_Data : bytes }.
#[export] Instance PoolCommit_eq_dec : EqDecision PoolCommit.
Proof. solve_decision. Defined.
Abbreviation CommitMap := (gmap string PoolCommit).

(** The first pass over the new commits: who is whose child, and the roots. *)
Definition childOf_step (newByID : CommitMap) (st : gmap string string * list PoolCommit)
    (pc : PoolCommit) : gmap string string * list PoolCommit :=
  match newByID !! pc_ParentID pc with
  | Some _ => (<[pc_ParentID pc := pc_ID pc]> st.1, st.2)
  | None => (st.1, st.2 ++ [pc])
  end.

(** The zero value a Go map read returns for an absent key. *)
Definition no_commit : PoolCommit := mkPoolCommit "" "" [].

Fixpoint follow (fuel : nat) (newByID : CommitMap) (childOf : gmap string string)
    (cur : PoolCommit) (ordered : list PoolCommit) : res land_err (list PoolCommit) :=
  match fuel with
  | O => Err EFuelChain
  | S fuel =>
    let ordered := ordered ++ [cur] in
    match childOf !! pc_ID cur with
    | None => Ok ordered
    | Some childID => follow fuel newByID childOf (default no_commit (newByID !! childID)) ordered
    end
  end.

(** One step per commit: [orderChain_exact] shows that is enough. *)
Definition orderChain (it : MapIter PoolCommit) (newByID : CommitMap)
    : res land_err (list PoolCommit) :=
  let '(childOf, roots) := fold_left (childOf_step newByID) (map snd (it newByID)) (∅, []) in
  match roots with
  | [root] =>
    ordered ← follow (S (size newByID)) newByID childOf root [];
    if negb (length ordered =? size newByID)%nat then Err EForked else Ok ordered
  | _ => Err (ERoots (length roots))
  end.

Section Git.
Context `{G : GoGit}.

(** [skip] is the caller's closure: a decision, and the state it captures. *)
Fixpoint newPoolCommits_loop {S} (skip : string -> S -> bool * S) (l : list (string * bytes))
    (out : CommitMap) (s : S) : res land_err CommitMap * S :=
  match l with
  | [] => (Ok out, s)
  | (id, data) :: l =>
    let '(skipped, s) := skip id s in
    if skipped then newPoolCommits_loop skip l out s
    else match CommitFromObjectData data with
         | None => (Err EDecodeCommit, s)
         | Some derived =>
           newPoolCommits_loop skip l (<[id := mkPoolCommit id (ParentID derived) data]> out) s
         end
  end.

Definition newPoolCommits {S} (it : MapIter bytes) (pool : list Object)
    (skip : string -> S -> bool * S) (s : S) : res land_err CommitMap * S :=
  match CommitObjectsByID pool with
  | Err e => (Err e, s)
  | Ok byID => newPoolCommits_loop skip (it byID) ∅ s
  end.

Definition CommitChain {S} (it : MapIter bytes) (it' : MapIter PoolCommit) (pool : list Object)
    (skip : string -> S -> bool * S) (s : S) : res land_err (list PoolCommit) * S :=
  match newPoolCommits it pool skip s with
  | (Err e, s) => (Err e, s)
  | (Ok newByID, s) =>
    if (size newByID =? 0)%nat then (Ok [], s) else (orderChain it' newByID, s)
  end.
End Git.

(** ** Chains *)

(** Every commit of [l] is the child of the one before it, the first of [p]. *)
Fixpoint linked (p : string) (l : list PoolCommit) : Prop :=
  match l with [] => True | pc :: l => pc_ParentID pc = p /\ linked (pc_ID pc) l end.

(** A single unbroken chain through every new commit, parent first, whose root
    has no new parent. *)
Definition is_chain (newByID : CommitMap) (l : list PoolCommit) : Prop :=
  l ≡ₚ map snd (map_to_list newByID) /\
  match l with
  | [] => False
  | root :: rest => newByID !! pc_ParentID root = None /\ linked (pc_ID root) rest
  end.

(** The map is keyed by id, as [newPoolCommits] builds it. *)
Definition keyed (m : CommitMap) : Prop := forall id pc, m !! id = Some pc -> pc_ID pc = id.

Section Chain.
Context (m : CommitMap) (Hkeyed : keyed m).

Definition member (pc : PoolCommit) : Prop := m !! pc_ID pc = Some pc.

Lemma values_member pc : pc ∈ map snd (map_to_list m) <-> member pc.
Proof.
  rewrite list_elem_of_fmap. unfold member. split.
  - intros ([id pc'] & -> & Hin%elem_of_map_to_list). cbn. by rewrite (Hkeyed _ _ Hin).
  - intros H. exists (pc_ID pc, pc). split; [done|]. by apply elem_of_map_to_list.
Qed.

Lemma member_inj pc pc' : member pc -> member pc' -> pc_ID pc = pc_ID pc' -> pc = pc'.
Proof. unfold member. intros H H' Heq. rewrite Heq in H. congruence. Qed.

Lemma values_NoDup : NoDup (map snd (map_to_list m)).
Proof.
  apply (NoDup_fmap_1 pc_ID).
  assert (pc_ID <$> map snd (map_to_list m) = map fst (map_to_list m)) as ->;
    [|apply NoDup_fst_map_to_list].
  change (pc_ID <$> map snd (map_to_list m)) with (map pc_ID (map snd (map_to_list m))).
  rewrite map_map. apply map_ext_in. intros [id pc] Hin%list_elem_of_In%elem_of_map_to_list.
  by apply Hkeyed.
Qed.

Lemma values_length : length (map snd (map_to_list m)) = size m.
Proof. rewrite length_map. apply length_map_to_list. Qed.

(** The id the next commit of a chain names as its parent. *)
Definition tip (p : string) (l : list PoolCommit) : string := default p (pc_ID <$> last l).

Lemma tip_snoc p l x : tip p (l ++ [x]) = pc_ID x.
Proof. unfold tip. by rewrite last_snoc. Qed.

Lemma linked_app p l1 l2 : linked p (l1 ++ l2) <-> linked p l1 /\ linked (tip p l1) l2.
Proof.
  revert p. induction l1 as [|x l1 IH]; intros p; cbn [linked app]; [by unfold tip; cbn; tauto|].
  rewrite IH. assert (tip p (x :: l1) = tip (pc_ID x) l1) as ->; [|tauto].
  unfold tip. rewrite last_cons. by destruct (last l1).
Qed.

Lemma NoDup_split_unique {A} (l1 l2 k1 k2 : list A) x :
  NoDup (l1 ++ x :: l2) -> l1 ++ x :: l2 = k1 ++ x :: k2 -> l1 = k1 /\ l2 = k2.
Proof.
  revert k1. induction l1 as [|y l1 IH]; intros [|z k1] Hnd Heq; cbn in *.
  - by injection Heq.
  - injection Heq as -> ->. apply NoDup_cons in Hnd as [Hn _]. set_solver.
  - injection Heq as -> <-. apply NoDup_cons in Hnd as [Hn _]. set_solver.
  - injection Heq as -> Heq. apply NoDup_cons in Hnd as [_ Hnd].
    by destruct (IH _ Hnd Heq) as [-> ->].
Qed.

(** A path of new commits from a root: what the loop has followed so far. *)
Definition path (l : list PoolCommit) : Prop :=
  NoDup l /\ Forall member l /\
  match l with
  | [] => False
  | root :: rest => m !! pc_ParentID root = None /\ linked (pc_ID root) rest
  end.

Lemma path_root r : member r -> m !! pc_ParentID r = None -> path [r].
Proof.
  intros Hr H0. split; [apply NoDup_singleton|]. split; [|done].
  apply Forall_cons. split; [done|constructor].
Qed.

(** On a path, a commit whose parent is on it comes right after its parent. *)
Lemma path_successor pre cur suf x :
  path (pre ++ cur :: suf) -> x ∈ pre ++ cur :: suf -> pc_ParentID x = pc_ID cur ->
  exists suf', suf = x :: suf'.
Proof.
  intros (Hnd & Hm & Hl) Hx Hp. set (l := pre ++ cur :: suf) in *.
  assert (member cur) as Hcur by (rewrite Forall_forall in Hm; apply Hm; subst l; set_solver).
  apply list_elem_of_split in Hx as (l1 & l2 & Hx).
  destruct l1 as [|q l1' _] using rev_ind.
  { rewrite Hx in Hl. cbn in Hl. destruct Hl as [Hl _]. rewrite Hp in Hl.
    unfold member in Hcur. congruence. }
  assert (pc_ID q = pc_ID cur) as Hq.
  { rewrite Hx in Hl. destruct l1' as [|r l1']; cbn in Hl; [naive_solver congruence|].
    destruct Hl as [_ Hl]. rewrite <- app_assoc in Hl. apply linked_app in Hl as [_ Hl].
    cbn in Hl. destruct Hl as (_ & Hl & _). congruence. }
  apply member_inj in Hq; [|rewrite Forall_forall in Hm; apply Hm; rewrite Hx; set_solver|done].
  subst q. rewrite <- app_assoc in Hx. cbn in Hx. subst l. rewrite Hx in Hnd.
  symmetry in Hx. destruct (NoDup_split_unique _ _ _ _ _ Hnd Hx) as [_ <-]. by exists l2.
Qed.

Lemma path_extend l cur x :
  path (l ++ [cur]) -> member x -> pc_ParentID x = pc_ID cur -> path (l ++ [cur; x]).
Proof.
  intros Hpath Hx Hp.
  assert (x ∉ l ++ [cur]) as Hn.
  { intros Hin. by destruct (path_successor _ _ _ _ Hpath Hin Hp). }
  destruct Hpath as (Hnd & Hm & Hl). change [cur; x] with ([cur] ++ [x]). rewrite app_assoc.
  split_and!.
  - apply NoDup_app. split; [done|]. split; [set_solver|]. apply NoDup_singleton.
  - apply Forall_app. by repeat constructor.
  - destruct l as [|r l]; cbn in *; [tauto|]. destruct Hl as [Hr Hl]. split; [done|].
    apply linked_app. split; [done|]. by rewrite tip_snoc.
Qed.

Lemma path_length l : path l -> (length l <= size m)%nat.
Proof.
  intros (Hnd & Hm & _). rewrite <- values_length. apply submseteq_length.
  apply NoDup_submseteq; [done|]. intros x Hx. apply values_member.
  rewrite Forall_forall in Hm. by apply Hm.
Qed.

(** ** The first pass *)

Lemma childOf_fold vals c r c' r' :
  fold_left (childOf_step m) vals (c, r) = (c', r') ->
  r' = r ++ filter (fun pc => m !! pc_ParentID pc = None) vals /\
  (forall p id, c' !! p = Some id -> c !! p = Some id \/
     exists pc, pc ∈ vals /\ pc_ParentID pc = p /\ pc_ID pc = id) /\
  (forall p, is_Some (c !! p) -> is_Some (c' !! p)) /\
  (forall pc, pc ∈ vals -> m !! pc_ParentID pc <> None -> is_Some (c' !! pc_ParentID pc)).
Proof.
  revert c r. induction vals as [|pc vals IH]; intros c r Hf; cbn in Hf.
  { injection Hf as <- <-. rewrite app_nil_r. split_and!; try done; [by auto|].
    intros pc Hin. by apply not_elem_of_nil in Hin. }
  unfold childOf_step at 2 in Hf. cbn [fst snd] in Hf.
  destruct (m !! pc_ParentID pc) as [y|] eqn:Ey; apply IH in Hf as (-> & Hc & Hmono & Hall).
  - rewrite filter_cons_False by congruence. split_and!; [done|..].
    + intros p id Hp. apply Hc in Hp as [Hp|(pc' & ? & ? & ?)]; [|by right; exists pc'; set_solver].
      destruct (decide (p = pc_ParentID pc)) as [->|Hne].
      * rewrite lookup_insert_eq in Hp. injection Hp as <-. right. exists pc. set_solver.
      * rewrite lookup_insert_ne in Hp by done. by left.
    + intros p Hp. apply Hmono. destruct (decide (p = pc_ParentID pc)) as [->|Hne].
      * rewrite lookup_insert_eq. done.
      * by rewrite lookup_insert_ne.
    + intros pc' [-> |Hin]%elem_of_cons Hne; [|by apply Hall].
      apply Hmono. by rewrite lookup_insert_eq.
  - rewrite filter_cons_True by done. rewrite <- app_assoc. split_and!; [done|..].
    + intros p id Hp. apply Hc in Hp as [Hp|(pc' & ? & ? & ?)]; [by left|].
      right. exists pc'. set_solver.
    + done.
    + intros pc' [-> |Hin]%elem_of_cons Hne; [done|by apply Hall].
Qed.

(** ** The walk *)

Section Follow.
Context (childOf : gmap string string).
Context (Hchild : forall p id, childOf !! p = Some id ->
  exists pc, member pc /\ pc_ParentID pc = p /\ pc_ID pc = id).
Context (Hall : forall pc, member pc -> m !! pc_ParentID pc <> None ->
  is_Some (childOf !! pc_ParentID pc)).

(** The walk ends: it never visits a commit twice, even if the parent links the
    guest sent formed a cycle. *)
Lemma follow_path fuel cur acc :
  path (acc ++ [cur]) -> (size m <= length acc + fuel)%nat ->
  exists out, follow fuel m childOf cur acc = Ok out /\ path out.
Proof.
  revert cur acc. induction fuel as [|fuel IH]; intros cur acc Hp Hs.
  { apply path_length in Hp. rewrite length_app in Hp. cbn in Hp. lia. }
  cbn [follow]. destruct (childOf !! pc_ID cur) as [id|] eqn:Ec; [|eauto].
  apply Hchild in Ec as (pc & Hpc & Hpar & <-). rewrite Hpc. cbn [default from_option Datatypes.id].
  apply IH; [|rewrite length_app; cbn; lia].
  rewrite <- app_assoc. by apply path_extend.
Qed.

Lemma follow_chain fuel cur acc suf :
  path (acc ++ cur :: suf) -> (forall x, member x -> x ∈ acc ++ cur :: suf) ->
  (length suf < fuel)%nat -> follow fuel m childOf cur acc = Ok (acc ++ cur :: suf).
Proof.
  revert fuel cur acc. induction suf as [|n suf IH]; intros [|fuel] cur acc Hp Hin Hf;
    try (cbn in Hf; lia); cbn [follow].
  - destruct (childOf !! pc_ID cur) as [id|] eqn:Ec; [|done]. exfalso.
    apply Hchild in Ec as (pc & Hpc & Hpar & _).
    by destruct (path_successor _ _ _ _ Hp (Hin _ Hpc) Hpar).
  - destruct (Hp) as (_ & Hm & Hl). apply Forall_app in Hm as [_ Hm].
    apply Forall_cons in Hm as [Hcur Hm]. apply Forall_cons in Hm as [Hn _].
    assert (pc_ParentID n = pc_ID cur) as Hpar.
    { destruct acc as [|r acc]; cbn in Hl; [tauto|]. destruct Hl as [_ Hl].
      apply linked_app in Hl as [_ Hl]. cbn in Hl. tauto. }
    destruct (Hall n Hn) as [id Hid].
    { rewrite Hpar. unfold member in Hcur. congruence. }
    rewrite Hpar in Hid. rewrite Hid.
    destruct (Hchild _ _ Hid) as (pc & Hpc & Hpar' & <-).
    destruct (path_successor _ _ _ _ Hp (Hin _ Hpc) Hpar') as [suf' [= <- <-]].
    rewrite Hpc. cbn [default from_option Datatypes.id]. rewrite IH; rewrite <- ?app_assoc; try done.
    cbn in Hf. lia.
Qed.
End Follow.

Lemma is_chain_path l : is_chain m l <-> path l /\ length l = size m.
Proof.
  unfold is_chain, path. split.
  - intros [Hp Hl]. assert (length l = size m) as Hlen by (rewrite Hp; apply values_length).
    split; [|done]. split; [rewrite Hp; apply values_NoDup|]. split; [|done].
    apply Forall_forall. intros x Hx. apply values_member. by rewrite <- Hp.
  - intros [(Hnd & Hm & Hl) Hlen]. split; [|done]. symmetry.
    apply Permutation_sym, submseteq_length_Permutation; [|rewrite values_length; lia].
    apply NoDup_submseteq; [done|]. intros x Hx. apply values_member.
    rewrite Forall_forall in Hm. by apply Hm.
Qed.
End Chain.

(** C28. [orderChain] returns the chain exactly when the new commits form one: the
    result is every new commit once, parent before child, from the one root
    whose parent is not new; a fork, a gap or a cycle is an error, the answer
    does not depend on the order Go ranges over its maps in, and the loop ends
    within one step per commit. *)
Theorem orderChain_exact it m l :
  keyed m ->
  (orderChain it m = Ok l <-> is_chain m l) /\ orderChain it m <> Err EFuelChain.
Proof.
  intros Hk. unfold orderChain.
  destruct (fold_left (childOf_step m) (map snd (it m)) (∅, [])) as [c roots] eqn:Hf.
  pose proof (childOf_fold m Hk _ _ _ _ _ Hf) as (-> & Hc & _ & Hall). clear Hf. cbn [app].
  assert (map snd (it m) ≡ₚ map snd (map_to_list m)) as Hperm by (by rewrite (iter_perm it m)).
  assert (forall x, x ∈ map snd (it m) <-> member m x) as Hmem.
  { intros x. rewrite Hperm. by apply values_member. }
  assert (forall p id, c !! p = Some id ->
    exists pc, member m pc /\ pc_ParentID pc = p /\ pc_ID pc = id) as Hchild.
  { intros p id Hp. apply Hc in Hp as [Hp|(pc & Hin & ?)]; [by rewrite lookup_empty in Hp|].
    exists pc. by rewrite <- Hmem. }
  assert (forall pc, member m pc -> m !! pc_ParentID pc <> None ->
    is_Some (c !! pc_ParentID pc)) as Hall'.
  { intros pc Hpc. apply Hall. by apply Hmem. }
  set (roots := filter _ (map snd (it m))).
  assert (forall x, x ∈ roots <-> member m x /\ m !! pc_ParentID x = None) as Hroots.
  { intros x. subst roots. rewrite list_elem_of_filter, Hmem. tauto. }
  split; [split|].
  - destruct roots as [|r [|? ?]] eqn:Er; [done| |done].
    destruct (proj1 (Hroots r)) as [Hr Hr0]; [constructor|].
    destruct (follow_path m Hk c Hchild (S (size m)) r []) as (out & -> & Hp); [|cbn; lia|].
    { by apply path_root. }
    cbn. destruct (Nat.eqb_spec (length out) (size m)); [|done].
    intros [= <-]. by apply is_chain_path.
  - intros Hch. destruct (proj1 (is_chain_path m Hk l) Hch) as [Hp Hlen].
    destruct Hch as [Hpl Hl]. destruct l as [|r rest]; [done|]. destruct Hl as [Hr0 Hlk].
    assert (forall x, member m x -> x ∈ r :: rest) as Hin.
    { intros x Hx. rewrite Hpl. by apply values_member. }
    assert (roots = [r]) as ->.
    { apply Permutation_singleton_r. apply NoDup_Permutation.
      - apply NoDup_filter. rewrite Hperm. by apply values_NoDup.
      - apply NoDup_singleton.
      - intros x. rewrite Hroots, list_elem_of_singleton. split.
        + intros [Hx Hx0]. apply Hin in Hx. apply elem_of_cons in Hx as [->|Hx]; [done|].
          exfalso. apply list_elem_of_split in Hx as (l1 & l2 & ->).
          apply linked_app in Hlk as [_ [Hx _]].
          destruct Hp as (_ & Hm & _). unfold tip in Hx.
          assert (exists q, member m q /\ pc_ParentID x = pc_ID q) as (q & Hq & Hxq).
          { destruct (last l1) as [q|] eqn:El; cbn in Hx.
            - exists q. split; [|done]. rewrite Forall_forall in Hm. apply Hm.
              apply last_Some_elem_of in El. set_solver.
            - exists r. split; [|done]. rewrite Forall_forall in Hm. apply Hm. set_solver. }
          unfold member in Hq. congruence.
        + intros ->. split; [|done]. destruct Hp as (_ & Hm & _). by inversion Hm. }
    rewrite (follow_chain m Hk c Hchild Hall' _ r [] rest); [|done|done|cbn in Hlen; lia].
    cbn [app mbind res_bind]. by rewrite Hlen, Nat.eqb_refl.
  - destruct roots as [|r [|? ?]] eqn:Er; [done| |done].
    destruct (proj1 (Hroots r)) as [Hr Hr0]; [constructor|].
    destruct (follow_path m Hk c Hchild (S (size m)) r []) as (out & -> & Hp); [|cbn; lia|].
    { by apply path_root. }
    cbn. by destruct (length out =? size m)%nat.
Qed.

(** ** From the pool *)

Section Pool.
Context `{G : GoGit}.

(** The index holds each commit object of the pool under its hash, and a pool
    with two commit objects of one hash has none. *)
Lemma CommitObjectsByID_spec pool byID : CommitObjectsByID pool = Ok byID ->
  forall id d, byID !! id = Some d <->
    mkObject ObjCommit d ∈ pool /\ id = ComputeHash CommitObject d.
Proof.
  unfold CommitObjectsByID.
  assert (forall objs m out, CommitObjectsByID_loop objs m = Ok out -> forall id d,
    out !! id = Some d <-> m !! id = Some d \/
      (mkObject ObjCommit d ∈ objs /\ id = ComputeHash CommitObject d)) as H.
  { induction objs as [|[t data] objs IH]; intros m out; cbn [CommitObjectsByID_loop Type_ Data].
    - intros [= <-] id d. rewrite elem_of_nil. tauto.
    - destruct (Ascii.eqb_spec t ObjCommit) as [->|Hne]; cbn [negb].
      + destruct (m !! _) as [|] eqn:Em; [done|]. intros Hok id d. rewrite (IH _ _ Hok).
        rewrite elem_of_cons. split.
        * intros [Hi|?]; [|naive_solver]. apply lookup_insert_Some in Hi as [[<- <-]|[? ?]]; auto.
        * intros [Hi|[[Hd|Hd] ->]].
          -- left. rewrite lookup_insert_ne; [done|]. congruence.
          -- injection Hd as ->. left. by rewrite lookup_insert_eq.
          -- auto.
      + intros Hok id d. rewrite (IH _ _ Hok), elem_of_cons. split; [naive_solver|].
        intros [?|[[Hd|?] ?]]; auto. by injection Hd as <- _. }
  intros Hok id d. rewrite (H _ _ _ Hok). rewrite lookup_empty. naive_solver.
Qed.

(** The closure of a caller whose check cannot fail. *)
Definition pure_skip {S} (f : string -> bool) (id : string) (s : S) : bool * S := (f id, s).

Lemma newPoolCommits_loop_spec {S} (skip : string -> S -> bool * S) f l out m s :
  (forall id s, skip id s = (f id, s)) ->
  (newPoolCommits_loop skip l out s).1 = Ok m -> NoDup (map fst l) ->
  (forall id, id ∈ map fst l -> out !! id = None) ->
  forall id pc, m !! id = Some pc <-> out !! id = Some pc \/
    exists d c, (id, d) ∈ l /\ f id = false /\ CommitFromObjectData d = Some c /\
      pc = mkPoolCommit id (ParentID c) d.
Proof.
  intros Hskip. revert out s. induction l as [|[id0 d0] l IH]; intros out s; cbn [newPoolCommits_loop].
  { intros [= <-] _ _ id pc. setoid_rewrite elem_of_nil. naive_solver. }
  cbn [map fst]. rewrite Hskip, NoDup_cons. intros Hok [Hn Hnd] Hout id pc.
  destruct (f id0) eqn:Ef.
  - rewrite (IH _ _ Hok Hnd) by (intros; apply Hout; set_solver).
    split; (intros [?|(d & c & Hin & Hf & ? & ?)]; [by left|right; exists d, c]).
    + split_and!; try done. by right.
    + apply elem_of_cons in Hin as [[= -> ->]|Hin]; [congruence|done].
  - destruct (CommitFromObjectData d0) as [c0|] eqn:Ec; [|done].
    rewrite (IH _ _ Hok Hnd).
    + setoid_rewrite elem_of_cons. rewrite lookup_insert_Some. split.
      * intros [[[<- <-]|[? ?]]|(d & c & ? & ? & ? & ->)]; [right; by exists d0, c0; auto|auto|].
        right. exists d, c. auto.
      * intros [Hi|(d & c & [[= -> ->]|Hin] & ? & Hc & ->)].
        -- left. right. split; [|done]. intros <-. rewrite Hout in Hi; [done|]. by left.
        -- rewrite Ec in Hc. injection Hc as <-. auto.
        -- right. by exists d, c.
    + intros id' Hid. rewrite lookup_insert_ne by set_solver. apply Hout. set_solver.
Qed.

(** A closure that keeps its state leaves it as it was. *)
Lemma CommitChain_state {S} it it' pool (skip : string -> S -> bool * S) s :
  (forall id s, (skip id s).2 = s) -> (CommitChain it it' pool skip s).2 = s.
Proof.
  intros Hs. unfold CommitChain, newPoolCommits.
  destruct (CommitObjectsByID pool) as [byID|]; [|done].
  assert (forall l out, (newPoolCommits_loop skip l out s).2 = s) as Hl.
  { induction l as [|[id d] l IH]; intros out; [done|]. cbn [newPoolCommits_loop].
    specialize (Hs id s). destruct (skip id s) as [[] s1]; cbn in Hs; subst s1; [apply IH|].
    destruct (CommitFromObjectData d); [apply IH|done]. }
  specialize (Hl (it byID) ∅). destruct (newPoolCommits_loop _ _ _ _) as [[m|] s1]; [|done].
  by destruct (_ =? 0)%nat.
Qed.

(** A pool that orders had every new commit decoded. *)
Lemma CommitChain_decodes {S} it it' pool (skip : string -> S -> bool * S) s f chain :
  (forall id s, skip id s = (f id, s)) ->
  (CommitChain it it' pool skip s).1 = Ok chain ->
  forall d, mkObject ObjCommit d ∈ pool -> f (ComputeHash CommitObject d) = false ->
    is_Some (CommitFromObjectData d).
Proof.
  intros Hskip. unfold CommitChain, newPoolCommits.
  destruct (CommitObjectsByID pool) as [byID|] eqn:Hby; [|done].
  assert (forall l out, is_ok (newPoolCommits_loop skip l out s).1 = true ->
    forall id d, (id, d) ∈ l -> f id = false -> is_Some (CommitFromObjectData d)) as Hl.
  { induction l as [|[id0 d0] l IH]; intros out Hok id d Hin Hf; [by apply not_elem_of_nil in Hin|].
    cbn [newPoolCommits_loop] in Hok. rewrite Hskip in Hok.
    apply elem_of_cons in Hin as [[= -> ->]|Hin].
    - rewrite Hf in Hok. by destruct (CommitFromObjectData d0).
    - destruct (f id0); [by eapply IH|]. destruct (CommitFromObjectData d0); [by eapply IH|done]. }
  specialize (Hl (it byID) ∅). destruct (newPoolCommits_loop _ _ _ _) as [[m|] s']; [|done].
  intros _ d Hd. apply (Hl eq_refl (ComputeHash CommitObject d) d).
  rewrite (iter_perm it). apply elem_of_map_to_list. by apply (CommitObjectsByID_spec _ _ Hby).
Qed.

(** A pool with nothing new has an empty chain. *)
Lemma CommitChain_all_skipped {S} it it' pool (skip : string -> S -> bool * S) s f byID :
  (forall id s, skip id s = (f id, s)) -> CommitObjectsByID pool = Ok byID ->
  (forall d, mkObject ObjCommit d ∈ pool -> f (ComputeHash CommitObject d) = true) ->
  CommitChain it it' pool skip s = (Ok [], s).
Proof.
  intros Hskip Hby Hall. unfold CommitChain, newPoolCommits. rewrite Hby.
  assert (forall l out, (forall id d, (id, d) ∈ l -> f id = true) ->
    newPoolCommits_loop skip l out s = (Ok out, s)) as ->; [|done|].
  { induction l as [|[id d] l IH]; intros out Hl; [done|]. cbn [newPoolCommits_loop].
    rewrite Hskip, (Hl id d) by (by left). apply IH. intros. apply (Hl _ d0). by right. }
  intros id d Hin. rewrite (iter_perm it) in Hin. apply elem_of_map_to_list in Hin.
  apply (CommitObjectsByID_spec _ _ Hby) in Hin as [? ->]. by apply Hall.
Qed.

(** [CommitChain] on the raw pool: a returned chain is every new commit object
    of the pool exactly once, its id the hash of its bytes and its parent the
    one those bytes name, each following its parent and the first descending
    from a commit outside the batch. The guest's order of the objects and Go's
    order of its maps play no part, and the loop always ends. *)
Theorem CommitChain_exact {S} it it' pool (skip : string -> S -> bool * S) s f chain :
  (forall id s, skip id s = (f id, s)) ->
  (CommitChain it it' pool skip s).1 = Ok chain ->
  NoDup (map pc_ID chain) /\
  (forall pc, pc ∈ chain <-> exists c, mkObject ObjCommit (pc_Data pc) ∈ pool /\
     pc_ID pc = ComputeHash CommitObject (pc_Data pc) /\ f (pc_ID pc) = false /\
     CommitFromObjectData (pc_Data pc) = Some c /\ pc_ParentID pc = ParentID c) /\
  match chain with
  | [] => True
  | root :: rest => pc_ParentID root ∉ map pc_ID chain /\ linked (pc_ID root) rest
  end.
Proof.
  intros Hskip. unfold CommitChain, newPoolCommits.
  destruct (CommitObjectsByID pool) as [byID|] eqn:Hby; [|done].
  destruct (newPoolCommits_loop _ _ _ _) as [[m|] s'] eqn:Hnew; [|done].
  apply (f_equal fst) in Hnew. cbn [fst] in Hnew.
  assert (forall id pc, m !! id = Some pc <->
    exists d c, byID !! id = Some d /\ f id = false /\ CommitFromObjectData d = Some c /\
      pc = mkPoolCommit id (ParentID c) d) as Hm.
  { intros id pc. rewrite (newPoolCommits_loop_spec _ _ _ _ _ _ Hskip Hnew).
    - setoid_rewrite (iter_perm it). setoid_rewrite elem_of_map_to_list.
      rewrite lookup_empty. naive_solver.
    - rewrite (iter_perm it). apply NoDup_fst_map_to_list.
    - intros. apply lookup_empty. }
  assert (keyed m) as Hk by (intros id pc (d & c & _ & _ & _ & ->)%Hm; done).
  assert (forall pc, member m pc <-> exists c, mkObject ObjCommit (pc_Data pc) ∈ pool /\
     pc_ID pc = ComputeHash CommitObject (pc_Data pc) /\ f (pc_ID pc) = false /\
     CommitFromObjectData (pc_Data pc) = Some c /\ pc_ParentID pc = ParentID c) as Hmem.
  { intros pc. unfold member. rewrite Hm.
    setoid_rewrite (CommitObjectsByID_spec _ _ Hby). split.
    - intros (d & c & [? ?] & ? & ? & Hpc). exists c. rewrite Hpc. cbn. rewrite Hpc in *. auto.
    - intros (c & ? & ? & ? & ? & ?). exists (pc_Data pc), c. split_and!; try done.
      destruct pc; cbn in *; by subst. }
  destruct (Nat.eqb_spec (size m) 0) as [Hz|Hz].
  - intros [= <-]. apply map_size_empty_iff in Hz as ->. split; [constructor|]. split; [|done].
    intros pc. rewrite <- Hmem, elem_of_nil. unfold member. by rewrite lookup_empty.
  - intros Hok. cbn [fst] in Hok. apply (orderChain_exact it' m chain Hk) in Hok as [Hp Hl].
    assert (forall pc, pc ∈ chain <-> member m pc) as Hin.
    { intros pc. rewrite Hp. by apply values_member. }
    split; [|split].
    + rewrite Hp, map_map. rewrite (map_ext_in _ fst); [apply NoDup_fst_map_to_list|].
      intros [id pc] Hi%list_elem_of_In%elem_of_map_to_list. by apply Hk.
    + intros pc. by rewrite Hin, Hmem.
    + destruct chain as [|r rest]; [done|]. destruct Hl as [Hr Hl]. split; [|done].
      intros (pc & Heq & Hpc)%list_elem_of_fmap. apply Hin in Hpc. unfold member in Hpc.
      congruence.
Qed.
End Pool.

(** ** Witnesses: two commits in one toy pool *)
Import Toy.

Definition blob_b := blob "package b".
Definition tree_b := tree [file "a.go" blob_a; file "b.go" blob_b].
Definition commit_b := commit (Toy.id tree_b) (Toy.id commit_1) "agent" "[MGIT:MGIT-1] add b".
Definition pool_b : list Object := [commit_b; tree_b; blob_b] ++ pool_1.
Definition pc_1 := mkPoolCommit (Toy.id commit_1) "" (Data commit_1).
Definition pc_b := mkPoolCommit (Toy.id commit_b) (Toy.id commit_1) (Data commit_b).
Definition map_b : CommitMap := {[pc_ID pc_b := pc_b; pc_ID pc_1 := pc_1]}.

Lemma orderChain_exact_witness : orderChain key_order map_b = Ok [pc_1; pc_b] /\ is_chain map_b [pc_1; pc_b].
Proof.
  assert (orderChain key_order map_b = Ok [pc_1; pc_b]) as H by (vm_compute; reflexivity).
  split; [exact H|].
  refine (proj1 (proj1 (orderChain_exact key_order map_b [pc_1; pc_b] _)) H).
  intros id pc. unfold map_b. rewrite lookup_insert_Some, lookup_singleton_Some.
  intros [[<- <-]|[_ [<- <-]]]; reflexivity.
Defined.

Lemma CommitChain_exact_witness :
  (CommitChain key_order reverse_order pool_b (pure_skip (fun _ => false)) tt).1 = Ok [pc_1; pc_b] /\
  linked (pc_ID pc_1) [pc_b].
Proof.
  assert ((CommitChain key_order reverse_order pool_b (pure_skip (fun _ => false)) tt).1
    = Ok [pc_1; pc_b]) as H by (vm_compute; reflexivity).
  split; [exact H|].
  destruct (CommitChain_exact _ _ _ _ _ _ _ (fun _ _ => eq_refl) H) as (_ & _ & _ & Hl). exact Hl.
Defined.
