(* ===== verification/LandPipeline.v ===== *)
(** * The land pipeline

    [internal/sandboxd/peerbind.go], [land_channel.go], [land/parenttree.go],
    [land/importer.go], [land/lander.go], [service/land_orchestrator.go] and
    [service/land_service.go], composed as [cmd/mgit-sandboxd/land_wiring.go]
    wires them: one [World] holds the state the components share (bindings, the
    pulled buffers, the parent registry, the host's git objects, the
    [task_commits] ledger, branches, events), one [Env] what a land meets
    outside it (the guest's bytes, faults of the stores, Go's map orders). *)
From Stdlib Require Import ZArith Lia Ascii String.
From S2P Require Import Prelude StateErr GoStrings TaskId LandWire SandboxModel Ledger ModelCommit Attest LandVerify DiskTree Projection LandChain.
Open Scope Z_scope.

(** ** State *)

Record LandedEvent := mkEvent { ev_SandboxID : string; ev_TaskID : string }.

(** [w_native] is the native worktree of each task: its disk and its staging. *)
Record World := mkWorld {
  w_bindings : gmap string string;
  w_rejected : list (string * string);
  w_pools : gmap string bytes;
  w_registry : gmap string (list Object);
  w_policy : list (option bool);
  w_objects : Storage;
  w_index : Tables;
  w_branches : gmap string string;
  w_native : gmap string (Disk * option (list string));
  w_events : list LandedEvent }.

Definition set_bindings x w := mkWorld x (w_rejected w) (w_pools w) (w_registry w) (w_policy w)
  (w_objects w) (w_index w) (w_branches w) (w_native w) (w_events w).
Definition set_rejected x w := mkWorld (w_bindings w) x (w_pools w) (w_registry w) (w_policy w)
  (w_objects w) (w_index w) (w_branches w) (w_native w) (w_events w).
Definition set_pools x w := mkWorld (w_bindings w) (w_rejected w) x (w_registry w) (w_policy w)
  (w_objects w) (w_index w) (w_branches w) (w_native w) (w_events w).
Definition set_registry x w := mkWorld (w_bindings w) (w_rejected w) (w_pools w) x (w_policy w)
  (w_objects w) (w_index w) (w_branches w) (w_native w) (w_events w).
Definition set_policy x w := mkWorld (w_bindings w) (w_rejected w) (w_pools w) (w_registry w) x
  (w_objects w) (w_index w) (w_branches w) (w_native w) (w_events w).
Definition set_objects x w := mkWorld (w_bindings w) (w_rejected w) (w_pools w) (w_registry w)
  (w_policy w) x (w_index w) (w_branches w) (w_native w) (w_events w).
Definition set_index x w := mkWorld (w_bindings w) (w_rejected w) (w_pools w) (w_registry w)
  (w_policy w) (w_objects w) x (w_branches w) (w_native w) (w_events w).
Definition set_branches x w := mkWorld (w_bindings w) (w_rejected w) (w_pools w) (w_registry w)
  (w_policy w) (w_objects w) (w_index w) x (w_native w) (w_events w).
Definition set_native x w := mkWorld (w_bindings w) (w_rejected w) (w_pools w) (w_registry w)
  (w_policy w) (w_objects w) (w_index w) (w_branches w) x (w_events w).
Definition set_events x w := mkWorld (w_bindings w) (w_rejected w) (w_pools w) (w_registry w)
  (w_policy w) (w_objects w) (w_index w) (w_branches w) (w_native w) x.

Definition w_ledger (w : World) : list CommitRecord := t_commits (w_index w).

(** What lies outside: [e_dial] is the land dialer, giving the guest's byte
    stream and whether a read error ends it; [e_target] says whether the host's
    registry and the worktree's marker agree on the task's native worktree, and
    [e_history] is what go-git answers about the commits of a store. *)
Record Env := mkEnv {
  e_limits : Limits;
  e_dial : string -> option (bytes * bool);
  e_status : string -> option (string * string);
  e_attest : AttestationSubject -> res attest_err Attestation;
  e_verify : option Attestation -> res attest_err unit;
  e_ledger_ok : bool;
  e_import_ok : Object -> bool;
  e_append_ok : bool;
  e_now : string;
  e_target : string -> bool;
  e_history : Storage -> History;
  e_host : HostFS;
  e_orders : Orders;
  e_deliver_ok : bool;
  e_event_ok : bool;
  e_range_files : MapIter string;
  e_range_files' : MapIter string;
  e_range_ids : MapIter bytes;
  e_range_commits : MapIter PoolCommit }.

(** ** State and errors *)
Abbreviation M := (ST World land_err).

(** ** PeerBinder *)

Definition Bind (sandboxID peerID : string) (w : World) : World :=
  set_bindings (<[sandboxID := peerID]> (w_bindings w)) w.
Definition Invalidate (sandboxID : string) (w : World) : World :=
  set_bindings (delete sandboxID (w_bindings w)) w.
Definition BoundPeer (w : World) (sandboxID : string) : option string := w_bindings w !! sandboxID.

Definition Authorize (addressed source : string) : M unit := fun w =>
  let reject := (Err EPeerBinding, set_rejected ((addressed, source) :: w_rejected w) w) in
  match w_bindings w !! addressed with
  | None => reject
  | Some bound =>
    if String.eqb source "" then reject
    else if negb (String.eqb source bound) then reject
    else (Ok tt, w)
  end.

(** ** LandChannel *)

(** [io.ReadAll(io.LimitReader(conn, n))]: a read error is met only when the
    stream ends before the limit. *)
Definition ReadLimited (n : Z) (stream : bytes * bool) : res land_err bytes :=
  if Z.of_nat (length stream.1) <? n
  then if stream.2 then Err (EExternal "read pool") else Ok stream.1
  else Ok (take (Z.to_nat n) stream.1).

Definition Pull (E : Env) (sandboxID : string) : M (list Object) :=
  boundPeer ← get (fun w => default "" (BoundPeer w sandboxID));
  _ ← Authorize sandboxID boundPeer;
  stream ← lift (res_of_option (EExternal "dial") (e_dial E sandboxID));
  raw ← lift (ReadLimited (wrap64 (MaxTotalBytes (e_limits E) + 1)) stream);
  _ ← lift (err_if (MaxTotalBytes (e_limits E) <? Z.of_nat (length raw)) EBudget);
  objs ← lift (res_map_err EFrames (DecodeObjects (e_limits E) raw));
  _ ← modify (fun w => set_pools (<[sandboxID := raw]> (w_pools w)) w);
  mret objs.

Definition OpenLandStream (sandboxID : string) : M bytes := fun w =>
  match w_pools w !! sandboxID with
  | Some raw => (Ok raw, set_pools (delete sandboxID (w_pools w)) w)
  | None => (Err ENoPulledPool, set_pools (delete sandboxID (w_pools w)) w)
  end.
Definition Discard (sandboxID : string) (w : World) : World :=
  set_pools (delete sandboxID (w_pools w)) w.

Section Git.
Context `{G : GoGit}.

(** ** Parent trees *)

(** [CommitStore.GetCommit] of a full-length hash. *)
Definition GetCommit (objects : Storage) (id : string) : res land_err Commit :=
  match objects !! id with
  | Some (CommitObject, data) => res_of_option (ECommitNotFound id) (CommitFromObjectData data)
  | _ => Err (ECommitNotFound id)
  end.

(** [TreeStore.TraverseTree]: a walk error just ends the list. *)
Definition TraverseTree (objects : Storage) (hash : string) : res land_err (list TreeEntry) :=
  match WalkTree objects hash with
  | Some (entries, _) => Ok entries
  | None => Err (EExternal "get tree")
  end.

Definition HostParentFileSet (objects : Storage) (parentCommitID : string) : res land_err FileSet :=
  if String.eqb parentCommitID "" || String.eqb parentCommitID ZeroHash then Ok ∅
  else
    c ← GetCommit objects parentCommitID;
    entries ← TraverseTree objects (TreeHash c);
    Ok (fold_left (fun files e =>
          if te_Mode e =? filemode_Dir then files else <[te_Name e := te_Hash e]> files) entries ∅).

Definition HostHasCommit (objects : Storage) (commitID : string) : res land_err bool :=
  if String.eqb commitID "" then Ok false
  else match GetCommit objects commitID with
  | Ok _ => Ok true
  | Err (ECommitNotFound _) => Ok false
  | Err e => Err e
  end.

Definition poolCommitFileSet (pool : list Object) (commitID : string) : res land_err FileSet :=
  byID ← CommitObjectsByID pool;
  data ← res_of_option (EIntraBatchAbsent commitID) (byID !! commitID);
  c ← res_of_option EDecodeCommit (CommitFromObjectData data);
  storer ← poolStorer pool;
  landedFileSet storer (TreeHash c).

Definition commitIDs (it : MapIter bytes) (pool : list Object) : res land_err (list string) :=
  byID ← CommitObjectsByID pool; Ok (map fst (it byID)).

Definition Register (E : Env) (pool : list Object) : M (list string) :=
  ids ← lift (commitIDs (e_range_ids E) pool);
  _ ← modify (fun w =>
        set_registry (fold_left (fun r id => <[id := pool]> r) ids (w_registry w)) w);
  mret ids.
Definition Deregister (ids : list string) (w : World) : World :=
  set_registry (fold_left (fun r id => delete id r) ids (w_registry w)) w.
Definition ParentFileSet (parentCommitID : string) : M FileSet := fun w =>
  match w_registry w !! parentCommitID with
  | Some pool => (poolCommitFileSet pool parentCommitID, w)
  | None => (HostParentFileSet (w_objects w) parentCommitID, w)
  end.

(** ** Lander *)

Record LandedCommit := mkLanded {
  lc_Commit : Commit; lc_SandboxID : option string; lc_Position : Z }.

(** [StoreImporter.ImportObjects]: objects written before a failure stay. *)
Fixpoint ImportObjects (E : Env) (objs : list Object) : M unit :=
  match objs with
  | [] => mret tt
  | obj :: objs =>
    typ ← lift (gitObjectType (Type_ obj));
    _ ← lift (err_if (negb (e_import_ok E obj)) EImport);
    _ ← modify (fun w => set_objects (<[ComputeHash typ (Data obj) := (typ, Data obj)]> (w_objects w)) w);
    ImportObjects E objs
  end.

Definition append_rows (E : Env) (ins : list TaskCommitInsert) : M unit :=
  T ← get w_index;
  T ← lift (res_map_err (fun _ => EAppend) (AppendTaskCommits (e_now E) ins T));
  if e_append_ok E then modify (set_index T) else fail EAppend.

Definition land_row (taskID : string) (c : LandedCommit) : TaskCommitInsert :=
  mkInsert taskID (CommitID (lc_Commit c)) (ContentHash (lc_Commit c)) (AgentID (lc_Commit c))
    (lc_Position c) (default "" (lc_SandboxID c)) OriginLand "".

(** ** The native projection *)

(** Keeping what a projection did to the shared references and the worktree. *)
Definition keep_repo (taskID : string) (r : Repo) (w : World) : World :=
  set_native (<[taskID := (rp_disk r, rp_staged r)]> (w_native w)) (set_branches (rp_refs r) w).

(** The pending rows of a snapshot on the lineage of [tip]. *)
Fixpoint on_lineage (h : History) (tip : string) (snapshot : list ContentRecord)
    : res land_err (list CommitRecord) :=
  match snapshot with
  | [] => Ok []
  | c :: snapshot =>
    if negb (String.eqb (co_Origin c) OriginLand) || negb (String.eqb (co_State c) AdmissionPending)
    then on_lineage h tip snapshot
    else
      ok ← res_of_option EFastForward (is_ancestor h (cr_CommitHash (co_Row c)) tip);
      rest ← on_lineage h tip snapshot;
      Ok (if ok : bool then co_Row c :: rest else rest)
  end.

Definition publish (E : Env) (r : Repo) (taskID tip : string) : M unit :=
  T ← get w_index;
  objects ← get w_objects;
  let snapshot := GetContentSnapshot taskID T in
  _ ← lift (res_map_err (fun _ => EFastForward) (RequireKnownContentOrigins snapshot));
  let '(rf, r) := FastForwardDelivered (e_host E) (e_orders E) (e_history E objects) objects
                    (TaskBranchName taskID) tip r in
  _ ← modify (keep_repo taskID r);
  _ ← lift (res_map_err (fun _ => EFastForward) rf);
  _ ← lift (res_map_err (fun _ => EFastForward)
              (VerifyDelivered (e_host E) (e_orders E) objects tip r));
  delivered ← lift (on_lineage (e_history E objects) tip snapshot);
  T ← lift (res_map_err (fun _ => EFastForward) (RecordDelivered (e_now E) delivered T));
  if e_deliver_ok E then modify (set_index T) else fail EFastForward.

(** The brancher: the task's native worktree, opened, then published to. *)
Definition FastForward (E : Env) (taskID commitHash : string) : M unit :=
  native ← get (fun w => w_native w !! taskID);
  branches ← get w_branches;
  match native with
  | Some (disk, staged) =>
    if e_target E taskID
    then publish E (mkRepo branches (TaskBranchName taskID) disk staged) taskID commitHash
    else fail EFastForward
  | None => fail EFastForward
  end.

Definition Lander_Land (E : Env) (taskID : string) (pool : list Object)
    (commits : list LandedCommit) : M unit :=
  match last commits with
  | None => mret tt
  | Some last_ =>
    _ ← ImportObjects E pool;
    _ ← append_rows E (map (land_row taskID) commits);
    FastForward E taskID (CommitID (lc_Commit last_))
  end.

(** ** LandOrchestrator *)

Record ClaimedCommit := mkClaimed {
  cc_Commit : option Commit; cc_Attestation : option Attestation }.
Record LandRequest := mkLandRequest {
  lr_TaskID : string; lr_SandboxID : string; lr_Commits : list ClaimedCommit;
  lr_BasePosition : Z }.

Definition validateLandRequest (req : LandRequest) : res land_err unit :=
  _ ← err_if (String.eqb (lr_TaskID req) "") (ERequest "empty task id");
  _ ← err_if (String.eqb (lr_SandboxID req) "") (ERequest "empty sandbox id");
  _ ← err_if (length (lr_Commits req) =? 0)%nat (ERequest "no commits to land");
  _ ← err_if (lr_BasePosition req <? 0) (ERequest "negative base position");
  forM_ (fun cc => match cc_Commit cc with
                   | None => Err (ERequest "nil commit in batch")
                   | Some _ => Ok tt end) (lr_Commits req).

(** One read of the policy store. *)
Definition LoadPolicy : M bool := fun w =>
  match w_policy w with
  | Some b :: rest => (Ok b, set_policy rest w)
  | None :: rest => (Err EPolicyRead, set_policy rest w)
  | [] => (Err EPolicyRead, w)
  end.

Definition pullObjects (E : Env) (sandboxID : string)
    : M (gmap string bytes * list Object) :=
  stream ← OpenLandStream sandboxID;
  objs ← lift (res_map_err EFrames (DecodeObjects (e_limits E) stream));
  byID ← lift (CommitObjectsByID objs);
  mret (byID, objs).

(** One turn of [verifyBatch]'s loop: the claim at index [i]. *)
Definition verifyClaim (E : Env) (req : LandRequest) (requireSandbox : bool)
    (objsByID : gmap string bytes) (pool : list Object) (i : nat) (cc : ClaimedCommit)
    : M LandedCommit :=
  match cc_Commit cc with
  | None => fail ENilCommit
  | Some c =>
    objData ← lift (res_of_option (ENoObject (CommitID c)) (objsByID !! CommitID c));
    _ ← lift (err_if (negb (String.eqb (String_ (c_TaskID c)) (lr_TaskID req)))
                     (ETaskMismatch (CommitID c)));
    _ ← lift (VerifyBinding objData (Some c));
    parentFiles ← ParentFileSet (ParentID c);
    _ ← lift (VerifyTreeBinding (e_range_files' E) pool (Some c) parentFiles);
    sandboxID ← lift (EnforceRequireSandbox requireSandbox (lr_SandboxID req) (Some c)
                        (cc_Attestation cc) (e_verify E));
    mret (mkLanded c sandboxID (lr_BasePosition req + Z.of_nat i))
  end.
Fixpoint verifyBatch (E : Env) (req : LandRequest) (requireSandbox : bool)
    (objsByID : gmap string bytes) (pool : list Object) (i : nat) (ccs : list ClaimedCommit)
    : M (list LandedCommit) :=
  match ccs with
  | [] => mret []
  | cc :: ccs =>
    l ← verifyClaim E req requireSandbox objsByID pool i cc;
    ls ← verifyBatch E req requireSandbox objsByID pool (S i) ccs;
    mret (l :: ls)
  end.

Definition LandOrchestrator_Land (E : Env) (req : LandRequest) : M unit :=
  _ ← lift (validateLandRequest req);
  requireSandbox ← LoadPolicy;
  '(objsByID, pool) ← pullObjects E (lr_SandboxID req);
  landed ← verifyBatch E req requireSandbox objsByID pool 0 (lr_Commits req);
  _ ← Lander_Land E (lr_TaskID req) pool landed;
  if e_event_ok E
  then modify (fun w => set_events (w_events w ++ [mkEvent (lr_SandboxID req) (lr_TaskID req)]) w)
  else fail EAudit.

(** ** LandService *)

Record sandboxOrigin := mkOrigin { or_id : string; or_baseDigest : string }.
Record LandSummary := mkSummary { ls_Commits : nat; ls_Branch : string }.

Definition read_rows (E : Env) (taskID : string) : M (list CommitRecord) :=
  if e_ledger_ok E then get (fun w => GetTaskCommits taskID (w_index w))
  else fail (EExternal "read task commits").

(** The [skip] closure: it records a failed host check in [skipErr]. *)
Definition skip_landed (landed : list string) (objects : Storage) (id : string)
    (skipErr : option land_err) : bool * option land_err :=
  if existsb (String.eqb id) landed then (true, skipErr)
  else match HostHasCommit objects id with
       | Ok has => (has, skipErr)
       | Err e => (false, Some e)
       end.

Definition newChain (E : Env) (taskID : string) (pool : list Object)
    : M (list PoolCommit * Z) :=
  existing ← read_rows E taskID;
  objects ← get w_objects;
  let landed := map cr_CommitHash existing in
  let '(chain, skipErr) := CommitChain (e_range_ids E) (e_range_commits E) pool
                             (skip_landed landed objects) None in
  _ ← lift (match skipErr with Some e => Err e | None => Ok tt end);
  chain ← lift chain;
  mret (chain, Z.of_nat (length existing)).

Definition claimCommit (E : Env) (tid : TaskID) (origin : sandboxOrigin) (pool : list Object)
    (requireSandbox : bool) (pc : PoolCommit) : M ClaimedCommit :=
  parentFiles ← ParentFileSet (pc_ParentID pc);
  c ← lift (DeriveLandedCommit (e_range_files E) (pc_Data pc) pool tid parentFiles);
  if requireSandbox then
    att ← lift (res_map_err EAttestationInvalid
                  (e_attest E (mkSubject (or_id origin) (CommitID c) (ContentHash c)
                                         (or_baseDigest origin))));
    mret (mkClaimed (Some c) (Some att))
  else mret (mkClaimed (Some c) None).

(** The pool is registered while the claims are derived, and deregistered by
    [defer] when [buildRequest] returns. *)
Definition buildRequest (E : Env) (tid : TaskID) (origin : sandboxOrigin) (basePos : Z)
    (pool : list Object) (chain : list PoolCommit) : M LandRequest :=
  requireSandbox ← LoadPolicy;
  ids ← Register E pool;
  with_defer
    (commits ← mapM_M (claimCommit E tid origin pool requireSandbox) chain;
     mret (mkLandRequest (String_ tid) (or_id origin) commits basePos))
    (Deregister ids).

Definition landOnce (E : Env) (tid : TaskID) (origin : sandboxOrigin) : M LandSummary :=
  let taskID := String_ tid in
  let sandboxID := or_id origin in
  pool ← Pull E sandboxID;
  '(chain, basePos) ← on_error (newChain E taskID pool) (Discard sandboxID);
  match chain with
  | [] =>
    _ ← modify (Discard sandboxID);
    mret (mkSummary 0 (TaskBranchName taskID))
  | _ =>
    req ← on_error (buildRequest E tid origin basePos pool chain) (Discard sandboxID);
    _ ← LandOrchestrator_Land E req;
    mret (mkSummary (length chain) (TaskBranchName taskID))
  end.

(** [LandService.Land] for the one caller that leads a flight, in its slot. *)
Definition LandService_Land (E : Env) (taskID : string) : M LandSummary :=
  tid ← lift (res_map_err (fun _ => EExternal "task id") (ParseTaskID taskID));
  info ← lift (res_of_option (EExternal "resolve sandbox") (e_status E taskID));
  landOnce E tid (mkOrigin info.1 info.2).
End Git.

(** ** A toy daemon *)
Module Daemon.
Import Toy.
Definition sandbox := "01JXSBA000000000000000000".
(** The host's store before any land: an empty base commit the task branch is at. *)
Definition base_tree := tree [].
Definition base := commit (id base_tree) "" "mgit-sync" "base".
Definition base_store : Storage := ok_or ∅ (poolStorer [base; base_tree]).
(** A guest that streams [pool], a host whose stores work ([append] apart). *)
Definition env (pool : list Object) (append : bool) : Env := {|
  e_limits := DefaultLimits;
  e_dial := fun id => if String.eqb id sandbox then Some (frames pool, false) else None;
  e_status := fun _ => Some (sandbox, "sha256:base");
  e_attest := fun s => Attest toy_sign toy_service (unix_epoch + 5) s;
  e_verify := Verify toy_verify toy_service;
  e_ledger_ok := true; e_import_ok := fun _ => true; e_append_ok := append;
  e_now := "2026-01-01T00:00:00Z";
  e_target := fun _ => true;
  e_history := fun _ => native_history;
  e_host := native_host; e_orders := native_orders; e_deliver_ok := true;
  e_event_ok := true;
  e_range_files := key_order; e_range_files' := reverse_order;
  e_range_ids := reverse_order; e_range_commits := key_order |}.
Definition world (policy : list (option bool)) : World :=
  mkWorld {[sandbox := "cid:3"]} [] ∅ ∅ policy base_store empty_tables {[native_branch := id base]}
    {["MGIT-1" := (mkDisk ∅ [], Some [])]} [].
End Daemon.
