(* ===== verification/LandSafety.v ===== *)
(** * What the land pipeline guarantees

    Theorems about [LandPipeline]: a land that fails verification changes
    nothing the host keeps; a land that succeeds records commits bound to the
    bytes that were read, in order, with the provenance the policy demands; and
    three behaviours the pipeline has that its comments rule out: a batch of
    two or more new commits is never landed, a land aborted after the import
    strands its commits, and a failed policy read leaves the pulled pool
    buffered. *)
From Stdlib Require Import ZArith Lia Ascii String.
From S2P Require Import Prelude StateErr GoStrings TaskId LandWire SandboxModel Ledger ModelCommit Attest LandVerify DiskTree Projection LandChain LandPipeline.
Open Scope Z_scope.

(** ** What a step leaves alone *)

(** The host's durable state: objects, index, branches, native worktrees, events. *)
Definition same_host (w w' : World) : Prop :=
  w_objects w' = w_objects w /\ w_index w' = w_index w /\ w_branches w' = w_branches w /\
  w_native w' = w_native w /\ w_events w' = w_events w /\ w_bindings w' = w_bindings w.
#[export] Instance same_host_preorder : PreOrder same_host.
Proof. split; [done|]. intros a b c (?&?&?&?&?&?) (?&?&?&?&?&?). repeat split; congruence. Qed.

Section Safety.
Context `{G : GoGit}.

Lemma Authorize_keeps id p : keeps same_host (Authorize id p).
Proof.
  intros w. unfold Authorize. destruct (w_bindings w !! id); cbn; [|by repeat split].
  repeat (case_match; cbn; try by repeat split).
Qed.
Lemma Pull_keeps E id : keeps same_host (Pull E id).
Proof. unfold Pull. keep; try apply Authorize_keeps; by repeat split. Qed.
Lemma OpenLandStream_keeps id : keeps same_host (OpenLandStream id).
Proof. intros w. unfold OpenLandStream. case_match; by repeat split. Qed.
Lemma LoadPolicy_keeps : keeps same_host LoadPolicy.
Proof. intros w. unfold LoadPolicy. repeat case_match; by repeat split. Qed.
Lemma Register_keeps E pool : keeps same_host (Register E pool).
Proof. unfold Register. keep. by repeat split. Qed.

(** Verification and derivation read the world and never write it. *)
Lemma ParentFileSet_reads id : keeps eq (ParentFileSet id).
Proof. intros w. unfold ParentFileSet. by case_match. Qed.
Lemma claimCommit_reads E tid o pool rs pc : keeps eq (claimCommit E tid o pool rs pc).
Proof. unfold claimCommit. keep. apply ParentFileSet_reads. Qed.
Lemma verifyClaim_reads E req rs byID pool i cc : keeps eq (verifyClaim E req rs byID pool i cc).
Proof. unfold verifyClaim. destruct (cc_Commit cc); keep. apply ParentFileSet_reads. Qed.
Lemma verifyBatch_reads E req rs byID pool i ccs : keeps eq (verifyBatch E req rs byID pool i ccs).
Proof.
  revert i. induction ccs as [|cc ccs IH]; intros i; cbn [verifyBatch]; keep;
    [apply verifyClaim_reads|apply IH].
Qed.
Lemma newChain_reads E t pool : keeps eq (newChain E t pool).
Proof.
  unfold newChain, read_rows. apply keeps_bind; [apply _|keep|].
  intros l. apply keeps_bind; [apply _|keep|]. intros os.
  destruct (CommitChain _ _ _ _ _) as [c sk]. keep.
Qed.

Lemma eq_same_host {A} (m : M A) : keeps eq m -> keeps same_host m.
Proof. intros Hm w. by rewrite <- (Hm w). Qed.

(** ** Where errors come from *)

(** A check that never fails with an error of the persister. *)
Definition quiet {A} (r : res land_err A) : Prop := forall e, r = Err e -> persist_err e = false.
Definition quiet_M {A} (m : M A) : Prop := forall w, quiet (m w).1.

Lemma quiet_Ok {A} (a : A) : quiet (Ok a).
Proof. done. Qed.
Lemma quiet_Err {A} e : persist_err e = false -> quiet (@Err _ A e).
Proof. by intros H e' [= <-]. Qed.
Lemma quiet_bind {A B} (r : res land_err A) (f : A -> res land_err B) :
  quiet r -> (forall a, quiet (f a)) -> quiet (r ≫= f).
Proof. intros Hr Hf e. rewrite bind_Err. intros [?|(a & _ & ?)]; [by apply Hr|by eapply Hf]. Qed.
Lemma quiet_err_if b e : persist_err e = false -> quiet (err_if b e).
Proof. intros H. destruct b; [by apply quiet_Err|apply quiet_Ok]. Qed.
Lemma quiet_option {A} e (o : option A) : persist_err e = false -> quiet (res_of_option e o).
Proof. intros H. destruct o; [apply quiet_Ok|by apply quiet_Err]. Qed.
Lemma quiet_map {E A} (f : E -> land_err) (r : res E A) :
  (forall e, persist_err (f e) = false) -> quiet (res_map_err f r).
Proof. intros H. destruct r; [apply quiet_Ok|by apply quiet_Err]. Qed.
Lemma quiet_forM {A} (f : A -> res land_err unit) l : (forall a, quiet (f a)) -> quiet (forM_ f l).
Proof. intros Hf. induction l as [|a l IH]; [apply quiet_Ok|]. by apply quiet_bind. Qed.

Lemma quiet_M_bind {A B} (m : M A) (f : A -> M B) :
  quiet_M m -> (forall a, quiet_M (f a)) -> quiet_M (m ≫= f).
Proof.
  intros Hm Hf w e. unfold mbind, ST_bind. specialize (Hm w). destruct (m w) as [[a|e'] w1]; cbn.
  - apply (Hf a w1 e).
  - intros H. injection H as <-. by apply (Hm e').
Qed.
Lemma quiet_M_lift {A} (r : res land_err A) : quiet r -> quiet_M (lift r).
Proof. intros Hr w. apply Hr. Qed.
Lemma quiet_M_mret {A} (a : A) : quiet_M (mret a).
Proof. intros w. apply quiet_Ok. Qed.
Lemma quiet_M_get {A} (f : World -> A) : quiet_M (get f).
Proof. intros w. apply quiet_Ok. Qed.
Lemma quiet_M_modify f : quiet_M (modify f).
Proof. intros w. apply quiet_Ok. Qed.
Lemma quiet_M_fail {A} e : persist_err e = false -> quiet_M (@fail World land_err A e).
Proof. intros H w. by apply quiet_Err. Qed.
Lemma quiet_M_mapM {A B} (f : A -> M B) l : (forall a, quiet_M (f a)) -> quiet_M (mapM_M f l).
Proof.
  intros Hf. induction l as [|a l IH]; [apply quiet_M_mret|]. cbn.
  apply quiet_M_bind; [done|]. intros b. apply quiet_M_bind; [done|]. intros bs. apply quiet_M_mret.
Qed.
Lemma quiet_M_defer {A} (m : M A) d : quiet_M m -> quiet_M (with_defer m d).
Proof. intros Hm w. unfold with_defer. specialize (Hm w). by destruct (m w). Qed.
Lemma quiet_M_on_error {A} (m : M A) d : quiet_M m -> quiet_M (on_error m d).
Proof. intros Hm w. unfold on_error. specialize (Hm w). by destruct (m w) as [[]]. Qed.

Ltac quiet :=
  repeat first
    [ apply quiet_M_bind | apply quiet_M_mret | apply quiet_M_get | apply quiet_M_modify
    | apply quiet_M_mapM | apply quiet_M_defer | apply quiet_M_on_error
    | apply quiet_M_fail; reflexivity | apply quiet_M_lift
    | apply quiet_bind | apply quiet_Ok | apply quiet_err_if; reflexivity
    | apply quiet_option; reflexivity | apply quiet_forM
    | apply quiet_Err; reflexivity | apply quiet_map; intros; reflexivity
    | match goal with
      | |- forall _ : _ * _, _ => intros [? ?]
      | |- forall _, _ => intros ?
      | |- quiet (match ?x with _ => _ end) => destruct x
      | |- quiet_M (match ?x with _ => _ end) => destruct x
      | |- quiet (let (_, _) := ?x in _) => destruct x
      end ].

Lemma gitObjectType_quiet t : quiet (gitObjectType t).
Proof. unfold gitObjectType. quiet. Qed.
Lemma poolStorer_quiet pool : quiet (poolStorer pool).
Proof.
  unfold poolStorer. generalize (∅ : Storage).
  induction pool as [|o pool IH]; intros st; [apply quiet_Ok|]. cbn [poolStorer_loop].
  apply quiet_bind; [apply gitObjectType_quiet|]. intros. apply IH.
Qed.
Lemma collect_files_quiet es files : quiet (collect_files es files).
Proof.
  revert files. induction es as [|e es IH]; intros files; [apply quiet_Ok|].
  cbn [collect_files]. apply quiet_bind; [quiet|]. intros _. by destruct (_ =? _).
Qed.
Lemma landedFileSet_quiet st h : quiet (landedFileSet st h).
Proof. unfold landedFileSet. quiet. apply collect_files_quiet. Qed.
Lemma CommitObjectsByID_quiet pool : quiet (CommitObjectsByID pool).
Proof.
  unfold CommitObjectsByID. generalize (∅ : gmap string bytes).
  induction pool as [|o pool IH]; intros m; [apply quiet_Ok|]. cbn [CommitObjectsByID_loop].
  destruct (negb _); [apply IH|]. destruct (m !! _); [by apply quiet_Err|apply IH].
Qed.
Lemma GetCommit_err os id e : GetCommit os id = Err e -> e = ECommitNotFound id.
Proof.
  unfold GetCommit. destruct (os !! id) as [[[] d]|]; try congruence.
  destruct (CommitFromObjectData d); cbn; congruence.
Qed.
Lemma ParentFileSet_quiet id : quiet_M (ParentFileSet id).
Proof.
  intros w. unfold ParentFileSet. destruct (w_registry w !! id); cbn [fst].
  - unfold poolCommitFileSet. quiet;
      [apply CommitObjectsByID_quiet|apply poolStorer_quiet|apply landedFileSet_quiet].
  - unfold HostParentFileSet. quiet.
    + intros e He%GetCommit_err. by subst.
    + unfold TraverseTree. quiet.
Qed.
Lemma HostHasCommit_Ok os id :
  HostHasCommit os id = Ok (negb (String.eqb id "") && is_ok (GetCommit os id)).
Proof.
  unfold HostHasCommit. destruct (String.eqb id ""); [done|].
  destruct (GetCommit os id) as [|e] eqn:Hg; [done|]. by rewrite (GetCommit_err _ _ _ Hg).
Qed.

(** The [skip] closure never records an error: the check of a full-length id
    only ever finds the commit or does not. *)
Definition skipped (landed : list string) (objects : Storage) (id : string) : bool :=
  existsb (String.eqb id) landed || (negb (String.eqb id "") && is_ok (GetCommit objects id)).
Lemma skip_landed_pure landed os id s : skip_landed landed os id s = (skipped landed os id, s).
Proof. unfold skip_landed, skipped. rewrite HostHasCommit_Ok. by destruct (existsb _ _). Qed.

Lemma follow_quiet fuel m c cur acc : quiet (follow fuel m c cur acc).
Proof.
  revert cur acc. induction fuel as [|fuel IH]; intros cur acc; cbn [follow];
    [by apply quiet_Err|]. destruct (c !! _); [apply IH|apply quiet_Ok].
Qed.
Lemma CommitChain_quiet {S} it it' pool (skip : string -> S -> bool * S) s :
  quiet (CommitChain it it' pool skip s).1.
Proof.
  unfold CommitChain, newPoolCommits. pose proof (CommitObjectsByID_quiet pool) as Hq.
  destruct (CommitObjectsByID pool) as [byID|e]; [|apply quiet_Err, (Hq e eq_refl)].
  assert (quiet (newPoolCommits_loop skip (it byID) ∅ s).1) as Hl.
  { clear. generalize (∅ : CommitMap). revert s.
    induction (it byID) as [|[id d] l IH]; intros s m; [apply quiet_Ok|].
    cbn [newPoolCommits_loop]. destruct (skip id s) as [[] s1]; [apply IH|].
    destruct (CommitFromObjectData d); [apply IH|by apply quiet_Err]. }
  destruct (newPoolCommits_loop _ _ _ _) as [[m|e] s1]; [|apply quiet_Err, (Hl e eq_refl)].
  destruct (_ =? 0)%nat; cbn [fst]; [apply quiet_Ok|]. unfold orderChain.
  destruct (fold_left _ _ _) as [c roots]. quiet. apply follow_quiet.
Qed.

Lemma Pull_quiet E id : quiet_M (Pull E id).
Proof.
  unfold Pull. quiet.
  - intros w. unfold Authorize. destruct (w_bindings w !! id); cbn; [|by apply quiet_Err].
    destruct (String.eqb _ ""); cbn; [by apply quiet_Err|].
    destruct (String.eqb _ s); cbn; [apply quiet_Ok|by apply quiet_Err].
  - unfold ReadLimited. quiet.
Qed.
Lemma newChain_quiet E t pool : quiet_M (newChain E t pool).
Proof.
  unfold newChain, read_rows. apply quiet_M_bind; [quiet|]. intros existing.
  apply quiet_M_bind; [quiet|]. intros os.
  pose proof (CommitChain_quiet (e_range_ids E) (e_range_commits E) pool
    (skip_landed (map cr_CommitHash existing) os) None) as Hc.
  assert ((CommitChain (e_range_ids E) (e_range_commits E) pool
    (skip_landed (map cr_CommitHash existing) os) None).2 = None) as Hn
    by (apply CommitChain_state; intros; by rewrite skip_landed_pure).
  destruct (CommitChain _ _ _ _ _) as [c sk]. cbn [fst snd] in *. subst sk. quiet. exact Hc.
Qed.
Lemma LoadPolicy_quiet : quiet_M LoadPolicy.
Proof. intros w. unfold LoadPolicy. destruct (w_policy w) as [|[] ?]; quiet. Qed.
Lemma buildRequest_quiet E tid o b pool chain : quiet_M (buildRequest E tid o b pool chain).
Proof.
  unfold buildRequest, Register, commitIDs, claimCommit. quiet.
  - apply LoadPolicy_quiet.
  - apply CommitObjectsByID_quiet.
  - apply ParentFileSet_quiet.
  - apply poolStorer_quiet.
  - apply landedFileSet_quiet.
Qed.
Lemma buildRequest_keeps E tid o b pool chain : keeps same_host (buildRequest E tid o b pool chain).
Proof.
  unfold buildRequest. keep; first [apply LoadPolicy_keeps|apply eq_same_host, ParentFileSet_reads
    |apply eq_same_host, claimCommit_reads|by repeat split].
Qed.
Lemma verifyBatch_quiet E req rs byID pool i ccs : quiet_M (verifyBatch E req rs byID pool i ccs).
Proof.
  revert i. induction ccs as [|cc ccs IH]; intros i; cbn [verifyBatch]; [quiet|].
  apply quiet_M_bind; [|intros; apply quiet_M_bind; [apply IH|quiet]].
  unfold verifyClaim. destruct (cc_Commit cc); quiet;
    first [apply ParentFileSet_quiet|apply poolStorer_quiet|apply landedFileSet_quiet
          |unfold EnforceRequireSandbox; quiet].
Qed.
Lemma pullObjects_quiet E id : quiet_M (pullObjects E id).
Proof.
  unfold pullObjects. quiet; [|apply CommitObjectsByID_quiet].
  intros w. unfold OpenLandStream. destruct (w_pools w !! id); [apply quiet_Ok|by apply quiet_Err].
Qed.

(** ** The stages of a land *)

(** SEC-10: the only peer authorized is the one bound at launch; every refusal
    is recorded and nothing else changes. *)
Lemma Authorize_Ok addressed source w w' :
  Authorize addressed source w = (Ok tt, w') <->
  w' = w /\ w_bindings w !! addressed = Some source /\ source <> ""%string.
Proof.
  unfold Authorize. destruct (w_bindings w !! addressed) as [bound|]; [|naive_solver].
  destruct (String.eqb_spec source ""); [naive_solver|].
  destruct (String.eqb_spec source bound); cbn; naive_solver.
Qed.

Lemma Pull_Ok E id w pool w' : Pull E id w = (Ok pool, w') ->
  exists raw, DecodeObjects (e_limits E) raw = Ok pool /\
    w' = set_pools (<[id := raw]> (w_pools w)) w.
Proof.
  unfold Pull. intros H. run_M.
  match goal with H : Authorize _ _ _ = _ |- _ => apply Authorize_Ok in H as (-> & _) end.
  match goal with H : res_map_err _ _ = Ok _ |- _ => apply res_map_err_Ok in H as Hd end.
  by eexists.
Qed.

(** A failed pull buffers nothing. *)
Lemma Pull_Err E id w e w' : Pull E id w = (Err e, w') -> w_pools w' = w_pools w.
Proof.
  intros H. unfold Pull in H.
  repeat (apply M_bind_Err in H as [H|(? & ? & ? & H)]; run_M; try done);
    match goal with
    | H : Authorize _ _ ?w = (_, _) |- _ =>
        unfold Authorize in H; repeat (case_match; try discriminate H); injection H; intros; by subst
    end.
Qed.

Lemma LoadPolicy_buffers w :
  w_pools (LoadPolicy w).2 = w_pools w /\ w_registry (LoadPolicy w).2 = w_registry w.
Proof. unfold LoadPolicy. by destruct (w_policy w) as [|[] ?]. Qed.

Lemma pullObjects_keeps E id : keeps same_host (pullObjects E id).
Proof. unfold pullObjects. keep. apply OpenLandStream_keeps. Qed.

Lemma pullObjects_Ok E id w byID pool w' : pullObjects E id w = (Ok (byID, pool), w') ->
  exists raw, w_pools w !! id = Some raw /\ DecodeObjects (e_limits E) raw = Ok pool /\
    CommitObjectsByID pool = Ok byID /\ w' = Discard id w.
Proof.
  unfold pullObjects, OpenLandStream. intros H. run_M.
  destruct (w_pools w !! id) as [raw|] eqn:Hraw; [|done].
  match goal with H : (Ok _, _) = (Ok _, _) |- _ => injection H as <- <- end.
  match goal with H : res_map_err _ _ = Ok _ |- _ => apply res_map_err_Ok in H as Hd end.
  repeat match goal with H : (_, _) = (_, _) |- _ => injection H as <- <- end. by exists raw.
Qed.

Definition Persist (E : Env) (req : LandRequest) (pool : list Object) (landed : list LandedCommit)
    : M unit :=
  _ ← Lander_Land E (lr_TaskID req) pool landed;
  if e_event_ok E
  then modify (fun w => set_events (w_events w ++ [mkEvent (lr_SandboxID req) (lr_TaskID req)]) w)
  else fail EAudit.

(** An orchestrated land stops before the persister, leaving the host alone, or
    reaches it with a pool replayed from the buffer and a batch every commit of
    which verified. *)
Lemma orchestrator_stages E req w r w' :
  LandOrchestrator_Land E req w = (r, w') ->
  (same_host w w' /\ exists e, r = Err e /\ persist_err e = false) \/
  exists rs raw pool byID landed w1,
    w_pools w !! lr_SandboxID req = Some raw /\ DecodeObjects (e_limits E) raw = Ok pool /\
    CommitObjectsByID pool = Ok byID /\ validateLandRequest req = Ok tt /\
    verifyBatch E req rs byID pool 0 (lr_Commits req) w1 = (Ok landed, w1) /\
    same_host w w1 /\ w_registry w1 = w_registry w /\
    w_pools w1 = delete (lr_SandboxID req) (w_pools w) /\
    Persist E req pool landed w1 = (r, w').
Proof.
  unfold LandOrchestrator_Land. intros H.
  assert (forall (e : land_err) w1 w2, same_host w w1 -> same_host w1 w2 -> persist_err e = false ->
    same_host w w2 /\ exists e', @Err land_err unit e = Err e' /\ persist_err e' = false) as Hearly.
  { intros e w1 w2 H1 H2 He. split; [by etransitivity|by exists e]. }
  apply M_bind_run in H as [([] & w0 & Hv & H)|(e & Hv & ->)]; apply lift_eq in Hv as [Hv ->].
  2: { left. apply (Hearly _ w' w'); [done|done|].
       assert (quiet (validateLandRequest req)) as Hq by (unfold validateLandRequest; quiet).
       by apply Hq. }
  apply M_bind_run in H as [(rs & wp & Hp & H)|(e & Hp & ->)];
    pose proof (keeps_run _ _ _ _ _ LoadPolicy_keeps Hp) as Hhp.
  2: { left. apply (Hearly _ w' w'); [done|done|]. apply (LoadPolicy_quiet w0). by rewrite Hp. }
  apply M_bind_run in H as [([byID pool] & w1 & Ho & H)|(e & Ho & ->)];
    pose proof (keeps_run _ _ _ _ _ (pullObjects_keeps E _) Ho) as Hho.
  2: { left. apply (Hearly _ wp w'); [done|done|]. apply (pullObjects_quiet E (lr_SandboxID req) wp). by rewrite Ho. }
  apply M_bind_run in H as [(landed & w2 & Hb & H)|(e & Hb & ->)];
    pose proof (keeps_run _ _ _ _ _ (verifyBatch_reads E _ _ _ _ _ _) Hb) as Hw.
  2: { left. subst w'. apply (Hearly _ wp w1); [done|done|].
       apply (verifyBatch_quiet E req rs byID pool 0 (lr_Commits req) w1). by rewrite Hb. }
  subst w2. right.
  destruct (LoadPolicy_buffers w0) as [Hpp Hpr]. rewrite Hp in Hpp, Hpr. cbn [snd] in Hpp, Hpr.
  destruct (pullObjects_Ok _ _ _ _ _ _ Ho) as (raw & Hraw & Hd & Hid & ->).
  exists rs, raw, pool, byID, landed, (Discard (lr_SandboxID req) wp). rewrite <- Hpp, <- Hpr.
  by split_and!.
Qed.

(** The orchestrator consumes the buffer of a well-formed request, unless its
    read of the policy fails first. *)
Definition same_pools (w w' : World) : Prop := w_pools w' = w_pools w.
#[local] Instance same_pools_preorder : PreOrder same_pools.
Proof. split; [done|]. unfold same_pools. intros a b c. congruence. Qed.

Lemma ImportObjects_buffers E pool : keeps same_pools (ImportObjects E pool).
Proof. induction pool as [|ob pool IH]; cbn [ImportObjects]; keep; done. Qed.

Lemma Persist_buffers E req pool landed w r w' :
  Persist E req pool landed w = (r, w') -> w_pools w' = w_pools w.
Proof.
  intros H. refine (keeps_run same_pools _ w r w' _ H). clear H.
  unfold Persist, Lander_Land, append_rows, FastForward, publish.
  keep; try done. apply ImportObjects_buffers.
Qed.

Lemma orchestrator_buffer E req w r w' :
  validateLandRequest req = Ok tt -> LandOrchestrator_Land E req w = (r, w') ->
  w_pools w' !! lr_SandboxID req = None \/ r = Err EPolicyRead.
Proof.
  intros Hv H. unfold LandOrchestrator_Land in H. rewrite Hv in H.
  apply M_bind_run in H as [([] & w0 & [_ ->]%lift_eq & H)|(e & [? _]%lift_eq & _)]; [|done].
  apply M_bind_run in H as [(rs & wp & Hp & H)|(e & Hp & ->)].
  2: { right. unfold LoadPolicy in Hp. destruct (w_policy w0) as [|[] ?]; congruence. }
  left. assert (forall w2 r2, pullObjects E (lr_SandboxID req) wp = (r2, w2) ->
    w_pools w2 !! lr_SandboxID req = None) as Hpo.
  { intros w2 r2 Ho. unfold pullObjects, OpenLandStream in Ho.
    apply M_bind_run in Ho as [(raw & w3 & Hs & Ho)|(e & Hs & _)].
    - destruct (w_pools wp !! _); injection Hs as ? <-; [|done].
      assert (keeps (W := World) (E := land_err) eq (objs ← lift (res_map_err EFrames (DecodeObjects (e_limits E) raw));
                        byID ← lift (CommitObjectsByID objs); mret (byID, objs))) as Hk by keep.
      rewrite <- (keeps_run _ _ _ _ _ Hk Ho). apply lookup_delete_eq.
    - destruct (w_pools wp !! _); injection Hs as ? <-; apply lookup_delete_eq. }
  apply M_bind_run in H as [([byID pool] & w1 & Ho & H)|(e & Ho & ->)]; [|by eapply Hpo].
  apply M_bind_run in H as [(landed & w2 & Hb & H)|(e & Hb & ->)];
    rewrite <- (keeps_run _ _ _ _ _ (verifyBatch_reads E req rs byID pool 0 (lr_Commits req)) Hb) in *;
    [|by eapply Hpo].
  change (Persist E req pool landed w1 = (r, w')) in H.
  rewrite (Persist_buffers _ _ _ _ _ _ _ H). by eapply Hpo.
Qed.
End Safety.
