(* ===== verification/LandResults.v ===== *)
(** * The theorems about a land

    [LandSafety] takes a run of the pipeline apart; this file says what a whole
    land does to the host: it is all-or-nothing, what it records was verified
    against the bytes that were read, no batch of two or more new commits lands,
    a land aborted after its import strands its commits, and when a pulled pool
    stays buffered. *)
From Stdlib Require Import ZArith Lia Ascii String.
From S2P Require Import Prelude StateErr GoStrings TaskId LandWire SandboxModel Ledger ModelCommit Attest LandVerify DiskTree Projection LandChain LandPipeline LandSafety.
Open Scope Z_scope.

Section Results.
Context `{G : GoGit} `{L : !GoGitLaws G}.

Lemma hash_nonempty t d : ComputeHash t d <> ""%string.
Proof. intros H. pose proof (hash_length t d) as Hl. by rewrite H in Hl. Qed.

(** ** The persister *)

(** The store entry an object of a pool becomes. *)
Definition entry_of (o : Object) (k : string) (x : ObjectType * bytes) : Prop :=
  exists t, gitObjectType (Type_ o) = Ok t /\ k = ComputeHash t (Data o) /\ x = (t, Data o).

Lemma ValidType_type t : ValidType t = true -> exists ty, gitObjectType t = Ok ty.
Proof.
  unfold ValidType, gitObjectType. destruct (Ascii.eqb t ObjCommit); [eauto|].
  destruct (Ascii.eqb t ObjTree); [eauto|]. destruct (Ascii.eqb t ObjBlob); [eauto|done].
Qed.

(** Importing only adds to the object store; every entry it leaves is an old
    one or an object of the pool, under the hash of its own bytes. *)
Lemma ImportObjects_run E objs w r w' :
  Forall (fun o => ValidType (Type_ o) = true) objs -> ImportObjects E objs w = (r, w') ->
  w' = set_objects (w_objects w') w /\ (r = Ok tt \/ r = Err EImport) /\
  (forall k x, w_objects w' !! k = Some x ->
     w_objects w !! k = Some x \/ exists o, o ∈ objs /\ entry_of o k x) /\
  (forall k, is_Some (w_objects w !! k) -> is_Some (w_objects w' !! k)) /\
  (r = Ok tt -> forall o k x, o ∈ objs -> entry_of o k x -> is_Some (w_objects w' !! k)).
Proof.
  intros HF. revert w. induction HF as [|o objs Hv HF IH]; intros w; cbn [ImportObjects].
  { intros [= <- <-]. split_and!; auto; [by destruct w|].
    intros _ o k x Ho. by apply not_elem_of_nil in Ho. }
  destruct (ValidType_type _ Hv) as [t Ht]. rewrite Ht. unfold lift at 1.
  unfold mbind, ST_bind. destruct (e_import_ok E o); cbn [negb err_if lift].
  - intros H. destruct (IH _ H) as (Hw & Hr & Hold & Hmono & Hall).
    cbn [modify w_objects set_objects] in *. split_and!; try done.
    + intros k x Hk. apply Hold in Hk as [Hk|(o' & Ho' & He)]; [|right; exists o'; set_solver].
      apply lookup_insert_Some in Hk as [[<- <-]|[_ Hk]]; [|by left].
      right. exists o. split; [by left|]. by exists t.
    + intros k Hk. apply Hmono. destruct (decide (ComputeHash t (Data o) = k)) as [->|Hne].
      * rewrite lookup_insert_eq. done.
      * by rewrite lookup_insert_ne.
    + intros Hok o' k x [-> |Ho']%elem_of_cons He; [|by eapply Hall].
      destruct He as (t' & Ht' & -> & _). rewrite Ht in Ht'. injection Ht' as <-.
      apply Hmono. by rewrite lookup_insert_eq.
  - intros [= <- <-]. split_and!; auto; [by destruct w|done].
Qed.

(** ** The projection as the persister's last step *)

(** What publication leaves alone: it moves references, writes the task's
    worktree and admissions, and no row of the ledger. *)
Definition same_but_branch (w w' : World) : Prop :=
  w_objects w' = w_objects w /\ w_ledger w' = w_ledger w /\ w_events w' = w_events w /\
  w_bindings w' = w_bindings w /\ w_registry w' = w_registry w.

Lemma on_lineage_err h tip l e : on_lineage h tip l = Err e -> e = EFastForward.
Proof.
  induction l as [|c l IH]; cbn [on_lineage]; [done|]. destruct (_ || _); [done|].
  intros [H|(ok & _ & [H|(r & _ & H)]%bind_Err)]%bind_Err; [|by apply IH|by destruct ok].
  by destruct (is_ancestor _ _ _); simplify_eq/=.
Qed.

(** A publication that returned: the projection, the read-back and the delivery
    of the pending rows on the tip's lineage, in that order. *)
Record published (E : Env) (r : Repo) (taskID tip : string) (w w' : World) : Prop := {
  pb_known : RequireKnownContentOrigins (GetContentSnapshot taskID (w_index w)) = Ok tt;
  pb_steps : exists r' delivered T,
    FastForwardDelivered (e_host E) (e_orders E) (e_history E (w_objects w)) (w_objects w)
      (TaskBranchName taskID) tip r = (Ok tt, r') /\
    VerifyDelivered (e_host E) (e_orders E) (w_objects w) tip r' = Ok tt /\
    on_lineage (e_history E (w_objects w)) tip (GetContentSnapshot taskID (w_index w)) = Ok delivered /\
    RecordDelivered (e_now E) delivered (w_index w) = Ok T /\
    w' = set_index T (keep_repo taskID r' w) }.

Lemma publish_run E r taskID tip w res w' : publish E r taskID tip w = (res, w') ->
  same_but_branch w w' /\ (res = Ok tt \/ res = Err EFastForward) /\
  (res = Ok tt -> published E r taskID tip w w').
Proof.
  unfold publish. intros H.
  apply M_bind_run in H as [(T & w0 & [[= <-] <-]%get_eq & H)|(e & [? _]%get_eq & _)]; [|done].
  apply M_bind_run in H as [(os & w0 & [[= <-] <-]%get_eq & H)|(e & [? _]%get_eq & _)]; [|done].
  apply M_bind_run in H as [([] & w0 & [Hk ->]%lift_eq & H)|(e & [Hk ->]%lift_eq & ->)].
  2: { split_and!; [done| |done]. right. by destruct (RequireKnownContentOrigins _); simplify_eq/=. }
  apply res_map_err_Ok in Hk. destruct (FastForwardDelivered _ _ _ _ _ _ _) as [rf r'] eqn:Hf.
  apply M_bind_run in H as [([] & w1 & [_ <-]%modify_eq & H)|(e & [? _]%modify_eq & _)]; [|done].
  assert (same_but_branch w0 (keep_repo taskID r' w0)) as Hs by done.
  assert (forall e w', (@Err land_err unit e, w') = (res, keep_repo taskID r' w0) -> e = EFastForward ->
    same_but_branch w0 (keep_repo taskID r' w0) /\ (res = Ok tt \/ res = Err EFastForward) /\
    (res = Ok tt -> published E r taskID tip w0 (keep_repo taskID r' w0))) as Hfail.
  { intros e w2 [= <- _] ->. split_and!; [done|by right|done]. }
  apply M_bind_run in H as [([] & w1 & [Hrf <-]%lift_eq & H)|(e & [Hrf <-]%lift_eq & ->)].
  2: { apply (Hfail e _ eq_refl). by destruct rf; simplify_eq/=. }
  apply res_map_err_Ok in Hrf as ->.
  apply M_bind_run in H as [([] & w2 & [Hv <-]%lift_eq & H)|(e & [Hv <-]%lift_eq & ->)].
  2: { apply (Hfail e _ eq_refl). by destruct (VerifyDelivered _ _ _ _ _); simplify_eq/=. }
  apply res_map_err_Ok in Hv.
  apply M_bind_run in H as [(dl & w3 & [Hd <-]%lift_eq & H)|(e & [Hd <-]%lift_eq & ->)].
  2: { apply (Hfail e _ eq_refl). by eapply on_lineage_err. }
  apply M_bind_run in H as [(T & w4 & [HT <-]%lift_eq & H)|(e & [HT <-]%lift_eq & ->)].
  2: { apply (Hfail e _ eq_refl). by destruct (RecordDelivered _ _ _); simplify_eq/=. }
  apply res_map_err_Ok in HT. destruct (e_deliver_ok E).
  - apply modify_eq in H as [<- <-]. split_and!; [|by left|].
    + split_and!; try done. unfold w_ledger. cbn. by eapply RecordDelivered_commits.
    + intros _. split; [done|]. by exists r', dl, T.
  - apply lift_eq in H as [<- <-]. by apply (Hfail EFastForward _ eq_refl).
Qed.

(** The task's native worktree as the projection opens it. *)
Definition native_view (w : World) (taskID : string) (r : Repo) : Prop :=
  exists disk staged, w_native w !! taskID = Some (disk, staged) /\
    r = mkRepo (w_branches w) (TaskBranchName taskID) disk staged.

Lemma FastForward_run E taskID tip w res w' : FastForward E taskID tip w = (res, w') ->
  same_but_branch w w' /\ (res = Ok tt \/ res = Err EFastForward) /\
  (res = Ok tt -> exists r, native_view w taskID r /\ published E r taskID tip w w').
Proof.
  unfold FastForward. intros H.
  apply M_bind_run in H as [(n & w0 & [[= <-] <-]%get_eq & H)|(e & [? _]%get_eq & _)]; [|done].
  apply M_bind_run in H as [(bs & w0 & [[= <-] <-]%get_eq & H)|(e & [? _]%get_eq & _)]; [|done].
  destruct (w_native w !! taskID) as [[disk staged]|] eqn:Hn.
  2: { apply lift_eq in H as [<- <-]. split_and!; [done|by right|done]. }
  destruct (e_target E taskID).
  2: { apply lift_eq in H as [<- <-]. split_and!; [done|by right|done]. }
  apply publish_run in H as (? & ? & Hp). split_and!; [done|done|].
  intros Hok. eexists. split; [|by apply Hp]. by exists disk, staged.
Qed.

(** A published tip is where the task's branch is. *)
Lemma published_branch E r taskID tip w w' : published E r taskID tip w w' ->
  w_branches w' !! TaskBranchName taskID = Some tip.
Proof.
  intros [_ (r' & dl & T & Hf & _ & _ & _ & ->)]. cbn. unfold FastForwardDelivered in Hf.
  destruct (plan _ _ _ _ _ _ _) as [[cur old]|]; [|done].
  destruct (materializeCommit _ _ _ _ _ _) as [[[]|] d]; [|done].
  destruct (bool_decide _); [|done]. injection Hf as <-. apply lookup_insert_eq.
Qed.

(** ** The persister *)

Definition landed_rows (req : LandRequest) (landed : list LandedCommit) : list TaskCommitInsert :=
  map (land_row (lr_TaskID req)) landed.
(** The ledger rows of a batch appended to world [w]. *)
Definition rows (E : Env) (req : LandRequest) (landed : list LandedCommit) (w : World) : list CommitRecord :=
  number (t_commit_seq (w_index w)) (e_now E) (landed_rows req landed).

Lemma append_rows_run E ins w r w' : append_rows E ins w = (r, w') ->
  (r = Ok tt /\ exists T, AppendTaskCommits (e_now E) ins (w_index w) = Ok T /\ w' = set_index T w) \/
  (r = Err EAppend /\ w' = w).
Proof.
  unfold append_rows. intros H.
  apply M_bind_run in H as [(T & w0 & [[= <-] <-]%get_eq & H)|(e & [? _]%get_eq & _)]; [|done].
  apply M_bind_run in H as [(T & w0 & [HT ->]%lift_eq & H)|(e & [HT ->]%lift_eq & ->)].
  2: { right. by destruct (AppendTaskCommits _ _ _); simplify_eq/=. }
  apply res_map_err_Ok in HT. destruct (e_append_ok E).
  - apply modify_eq in H as [<- <-]. left. split; [done|]. by exists T.
  - apply lift_eq in H as [<- <-]. by right.
Qed.

(** Where the persister can stop after the import, in order. *)
Inductive persisted (E : Env) (req : LandRequest) (landed : list LandedCommit) (w1 : World)
    : res land_err unit -> World -> Prop :=
  | ps_append : persisted E req landed w1 (Err EAppend) w1
  | ps_ff T lc w2 : last landed = Some lc ->
      AppendTaskCommits (e_now E) (landed_rows req landed) (w_index w1) = Ok T ->
      FastForward E (lr_TaskID req) (CommitID (lc_Commit lc)) (set_index T w1) = (Err EFastForward, w2) ->
      persisted E req landed w1 (Err EFastForward) w2
  | ps_done T lc w2 r w3 : last landed = Some lc ->
      AppendTaskCommits (e_now E) (landed_rows req landed) (w_index w1) = Ok T ->
      FastForward E (lr_TaskID req) (CommitID (lc_Commit lc)) (set_index T w1) = (Ok tt, w2) ->
      (r = Err EAudit /\ w3 = w2 \/
       r = Ok tt /\ w3 = set_events (w_events w2 ++ [mkEvent (lr_SandboxID req) (lr_TaskID req)]) w2) ->
      persisted E req landed w1 r w3.

Lemma Persist_run E req pool landed w r w' :
  landed <> [] -> Persist E req pool landed w = (r, w') ->
  exists w1 ri, ImportObjects E pool w = (ri, w1) /\
    ((exists e, ri = Err e /\ r = Err e /\ w' = w1) \/ (ri = Ok tt /\ persisted E req landed w1 r w')).
Proof.
  intros Hne. unfold Persist, Lander_Land.
  destruct (last landed) as [lc|] eqn:Hl; [|by apply last_None in Hl].
  intros H. apply M_bind_run in H as [([] & w3 & H3 & H)|(e & H & ->)].
  - apply M_bind_Ok in H3 as ([] & w1 & Hi & H3). apply M_bind_Ok in H3 as ([] & w2 & Ha & Hf).
    exists w1, (Ok tt). split; [done|]. right. split; [done|].
    apply append_rows_run in Ha as [[_ (T & HT & ->)]|[? _]]; [|done].
    apply (ps_done E req landed w1 T lc w3 r w' Hl HT Hf). destruct (e_event_ok E).
    + apply modify_eq in H as [<- <-]. by right.
    + apply lift_eq in H as [<- <-]. by left.
  - apply M_bind_run in H as [([] & w1 & Hi & H)|(e1 & Hi & [= <-])].
    2: { exists w', (Err e). split; [done|]. left. eauto. }
    exists w1, (Ok tt). split; [done|]. right. split; [done|].
    apply M_bind_run in H as [([] & w2 & Ha & Hf)|(e1 & Ha & [= <-])];
      apply append_rows_run in Ha as [[? Hx]|[Hx ->]]; try done.
    + destruct Hx as (T & HT & ->).
      destruct (FastForward_run _ _ _ _ _ _ Hf) as (_ & [?|[= ->]] & _); [done|].
      by eapply ps_ff.
    + injection Hx as ->. apply ps_append.
Qed.

(** Once appended, the rows stay, whatever publication does. *)
Lemma persisted_ledger E req landed w1 r w' : persisted E req landed w1 r w' ->
  (r = Err EAppend /\ w' = w1) \/
  (r <> Err EAppend /\ w_ledger w' = w_ledger w1 ++ rows E req landed w1 /\
   w_objects w' = w_objects w1).
Proof.
  assert (forall T h w2 rf, AppendTaskCommits (e_now E) (landed_rows req landed) (w_index w1) = Ok T ->
    FastForward E (lr_TaskID req) h (set_index T w1) = (rf, w2) ->
    w_ledger w2 = w_ledger w1 ++ rows E req landed w1 /\ w_objects w2 = w_objects w1) as Hrows.
  { intros T h w2 rf HT (( Ho & Hl & _) & _)%FastForward_run. rewrite Ho, Hl. cbn. split; [|done].
    by eapply AppendTaskCommits_commits. }
  intros Hp. inversion Hp as [|T lc w2 Hl HT Hf|T lc w2 r2 w3 Hl HT Hf Hr]; subst; [by left|right..].
  - split; [done|]. by eapply Hrows.
  - destruct (Hrows _ _ _ _ HT Hf) as [? ?].
    destruct Hr as [[-> ->]|[-> ->]]; (split; [done|]); by split.
Qed.

(** ** Verification of a batch *)

(** What the orchestrator checked of one landed commit before anything was
    imported: the pool's bytes under its id, the three bindings, the tree
    binding against the parent's files, and the provenance gate. *)
Definition verified (E : Env) (req : LandRequest) (rs : bool) (byID : gmap string bytes)
    (pool : list Object) (w : World) (i : nat) (lc : LandedCommit) : Prop :=
  let c := lc_Commit lc in
  lc_Position lc = lr_BasePosition req + Z.of_nat i /\
  exists data parentFiles att,
    byID !! CommitID c = Some data /\ String_ (c_TaskID c) = lr_TaskID req /\
    VerifyBinding data (Some c) = Ok tt /\
    ParentFileSet (ParentID c) w = (Ok parentFiles, w) /\
    VerifyTreeBinding (e_range_files' E) pool (Some c) parentFiles = Ok tt /\
    EnforceRequireSandbox rs (lr_SandboxID req) (Some c) att (e_verify E) = Ok (lc_SandboxID lc).

Lemma verifyClaim_Ok E req rs byID pool i cc w lc w' :
  verifyClaim E req rs byID pool i cc w = (Ok lc, w') ->
  w' = w /\ cc_Commit cc = Some (lc_Commit lc) /\ verified E req rs byID pool w i lc.
Proof.
  intros H. pose proof (keeps_run _ _ _ _ _ (verifyClaim_reads E req rs byID pool i cc) H) as <-.
  split; [done|]. unfold verifyClaim in H. destruct (cc_Commit cc) as [c|]; [|done].
  apply M_bind_Ok in H as (data & w1 & [Hd <-]%lift_eq & H).
  apply M_bind_Ok in H as ([] & w1 & [Ht <-]%lift_eq & H).
  apply M_bind_Ok in H as ([] & w1 & [Hv <-]%lift_eq & H).
  apply M_bind_Ok in H as (pf & w2 & Hp & H).
  pose proof (keeps_run _ _ _ _ _ (ParentFileSet_reads (ParentID c)) Hp) as <-.
  apply M_bind_Ok in H as ([] & w2 & [Hb <-]%lift_eq & H).
  apply M_bind_Ok in H as (sb & w2 & [Hs <-]%lift_eq & H).
  apply mret_eq in H as [[= <-] _]. split; [done|]. split; [done|].
  apply res_of_option_Ok in Hd. apply err_if_Ok, negb_false_iff, String.eqb_eq in Ht.
  exists data, pf, (cc_Attestation cc). by split_and!.
Qed.

Lemma verifyBatch_Ok E req rs byID pool i ccs w landed w' :
  verifyBatch E req rs byID pool i ccs w = (Ok landed, w') ->
  w' = w /\ map cc_Commit ccs = map (fun lc => Some (lc_Commit lc)) landed /\
  forall j lc, landed !! j = Some lc -> verified E req rs byID pool w (i + j) lc.
Proof.
  revert i landed w'. induction ccs as [|cc ccs IH]; intros i landed w'; cbn [verifyBatch].
  { intros H. apply mret_eq in H as [[= <-] <-]. split_and!; try done. }
  intros H. apply M_bind_Ok in H as (lc & w1 & Hc & H).
  apply verifyClaim_Ok in Hc as (-> & Hcc & Hver).
  apply M_bind_Ok in H as (ls & w1 & Hb & H). apply IH in Hb as (-> & Hm & Hall).
  apply mret_eq in H as [[= <-] <-]. split; [done|]. cbn [map]. rewrite Hcc, Hm. split; [done|].
  intros [|j] lc' Hj; cbn in Hj; [injection Hj as <-; by rewrite Nat.add_0_r|].
  rewrite <- Nat.add_succ_comm. by apply Hall.
Qed.

(** ** The service's half *)

Lemma registry_after ids pool r k :
  fold_left (fun r id => delete id r) ids (fold_left (fun r id => <[id := pool]> r) ids r) !! k
  = if decide (k ∈ ids) then None else (r : gmap string (list Object)) !! k.
Proof.
  assert (forall ids (r : gmap string (list Object)),
    fold_left (fun r id => delete id r) ids r !! k = if decide (k ∈ ids) then None else r !! k) as Hd.
  { clear. induction ids as [|id ids IH]; intros r; cbn [fold_left]; [by rewrite decide_False by set_solver|].
    rewrite IH. destruct (decide (k ∈ ids)); [by rewrite decide_True by set_solver|].
    destruct (decide (k = id)) as [->|Hne].
    - rewrite lookup_delete_eq. by rewrite decide_True by set_solver.
    - rewrite lookup_delete_ne by done. by rewrite decide_False by set_solver. }
  assert (forall ids (r : gmap string (list Object)), k ∉ ids ->
    fold_left (fun r id => <[id := pool]> r) ids r !! k = r !! k) as Hi.
  { clear. induction ids as [|id ids IH]; intros r Hk; cbn [fold_left]; [done|].
    rewrite IH by set_solver. apply lookup_insert_ne. set_solver. }
  rewrite Hd. destruct (decide (k ∈ ids)); [done|]. by apply Hi.
Qed.

(** One claim: the commit derived from the bytes, against the parent's files as
    they are resolved while the pool is registered. *)
Definition claims (E : Env) (tid : TaskID) (o : sandboxOrigin) (pool : list Object) (rs : bool)
    (w : World) (pc : PoolCommit) (cc : ClaimedCommit) : Prop :=
  exists pf c, ParentFileSet (pc_ParentID pc) w = (Ok pf, w) /\
    DeriveLandedCommit (e_range_files E) (pc_Data pc) pool tid pf = Ok c /\ cc_Commit cc = Some c.

Lemma claimCommit_Ok E tid o pool rs pc w cc w' :
  claimCommit E tid o pool rs pc w = (Ok cc, w') -> w' = w /\ claims E tid o pool rs w pc cc.
Proof.
  intros H. pose proof (keeps_run _ _ _ _ _ (claimCommit_reads E tid o pool rs pc) H) as <-.
  split; [done|]. unfold claimCommit in H. apply M_bind_Ok in H as (pf & w1 & Hp & H).
  pose proof (keeps_run _ _ _ _ _ (ParentFileSet_reads (pc_ParentID pc)) Hp) as <-.
  apply M_bind_Ok in H as (c & w1 & [Hc <-]%lift_eq & H). exists pf, c. split_and!; try done.
  destruct rs; [apply M_bind_Ok in H as (att & w1 & _ & H)|];
    apply mret_eq in H as [[= <-] _]; done.
Qed.

Lemma mapM_claims E tid o pool rs pcs w ccs w' :
  mapM_M (claimCommit E tid o pool rs) pcs w = (Ok ccs, w') ->
  w' = w /\ Forall2 (claims E tid o pool rs w) pcs ccs.
Proof.
  revert ccs w'. induction pcs as [|pc pcs IH]; intros ccs w'; cbn [mapM_M].
  { intros H. apply mret_eq in H as [[= <-] <-]. by split. }
  intros H. apply M_bind_Ok in H as (cc & w1 & Hc & H). apply claimCommit_Ok in Hc as [-> Hc].
  apply M_bind_Ok in H as (bs & w1 & Hb & H). apply IH in Hb as [-> Hb].
  apply mret_eq in H as [[= <-] <-]. split; [done|]. by constructor.
Qed.

Lemma buildRequest_Ok E tid o b pool chain w req w' :
  buildRequest E tid o b pool chain w = (Ok req, w') ->
  exists rs byID w1, CommitObjectsByID pool = Ok byID /\
    Forall2 (claims E tid o pool rs w1) chain (lr_Commits req) /\
    lr_TaskID req = String_ tid /\ lr_SandboxID req = or_id o /\ lr_BasePosition req = b /\
    same_host w w' /\ same_host w w1 /\ w_pools w' = w_pools w /\
    forall k, w_registry w' !! k = if decide (is_Some (byID !! k)) then None else w_registry w !! k.
Proof.
  unfold buildRequest. intros H. apply M_bind_Ok in H as (rs & w1 & Hp & H).
  pose proof (keeps_run _ _ _ _ _ LoadPolicy_keeps Hp) as Hh1.
  destruct (LoadPolicy_buffers w) as [Hpp Hpr]. rewrite Hp in Hpp, Hpr. cbn [snd] in Hpp, Hpr.
  unfold Register in H. apply M_bind_Ok in H as (ids & w2 & Hreg & H).
  apply M_bind_Ok in Hreg as (ids' & w3 & [Hids <-]%lift_eq & Hreg).
  apply M_bind_Ok in Hreg as ([] & w3 & [_ <-]%modify_eq & Hreg).
  apply mret_eq in Hreg as [[= <-] <-].
  unfold commitIDs in Hids. apply bind_Ok in Hids as (byID & Hby & [= <-]).
  apply with_defer_run in H as (w3 & Hrun & ->).
  apply M_bind_Ok in Hrun as (ccs & w4 & Hm & Hrun). apply mapM_claims in Hm as [-> Hc].
  apply mret_eq in Hrun as [[= <-] <-].
  eexists rs, byID, _. split_and!; try done; try exact Hc.
  intros k. unfold Deregister. cbn [w_registry set_registry]. rewrite registry_after, Hpr.
  assert (k ∈ map fst (e_range_ids E byID) <-> is_Some (byID !! k)) as Hk.
  { rewrite (iter_perm (e_range_ids E)), list_elem_of_fmap. split.
    - intros ([k' d] & -> & Hin%elem_of_map_to_list). by exists d.
    - intros [d Hd]. exists (k, d). split; [done|]. by apply elem_of_map_to_list. }
  destruct (decide (k ∈ _)), (decide (is_Some _)); tauto || done.
Qed.

Lemma newChain_Ok E t pool w chain b w' : newChain E t pool w = (Ok (chain, b), w') ->
  w' = w /\ b = Z.of_nat (length (GetTaskCommits t (w_index w))) /\
  (CommitChain (e_range_ids E) (e_range_commits E) pool
     (skip_landed (map cr_CommitHash (GetTaskCommits t (w_index w)))
        (w_objects w)) None).1 = Ok chain.
Proof.
  intros H. pose proof (keeps_run _ _ _ _ _ (newChain_reads E t pool) H) as <-. split; [done|].
  unfold newChain, read_rows in H. apply M_bind_Ok in H as (ex & w1 & Hg & H).
  destruct (e_ledger_ok E); [|done]. apply get_eq in Hg as [[= <-] <-].
  apply M_bind_Ok in H as (os & w1 & [[= <-] <-]%get_eq & H).
  destruct (CommitChain _ _ _ _ _) as [c sk]. apply M_bind_Ok in H as ([] & w1 & _ & H).
  apply M_bind_Ok in H as (c' & w2 & [Hc <-]%lift_eq & H).
  apply mret_eq in H as [[= <- <-] _]. by split.
Qed.

(** ** The stages of a whole land *)

Record reached (E : Env) (tid : TaskID) (o : sandboxOrigin) (w : World)
    (pool : list Object) (chain : list PoolCommit) (req : LandRequest) (rs : bool)
    (byID : gmap string bytes) (landed : list LandedCommit) (wb w1 : World) : Prop := {
  re_types : Forall (fun o => ValidType (Type_ o) = true) pool;
  re_pull : (Pull E (or_id o) w).1 = Ok pool;
  re_raw : exists raw, DecodeObjects (e_limits E) raw = Ok pool;
  re_index : CommitObjectsByID pool = Ok byID;
  re_chain : (CommitChain (e_range_ids E) (e_range_commits E) pool
     (skip_landed (map cr_CommitHash (GetTaskCommits (String_ tid) (w_index w)))
        (w_objects w)) None).1 = Ok chain;
  re_new : chain <> [];
  re_claims : exists rs', Forall2 (claims E tid o pool rs' wb) chain (lr_Commits req);
  re_task : lr_TaskID req = String_ tid;
  re_sandbox : lr_SandboxID req = or_id o;
  re_base : lr_BasePosition req
    = Z.of_nat (length (GetTaskCommits (String_ tid) (w_index w)));
  re_batch : verifyBatch E req rs byID pool 0 (lr_Commits req) w1 = (Ok landed, w1);
  re_hostb : same_host w wb;
  re_host : same_host w w1;
  re_registry : forall k, w_registry w1 !! k
    = if decide (is_Some (byID !! k)) then None else w_registry w !! k }.

Lemma landOnce_stages E tid o w r w' : landOnce E tid o w = (r, w') ->
  (same_host w w' /\ ((exists e, r = Err e /\ persist_err e = false) \/
                      r = Ok (mkSummary 0 (TaskBranchName (String_ tid))))) \/
  exists pool chain req rs byID landed wb w1 rp,
    reached E tid o w pool chain req rs byID landed wb w1 /\
    Persist E req pool landed w1 = (rp, w') /\
    r = (_ ← rp; Ok (mkSummary (length chain) (TaskBranchName (String_ tid)))).
Proof.
  unfold landOnce. intros H.
  apply M_bind_run in H as [(pool & wp & Hpull & H)|(e & Hpull & ->)];
    pose proof (keeps_run _ _ _ _ _ (Pull_keeps E (or_id o)) Hpull) as Hh.
  2: { left. split; [done|]. left. exists e. split; [done|].
       apply (Pull_quiet E (or_id o) w). by rewrite Hpull. }
  destruct (Pull_Ok _ _ _ _ _ Hpull) as (raw & Hraw & Hwp).
  apply M_bind_run in H as [([chain b] & wc & Hc & H)|(e & Hc & ->)];
    apply on_error_run in Hc as [(x & Hx & Hc)|(e' & w2 & He & Hc & ->)]; try done.
  2: { injection He as <-. left.
       pose proof (keeps_run _ _ _ _ _ (newChain_reads E (String_ tid) pool) Hc) as <-.
       split; [exact Hh|]. left. exists e. split; [done|].
       apply (newChain_quiet E (String_ tid) pool wp). by rewrite Hc. }
  injection Hx as <-. apply newChain_Ok in Hc as (-> & -> & Hchain).
  destruct chain as [|pc chain].
  { left. apply M_bind_run in H as [([] & w2 & [_ <-]%modify_eq & H)|(e & [? _]%modify_eq & _)];
      [|done]. apply mret_eq in H as [<- <-]. split; [exact Hh|by right]. }
  apply M_bind_run in H as [(req & wr & Hb & H)|(e & Hb & ->)];
    apply on_error_run in Hb as [(x & Hx & Hbuild)|(e' & w3 & He & Hbuild & ->)]; try done;
    pose proof (keeps_run _ _ _ _ _ (buildRequest_keeps E tid o _ pool _) Hbuild) as Hh3.
  2: { injection He as <-. left. split; [etransitivity; [exact Hh|exact Hh3]|]. left. exists e.
       split; [done|]. apply (buildRequest_quiet E tid o
         (Z.of_nat (length (GetTaskCommits (String_ tid) (w_index wp)))) pool
         (pc :: chain) wp). by rewrite Hbuild. }
  injection Hx as <-.
  apply buildRequest_Ok in Hbuild as (rs' & byID & wb & Hby & Hcl & Ht & Hs & Hbp & _ & Hhb & Hpl & Hreg).
  destruct (Hh) as (Ho1 & Hl1 & _).
  assert (forall r1, LandOrchestrator_Land E req wr = (r1, w') ->
    (same_host w w' /\ exists e, r1 = Err e /\ persist_err e = false) \/
    exists rs landed w1, reached E tid o w pool (pc :: chain) req rs byID landed wb w1 /\
      Persist E req pool landed w1 = (r1, w')) as Horch.
  { intros r1 [[Hh4 He]|(rs & raw' & pool' & byID' & landed & w1 & Hr' & Hd' & Hby' & _ & Hbatch &
      Hh4 & Hreg4 & _ & Hper)]%orchestrator_stages.
    - left. split; [|done]. by etransitivity; [|etransitivity].
    - right. exists rs, landed, w1.
      assert (pool' = pool) as ->.
      { rewrite Hs, Hpl, Hwp in Hr'. cbn in Hr'. rewrite lookup_insert_eq in Hr'. congruence. }
      assert (byID' = byID) as -> by congruence. split; [|done]. split; try done.
      + by eapply DecodeObjects_types.
      + by rewrite Hpull.
      + by exists raw.
      + by rewrite <- Ho1, <- Hl1.
      + by exists rs'.
      + by rewrite Hbp, Hl1.
      + by etransitivity.
      + by etransitivity; [|etransitivity].
      + intros k. rewrite Hreg4, Hreg. by rewrite Hwp. }
  apply M_bind_run in H as [([] & w4 & Ho & H)|(e & Ho & ->)].
  - apply mret_eq in H as [<- ->]. apply Horch in Ho as [[_ (e & ? & _)]|(rs & landed & w1 & Hre & Hp)];
      [done|]. right. by exists pool, (pc :: chain), req, rs, byID, landed, wb, w1, (Ok tt).
  - apply Horch in Ho as [[Hsame (e' & [= <-] & Hq)]|(rs & landed & w1 & Hre & Hp)].
    + left. split; [done|]. left. by exists e.
    + right. by exists pool, (pc :: chain), req, rs, byID, landed, wb, w1, (Err e).
Qed.

Lemma reached_nonempty E tid o w pool chain req rs byID landed wb w1 :
  reached E tid o w pool chain req rs byID landed wb w1 ->
  length landed = length chain /\ landed <> [] /\ map cc_Commit (lr_Commits req)
    = map (fun lc => Some (lc_Commit lc)) landed.
Proof.
  intros R. destruct (verifyBatch_Ok _ _ _ _ _ _ _ _ _ _ (re_batch _ _ _ _ _ _ _ _ _ _ _ _ R))
    as (_ & Hm & _).
  destruct (re_claims _ _ _ _ _ _ _ _ _ _ _ _ R) as [rs' HF]. apply Forall2_length in HF.
  apply (f_equal length) in Hm as Hl. rewrite !length_map in Hl.
  pose proof (re_new _ _ _ _ _ _ _ _ _ _ _ _ R) as Hn.
  split_and!; [congruence| |done]. destruct chain; [done|]. intros ->. cbn in *. congruence.
Qed.

(** ** The theorems *)

(** C1. FR-17.5: a land is all-or-nothing. Any run that ends in an error other than
    the persister's own leaves the host exactly as it was: no object imported,
    no ledger row, no branch moved, no event. In every run the ledger is either
    unchanged or has gained, at its end and in order, the rows of a whole batch
    every commit of which was verified first. *)
Theorem landOnce_atomic E tid o w r w' :
  landOnce E tid o w = (r, w') ->
  (forall e, r = Err e -> persist_err e = false -> same_host w w') /\
  (w_ledger w' = w_ledger w \/
   exists req rs byID pool landed w1, same_host w w1 /\ lr_TaskID req = String_ tid /\
     lr_SandboxID req = or_id o /\ CommitObjectsByID pool = Ok byID /\
     (forall i lc, landed !! i = Some lc -> verified E req rs byID pool w1 i lc) /\
     w_ledger w' = w_ledger w ++ rows E req landed w /\
     (forall n, r = Ok n -> ls_Commits n = length landed)).
Proof.
  intros H. apply landOnce_stages in H as [[Hh Hr]|(pool & chain & req & rs & byID & landed & wb & w1 & rp & R & Hp & ->)].
  { split; [done|]. left. unfold w_ledger. by destruct Hh as (_ & -> & _). }
  destruct (reached_nonempty _ _ _ _ _ _ _ _ _ _ _ _ R) as (Hlen & Hne & _). destruct R.
  destruct re_host0 as (Hho & Hhl & Hhb & Hhn & Hhe & Hhd).
  apply Persist_run in Hp as (w2 & ri & Hi & Hp); [|done].
  apply ImportObjects_run in Hi as (Hw2 & Hri & _); [|done].
  assert (w_index w2 = w_index w) as Hl2 by (rewrite Hw2; cbn; done).
  destruct Hp as [(e & -> & -> & ->)|(-> & Hp)].
  { split; [|left; by unfold w_ledger; rewrite Hl2]. intros e' [= <-]. by destruct Hri as [?|[= ->]]. }
  split.
  { intros e He Hq. inversion Hp as [|T lc w5 _ _ _|T lc w5 r5 w6 _ _ _ Hr]; subst; cbn in He;
      [by simplify_eq|by simplify_eq|]. destruct Hr as [[-> _]|[-> _]]; by simplify_eq/=. }
  apply persisted_ledger in Hp as [[_ ->]|(_ & Hl & _)]; [left; by unfold w_ledger; rewrite Hl2|].
  right. exists req, rs, byID, pool, landed, w1. unfold w_ledger, rows in *. rewrite Hl2 in Hl.
  split_and!; try done.
  - apply (verifyBatch_Ok _ _ _ _ _ 0 _ _ _ _ re_batch0).
  - intros n Hn. destruct rp as [[]|]; [|done]. injection Hn as <-. cbn. congruence.
Qed.

(** C15. What a land that succeeds with new commits recorded. Each row, in branch
    order from the task's current length on, names the host-computed hash of
    commit bytes in the pulled pool, with the audit fields those bytes carry,
    the recomputed content hash, a diff that matches the landed tree, the bound
    task, and either no provenance or the bound sandbox under an attestation
    that verified. The branch was moved to the last of them, and the event
    recorded. *)
Theorem landOnce_records E tid o w s w' :
  landOnce E tid o w = (Ok s, w') ->
  ls_Commits s = 0%nat /\ same_host w w' \/
  exists pool landed lc,
    (exists raw, DecodeObjects (e_limits E) raw = Ok pool) /\
    length landed = ls_Commits s /\ last landed = Some lc /\
    w_ledger w' = w_ledger w ++
      number (t_commit_seq (w_index w)) (e_now E) (map (land_row (String_ tid)) landed) /\
    w_branches w' !! TaskBranchName (String_ tid) = Some (CommitID (lc_Commit lc)) /\
    w_events w' = w_events w ++ [mkEvent (or_id o) (String_ tid)] /\
    (forall ob k x, ob ∈ pool -> entry_of ob k x -> is_Some (w_objects w' !! k)) /\
    forall i l, landed !! i = Some l ->
      lc_Position l = Z.of_nat (length (GetTaskCommits (String_ tid) (w_index w)) + i) /\
      String_ (c_TaskID (lc_Commit l)) = String_ tid /\
      (exists data pf, mkObject ObjCommit data ∈ pool /\
         CommitID (lc_Commit l) = ComputeHash CommitObject data /\
         VerifyBinding data (Some (lc_Commit l)) = Ok tt /\
         VerifyTreeBinding (e_range_files' E) pool (Some (lc_Commit l)) pf = Ok tt) /\
      (lc_SandboxID l = None \/ lc_SandboxID l = Some (or_id o) /\
         exists a, e_verify E (Some a) = Ok tt /\ at_CommitHash a = CommitID (lc_Commit l) /\
           at_ContentHash a = ContentHash (lc_Commit l) /\ at_SandboxID a = or_id o).
Proof.
  intros H. apply landOnce_stages in H as [[Hh [(e & ? & _)|[= ->]]]|
    (pool & chain & req & rs & byID & landed & wb & w1 & rp & R & Hp & Hs)]; [done|by left|].
  destruct rp as [[]|]; [|done]. injection Hs as ->. right.
  destruct (reached_nonempty _ _ _ _ _ _ _ _ _ _ _ _ R) as (Hlen & Hne & _). destruct R.
  destruct re_host0 as (Hho & Hhl & Hhb & Hhn & Hhe & Hhd).
  apply Persist_run in Hp as (w2 & ri & Hi & Hp); [|done].
  apply ImportObjects_run in Hi as (Hw2 & Hri & _ & _ & Hall); [|done].
  destruct Hp as [(e & -> & ? & _)|(-> & Hp)]; [done|].
  assert (w_index w2 = w_index w /\ w_events w2 = w_events w)
    as (Hl2 & He2) by (rewrite Hw2; cbn; done).
  pose proof (persisted_ledger _ _ _ _ _ _ Hp) as [[? _]|(_ & Hl & Hob)]; [done|].
  inversion Hp as [| |T lc w3 r3 w4 Hlast HT Hf Hr]; subst r3 w4.
  destruct Hr as [[? _]|[_ ->]]; [done|].
  destruct (FastForward_run _ _ _ _ _ _ Hf) as ((_ & _ & Hev & _) & _ & Hpub).
  destruct (Hpub eq_refl) as (r & _ & Hpb). apply published_branch in Hpb.
  exists pool, landed, lc. cbn [w_branches w_events w_objects set_events ls_Commits] in *.
  unfold w_ledger, rows, landed_rows in Hl. rewrite Hl2, re_task0 in Hl.
  split_and!; try done.
  { by rewrite <- re_task0. }
  { rewrite Hev, re_task0, re_sandbox0. cbn. by rewrite He2. }
  { intros ob k x Hin He. rewrite Hob. by apply (Hall eq_refl ob k x). }
  intros i l Hi. destruct (verifyBatch_Ok _ _ _ _ _ 0 _ _ _ _ re_batch0) as (_ & _ & Hver).
  destruct (Hver i l Hi) as (Hpos & data & pf & att & Hd & Ht & Hvb & _ & Hvt & Hg).
  rewrite re_base0 in Hpos. split; [lia|]. split; [congruence|]. split.
  - exists data, pf. apply (CommitObjectsByID_spec _ _ re_index0) in Hd as [? ?]. by split_and!.
  - destruct (lc_SandboxID l) as [sid|]; [right|by left].
    apply (proj2 (EnforceRequireSandbox_exact _ _ _ _ _)) in Hg
      as (_ & -> & c & a & [= <-] & -> & ? & ? & ? & ?). rewrite re_sandbox0 in *.
    split; [done|]. exists a. by split_and!.
Qed.

Lemma on_lineage_elem h tip l recs c : on_lineage h tip l = Ok recs -> c ∈ l ->
  co_Origin c = OriginLand -> co_State c = AdmissionPending ->
  is_ancestor h (cr_CommitHash (co_Row c)) tip = Some true -> co_Row c ∈ recs.
Proof.
  intros H Hin Ho Hs Ha. revert recs H. induction l as [|c' l IH]; intros recs H; cbn [on_lineage] in H;
    [by apply not_elem_of_nil in Hin|].
  apply elem_of_cons in Hin as [<-|Hin].
  - rewrite Ho, Hs, !String.eqb_refl, Ha in H. cbn [negb orb res_of_option mbind res_bind] in H.
    apply bind_Ok in H as (rest & _ & [= <-]). by left.
  - destruct (_ || _); [by apply IH|]. apply bind_Ok in H as (ok & _ & H).
    apply bind_Ok in H as (rest & Hr & [= <-]). specialize (IH Hin rest Hr). destruct ok; [by right|done].
Qed.

(** What a consumer finds after a land of the task [t] into the world [w]: the
    branch's tip, read back from the host's native worktree, and no row of the
    task whose origin is unknown or, in the tip's history, not yet content. *)
Definition delivered_at (E : Env) (w : World) (t : string) : Prop :=
  exists tip disk staged, w_branches w !! TaskBranchName t = Some tip /\
    w_native w !! t = Some (disk, staged) /\
    VerifyDelivered (e_host E) (e_orders E) (w_objects w) tip
      (mkRepo (w_branches w) (TaskBranchName t) disk staged) = Ok tt /\
    forall r, r ∈ t_commits (w_index w) -> cr_TaskID r = t ->
      row_status (w_index w) r <> Unknown /\
      (is_ancestor (e_history E (w_objects w)) (cr_CommitHash r) tip = Some true ->
       is_content (row_status (w_index w) r) = true).

(** C2. Success means delivered. When a land reports that it landed commits, the
    task's branch is at a tip whose tree the host's native worktree was read back
    to hold, byte for byte and mode for mode; every row the ledger has for a
    commit in that tip's history is content that consumers may use, none of the
    task's rows is of unknown origin, and the tables are still well-formed. *)
Theorem land_delivers E tid o w s w' :
  ledger_wf (w_index w) -> landOnce E tid o w = (Ok s, w') -> ls_Commits s <> 0%nat ->
  let t := String_ tid in
  ledger_wf (w_index w') /\ delivered_at E w' t.
Proof.
  intros W H Hs t. apply landOnce_stages in H as [[_ [(e & ? & _)|[= ->]]]|
    (pool & chain & req & rs & byID & landed & wb & w1 & rp & R & Hp & Hr)]; [done|done|].
  destruct rp as [[]|]; [|done]. clear Hr.
  destruct (reached_nonempty _ _ _ _ _ _ _ _ _ _ _ _ R) as (_ & Hne & _). destruct R.
  destruct re_host0 as (_ & Hix & _).
  apply Persist_run in Hp as (w2 & ri & Hi & Hp); [|done].
  apply ImportObjects_run in Hi as (Hw2 & _); [|done].
  destruct Hp as [(e & -> & ? & _)|(-> & Hp)]; [done|].
  inversion Hp as [| |T lc w3 r3 w4 Hlast HT Hf Hr]; subst r3 w4. destruct Hr as [[? _]|[_ ->]]; [done|].
  assert (w_index w2 = w_index w) as Hix2 by (rewrite Hw2; cbn; done). rewrite Hix2 in HT.
  pose proof (append_refines (e_now E) (landed_rows req landed) (w_index w) W) as Ha.
  rewrite HT in Ha. destruct Ha as [WT _].
  apply FastForward_run in Hf as ((Hob & _) & _ & Hpub).
  destruct (Hpub eq_refl) as (r & (disk & staged & _ & ->) & Hpb). rewrite re_task0 in Hpb. fold t in Hpb.
  pose proof (published_branch _ _ _ _ _ _ Hpb) as Hbr.
  destruct Hpb as [Hk (r' & dl & T' & Hff & Hv & Hl & Hd & ->)]. cbn in Hbr.
  unfold keep_repo in *.
  cbn [w_index set_events set_index w_branches w_objects w_native set_native set_branches] in *.
  apply RequireKnown_Ok in Hk.
  split; [pose proof (deliver_refines (e_now E) dl T WT) as Hx; rewrite Hd in Hx; apply Hx|].
  exists (CommitID (lc_Commit lc)), (rp_disk r'), (rp_staged r').
  cbn [w_index set_events set_index w_branches w_objects w_native set_native set_branches].
  rewrite lookup_insert_eq.
  assert (rp_bound r' = TaskBranchName t) as Hbound.
  { clear -Hff. unfold FastForwardDelivered in Hff. destruct (plan _ _ _ _ _ _ _) as [[cur old]|]; [|done].
    destruct (materializeCommit _ _ _ _ _ _) as [[[]|] d]; [|done].
    destruct (bool_decide _); [|done]. by injection Hff as <-. }
  split_and!; [done|done| |].
  - rewrite <- Hbound. by destruct r'.
  - intros rw Hrw Ht. rewrite (RecordDelivered_commits _ _ _ _ Hd) in Hrw.
    destruct (RecordDelivered_status _ _ _ _ rw WT Hd Hrw) as (_ & Hkeep & Hcase & Hpen).
    assert (content_of T rw ∈ GetContentSnapshot t T) as Hsnap.
    { apply list_elem_of_fmap. exists rw. split; [done|]. rewrite GetTaskCommits_perm.
      by apply list_elem_of_filter. }
    assert (row_status T rw <> Unknown) as Hu.
    { pose proof (proj1 (Forall_forall _ _) Hk _ Hsnap) as Hkn. cbn in Hkn.
      destruct (content_of_status T rw WT) as (Hx & _). rewrite Hx in Hkn.
      by apply negb_true_iff, bool_decide_eq_false in Hkn. }
    split; [destruct Hcase as [->| ->]; done|]. intros Hanc.
    assert (row_status T' rw <> Pending) as Hnp.
    { destruct (decide (row_status T rw = Pending)) as [Hp'|Hp']; [|by rewrite (Hkeep Hp')].
      apply Hpen. destruct (status_pending _ Hp') as [Ho Hst].
      rewrite <- (content_of_row T rw). eapply on_lineage_elem; [exact Hl|exact Hsnap|done|done|].
      by rewrite content_of_row. }
    unfold is_content. apply bool_decide_eq_true. destruct (row_status T' rw) eqn:Hst; auto; [|done].
    destruct Hcase as [E1|E1]; [congruence|done].
Qed.

(** A commit the host does not have has no parent tree to resolve. *)
Lemma HostParentFileSet_absent os id :
  id ∉ [""%string; ZeroHash] -> is_ok (GetCommit os id) = false ->
  HostParentFileSet os id = Err (ECommitNotFound id).
Proof.
  intros Hn Hg. unfold HostParentFileSet.
  apply not_elem_of_cons in Hn as [N1 Hn]. apply not_elem_of_cons in Hn as [N2 _].
  apply String.eqb_neq in N1, N2. rewrite N1, N2. cbn [orb].
  destruct (GetCommit os id) as [|e] eqn:He; [done|]. by rewrite (GetCommit_err _ _ _ He).
Qed.

(** No commit of the pool hashes to the forty zeros that stand for no commit. *)
Definition no_zero_commit (pool : list Object) : Prop :=
  forall data, mkObject ObjCommit data ∈ pool -> ComputeHash CommitObject data <> ZeroHash.

(** C38. No land of two or more new commits ever succeeds. The service registers the
    pulled pool so that a new commit can be the parent of the next, but its
    [defer] deregisters it before the orchestrator re-verifies the batch: the
    orchestrator then looks the first commit up in the host store, where by
    definition of a new commit it is not. So with nothing else registered, a
    land that reports success reports at most one new commit. (The hypothesis
    on the pool: no commit in it hashes to forty zeros.) *)
Theorem multi_commit_land_refused E tid o w pool s w' :
  w_registry w = ∅ -> (Pull E (or_id o) w).1 = Ok pool -> no_zero_commit pool ->
  landOnce E tid o w = (Ok s, w') -> (ls_Commits s <= 1)%nat.
Proof.
  intros Hreg Hpool Hhash H. apply landOnce_stages in H as [[_ [(e & ? & _)|[= ->]]]|
    (pool' & chain & req & rs & byID & landed & wb & w1 & rp & R & _ & Hs)]; [done|cbn; lia|].
  destruct rp as [[]|]; [|done]. injection Hs as ->. cbn [ls_Commits].
  destruct chain as [|p1 [|p2 chain]]; [cbn; lia|cbn; lia|exfalso].
  destruct (reached_nonempty _ _ _ _ _ _ _ _ _ _ _ _ R) as (_ & _ & Hmap). destruct R.
  rewrite Hpool in re_pull0. injection re_pull0 as <-.
  apply (CommitChain_exact _ _ _ _ _ _ _ (fun id s => skip_landed_pure _ _ id s)) in re_chain0
    as (_ & Hin & _ & Hlink).
  cbn [linked] in Hlink. destruct Hlink as [Hpar _].
  destruct (proj1 (Hin p1)) as (c1 & Hp1 & Hid1 & Hskip & _ & _); [by left|].
  destruct re_claims0 as [rs' HF].
  destruct (lr_Commits req) as [|cc1 ccs]; [by inversion HF|].
  apply Forall2_cons in HF as [_ HF]. destruct ccs as [|cc2 ccs]; [by inversion HF|].
  apply Forall2_cons in HF as [(pf & c2 & _ & Hder & Hcc2) _].
  cbn [map] in Hmap. destruct landed as [|l1 [|l2 landed]]; [done|done|].
  injection Hmap as _ Hl2 _. rewrite Hcc2 in Hl2. injection Hl2 as ->.
  destruct (verifyBatch_Ok _ _ _ _ _ 0 _ _ _ _ re_batch0) as (_ & _ & Hver).
  destruct (Hver 1%nat l2 eq_refl) as (_ & data & pf' & att & _ & _ & _ & Hpfs & _).
  assert (ParentID (lc_Commit l2) = pc_ID p1) as Hid.
  { destruct (proj1 (Hin p2)) as (c2' & _ & _ & _ & Hdec & Hp2); [by right; left|].
    unfold DeriveLandedCommit in Hder. rewrite Hdec in Hder. cbn [res_of_option mbind res_bind] in Hder.
    apply bind_Ok in Hder as (st & _ & Hder). apply bind_Ok in Hder as (fs & _ & [= Hc]).
    rewrite <- Hc. cbn. congruence. }
  rewrite Hid in Hpfs. unfold ParentFileSet in Hpfs.
  rewrite re_registry0, Hreg, lookup_empty in Hpfs.
  assert ((if decide (is_Some (byID !! pc_ID p1)) then None else @None (list Object)) = None) as Hnone
    by (by destruct (decide _)).
  rewrite Hnone in Hpfs. destruct re_host0 as (Ho & _). rewrite Ho in Hpfs.
  rewrite HostParentFileSet_absent in Hpfs; [done| |].
  - rewrite Hid1, !not_elem_of_cons. pose proof (hash_nonempty CommitObject (pc_Data p1)).
    split_and!; [done|by apply Hhash|apply not_elem_of_nil].
  - unfold skipped in Hskip. apply orb_false_iff in Hskip as [_ Hskip].
    apply andb_false_iff in Hskip as [Hz|Hz]; [|done]. apply negb_false_iff, String.eqb_eq in Hz.
    exfalso. apply (hash_nonempty CommitObject (pc_Data p1)). congruence.
Qed.

(** A pool pulled from the sandbox sits in the channel's buffer. *)
Definition buffered (w : World) (sandboxID : string) : Prop := is_Some (w_pools w !! sandboxID).

(** The pulled buffer: after a land it is gone, unless the pull itself failed
    (and then it is as it was before), or the orchestrator's own read of the
    policy failed, in which case the whole pool stays pinned in memory. *)
Theorem landOnce_buffer E tid o w r w' :
  String_ tid <> ""%string -> or_id o <> ""%string ->
  landOnce E tid o w = (r, w') ->
  ~ buffered w' (or_id o) \/ (w_pools w' = w_pools w /\ exists e, r = Err e) \/
  r = Err EPolicyRead.
Proof.
  intros Ht Hid H. unfold buffered. rewrite <- eq_None_not_Some. unfold landOnce in H.
  apply M_bind_run in H as [(pool & wp & Hpull & H)|(e & Hpull & ->)].
  2: { right; left. split; [by eapply Pull_Err|by exists e]. }
  apply M_bind_run in H as [([chain b] & wc & Hc & H)|(e & Hc & ->)];
    apply on_error_run in Hc as [(x & Hx & Hc)|(e' & w2 & He & Hc & ->)]; try done.
  2: { left. apply lookup_delete_eq. }
  injection Hx as <-. apply newChain_Ok in Hc as (-> & -> & Hchain).
  destruct chain as [|pc chain].
  { left. apply M_bind_run in H as [([] & w2 & [_ <-]%modify_eq & H)|(e & [? _]%modify_eq & _)];
      [|done]. apply mret_eq in H as [<- <-]. apply lookup_delete_eq. }
  apply M_bind_run in H as [(req & wr & Hb & H)|(e & Hb & ->)];
    apply on_error_run in Hb as [(x & Hx & Hbuild)|(e' & w3 & He & Hbuild & ->)]; try done.
  2: { left. apply lookup_delete_eq. }
  injection Hx as <-.
  apply buildRequest_Ok in Hbuild as (rs' & byID & wb & Hby & Hcl & Htid & Hs & Hbp & _ & _ & Hpl & _).
  assert (forall r1 w4, LandOrchestrator_Land E req wr = (r1, w4) ->
    w_pools w4 !! or_id o = None \/ r1 = Err EPolicyRead) as Horch.
  { intros r1 w4 Ho. rewrite <- Hs. apply (orchestrator_buffer E req wr r1 w4); [|done].
    unfold validateLandRequest. rewrite Htid, Hs, Hbp.
    apply String.eqb_neq in Ht, Hid. rewrite Ht, Hid. cbn [err_if mbind res_bind].
    destruct (lr_Commits req) as [|cc ccs] eqn:Hccs; [by inversion Hcl|].
    rewrite <- Hccs. cbn [length Nat.eqb].
    destruct (Z.ltb_spec (Z.of_nat (length (GetTaskCommits (String_ tid) (w_index wp)))) 0); [lia|]. rewrite Hccs. cbn [length Nat.eqb err_if mbind res_bind].
    rewrite <- Hccs in *. apply forM_Ok. eapply Forall2_Forall_r; [exact Hcl|].
    apply Forall_true. intros pc' cc' (pf & c & _ & _ & ->). done. }
  apply M_bind_run in H as [([] & w4 & Ho & H)|(e & Ho & ->)].
  - apply mret_eq in H as [<- ->]. apply Horch in Ho as [?|?]; [by left|done].
  - apply Horch in Ho as [?|[= ->]]; [by left|by right; right].
Qed.

(** The pool and the host store it lands in agree on content: one entry per
    hash (the objects are content-addressed and nothing in sight collides). *)
Definition content_addressed (pool : list Object) (objects : Storage) : Prop :=
  forall ob k x, ob ∈ pool -> entry_of ob k x ->
    (forall ob' x', ob' ∈ pool -> entry_of ob' k x' -> x' = x) /\
    (forall y, objects !! k = Some y -> y = x).

Lemma Pull_agrees E E' id w w1 : e_dial E' = e_dial E -> e_limits E' = e_limits E ->
  w_bindings w1 = w_bindings w -> (Pull E' id w1).1 = (Pull E id w).1.
Proof.
  intros Hd Hl Hb. unfold Pull, Authorize, BoundPeer, mbind, ST_bind, get, lift. rewrite Hd, Hl, Hb.
  destruct (w_bindings w !! id) as [p|]; [|done]. cbn [default from_option Datatypes.id].
  destruct (String.eqb p ""); [done|]. destruct (negb (String.eqb p p)); [done|].
  destruct (res_of_option _ _); [|done]. destruct (ReadLimited _ _); [|done].
  destruct (err_if _ _); [|done]. by destruct (res_map_err _ _).
Qed.

(** A land whose ledger append fails strands its commits for good. The objects
    were imported first and stay; on any later attempt, however healthy the
    host, every commit of the same pool is then in the host store, so the
    service takes it for base history: the land reports success with nothing
    new, the ledger never gets the rows, and the branch is never moved. *)
Theorem aborted_append_strands E E' tid o w pool w1 :
  (Pull E (or_id o) w).1 = Ok pool -> content_addressed pool (w_objects w) ->
  landOnce E tid o w = (Err EAppend, w1) ->
  e_dial E' = e_dial E -> e_limits E' = e_limits E -> e_ledger_ok E' = true ->
  w_ledger w1 = w_ledger w /\
  exists w2, landOnce E' tid o w1 = (Ok (mkSummary 0 (TaskBranchName (String_ tid))), w2) /\
    w_ledger w2 = w_ledger w /\ w_branches w2 = w_branches w.
Proof.
  intros Hpool Hca H Hd Hlim Hlok.
  apply landOnce_stages in H as [[_ [(e & [= <-] & ?)|?]]|
    (pool' & chain & req & rs & byID & landed & wb & w0 & rp & R & Hp & Hs)]; [done|done|].
  destruct rp as [|e]; [done|]. injection Hs as <-.
  destruct (reached_nonempty _ _ _ _ _ _ _ _ _ _ _ _ R) as (_ & Hne & _). destruct R.
  rewrite Hpool in re_pull0. injection re_pull0 as <-.
  destruct re_host0 as (Ho & Hl & Hb & _ & _ & Hbd).
  apply Persist_run in Hp as (w2 & ri & Hi & Hp); [|done].
  apply ImportObjects_run in Hi as (Hw2 & Hri & Hold & _ & Hall); [|done].
  destruct Hp as [(e & -> & [= <-] & ->)|(-> & Hp)]; [naive_solver|].
  apply persisted_ledger in Hp as [[_ <-]|[? _]]; [|done].
  assert (w_index w1 = w_index w /\ w_bindings w1 = w_bindings w /\ w_branches w1 = w_branches w)
    as (Hl1 & Hb1 & Hbr1) by (rewrite Hw2; cbn; done).
  unfold w_ledger. split; [congruence|].
  assert (forall d, mkObject ObjCommit d ∈ pool -> skipped
    (map cr_CommitHash (GetTaskCommits (String_ tid) (w_index w1)))
    (w_objects w1) (ComputeHash CommitObject d) = true) as Hskip.
  { intros d Hin. set (k := ComputeHash CommitObject d).
    assert (entry_of (mkObject ObjCommit d) k (CommitObject, d)) as He by (by exists CommitObject).
    destruct (Hca _ _ _ Hin He) as [Hc1 Hc2].
    destruct (Hall eq_refl _ _ _ Hin He) as [x Hx].
    assert (x = (CommitObject, d)) as ->.
    { apply Hold in Hx as [Hx|(ob & Hob & Hx)]; [apply Hc2; congruence|by eapply Hc1]. }
    unfold skipped. rewrite Hl1. apply orb_true_iff.
    destruct (existsb _ _) eqn:Hex; [by left|]. right.
    destruct (String.eqb_spec k ""); [by apply hash_nonempty in e|]. cbn [negb andb].
    unfold GetCommit. rewrite Hx. apply is_ok_true. setoid_rewrite res_of_option_Ok.
    destruct (skipped (map cr_CommitHash (GetTaskCommits (String_ tid) (w_index w)))
      (w_objects w) k) eqn:Hsk.
    - unfold skipped in Hsk. rewrite Hex in Hsk. cbn [orb] in Hsk.
      apply andb_true_iff in Hsk as [_ Hg]. unfold GetCommit in Hg.
      destruct (w_objects w !! k) as [[t d0]|] eqn:Hk; [|done].
      pose proof (Hc2 _ eq_refl) as [= -> ->].
      destruct (CommitFromObjectData d) as [c|]; [by exists c|done].
    - apply (CommitChain_decodes _ _ _ _ _ _ _ (fun id s => skip_landed_pure _ _ id s) re_chain0 d Hin) in Hsk
        as [c Hc]. by exists c. }
  pose proof (Pull_agrees E E' (or_id o) w w1 Hd Hlim Hb1) as Hpull. rewrite Hpool in Hpull.
  destruct (Pull E' (or_id o) w1) as [rp wp] eqn:Hp1. cbn [fst] in Hpull. subst rp.
  destruct (Pull_Ok _ _ _ _ _ Hp1) as (raw & _ & ->).
  unfold landOnce, mbind, ST_bind. rewrite Hp1.
  unfold on_error, newChain, read_rows, mbind, ST_bind. rewrite Hlok. cbn [get w_index w_objects set_pools].
  rewrite (CommitChain_all_skipped _ _ pool _ None _ byID (fun id s => skip_landed_pure _ _ id s) re_index0 Hskip).
  cbn [lift mret ST_ret modify Discard]. eexists. split; [done|]. cbn. by rewrite Hl1.
Qed.
End Results.

(** ** Witnesses on the toy daemon *)
Import Toy Daemon.

Definition origin : sandboxOrigin := mkOrigin sandbox "sha256:base".
Definition run (pool : list Object) (append : bool) (policy : list (option bool)) :
    res land_err LandSummary * World :=
  landOnce (env pool append) tid origin (world policy).

Lemma run_split pool append policy r :
  (run pool append policy).1 = r ->
  landOnce (env pool append) tid origin (world policy) = (r, (run pool append policy).2).
Proof. intros <-. apply surjective_pairing. Qed.

(** The attested land of one commit succeeds. *)
Lemma run_attested : (run pool_1 true [Some true; Some true]).1 = Ok (mkSummary 1 "task/MGIT-1").
Proof. vm_compute. reflexivity. Qed.

Lemma landOnce_atomic_witness :
  (run pool_b true [Some true; Some true]).1 = Err (ECommitNotFound (Toy.id commit_1)) /\
  same_host (world [Some true; Some true]) (run pool_b true [Some true; Some true]).2.
Proof.
  assert ((run pool_b true [Some true; Some true]).1 = Err (ECommitNotFound (Toy.id commit_1))) as H
    by (vm_compute; reflexivity).
  split; [exact H|].
  exact (proj1 (landOnce_atomic _ _ _ _ _ _ (run_split _ _ _ _ H)) _ eq_refl eq_refl).
Defined.

Lemma landOnce_records_witness :
  exists landed, length landed = 1%nat /\
    w_ledger (run pool_1 true [Some true; Some true]).2
    = number 0 "2026-01-01T00:00:00Z" (map (land_row "MGIT-1") landed).
Proof.
  pose proof run_attested as H.
  destruct (landOnce_records _ _ _ _ _ _ (run_split _ _ _ _ H))
    as [[Hz _]|(pool & landed & lc & _ & Hn & _ & Hl & _)]; [discriminate Hz|].
  exists landed. exact (conj Hn Hl).
Defined.

Lemma land_delivers_witness :
  (run pool_1 true [Some true; Some true]).1 = Ok (mkSummary 1 "task/MGIT-1") /\
  exists tip disk staged,
    w_branches (run pool_1 true [Some true; Some true]).2 !! TaskBranchName (String_ tid) = Some tip /\
    w_native (run pool_1 true [Some true; Some true]).2 !! String_ tid = Some (disk, staged).
Proof.
  pose proof run_attested as H.
  split; [exact H|].
  destruct (land_delivers (env pool_1 true) tid origin (world [Some true; Some true]) _ _
    ledger_wf_empty (run_split _ _ _ _ H) ltac:(discriminate)) as (_ & tip & disk & staged & Hb & Hn & _).
  exists tip, disk, staged. exact (conj Hb Hn).
Defined.

Lemma multi_commit_land_refused_witness :
  (run pool_1 true [Some false; Some false]).1 = Ok (mkSummary 1 "task/MGIT-1") /\ (1 <= 1)%nat.
Proof.
  assert ((run pool_1 true [Some false; Some false]).1 = Ok (mkSummary 1 "task/MGIT-1")) as H
    by (vm_compute; reflexivity).
  split; [exact H|].
  refine (multi_commit_land_refused (env pool_1 true) tid origin (world [Some false; Some false])
    pool_1 _ _ eq_refl _ _ (run_split _ _ _ _ H)).
  - vm_compute. reflexivity.
  - intros data Hin. unfold pool_1 in Hin. repeat (apply elem_of_cons in Hin as [Hin|Hin];
      [apply (f_equal Data) in Hin; cbn [Data] in Hin; subst data; vm_compute; discriminate|]).
    destruct (not_elem_of_nil _ Hin).
Defined.

(** The second read of the policy fails: the pool stays buffered. *)
Lemma landOnce_buffer_witness :
  w_pools (run pool_1 true [Some false; None]).2 !! sandbox = Some (frames pool_1) /\
  (run pool_1 true [Some false; None]).1 = Err EPolicyRead.
Proof.
  assert (w_pools (run pool_1 true [Some false; None]).2 !! sandbox = Some (frames pool_1)) as Hp
    by (vm_compute; reflexivity).
  split; [exact Hp|].
  destruct (landOnce_buffer (env pool_1 true) tid origin (world [Some false; None]) _ _
    ltac:(discriminate) ltac:(discriminate) (run_split _ _ _ _ eq_refl)) as [H|[[H _]|H]].
  - destruct H. exists (frames pool_1). exact Hp.
  - change (w_pools (run pool_1 true [Some false; None]).2 = ∅) in H. rewrite H in Hp. discriminate Hp.
  - exact H.
Defined.

Lemma pool_1_addressed : content_addressed pool_1 base_store.
Proof.
  assert (forall ob ob', ob ∈ pool_1 -> ob' ∈ pool_1 -> forall k x x', entry_of ob k x ->
    entry_of ob' k x' -> x' = x) as H.
  { intros ob ob' Hin Hin' k x x' (t & Ht & -> & ->) (t' & Ht' & Hk & ->). unfold pool_1 in Hin, Hin'.
    repeat (apply elem_of_cons in Hin as [->|Hin]); try (by apply not_elem_of_nil in Hin);
      repeat (apply elem_of_cons in Hin' as [->|Hin']); try (by apply not_elem_of_nil in Hin');
      vm_compute in Ht, Ht'; injection Ht as <-; injection Ht' as <-; try reflexivity;
      exfalso; vm_compute in Hk; discriminate Hk. }
  intros ob k x Hin He. split; [intros ob' x' Hin' He'; exact (H ob ob' Hin Hin' k x x' He He')|].
  assert (base_store !! k = None) as ->; [|done]. destruct He as (t & Ht & -> & _). unfold pool_1 in Hin.
  repeat (apply elem_of_cons in Hin as [->|Hin]); try (by apply not_elem_of_nil in Hin);
    vm_compute in Ht; injection Ht as <-; vm_compute; reflexivity.
Qed.

Lemma aborted_append_strands_witness :
  (run pool_1 false [Some false; Some false]).1 = Err EAppend /\
  exists w2, landOnce (env pool_1 true) tid origin (run pool_1 false [Some false; Some false]).2
    = (Ok (mkSummary 0 "task/MGIT-1"), w2) /\ w_ledger w2 = [].
Proof.
  assert ((run pool_1 false [Some false; Some false]).1 = Err EAppend) as H by (vm_compute; reflexivity).
  split; [exact H|].
  destruct (aborted_append_strands (env pool_1 false) (env pool_1 true) tid origin
    (world [Some false; Some false]) pool_1 (run pool_1 false [Some false; Some false]).2
    ltac:(vm_compute; reflexivity) pool_1_addressed (run_split _ _ _ _ H) eq_refl eq_refl eq_refl)
    as (_ & w2 & Hr & Hl & _).
  exists w2. exact (conj Hr Hl).
Defined.
